(* ===== verification/_CoqProject ===== *)
-Q . S2P
Prelude.v
Json.v
Digest.v
PyTime.v
PyClock.v
PyFloat.v
Schema.v
RunReducer.v
RunMachine.v
RunProps.v
RunEventChain.v
ChainProps.v
Budget.v
BudgetProps.v
Telemetry.v
LoopContracts.v
LoopJournal.v
LoopRefinement.v
LoopEngine.v
LoopProofs.v
LoopProps.v
RouteRecords.v
Router.v
RouteRecordFacts.v
RouterProofs.v
RouterOutput.v
RouteLemmas.v
RouteExamples.v
RouteProps.v
RouteBinding.v
RouteAuthority.v
RouteConsumption.v
ConsumptionProofs.v
ConsumptionProps.v
RouteUsage.v
UsageProofs.v
UsageProps.v
AuthorityProofs.v
AuthorityProps.v
JsonCanon.v
Flow.v
FlowProofs.v
FlowProps.v
ArtifactStore.v
ArtifactProps.v
MemoryContracts.v
MemoryStore.v
MemoryRetrieval.v
MemoryGraph.v
MemoryFacts.v
MemoryProps.v
MemoryJournal.v
MemoryStoreProps.v
MemoryExamples.v
TeamContracts.v
TeamAccess.v
TeamAccessProofs.v
ModelRequest.v
TeamGraph.v
TeamStore.v
TeamRuntime.v
TeamEffects.v
TeamFacts.v
TeamSpec.v
TeamInvariant.v
TeamRefinement.v
TeamProofs.v
TeamLifecycle.v
TeamResults.v
TeamSession.v
TeamExamples.v
TeamProps.v
TeamLifeProps.v
TeamSessionProps.v
TeamAccessProps.v
