(* ===== verification/Prelude.v ===== *)
(** * A verification library for the AI-engineering harness [ecosystem]

    The harness runs models and tools under governance: every run leaves a
    chain of events, spends against a budget, retries in bounded loops, and calls
    a model only through a routed, signed and accounted decision.  This library
    models these parts of src/src/ as Rocq functions, one file per source file
    where that file is modelled, and proves what each promises to the others.

    ** How a call travels through the program

    A run plan fixes limits ([Budget]).  The run's producers append events to its
    chain ([RunEventChain]), which folds every event with the reducer
    ([RunReducer]).  Work is repeated by the loop engine ([LoopEngine]), which
    records each move in a journal ([LoopJournal]).  To call a model, the router
    ([Router]) turns a request, a policy, observations and prices into a decision
    record ([RouteRecords]); the operator may sign it ([RouteAuthority]); before
    any egress the decision is bound to the workflow ([RouteBinding]), consumed
    once ([RouteConsumption]) and its use is reserved ([RouteUsage]).

    ** The files

    Shared: [Prelude] (results and Python exceptions, notations, sorting),
    [Json] (values, [json.dumps] in the canonical profile, [json.loads], [==]),
    [Digest] (SHA-256, HMAC and eco_runtime/digests.py), [PyTime] and [PyClock]
    (datetime), [Schema] (the JSON Schema keywords the records use).

    Runs: [RunReducer] is eco_runtime/state_reducer.py; [RunMachine] the run
    lifecycle as a step relation, its refinement and its invariants; [RunProps]
    the properties of runs.  [RunEventChain] is eco_runtime/state.py, [ChainProps]
    its properties.  [Budget] is eco_runtime/budget.py, [BudgetProps] its
    properties.

    Loops: [LoopContracts] is eco_loops/contracts.py; [LoopJournal] the two
    journals and [LoopEngine] the engine of eco_loops/engine.py; [LoopHistory] is
    the abstract specification of a journal, [LoopRefinement] relates the durable
    journal to the in-memory one, [LoopLaws] is the interface (a class) the engine
    is proved against, [LoopProofs] its weakest preconditions, [LoopProps] the
    properties.

    Routing: [RouteRecords] is eco_routing/contracts.py, [Router] is router.py,
    [RouteBinding] is binding.py with [verify_route_binding] of consumption.py,
    [RouteAuthority] is authority.py, [RouteConsumption] the journal of
    consumption.py and [RouteUsage] usage.py.  [RouteRecordFacts] reads validated
    records; [RouterProofs] characterises the evaluation of candidates
    ([admissible]) and the selection; [RouterOutput] and [RouterTotal] show that
    the records written are valid; [RouteLemmas] puts a call of [route] together;
    [RouteOrder] is about permutations; [RouteExamples] holds concrete records.
    [ConsumptionProofs], [UsageProofs] and [AuthorityProofs] have the lemmas of
    the three last components, [RouteProps], [ConsumptionProps], [UsageProps] and
    [AuthorityProps] the properties.

    State and operations keep the names of the source.  An object is a record, a
    method a function that takes the object and returns it with the call's
    [result]; a Python exception is an [Err].  A SQLite file is the list of its
    rows; a transaction that raises leaves the file unchanged.  A lock makes each
    call one step, so that concurrency is a sequence of calls.

    ** What the theorems show

    - Runs: the reducer accepts exactly the events of the lifecycle relation
      (refinement); a success was earned, execution follows startup, operations
      end at most once, terminal states absorb, no-model runs never touch tools.
    - Chains: the cached projection is the replay of the stored events; stored
      events are valid, numbered, linked and ordered; only a holder of a
      producer's capability can add its events; the head digest pins the history
      up to SHA-256 collisions, which are exhibited.
    - Budgets: no counter exceeds its limit whatever the calls; accounting is
      exact; a reservation is used once.
    - Loops: the engine terminates within a number of rounds given by its
      attempt budget, never exceeds its budgets, obeys cancellation, recovers
      without repeating an ambiguous attempt; the durable journal answers what
      the in-memory one answers and verifies its own writing.
    - Routing: [route] always decides, rightly and independently of the order of
      candidates; a decision does not outlive its inputs; reservations cover
      usage; fallback happens once; validated records are typed.  A signed
      envelope authorises exactly one route; a route is consumed once, exactly
      bound, and a fallback only after its predecessor; the reserved usage of a
      workflow is the sum of its effects and stays within its budget; both
      journals verify and reopen what they wrote.

    ** Assumptions, fuel and bounds

    Third-party code is a parameter: [Crypto] (hashlib and hmac, whose digests
    are 64 hexadecimal digits), [Jsonschema] (the validator follows the documented
    meaning of the keywords), [FromIso] ([datetime.fromisoformat] reads what
    [isoformat] wrote), [Ed25519] (a signature verifies under its public key), the
    authority verifier, and the executor, gate and clock of the loop engine, which
    are arbitrary functions.  Each is instantiated by a concrete function in the
    witnesses.  Integers are unbounded like Python's, and [OverflowError] is
    raised where SQLite or [datetime] would overflow.  [run_loop] takes fuel, and
    [run_terminates] shows how much is enough; the JSON reader's fuel is the
    length of the text, which suffices for everything canonical.

    Floating point numbers are left out: no modelled record has one.  The loops'
    clock is in nanoseconds, the routing clock in microseconds as [datetime] is.
    SQLite columns hold values of their declared types, and the permission checks
    on journal files are not modelled.

    ** Not modelled

    The other packages: the runtime's policy engine, stores, approvals and team
    authority, which come next; eco_teams, eco_memory, eco_flow and eco_telemetry;
    the orchestrators, adapters, isolation and brokers, which are I/O around the
    modelled parts; and the command line, skills, evaluation and release scripts. *)

From stdpp Require Export prelude strings gmap list sorting.
From Stdlib Require Export ZArith Lia.
From Stdlib Require Import Ascii.

#[global] Set Default Goal Selector "!".
#[global] Arguments String.append : simpl nomatch.

(** ** Python exceptions and results *)

(** The exception classes the modelled code raises.  A class that carries a
    stable [code] keeps it; human-readable messages are dropped. *)
Inductive py_error : Type :=
| RuntimeStateError (code : string)
| RuntimeBudgetError (code : string)
| RuntimePolicyError (code : string)
| LoopEngineError (code : string)
| LoopContractError (code : string)
| RoutingError (code : string)
| TelemetryError (code : string)
| FlowContractError
| TeamRuntimeError (code : string)
| RuntimeStoreError (code : string)
| ContractValidationError
| ValueError
| TypeError
| KeyError
| AssertionError
| OverflowError
| RecursionError
| IntegrityError.

#[export] Instance py_error_eq_dec : EqDecision py_error.
Proof. solve_decision. Defined.

(** The outcome of a call: a returned value or a raised exception. *)
Inductive result (A : Type) : Type :=
| Ok (a : A)
| Err (e : py_error).
Arguments Ok {A} a.
Arguments Err {A} e.

#[export] Instance result_eq_dec {A} `{EqDecision A} : EqDecision (result A).
Proof. solve_decision. Defined.

Definition is_ok {A} (r : result A) : bool :=
  match r with Ok _ => true | Err _ => false end.

Declare Scope py_scope.
Delimit Scope py_scope with py.
Open Scope py_scope.
Open Scope Z_scope.

(** [let! x := c in k] runs [c] and continues with its value; an exception of
    [c] is the exception of the whole. *)
Notation "'let!' x := c 'in' k" :=
  (match c with Ok x => k | Err e => Err e end)
  (at level 10, x name, c at level 100, k at level 200)
  : py_scope.
Notation "'let!' ' p := c 'in' k" :=
  (match c with Ok p => k | Err e => Err e end)
  (at level 10, p pattern, c at level 100, k at level 200)
  : py_scope.

(** [raise e when b else k] is [if b: raise e] followed by [k]. *)
Notation "'raise' e 'when' b 'else' k" :=
  (if b then Err e else k)
  (at level 10, e at level 9, b at level 100, k at level 200)
  : py_scope.

(** Equality and membership tests of the source ([==], [!=], [in]). *)
Notation "a == b" := (bool_decide (a = b)) (at level 70, no associativity) : py_scope.
Notation "a != b" := (negb (bool_decide (a = b))) (at level 70, no associativity) : py_scope.
Notation "a 'in?' l" := (bool_decide (a ∈ l)) (at level 70, no associativity) : py_scope.

(** ** Proof automation *)

(** Split every [match]/[if] that a hypothesis is stuck on, closing the
    branches in which the call raised. *)
Ltac run H :=
  repeat (simpl in H;
          match type of H with
          | context [match ?x with _ => _ end] =>
              let E := fresh "E" in destruct x eqn:E; try discriminate H
          end);
  try (injection H as H).

(** Decompose boolean connectives and [bool_decide] facts into propositions. *)
Ltac breflect :=
  repeat match goal with
  | H : _ && _ = true |- _ => apply andb_true_iff in H as [? ?]
  | H : _ || _ = false |- _ => apply orb_false_iff in H as [? ?]
  | H : negb _ = true |- _ => apply negb_true_iff in H
  | H : negb _ = false |- _ => apply negb_false_iff in H
  | H : bool_decide _ = true |- _ => apply bool_decide_eq_true in H
  | H : bool_decide _ = false |- _ => apply bool_decide_eq_false in H
  | H : (_ <=? _)%Z = true |- _ => apply Z.leb_le in H
  | H : (_ <=? _)%Z = false |- _ => apply Z.leb_gt in H
  | H : (_ <? _)%Z = true |- _ => apply Z.ltb_lt in H
  | H : (_ <? _)%Z = false |- _ => apply Z.ltb_ge in H
  | H : (_ =? _)%Z = true |- _ => apply Z.eqb_eq in H
  | H : (_ =? _)%Z = false |- _ => apply Z.eqb_neq in H
  | H : (_ >? _)%Z = _ |- _ => rewrite Z.gtb_ltb in H
  | H : (_ >=? _)%Z = _ |- _ => rewrite Z.geb_leb in H
  end.

(** [H] is a call that returned, and the first thing it does is a guard: the
    guard did not fire. *)
Tactic Notation "guard" hyp(H) "as" ident(E) :=
  lazymatch type of H with
  | (if ?b then _ else _) = _ => destruct b eqn:E; [discriminate H|]
  end.

Create HintDb eco discriminated.
Create Rewrite HintDb eco.

(** ** Characters and regular expressions of the sources *)

Definition char_between (lo hi c : ascii) : bool :=
  ((N_of_ascii lo <=? N_of_ascii c) && (N_of_ascii c <=? N_of_ascii hi))%N.
Definition is_lower (c : ascii) : bool := char_between "a" "z" c.
Definition is_upper (c : ascii) : bool := char_between "A" "Z" c.
Definition is_digit (c : ascii) : bool := char_between "0" "9" c.
(** [[0-9a-f]] *)
Definition is_hex (c : ascii) : bool := is_digit c || char_between "a" "f" c.

(** Every character of [s] satisfies [p]. *)
Fixpoint str_all (p : ascii → bool) (s : string) : bool :=
  match s with
  | EmptyString => true
  | String c s' => p c && str_all p s'
  end.

(** A full match of [[first][rest]{0,max}]. *)
Definition re_ident (first rest : ascii → bool) (max : nat) (s : string) : bool :=
  match s with
  | EmptyString => false
  | String c s' => first c && str_all rest s' && (String.length s' <=? max)%nat
  end.

(** [^[0-9a-f]{64}$] *)
Definition is_digest (s : string) : bool :=
  str_all is_hex s && (String.length s =? 64)%nat.

(** [^[A-Za-z0-9][A-Za-z0-9._:-]{0,127}$] *)
Definition is_alnum (c : ascii) : bool := is_lower c || is_upper c || is_digit c.
Definition is_ident_char (c : ascii) : bool :=
  is_alnum c || (c == "."%char) || (c == "_"%char) || (c == ":"%char) || (c == "-"%char).
Definition is_identifier (s : string) : bool := re_ident is_alnum is_ident_char 127 s.

(** [^[a-z][a-z0-9-]{0,63}$] *)
Definition is_slug (s : string) : bool :=
  re_ident is_lower (fun c => is_lower c || is_digit c || (c == "-"%char)) 63 s.

(** [^ECO_[A-Z0-9_]{1,95}$] *)
Definition is_code (s : string) : bool :=
  match s with
  | String "E" (String "C" (String "O" (String "_" rest))) =>
      str_all (fun c => is_upper c || is_digit c || (c == "_"%char)) rest
      && (1 <=? String.length rest)%nat && (String.length rest <=? 95)%nat
  | _ => false
  end.

(** [len(s)]: the code points of a UTF-8 string, its bytes other than 10xxxxxx. *)
Definition is_continuation (c : ascii) : bool := char_between "128" "191" c.
Fixpoint py_len (s : string) : nat :=
  match s with
  | EmptyString => 0
  | String c s' => (if is_continuation c then 0 else 1) + py_len s'
  end.

(** [s.startswith(p)] *)
Definition startswith (s p : string) : bool := String.prefix p s.

(** ** Stable sorting, Python's [sorted] *)

Section Sorting.
Context {A : Type} (le : A → A → bool).

Fixpoint py_insert (x : A) (l : list A) : list A :=
  match l with
  | [] => [x]
  | y :: l' => if le x y then x :: y :: l' else y :: py_insert x l'
  end.

Fixpoint py_sorted (l : list A) : list A :=
  match l with
  | [] => []
  | x :: l' => py_insert x (py_sorted l')
  end.

Lemma py_insert_perm x l : py_insert x l ≡ₚ x :: l.
Proof.
  induction l as [|y l IH]; simpl; [done|].
  destruct (le x y); [done|]. rewrite IH. apply Permutation_swap.
Qed.

Lemma py_sorted_perm l : py_sorted l ≡ₚ l.
Proof. induction l; simpl; [done|]. rewrite py_insert_perm. by f_equiv. Qed.

Lemma elem_of_py_sorted x l : x ∈ py_sorted l ↔ x ∈ l.
Proof. by rewrite py_sorted_perm. Qed.

Context (le_total : ∀ x y, le x y = false → le y x = true).
Context (le_trans : ∀ x y z, le x y = true → le y z = true → le x z = true).
Let R x y := le x y = true.

Lemma py_insert_sorted x l : StronglySorted R l → StronglySorted R (py_insert x l).
Proof using le_total le_trans.
  induction 1 as [|y l Hl IH Hy]; simpl.
  { by repeat constructor. }
  destruct (le x y) eqn:E.
  - constructor; [by constructor|]. constructor; [done|].
    eapply Forall_impl; [exact Hy|]. intros z. by apply le_trans.
  - constructor; [done|]. rewrite py_insert_perm.
    constructor; [by apply le_total|done].
Qed.

Lemma py_sorted_sorted l : StronglySorted R (py_sorted l).
Proof using le_total le_trans.
  induction l; simpl; [constructor|by apply py_insert_sorted].
Qed.
End Sorting.

(** ** Strings in code-point order

    A Python [str] is represented by its UTF-8 bytes, on which byte order is
    code-point order, so [String.leb] is Python's [<=]. *)

Lemma str_leb_total x y : String.leb x y = false → String.leb y x = true.
Proof. destruct (String.leb_total x y); congruence. Qed.

Lemma str_leb_trans x y z :
  String.leb x y = true → String.leb y z = true → String.leb x z = true.
Proof.
  intros H1 H2.
  apply Is_true_eq_true. apply (transitivity (R := String.le)) with y;
    by apply Is_true_eq_left.
Qed.

Lemma str_leb_refl x : String.leb x x = true.
Proof. apply Is_true_eq_true. by apply (reflexivity (R := String.le)). Qed.

Lemma str_leb_antisym x y : String.leb x y = true → String.leb y x = true → x = y.
Proof. apply String.leb_antisym. Qed.

(** [sorted(l)] on a list of strings, and [sorted(d.items())] on the items of
    a dict, whose keys are distinct. *)
Definition sorted_strs (l : list string) : list string := py_sorted String.leb l.
Definition sorted_items {V} (l : list (string * V)) : list (string * V) :=
  py_sorted (fun a b => String.leb a.1 b.1) l.
#[export] Hint Resolve str_leb_total str_leb_trans str_leb_refl : eco.

(** Two sorted lists with distinct keys and the same elements are equal. *)
Lemma sorted_keys_unique {V} (l1 l2 : list (string * V)) :
  NoDup l1.*1 → l1 ≡ₚ l2 →
  StronglySorted (fun a b => String.leb a.1 b.1 = true) l1 →
  StronglySorted (fun a b => String.leb a.1 b.1 = true) l2 → l1 = l2.
Proof.
  revert l2; induction l1 as [|x l1 IH]; intros l2 Hnd Hp H1 H2.
  { by apply Permutation_nil_l in Hp. }
  destruct l2 as [|y l2]; [by apply Permutation_nil_r in Hp|].
  apply StronglySorted_inv in H1 as [H1 Hx], H2 as [H2 Hy].
  assert (x = y) as ->.
  { assert (x ∈ y :: l2) as Hin1 by (rewrite <- Hp; left).
    assert (y ∈ x :: l1) as Hin2 by (rewrite Hp; left).
    apply elem_of_cons in Hin1 as [->|Hin1]; [done|].
    apply elem_of_cons in Hin2 as [->|Hin2]; [done|].
    rewrite Forall_forall in Hx, Hy.
    assert (x.1 = y.1) as Hk by (apply str_leb_antisym; [by apply Hx|by apply Hy]).
    exfalso. simpl in Hnd. apply NoDup_cons in Hnd as [Hn _]. apply Hn.
    rewrite Hk. by apply list_elem_of_fmap_2. }
  f_equal. apply IH; [by apply NoDup_cons in Hnd as [_ ?]| |done..].
  by apply (inj (cons y)) in Hp.
Qed.

Lemma sorted_items_sorted {V} (l : list (string * V)) :
  StronglySorted (fun a b => String.leb a.1 b.1 = true) (sorted_items l).
Proof. apply py_sorted_sorted; eauto with eco. Qed.
Lemma sorted_items_perm {V} (l : list (string * V)) : sorted_items l ≡ₚ l.
Proof. apply py_sorted_perm. Qed.

(** ** Lists without duplicates *)

Lemma NoDup_map_inj {A B} (f : A → B) (l : list A) :
  NoDup (map f l) → ∀ x y, x ∈ l → y ∈ l → f x = f y → x = y.
Proof.
  induction l as [|a l IH]; intros Hnd x y; [by intros ?%elem_of_nil|].
  simpl in Hnd. apply NoDup_cons in Hnd as [Ha Hnd].
  intros [->|Hx]%elem_of_cons [->|Hy]%elem_of_cons E; [done| | |by apply IH].
  - destruct Ha. rewrite E. by apply (list_elem_of_fmap_2 f).
  - destruct Ha. rewrite <- E. by apply (list_elem_of_fmap_2 f).
Qed.

(** ** Fallible functions on lists *)

(** [tuple(f(x) for x in l)], stopping at the first exception. *)
Fixpoint map_result {A B} (f : A → result B) (l : list A) : result (list B) :=
  match l with
  | [] => Ok []
  | x :: l' => let! y := f x in let! ys := map_result f l' in Ok (y :: ys)
  end.

Lemma map_result_Forall2 {A B} (f : A → result B) l ys :
  map_result f l = Ok ys ↔ Forall2 (fun x y => f x = Ok y) l ys.
Proof.
  revert ys. induction l as [|x l IH]; intros ys; simpl.
  { split; [intros [= <-]; constructor|by intros ->%Forall2_nil_inv_l]. }
  split.
  - destruct (f x) as [y|] eqn:E; [|discriminate].
    destruct (map_result f l) as [ys'|]; [|discriminate].
    intros [= <-]. constructor; [done|]. by apply IH.
  - intros (y & ys' & Hy & Hl & ->)%Forall2_cons_inv_l. rewrite Hy. apply IH in Hl. by rewrite Hl.
Qed.

Lemma map_result_total {A B} (f : A → result B) (P : A → Prop) (Q : A → B → Prop) l :
  (∀ x, P x → ∃ y, f x = Ok y ∧ Q x y) → Forall P l →
  ∃ ys, map_result f l = Ok ys ∧ Forall2 (fun x y => f x = Ok y ∧ Q x y) l ys.
Proof.
  intros Hf. induction 1 as [|x l Hx _ (ys & Eys & Hys)]; [by exists []|].
  destruct (Hf x Hx) as (y & Ey & Hy). exists (y :: ys). simpl. rewrite Ey, Eys.
  split; [done|]. by constructor.
Qed.

Lemma map_result_permute {A B} (f : A → result B) l1 l2 ys1 :
  l1 ≡ₚ l2 → map_result f l1 = Ok ys1 → ∃ ys2, map_result f l2 = Ok ys2 ∧ ys1 ≡ₚ ys2.
Proof.
  intros Hp. revert ys1. induction Hp as [|x l1 l2 _ IH|x y l|l1 l2 l3 _ IH1 _ IH2]; intros ys E.
  - by exists ys.
  - simpl in *. destruct (f x) as [z|]; [|discriminate].
    destruct (map_result f l1) as [zs|]; [|discriminate]. injection E as <-.
    destruct (IH zs eq_refl) as (zs2 & -> & Hz). exists (z :: zs2). by rewrite Hz.
  - simpl in *. destruct (f y) as [b|]; [|discriminate]. destruct (f x) as [a|]; [|discriminate].
    destruct (map_result f l) as [zs|]; [|discriminate]. injection E as <-.
    exists (a :: b :: zs). split; [done|]. apply Permutation_swap.
  - destruct (IH1 _ E) as (y2 & E2 & P2). destruct (IH2 _ E2) as (y3 & E3 & P3).
    exists y3. split; [done|]. by rewrite P2.
Qed.

(** The value of a key in a table of the source. *)
Fixpoint assoc {V} (k : string) (l : list (string * V)) : option V :=
  match l with
  | [] => None
  | (k', v) :: l' => if k == k' then Some v else assoc k l'
  end.
Lemma assoc_elem {V} d (l : list (string * V)) v : assoc d l = Some v → (d, v) ∈ l.
Proof.
  induction l as [|[k v'] l IH]; cbn [assoc]; [done|].
  case_bool_decide; [intros [= ->]; subst; left|intros; right; auto].
Qed.
Lemma assoc_dom {V} d (l : list (string * V)) : d ∈ l.*1 → ∃ v, assoc d l = Some v.
Proof.
  induction l as [|[k v'] l IH]; cbn [assoc fmap list_fmap fst]; [by intros ?%elem_of_nil|].
  case_bool_decide; [by eexists|]. intros [->|?]%elem_of_cons; [done|auto].
Qed.
