(* ===== verification/Json.v ===== *)
(** * JSON values, [json.dumps] in the canonical profile and [json.loads]

    Models [canonical_json] of src/eco_runtime/digests.py: [json.dumps] with
    [ensure_ascii=False], [separators=(",", ":")] and [sort_keys=True], and the
    [json.loads] that the durable journals read entries back with.  A Python
    [str] is its UTF-8 byte string.  No record of the modelled components holds
    a float, so JSON values here have none, and the reader refuses a number
    with a fraction or an exponent. *)

From S2P Require Import Prelude.
From Stdlib Require Import Ascii DecimalString DecimalZ.

#[warnings="-register-all"]
Inductive json : Type :=
| JNull
| JBool (b : bool)
| JInt (z : Z)
| JStr (s : string)
| JArr (l : list json)
| JObj (o : list (string * json)).

(** The induction principle that reaches into arrays and objects. *)
Section JsonInd.
Context (P : json → Prop).
Context (Hnull : P JNull) (Hbool : ∀ b, P (JBool b)) (Hint : ∀ z, P (JInt z))
        (Hstr : ∀ s, P (JStr s))
        (Harr : ∀ l, Forall P l → P (JArr l))
        (Hobj : ∀ o, Forall (fun kv => P kv.2) o → P (JObj o)).

Fixpoint json_nested_ind (j : json) : P j :=
  match j with
  | JNull => Hnull
  | JBool b => Hbool b
  | JInt z => Hint z
  | JStr s => Hstr s
  | JArr l => Harr l
      ((fix go (l : list json) : Forall P l :=
          match l with
          | [] => List.Forall_nil _
          | x :: l' => List.Forall_cons _ _ _ (json_nested_ind x) (go l')
          end) l)
  | JObj o => Hobj o
      ((fix go (o : list (string * json)) : Forall (fun kv => P kv.2) o :=
          match o with
          | [] => List.Forall_nil _
          | kv :: o' => List.Forall_cons _ _ _ (json_nested_ind kv.2) (go o')
          end) o)
  end.
End JsonInd.

(** ** Dictionary access *)

(** [d.get(key)], with [None] as JSON [null]. *)
Fixpoint jassoc (k : string) (o : list (string * json)) : option json :=
  match o with
  | [] => None
  | (k', v) :: o' => if k == k' then Some v else jassoc k o'
  end.
Definition jget (k : string) (o : list (string * json)) : json :=
  default JNull (jassoc k o).

(** [d[key] = value]: replace in place, append when new. *)
Fixpoint dict_set {V} (k : string) (v : V) (o : list (string * V)) : list (string * V) :=
  match o with
  | [] => [(k, v)]
  | (k', v') :: o' => if k == k' then (k, v) :: o' else (k', v') :: dict_set k v o'
  end.

(** [x == y] where [x] is an arbitrary JSON value and [y : str | None]. *)
Definition json_is_optstr (j : json) (y : option string) : bool :=
  match j, y with
  | JNull, None => true
  | JStr s, Some s' => s == s'
  | _, _ => false
  end.

Definition json_of_optstr (y : option string) : json :=
  match y with Some s => JStr s | None => JNull end.

(** ** Writing *)

Definition QUOTE : ascii := "034"%char.
Definition BACKSLASH : ascii := "092"%char.

Definition hex_digit (n : N) : ascii :=
  if (n <? 10)%N then ascii_of_N (48 + n) else ascii_of_N (87 + n).

Definition escape_char (c : ascii) : string :=
  let n := N_of_ascii c in
  let esc x := String BACKSLASH (String x EmptyString) in
  if (n =? 34)%N then esc QUOTE
  else if (n =? 92)%N then esc BACKSLASH
  else if (n =? 10)%N then esc "n"%char
  else if (n =? 13)%N then esc "r"%char
  else if (n =? 9)%N then esc "t"%char
  else if (n =? 12)%N then esc "f"%char
  else if (n =? 8)%N then esc "b"%char
  else if (n <? 32)%N then
    String BACKSLASH (String "u" (String "0" (String "0"
      (String (hex_digit (n / 16)) (String (hex_digit (n mod 16)) EmptyString)))))
  else String c EmptyString.

Fixpoint escape (s : string) : string :=
  match s with
  | EmptyString => EmptyString
  | String c s' => escape_char c +:+ escape s'
  end.

Definition dumps_str (s : string) : string :=
  String QUOTE (escape s +:+ String QUOTE EmptyString).

(** [str(z)] *)
Definition dumps_int (z : Z) : string := NilZero.string_of_int (Z.to_int z).

(** [sort_keys=True]: every object lists its items by increasing key. *)
Fixpoint jnorm (j : json) : json :=
  match j with
  | JArr l => JArr (map jnorm l)
  | JObj o => JObj (sorted_items (map (fun kv => (kv.1, jnorm kv.2)) o))
  | _ => j
  end.

(** The text of a value, items in the order they are listed. *)
Fixpoint dumps_raw (j : json) : string :=
  match j with
  | JNull => "null"
  | JBool true => "true"
  | JBool false => "false"
  | JInt z => dumps_int z
  | JStr s => dumps_str s
  | JArr [] => "[]"
  | JArr (x :: l) =>
      "[" +:+ dumps_raw x +:+
      (fix go (l : list json) : string :=
         match l with
         | [] => "]"
         | y :: l' => "," +:+ dumps_raw y +:+ go l'
         end) l
  | JObj [] => "{}"
  | JObj (kv :: o) =>
      "{" +:+ dumps_str kv.1 +:+ ":" +:+ dumps_raw kv.2 +:+
      (fix go (o : list (string * json)) : string :=
         match o with
         | [] => "}"
         | kv' :: o' => "," +:+ dumps_str kv'.1 +:+ ":" +:+ dumps_raw kv'.2 +:+ go o'
         end) o
  end.

Definition canonical_json (j : json) : string := dumps_raw (jnorm j).

(** ** Reading *)

Fixpoint skip_ws (s : string) : string :=
  match s with
  | String c s' =>
      if (c == " "%char) || (c == "009"%char) || (c == "010"%char) || (c == "013"%char)
      then skip_ws s' else s
  | EmptyString => EmptyString
  end.

Definition hex_value (c : ascii) : option N :=
  let n := N_of_ascii c in
  if is_digit c then Some (n - 48)%N
  else if char_between "a" "f" c then Some (n - 87)%N
  else if char_between "A" "F" c then Some (n - 55)%N
  else None.

Definition hex4 (a b c d : ascii) : option N :=
  match hex_value a, hex_value b, hex_value c, hex_value d with
  | Some a, Some b, Some c, Some d => Some (a * 4096 + b * 256 + c * 16 + d)%N
  | _, _, _, _ => None
  end.

(** The UTF-8 bytes of a code point. *)
Definition utf8 (n : N) : string :=
  let byte k := ascii_of_N k in
  let tail k := byte (128 + k mod 64)%N in
  if (n <? 128)%N then String (byte n) EmptyString
  else if (n <? 2048)%N then String (byte (192 + n / 64)%N) (String (tail n) EmptyString)
  else if (n <? 65536)%N then
    String (byte (224 + n / 4096)%N) (String (tail (n / 64)%N) (String (tail n) EmptyString))
  else
    String (byte (240 + n / 262144)%N) (String (tail (n / 4096)%N)
      (String (tail (n / 64)%N) (String (tail n) EmptyString))).

Definition simple_escape (c : ascii) : option ascii :=
  let n := N_of_ascii c in
  if (n =? 34)%N then Some QUOTE
  else if (n =? 92)%N then Some BACKSLASH
  else if (n =? 47)%N then Some "/"%char
  else if (n =? 98)%N then Some "008"%char
  else if (n =? 102)%N then Some "012"%char
  else if (n =? 110)%N then Some "010"%char
  else if (n =? 114)%N then Some "013"%char
  else if (n =? 116)%N then Some "009"%char
  else None.

Definition prepend (p : string) (r : option (string * string)) : option (string * string) :=
  match r with Some (s, rest) => Some (p +:+ s, rest) | None => None end.

Definition is_surrogate (lo hi n : N) : bool := ((lo <=? n) && (n <=? hi))%N.

(** The body of a string literal, after its opening quote. *)
Fixpoint parse_str (s : string) : option (string * string) :=
  match s with
  | EmptyString => None
  | String c r =>
      if c == QUOTE then Some (EmptyString, r)
      else if c == BACKSLASH then
        match r with
        | EmptyString => None
        | String e r1 =>
            match simple_escape e with
            | Some b => prepend (String b EmptyString) (parse_str r1)
            | None =>
                if e == "u"%char then
                  match r1 with
                  | String h1 (String h2 (String h3 (String h4 r2))) =>
                      match hex4 h1 h2 h3 h4 with
                      | None => None
                      | Some hi =>
                          if is_surrogate 55296 56319 hi then
                            match r2 with
                            | String b (String u (String g1 (String g2 (String g3 (String g4 r3))))) =>
                                match hex4 g1 g2 g3 g4 with
                                | Some lo =>
                                    if (b == BACKSLASH) && (u == "u"%char)
                                       && is_surrogate 56320 57343 lo
                                    then prepend
                                           (utf8 (65536 + (hi - 55296) * 1024 + (lo - 56320)))
                                           (parse_str r3)
                                    else None
                                | None => None
                                end
                            | _ => None
                            end
                          else if is_surrogate 56320 57343 hi then None
                          else prepend (utf8 hi) (parse_str r2)
                      end
                  | _ => None
                  end
                else None
            end
        end
      else if (N_of_ascii c <? 32)%N then None
      else prepend (String c EmptyString) (parse_str r)
  end.

(** The longest prefix of digits. *)
Fixpoint span_digits (s : string) : string * string :=
  match s with
  | String c s' => if is_digit c then let '(d, r) := span_digits s' in (String c d, r)
                   else (EmptyString, s)
  | EmptyString => (EmptyString, EmptyString)
  end.

Definition span_number (s : string) : string * string :=
  match s with
  | String "-" s' => let '(d, r) := span_digits s' in (String "-" d, r)
  | _ => span_digits s
  end.

(** A number: no leading zeros, no fraction and no exponent. *)
Definition parse_num (s : string) : option (json * string) :=
  let '(tok, r) := span_number s in
  match NilZero.int_of_string tok with
  | None => None
  | Some d =>
      let z := Z.of_int d in
      if negb ((dumps_int z == tok) || (tok == "-0")) then None
      else match r with
           | String c _ =>
               if (c == "."%char) || (c == "e"%char) || (c == "E"%char) then None
               else Some (JInt z, r)
           | EmptyString => Some (JInt z, r)
           end
  end.

Fixpoint strip_prefix (p s : string) : option string :=
  match p, s with
  | EmptyString, _ => Some s
  | String a p', String b s' => if a == b then strip_prefix p' s' else None
  | _, EmptyString => None
  end.

Definition parse_const (w : string) (v : json) (s : string) : option (json * string) :=
  match strip_prefix w s with Some r => Some (v, r) | None => None end.

(** Object items in source order; a repeated key keeps its last value. *)
Definition dict_of (l : list (string * json)) : list (string * json) :=
  foldl (fun o kv => dict_set kv.1 kv.2 o) [] l.

Fixpoint parse_value (fuel : nat) (s : string) : option (json * string) :=
  match fuel with
  | O => None
  | S n =>
      match skip_ws s with
      | EmptyString => None
      | String c r =>
          if c == QUOTE then
            match parse_str r with Some (x, r') => Some (JStr x, r') | None => None end
          else if c == "["%char then
            match skip_ws r with
            | String "]" r' => Some (JArr [], r')
            | r' => match parse_elems n r' with
                    | Some (l, r'') => Some (JArr l, r'')
                    | None => None
                    end
            end
          else if c == "{"%char then
            match skip_ws r with
            | String "}" r' => Some (JObj [], r')
            | r' => match parse_members n r' with
                    | Some (o, r'') => Some (JObj (dict_of o), r'')
                    | None => None
                    end
            end
          else if c == "n"%char then parse_const "null" JNull (String c r)
          else if c == "t"%char then parse_const "true" (JBool true) (String c r)
          else if c == "f"%char then parse_const "false" (JBool false) (String c r)
          else parse_num (String c r)
      end
  end
with parse_elems (fuel : nat) (s : string) : option (list json * string) :=
  match fuel with
  | O => None
  | S n =>
      match parse_value n s with
      | None => None
      | Some (v, r) =>
          match skip_ws r with
          | String "," r' =>
              match parse_elems n r' with
              | Some (l, r'') => Some (v :: l, r'')
              | None => None
              end
          | String "]" r' => Some ([v], r')
          | _ => None
          end
      end
  end
with parse_members (fuel : nat) (s : string) : option (list (string * json) * string) :=
  match fuel with
  | O => None
  | S n =>
      match skip_ws s with
      | String q r =>
          if q == QUOTE then
            match parse_str r with
            | None => None
            | Some (k, r1) =>
                match skip_ws r1 with
                | String ":" r2 =>
                    match parse_value n r2 with
                    | None => None
                    | Some (v, r3) =>
                        match skip_ws r3 with
                        | String "," r4 =>
                            match parse_members n r4 with
                            | Some (o, r5) => Some ((k, v) :: o, r5)
                            | None => None
                            end
                        | String "}" r4 => Some ([(k, v)], r4)
                        | _ => None
                        end
                    end
                | _ => None
                end
            end
          else None
      | EmptyString => None
      end
  end.

(** [json.loads(s)]; [None] is [JSONDecodeError].  A parse consumes at least
    one character per nested call, so the length of the text bounds the depth. *)
Definition json_loads (s : string) : option json :=
  match parse_value (S (String.length s)) s with
  | Some (j, r) => match skip_ws r with EmptyString => Some j | _ => None end
  | None => None
  end.

(** A Python dict has one value per key. *)
Fixpoint json_wf (j : json) : bool :=
  match j with
  | JArr l => forallb json_wf l
  | JObj o => bool_decide (NoDup o.*1) && forallb (fun kv => json_wf kv.2) o
  | _ => true
  end.

(** ** Text lemmas *)

Lemma str_app_assoc (a b c : string) : (a +:+ b) +:+ c = a +:+ b +:+ c.
Proof. induction a; simpl; [done|]. by f_equal. Qed.
Lemma str_app_nil_r (a : string) : a +:+ EmptyString = a.
Proof. induction a; simpl; [done|]. by f_equal. Qed.
Lemma str_length_app (a b : string) :
  String.length (a +:+ b) = (String.length a + String.length b)%nat.
Proof. induction a; simpl; [done|]. by f_equal. Qed.

Lemma str_all_app p a b : str_all p (a +:+ b) = str_all p a && str_all p b.
Proof. induction a as [|c a IH]; simpl; [done|]. by rewrite IH, andb_assoc. Qed.

(** The loops over the remaining elements and items, by name. *)
Fixpoint dumps_tail (l : list json) : string :=
  match l with [] => "]" | y :: l' => "," +:+ dumps_raw y +:+ dumps_tail l' end.
Fixpoint dumps_items (o : list (string * json)) : string :=
  match o with
  | [] => "}"
  | kv :: o' => "," +:+ dumps_str kv.1 +:+ ":" +:+ dumps_raw kv.2 +:+ dumps_items o'
  end.

Lemma dumps_raw_arr x l : dumps_raw (JArr (x :: l)) = "[" +:+ dumps_raw x +:+ dumps_tail l.
Proof. reflexivity. Qed.
Lemma dumps_raw_obj kv o :
  dumps_raw (JObj (kv :: o))
  = "{" +:+ dumps_str kv.1 +:+ ":" +:+ dumps_raw kv.2 +:+ dumps_items o.
Proof. reflexivity. Qed.

(** ** Strings read back *)

Lemma parse_escaped_char c t :
  parse_str (escape_char c +:+ t) = prepend (String c EmptyString) (parse_str t).
Proof. by destruct c as [[] [] [] [] [] [] [] []]. Qed.

Lemma parse_dumps_str s r : parse_str (escape s +:+ String QUOTE r) = Some (s, r).
Proof.
  induction s as [|c s IH]; simpl; [done|].
  by rewrite str_app_assoc, parse_escaped_char, IH.
Qed.

(** ** Numbers read back *)

Lemma string_of_uint_digits d : str_all is_digit (NilEmpty.string_of_uint d) = true.
Proof. by induction d. Qed.

Lemma dumps_int_shape z :
  ∃ c s, dumps_int z = String c s ∧ str_all is_digit s = true ∧
         (is_digit c = true ∨ c = "-"%char).
Proof.
  unfold dumps_int, NilZero.string_of_int.
  assert (∀ d, ∃ c s, NilZero.string_of_uint d = String c s ∧
            str_all is_digit s = true ∧ is_digit c = true) as Hu.
  { intros d. pose proof (string_of_uint_digits d) as Hd.
    unfold NilZero.string_of_uint. destruct d; simpl in *; eauto 10. }
  destruct (Z.to_int z) as [d|d]; destruct (Hu d) as (c & s & E & Hs & Hc); rewrite E; [by eauto 10|].
  exists "-"%char, (String c s). simpl. rewrite Hc, Hs. eauto.
Qed.

Lemma int_of_dumps_int z : NilZero.int_of_string (dumps_int z) = Some (Z.to_int z).
Proof.
  unfold dumps_int. apply NilZero.isi; destruct z as [|p|p]; try done; simpl;
    intros [=H]; by apply (DecimalPos.Unsigned.to_uint_nonnil p).
Qed.

(** What may follow a number in canonical text. *)
Definition ends_number (r : string) : bool :=
  match r with
  | EmptyString => true
  | String c _ => negb (is_digit c || (c == "."%char) || (c == "e"%char) || (c == "E"%char))
  end.

Lemma span_digits_app s r :
  str_all is_digit s = true → ends_number r = true → span_digits (s +:+ r) = (s, r).
Proof.
  intros Hs Hr. induction s as [|c s IH]; simpl in *.
  - destruct r as [|c r]; [done|]. simpl in *. by destruct (is_digit c).
  - apply andb_true_iff in Hs as [Hc Hs]. rewrite Hc. by rewrite IH.
Qed.

Lemma parse_dumps_int z r :
  ends_number r = true → parse_num (dumps_int z +:+ r) = Some (JInt z, r).
Proof.
  intros Hr. destruct (dumps_int_shape z) as (c & s & E & Hs & Hc).
  assert (span_number (dumps_int z +:+ r) = (dumps_int z, r)) as Hspan.
  { rewrite E. destruct Hc as [Hc| ->].
    - assert (span_digits (String c s +:+ r) = (String c s, r)) as Hsp.
      { apply span_digits_app; [|done]. simpl. by rewrite Hc. }
      by destruct c as [[] [] [] [] [] [] [] []]; try discriminate Hc.
    - simpl. by rewrite span_digits_app. }
  unfold parse_num. rewrite Hspan, int_of_dumps_int, DecimalZ.of_to.
  rewrite bool_decide_eq_true_2 by done. simpl.
  destruct r as [|c' r]; [done|]. simpl in Hr.
  destruct (is_digit c'); [done|]. apply negb_true_iff in Hr. simpl in Hr. by rewrite Hr.
Qed.

(** ** Values read back *)

Lemma skip_ws_head c s :
  (c == " "%char) || (c == "009"%char) || (c == "010"%char) || (c == "013"%char) = false →
  skip_ws (String c s) = String c s.
Proof. intros H. simpl. by rewrite H. Qed.

Lemma digit_head_facts c :
  is_digit c = true ∨ c = "-"%char →
  (c == " "%char) || (c == "009"%char) || (c == "010"%char) || (c == "013"%char) = false ∧
  (c == QUOTE) = false ∧ (c == "["%char) = false ∧ (c == "{"%char) = false ∧
  (c == "n"%char) = false ∧ (c == "t"%char) = false ∧ (c == "f"%char) = false.
Proof.
  intros [H| ->]; [|done].
  destruct c as [[] [] [] [] [] [] [] []]; try discriminate H; done.
Qed.

Lemma dumps_raw_nonempty j : (1 ≤ String.length (dumps_raw j))%nat.
Proof.
  destruct j as [|[]|z|s|[|x l]|[|kv o]]; simpl; try lia.
  destruct (dumps_int_shape z) as (c & s & E & _). rewrite E. simpl. lia.
Qed.

Lemma ends_number_tail l r : ends_number (dumps_tail l +:+ r) = true.
Proof. by destruct l. Qed.
Lemma ends_number_items o r : ends_number (dumps_items o +:+ r) = true.
Proof. by destruct o. Qed.

Lemma dict_of_nodup l : NoDup l.*1 → dict_of l = l.
Proof.
  intros Hnd. unfold dict_of.
  assert (∀ acc, NoDup (acc ++ l).*1 →
            foldl (fun o kv => dict_set kv.1 kv.2 o) acc l = acc ++ l) as H.
  { clear Hnd. induction l as [|[k v] l IH]; intros acc Hnd; simpl; [by rewrite app_nil_r|].
    assert (dict_set k v acc = acc ++ [(k, v)]) as ->.
    { rewrite fmap_app in Hnd. apply NoDup_app in Hnd as (_ & Hn & _).
      clear IH. induction acc as [|[k' v'] acc IH]; simpl; [done|].
      rewrite bool_decide_eq_false_2.
      - f_equal. apply IH. intros x Hx. apply Hn. simpl. by right.
      - intros ->. apply (Hn k'); simpl; left. }
    rewrite IH; [by rewrite <- app_assoc|]. by rewrite <- app_assoc. }
  by apply H.
Qed.

(** The text of an array or of an object after its first element. *)
Lemma parse_elems_dumps n x l r :
  Forall (fun y => ∀ n r, (String.length (dumps_raw y) ≤ n)%nat → ends_number r = true →
            parse_value n (dumps_raw y +:+ r) = Some (y, r)) (x :: l) →
  (String.length (dumps_raw x +:+ dumps_tail l) ≤ n)%nat →
  parse_elems n (dumps_raw x +:+ dumps_tail l +:+ r) = Some (x :: l, r).
Proof.
  revert n x. induction l as [|y l IH]; intros n x Hall Hn;
    apply Forall_cons in Hall as [Hx Hl];
    rewrite str_length_app in Hn; pose proof (dumps_raw_nonempty x);
    (destruct n as [|n]; [lia|]).
  - simpl in *. rewrite Hx by (done || lia). done.
  - simpl in *. rewrite !str_length_app in Hn. rewrite Hx by (done || lia). simpl.
    rewrite !str_app_assoc. rewrite (IH n y); [done|done|].
    rewrite str_length_app. lia.
Qed.

Lemma parse_members_dumps n kv o r :
  Forall (fun kv => ∀ n r, (String.length (dumps_raw kv.2) ≤ n)%nat → ends_number r = true →
            parse_value n (dumps_raw kv.2 +:+ r) = Some (kv.2, r)) (kv :: o) →
  (String.length (dumps_raw kv.2 +:+ dumps_items o) ≤ n)%nat →
  parse_members n (dumps_str kv.1 +:+ ":" +:+ dumps_raw kv.2 +:+ dumps_items o +:+ r)
  = Some (kv :: o, r).
Proof.
  revert n kv. induction o as [|kv' o IH]; intros n [k v] Hall Hn;
    apply Forall_cons in Hall as [Hx Hl]; simpl in Hx, Hn |- *;
    rewrite str_length_app in Hn; pose proof (dumps_raw_nonempty v);
    (destruct n as [|n]; [lia|]);
    unfold dumps_str; simpl; rewrite str_app_assoc; simpl; rewrite parse_dumps_str; simpl.
  - rewrite Hx by (done || simpl in Hn; lia). done.
  - simpl in Hn. rewrite !str_length_app in Hn. simpl in Hn. rewrite !str_length_app in Hn.
    rewrite Hx by (done || lia). simpl. rewrite !str_app_assoc. simpl.
    rewrite !str_app_assoc. simpl.
    specialize (IH n kv' Hl). unfold dumps_str in IH. simpl in IH. rewrite !str_app_assoc in IH.
    simpl in IH. rewrite IH; [done|]. rewrite str_length_app. lia.
Qed.

Lemma forallb_Forall_impl {A} (p : A → bool) (P : A → Prop) l :
  forallb p l = true → Forall (fun x => p x = true → P x) l → Forall P l.
Proof.
  intros Hb. induction 1 as [|x l Hx Hl IH]; [done|]. simpl in Hb. breflect.
  constructor; auto.
Qed.

(** No text of a value starts with white space or closes an array. *)
Lemma dumps_raw_head j :
  ∃ c t, dumps_raw j = String c t ∧ c ≠ "]"%char ∧
    (c == " "%char) || (c == "009"%char) || (c == "010"%char) || (c == "013"%char) = false.
Proof.
  destruct j as [|[]|z|s|[|x l]|[|kv o]]; simpl; eauto 10.
  destruct (dumps_int_shape z) as (c & s & -> & _ & Hc).
  destruct (digit_head_facts c Hc) as (Hws & _).
  exists c, s. split_and!; [done| |done]. intros ->. by destruct Hc.
Qed.

Lemma parse_value_dumps j :
  json_wf j = true → ∀ n r, (String.length (dumps_raw j) ≤ n)%nat → ends_number r = true →
  parse_value n (dumps_raw j +:+ r) = Some (j, r).
Proof.
  intros Hwf n r Hn Hr. revert Hwf n r Hn Hr.
  induction j as [|[]|z|s|l IH|o IH] using json_nested_ind; intros Hwf n r Hn Hr;
    (destruct n as [|n];
     [match type of Hn with context [dumps_raw ?j] => pose proof (dumps_raw_nonempty j) end; lia|]);
    [done..| | | |].
  - simpl. destruct (dumps_int_shape z) as (c & s & E & _ & Hc).
    pose proof (parse_dumps_int z r Hr) as Hp. rewrite E in *. simpl in *.
    destruct (digit_head_facts c Hc) as (Hws & Hq & Ha & Ho & Hn' & Ht & Hf).
    rewrite Hws, Hq, Ha, Ho, Hn', Ht, Hf. exact Hp.
  - simpl. unfold dumps_str. simpl. rewrite str_app_assoc. simpl. by rewrite parse_dumps_str.
  - destruct l as [|x l]; [done|]. rewrite dumps_raw_arr in *. simpl in Hn.
    pose proof (parse_elems_dumps n x l r (forallb_Forall_impl _ _ _ Hwf IH) ltac:(lia)) as Hp.
    simpl. rewrite str_app_assoc.
    destruct (dumps_raw_head x) as (c & t & E & Hc & Hws). rewrite E in *. simpl in *.
    rewrite Hws.
    destruct c as [[] [] [] [] [] [] [] []]; try done; by rewrite Hp.
  - destruct o as [|kv o]; [done|]. rewrite dumps_raw_obj in *. simpl in Hn, Hwf. breflect.
    assert (forallb (fun kv => json_wf kv.2) (kv :: o) = true) as Hwf by (simpl; by apply andb_true_iff).
    rewrite !str_length_app in Hn. simpl in Hn.
    pose proof (parse_members_dumps n kv o r (forallb_Forall_impl _ _ _ Hwf IH) ltac:(lia)) as Hp.
    unfold dumps_str in *. simpl in *. rewrite !str_app_assoc in *. simpl in *.
    rewrite !str_app_assoc. unfold QUOTE in *. rewrite Hp. by rewrite dict_of_nodup.
Qed.

(** ** The canonical profile *)

Lemma jnorm_wf j : json_wf j = true → json_wf (jnorm j) = true.
Proof.
  induction j as [| | | |l IH|o IH] using json_nested_ind; simpl; intros Hwf; try done.
  - rewrite forallb_forall in *. intros y (x & <- & Hx)%in_map_iff.
    rewrite List.Forall_forall in IH. by apply IH, Hwf.
  - breflect. set (o' := map (fun kv => (kv.1, jnorm kv.2)) o).
    assert (o'.*1 = o.*1) as Hkeys.
    { unfold o'. clear. induction o; simpl; [done|]. by f_equal. }
    apply andb_true_iff. split.
    + apply bool_decide_eq_true. by rewrite sorted_items_perm, Hkeys.
    + rewrite forallb_forall in *. intros y Hy. apply list_elem_of_In in Hy.
      rewrite sorted_items_perm in Hy. apply list_elem_of_In in Hy.
      apply in_map_iff in Hy as (x & <- & Hx). simpl.
      rewrite List.Forall_forall in IH. by apply IH, H0.
Qed.

(** Reading canonical text back gives the value it was written from, items
    sorted by key. *)
Lemma json_loads_canonical j :
  json_wf j = true → json_loads (canonical_json j) = Some (jnorm j).
Proof.
  intros Hwf. unfold json_loads, canonical_json.
  pose proof (parse_value_dumps (jnorm j) (jnorm_wf j Hwf)
                (S (String.length (dumps_raw (jnorm j)))) EmptyString) as Hp.
  rewrite str_app_nil_r in Hp. by rewrite Hp by (done || lia).
Qed.

(** So the canonical text determines the value. *)
Lemma canonical_json_inj j1 j2 :
  json_wf j1 = true → json_wf j2 = true →
  canonical_json j1 = canonical_json j2 → jnorm j1 = jnorm j2.
Proof.
  intros H1 H2 E. apply (inj Some). by rewrite <- !json_loads_canonical, E.
Qed.

(** ** Looking up a key of a value and of its canonical form *)

Lemma jassoc_elem k o v : jassoc k o = Some v → (k, v) ∈ o.
Proof.
  induction o as [|[k' v'] o IH]; simpl; [done|].
  case_bool_decide; intros [= ->] || intros H'; subst; [left|right; by apply IH].
Qed.
Lemma jassoc_dom k o : k ∈ o.*1 → ∃ v, jassoc k o = Some v.
Proof.
  induction o as [|[k' v'] o IH]; simpl; [by intros ?%elem_of_nil|].
  case_bool_decide; [by eauto|]. intros [->|?]%elem_of_cons; [done|]. by apply IH.
Qed.

Lemma elem_jassoc k o v : NoDup o.*1 → (k, v) ∈ o → jassoc k o = Some v.
Proof.
  induction o as [|[k' v'] o IH]; simpl; [by intros _ ?%elem_of_nil|].
  intros [Hn Hnd]%NoDup_cons [[= <- <-]|Hin]%elem_of_cons; [by rewrite bool_decide_true|].
  case_bool_decide; [|by apply IH]. subst. destruct Hn. by apply (list_elem_of_fmap_2 fst) in Hin.
Qed.

(** The items of the canonical form of a dict. *)
Definition jnorm_items (o : list (string * json)) : list (string * json) :=
  sorted_items (map (fun kv => (kv.1, jnorm kv.2)) o).

Lemma jget_jnorm k o : NoDup o.*1 → jget k (jnorm_items o) = jnorm (jget k o).
Proof.
  intros Hnd. assert ((map (fun kv => (kv.1, jnorm kv.2)) o).*1 = o.*1) as Hk.
  { clear. induction o; simpl; [done|]. by f_equal. }
  assert (NoDup (jnorm_items o).*1) as Hnd' by (unfold jnorm_items; by rewrite sorted_items_perm, Hk).
  unfold jget. destruct (jassoc k o) as [v|] eqn:E.
  - apply jassoc_elem in E. rewrite (elem_jassoc _ _ (jnorm v)); [done..|].
    unfold jnorm_items. rewrite sorted_items_perm.
    by apply (list_elem_of_fmap_2 (fun kv => (kv.1, jnorm kv.2))) in E.
  - destruct (jassoc k (jnorm_items o)) as [w|] eqn:E'; [|done].
    apply jassoc_elem in E'. unfold jnorm_items in E'. rewrite sorted_items_perm in E'.
    apply list_elem_of_fmap in E' as ([k' v'] & [= -> ->] & Hin).
    by rewrite (elem_jassoc _ _ _ Hnd Hin) in E.
Qed.

(** ** Equality of Python values

    [==] on what [json.loads] returns: [True == 1], and dicts are equal when they
    have equal values under the same keys, in any order. *)
Definition as_int (j : json) : option Z :=
  match j with
  | JInt z => Some z
  | JBool b => Some (if b then 1 else 0)
  | _ => None
  end.

Fixpoint py_eq (j1 j2 : json) {struct j1} : bool :=
  match j1 with
  | JNull => match j2 with JNull => true | _ => false end
  | JBool b => as_int j2 == Some (if b then 1 else 0)
  | JInt z => as_int j2 == Some z
  | JStr s => match j2 with JStr s' => s == s' | _ => false end
  | JArr l =>
      match j2 with
      | JArr l' =>
          (fix go (l l' : list json) : bool :=
             match l, l' with
             | [], [] => true
             | x :: l, x' :: l' => py_eq x x' && go l l'
             | _, _ => false
             end) l l'
      | _ => false
      end
  | JObj o =>
      match j2 with
      | JObj o' =>
          (length o =? length o')%nat
          && forallb (fun kv => match jassoc kv.1 o' with
                                | Some v => py_eq kv.2 v
                                | None => false
                                end) o
      | _ => false
      end
  end.

(** The canonical form of a value is equal to it. *)
Lemma py_eq_jnorm j : json_wf j = true → py_eq (jnorm j) j = true.
Proof.
  induction j as [|b|z|s|l IH|o IH] using json_nested_ind; intros Hwf; simpl;
    try (by apply bool_decide_eq_true); [done| |].
  - simpl in Hwf. induction IH as [|x l Hx _ IHl]; [done|]. simpl in *.
    apply andb_true_iff in Hwf as [H1 H2]. rewrite Hx by done. simpl. by apply IHl.
  - simpl in Hwf. apply andb_true_iff in Hwf as [Hnd Hwf]. apply bool_decide_eq_true in Hnd.
    apply andb_true_iff. split.
    + apply Nat.eqb_eq. rewrite (Permutation_length (sorted_items_perm _)). by rewrite length_map.
    + rewrite forallb_forall in *. intros [k v] Hkv. apply list_elem_of_In in Hkv.
      rewrite sorted_items_perm in Hkv. apply list_elem_of_In, in_map_iff in Hkv.
      destruct Hkv as ([k' v'] & [= -> <-] & Hin). simpl.
      pose proof Hin as Hin'. apply list_elem_of_In in Hin'.
      rewrite (elem_jassoc k o v' Hnd Hin').
      rewrite List.Forall_forall in IH. by apply (IH _ Hin), (Hwf _ Hin).
Qed.

(** Normalising twice is normalising once. *)
Lemma py_insert_head {A} (le : A → A → bool) x l :
  Forall (fun y => le x y = true) l → py_insert le x l = x :: l.
Proof. destruct 1 as [|y l Hy]; simpl; [done|]. by rewrite Hy. Qed.
Lemma py_sorted_id {A} (le : A → A → bool) l :
  StronglySorted (fun a b => le a b = true) l → py_sorted le l = l.
Proof. induction 1 as [|x l _ IH Hx]; simpl; [done|]. by rewrite IH, py_insert_head. Qed.
Lemma py_insert_map {V W} (f : V → W) (x : string * V) l :
  py_insert (fun a b => String.leb a.1 b.1) (x.1, f x.2) (map (fun kv => (kv.1, f kv.2)) l)
  = map (fun kv => (kv.1, f kv.2)) (py_insert (fun a b => String.leb a.1 b.1) x l).
Proof.
  induction l as [|y l IH]; simpl; [done|]. destruct (String.leb x.1 y.1); simpl; [done|].
  by rewrite IH.
Qed.
Lemma sorted_items_map {V W} (f : V → W) (l : list (string * V)) :
  sorted_items (map (fun kv => (kv.1, f kv.2)) l)
  = map (fun kv => (kv.1, f kv.2)) (sorted_items l).
Proof.
  unfold sorted_items. induction l as [|x l IH]; simpl; [done|]. by rewrite IH, py_insert_map.
Qed.

Lemma sorted_items_idem {V} (l : list (string * V)) :
  sorted_items (sorted_items l) = sorted_items l.
Proof. unfold sorted_items at 1. apply py_sorted_id, sorted_items_sorted. Qed.

Lemma jnorm_idem j : jnorm (jnorm j) = jnorm j.
Proof.
  induction j as [|b|z|s|l IH|o IH] using json_nested_ind; simpl; try done.
  - f_equal. induction IH as [|x l Hx _ IHl]; simpl; [done|]. by rewrite Hx, IHl.
  - f_equal. rewrite sorted_items_map, sorted_items_idem, sorted_items_map.
    rewrite map_map. apply map_ext_in. intros [k v] Hkv. simpl. f_equal.
    apply list_elem_of_In in Hkv. rewrite sorted_items_perm in Hkv. apply list_elem_of_In in Hkv.
    rewrite List.Forall_forall in IH. by apply (IH _ Hkv).
Qed.
Lemma canonical_json_jnorm j : canonical_json (jnorm j) = canonical_json j.
Proof. unfold canonical_json. by rewrite jnorm_idem. Qed.
