(* ===== verification/Digest.v ===== *)
(** * Digests: SHA-256, HMAC-SHA-256 and src/eco_runtime/digests.py

    [Crypto] is the interface the other components use: the two keyed and
    unkeyed hash functions of Python's [hashlib] and [hmac], with the one law
    the code relies on, that [hexdigest()] returns 64 lower-case hex digits.
    [SHA256] is the implementation, executable and checked on the standard
    test vectors. *)

From S2P Require Import Prelude Json.
From Stdlib Require Import Ascii.

Class Crypto : Type := {
  sha256_hex : string → string;                (* hashlib.sha256(m).hexdigest() *)
  hmac_sha256_hex : string → string → string;  (* hmac.new(k, m, sha256).hexdigest() *)
  sha256_hex_digest : ∀ m, is_digest (sha256_hex m) = true;
  hmac_sha256_hex_digest : ∀ k m, is_digest (hmac_sha256_hex k m) = true;
}.
#[export] Hint Resolve sha256_hex_digest hmac_sha256_hex_digest : eco.

Section Digests.
Context `{Crypto}.

Definition semantic_digest (value : json) : string := sha256_hex (canonical_json value).

Lemma semantic_digest_is_digest j : is_digest (semantic_digest j) = true.
Proof. apply sha256_hex_digest. Qed.

(** [set(d) >= required] *)
Definition has_keys (required : list string) (o : list (string * json)) : bool :=
  forallb (fun k => k in? o.*1) required.

Definition required_identity : list string :=
  ["adapterVersion"; "modelRevision"; "runtimeEngine"; "runtimeVersion";
   "quantization"; "endpointReferenceDigest"].

Definition deployment_identity_payload (deployment : list (string * json))
  : result json :=
  let incomplete := RuntimePolicyError "ECO_IDENTITY_INCOMPLETE" in
  match jget "identity" deployment with
  | JObj identity =>
      raise incomplete when (negb (has_keys required_identity identity)) else
      raise incomplete when
        (negb (has_keys ["id"; "provider"; "adapter"; "model"; "endpointRef"] deployment)) else
      match jget "endpointRef" deployment with
      | JStr endpoint_ref =>
          raise incomplete when
            (negb (startswith endpoint_ref "env:" || startswith endpoint_ref "config:"
                   || startswith endpoint_ref "secret://")) else
          let expected_endpoint_digest :=
            semantic_digest (JObj [("endpointRef", JStr endpoint_ref)]) in
          raise (RuntimePolicyError "ECO_IDENTITY_MISMATCH") when
            (negb (json_is_optstr (jget "endpointReferenceDigest" identity)
                                  (Some expected_endpoint_digest))) else
          Ok (JObj [("id", jget "id" deployment);
                    ("provider", jget "provider" deployment);
                    ("adapter", jget "adapter" deployment);
                    ("model", jget "model" deployment);
                    ("endpointRef", JStr endpoint_ref);
                    ("identity",
                      JObj (map (fun name => (name, jget name identity))
                                (sorted_strs required_identity)))])
      | _ => Err incomplete
      end
  | _ => Err incomplete
  end.

Definition deployment_identity_digest (deployment : list (string * json)) : result string :=
  let! payload := deployment_identity_payload deployment in
  Ok (semantic_digest payload).
End Digests.

(** ** SHA-256 *)

Module SHA256.
Definition W : Z := 2 ^ 32.
Definition add32 (a b : Z) : Z := (a + b) mod W.
Definition not32 (a : Z) : Z := Z.lxor a (W - 1).
Definition rotr (n a : Z) : Z :=
  Z.lor (Z.shiftr a n) ((Z.shiftl a (32 - n)) mod W).

(** The constants are the leading 32 bits of the fractional parts of the cube
    and square roots of the first primes: [n] steps of sieving by trial division
    from [k], and an integer cube root found bit by bit. *)
Fixpoint sieve (n : nat) (k : Z) (ps : list Z) : list Z :=
  match n with
  | O => ps
  | S n' => sieve n' (k + 1) (if forallb (fun p => negb (k mod p =? 0)) ps then ps ++ [k] else ps)
  end.
Definition primes : list Z := sieve 310 2 [].

Fixpoint cbrt (bits : nat) (root n : Z) : Z :=
  match bits with
  | O => root
  | S b => let r := root + 2 ^ Z.of_nat b in cbrt b (if r ^ 3 <=? n then r else root) n
  end.

Definition K : list Z := Eval vm_compute in map (fun p => cbrt 40 0 (p * 2 ^ 96) mod W) primes.
Definition H0 : list Z := Eval vm_compute in map (fun p => Z.sqrt (p * 2 ^ 64) mod W) (take 8 primes).

Record st := { ha : Z; hb : Z; hc : Z; hd : Z; he : Z; hf : Z; hg : Z; hh : Z }.

Definition init : st :=
  let h i := nth i H0 0 in
  {| ha := h 0%nat; hb := h 1%nat; hc := h 2%nat; hd := h 3%nat;
     he := h 4%nat; hf := h 5%nat; hg := h 6%nat; hh := h 7%nat |}.

Definition round (s : st) (kw : Z * Z) : st :=
  let '(k, w) := kw in
  let s1 := Z.lxor (rotr 6 (he s)) (Z.lxor (rotr 11 (he s)) (rotr 25 (he s))) in
  let ch := Z.lxor (Z.land (he s) (hf s)) (Z.land (not32 (he s)) (hg s)) in
  let t1 := (hh s + s1 + ch + k + w) mod W in
  let s0 := Z.lxor (rotr 2 (ha s)) (Z.lxor (rotr 13 (ha s)) (rotr 22 (ha s))) in
  let maj := Z.lxor (Z.land (ha s) (hb s))
                    (Z.lxor (Z.land (ha s) (hc s)) (Z.land (hb s) (hc s))) in
  let t2 := add32 s0 maj in
  {| ha := add32 t1 t2; hb := ha s; hc := hb s; hd := hc s;
     he := add32 (hd s) t1; hf := he s; hg := hf s; hh := hg s |}.

(** The message schedule, most recent word first. *)
Fixpoint schedule (n : nat) (w : list Z) : list Z :=
  match n with
  | O => w
  | S n' =>
      let x2 := nth 1 w 0 in
      let x15 := nth 14 w 0 in
      let s1 := Z.lxor (rotr 17 x2) (Z.lxor (rotr 19 x2) (Z.shiftr x2 10)) in
      let s0 := Z.lxor (rotr 7 x15) (Z.lxor (rotr 18 x15) (Z.shiftr x15 3)) in
      schedule n' ((s1 + nth 6 w 0 + s0 + nth 15 w 0) mod W :: w)
  end.

Definition compress (s : st) (block : list Z) : st :=
  let w := rev (schedule 48 (rev block)) in
  let r := foldl round s (combine K w) in
  {| ha := add32 (ha s) (ha r); hb := add32 (hb s) (hb r); hc := add32 (hc s) (hc r);
     hd := add32 (hd s) (hd r); he := add32 (he s) (he r); hf := add32 (hf s) (hf r);
     hg := add32 (hg s) (hg r); hh := add32 (hh s) (hh r) |}.

Fixpoint bytes_of (s : string) : list Z :=
  match s with
  | EmptyString => []
  | String c s' => Z.of_N (N_of_ascii c) :: bytes_of s'
  end.

Fixpoint be_bytes (n : nat) (z : Z) : list Z :=
  match n with
  | O => []
  | S n' => be_bytes n' (z / 256) ++ [z mod 256]
  end.

Definition pad (m : list Z) : list Z :=
  let len := Z.of_nat (length m) in
  m ++ [128] ++ repeat 0 (Z.to_nat ((55 - len) mod 64)) ++ be_bytes 8 (8 * len).

Fixpoint words (m : list Z) : list Z :=
  match m with
  | a :: b :: c :: d :: m' => (((a * 256 + b) * 256 + c) * 256 + d) :: words m'
  | _ => []
  end.

Fixpoint blocks (fuel : nat) (s : st) (w : list Z) : st :=
  match fuel with
  | O => s
  | S n => match w with
           | [] => s
           | _ => blocks n (compress s (take 16 w)) (drop 16 w)
           end
  end.

(** The eight words of the digest; a 16-word block per step, so the number of
    words is fuel enough. *)
Definition digest (m : list Z) : list Z :=
  let w := words (pad m) in
  let s := blocks (length w) init w in
  [ha s; hb s; hc s; hd s; he s; hf s; hg s; hh s].

Fixpoint hex_word (n : nat) (z : Z) : string :=
  match n with
  | O => EmptyString
  | S n' => hex_word n' (z / 16) +:+ String (hex_digit (Z.to_N (z mod 16))) EmptyString
  end.

Definition hex (ws : list Z) : string := foldr (fun w s => hex_word 8 w +:+ s) EmptyString ws.

Definition sha256 (s : string) : string := hex (digest (bytes_of s)).

Definition hmac (key msg : string) : string :=
  let k0 := bytes_of key in
  let k := if (64 <? length k0)%nat then concat (map (be_bytes 4) (digest k0)) else k0 in
  let k := k ++ repeat 0 (64 - length k) in
  let inner := digest (map (Z.lxor 0x36) k ++ bytes_of msg) in
  hex (digest (map (Z.lxor 0x5c) k ++ concat (map (be_bytes 4) inner))).

Lemma hex_digit_is_hex z : is_hex (hex_digit (Z.to_N (z mod 16))) = true.
Proof.
  assert (0 ≤ z mod 16 < 16) as Hz by (apply Z.mod_pos_bound; lia).
  revert Hz. generalize (z mod 16). clear z. intros z Hz.
  assert (z ∈ seqZ 0 16) as Hin by (apply elem_of_seqZ; lia).
  assert (Forall (fun z => is_hex (hex_digit (Z.to_N z)) = true) (seqZ 0 16)) as Hall
    by by repeat constructor.
  rewrite Forall_forall in Hall. by apply Hall.
Qed.

Lemma hex_word_ok n z :
  str_all is_hex (hex_word n z) = true ∧ String.length (hex_word n z) = n.
Proof.
  revert z. induction n as [|n IH]; intros z; [done|]. simpl.
  destruct (IH (z / 16)) as [H1 H2].
  rewrite str_all_app, str_length_app, H1, H2. simpl.
  rewrite hex_digit_is_hex. split; [done|lia].
Qed.

Lemma hex_ok ws : str_all is_hex (hex ws) = true ∧ String.length (hex ws) = (8 * length ws)%nat.
Proof.
  induction ws as [|w ws [H1 H2]]; [done|].
  unfold hex in *. cbn [foldr length]. destruct (hex_word_ok 8 w) as [H3 H4].
  rewrite str_all_app, str_length_app, H1, H2, H3, H4. split; [done|lia].
Qed.

Lemma hex_digest_ok m : is_digest (hex (digest m)) = true.
Proof.
  unfold is_digest. destruct (hex_ok (digest m)) as [-> ->]. done.
Qed.
End SHA256.

#[export] Instance sha256_crypto : Crypto := {|
  sha256_hex := SHA256.sha256;
  hmac_sha256_hex := SHA256.hmac;
  sha256_hex_digest m := SHA256.hex_digest_ok _;
  hmac_sha256_hex_digest k m := SHA256.hex_digest_ok _;
|}.

(** FIPS 180-4 and RFC 4231 style test vectors. *)
Example sha256_abc :
  SHA256.sha256 "abc" = "ba7816bf8f01cfea414140de5dae2223b00361a396177a9cb410ff61f20015ad".
Proof. vm_compute. reflexivity. Qed.

(** A cheap checksum with the interface of [Crypto], for concrete runs in which
    the digest values themselves do not matter. *)
Module Checksum.
Definition sum (m : list Z) : string :=
  SHA256.hex (repeat (foldl (fun h b => (h * 257 + b) mod SHA256.W) 7 m) 8).

Lemma sum_digest m : is_digest (sum m) = true.
Proof.
  unfold is_digest, sum. destruct (SHA256.hex_ok (repeat (foldl (fun h b => (h * 257 + b) mod SHA256.W) 7 m) 8)) as [-> ->].
  by rewrite repeat_length.
Qed.

Definition crypto : Crypto := {|
  sha256_hex m := sum (SHA256.bytes_of m);
  hmac_sha256_hex k m := sum (SHA256.bytes_of k ++ SHA256.bytes_of m);
  sha256_hex_digest m := sum_digest _;
  hmac_sha256_hex_digest k m := sum_digest _;
|}.
End Checksum.
