(* ===== verification/PyTime.v ===== *)
(** * Timestamps: the part of Python's [datetime] the sources use

    A [datetime] keeps the fields of Python's class; [utcoffset] is the offset
    of its [tzinfo] in seconds, [None] for a naive value.  [parse_rfc3339] is the
    [RFC3339_RE] check followed by [datetime.fromisoformat] (with the trailing
    "Z" rewritten to "+00:00"), the combination every RFC 3339 field of the
    runtime records goes through (src/eco_runtime/contracts.py,
    src/eco_runtime/state.py).  [isoformat_z] is
    [value.isoformat().replace("+00:00", "Z")] on a UTC value. *)

From S2P Require Import Prelude Json.
From Stdlib Require Import Ascii.

Record datetime : Type := {
  year : Z; month : Z; day : Z;
  hour : Z; minute : Z; second : Z; microsecond : Z;
  utcoffset : option Z;
}.
#[export] Instance datetime_eq_dec : EqDecision datetime.
Proof. solve_decision. Defined.

(** ** The calendar *)

Definition is_leap (y : Z) : bool :=
  (y mod 4 =? 0) && (negb (y mod 100 =? 0) || (y mod 400 =? 0)).
Definition days_in_month (y m : Z) : Z :=
  if m =? 2 then (if is_leap y then 29 else 28)
  else if bool_decide (m ∈ [4; 6; 9; 11]) then 30 else 31.
Definition days_before_year (y : Z) : Z :=
  (y - 1) * 365 + (y - 1) / 4 - (y - 1) / 100 + (y - 1) / 400.
Fixpoint days_before_month (y : Z) (m : nat) : Z :=
  match m with
  | O | S O => 0
  | S m' => days_before_month y m' + days_in_month y (Z.of_nat m')
  end.
(** [date.toordinal()] *)
Definition toordinal (d : datetime) : Z :=
  days_before_year (year d) + days_before_month (year d) (Z.to_nat (month d)) + day d.

(** The constructor's range checks. *)
Definition datetime_ok (d : datetime) : bool :=
  (1 <=? year d) && (year d <=? 9999) && (1 <=? month d) && (month d <=? 12)
  && (1 <=? day d) && (day d <=? days_in_month (year d) (month d))
  && (0 <=? hour d) && (hour d <=? 23) && (0 <=? minute d) && (minute d <=? 59)
  && (0 <=? second d) && (second d <=? 59)
  && (0 <=? microsecond d) && (microsecond d <=? 999999)
  && match utcoffset d with Some o => Z.abs o <? 86400 | None => true end.

(** Microseconds since 0001-01-01T00:00:00Z: aware values compare by it. *)
Definition instant (d : datetime) : Z :=
  ((((toordinal d - 1) * 24 + hour d) * 60 + minute d) * 60 + second d
   - default 0 (utcoffset d)) * 1000000 + microsecond d.

(** ** Reading RFC 3339 *)

Definition digit_value (c : ascii) : Z := Z.of_N (N_of_ascii c) - 48.

(** Exactly [n] ASCII digits. *)
Fixpoint read_digits (n : nat) (acc : Z) (s : string) : option (Z * string) :=
  match n with
  | O => Some (acc, s)
  | S n' =>
      match s with
      | String c s' =>
          if is_digit c then read_digits n' (acc * 10 + digit_value c) s' else None
      | EmptyString => None
      end
  end.

Definition read_char (c : ascii) (s : string) : option string :=
  match s with
  | String c' s' => if c == c' then Some s' else None
  | EmptyString => None
  end.

(** The first six digits of a fraction, missing ones as zeros. *)
Fixpoint fraction (n : nat) (acc : Z) (s : string) : Z :=
  match n with
  | O => acc
  | S n' =>
      match s with
      | EmptyString => fraction n' (acc * 10) EmptyString
      | String c s' => fraction n' (acc * 10 + digit_value c) s'
      end
  end.

(** [(?:\.\d+)?] *)
Definition read_fraction (s : string) : option (Z * string) :=
  match s with
  | String "." s' =>
      match span_digits s' with
      | (EmptyString, _) => None
      | (ds, rest) => Some (fraction 6 0 ds, rest)
      end
  | _ => Some (0, s)
  end.

(** [(?:Z|[+-]\d{2}:\d{2})$], as an offset in seconds. *)
Definition read_offset (s : string) : option Z :=
  match s with
  | String "Z" EmptyString => Some 0
  | String c s' =>
      if (c == "+"%char) || (c == "-"%char) then
        read_digits 2 0 s' ≫= fun '(hh, s1) =>
        read_char ":" s1 ≫= fun s2 =>
        read_digits 2 0 s2 ≫= fun '(mm, s3) =>
        if s3 == EmptyString then
          Some ((if c == "-"%char then -1 else 1) * (hh * 3600 + mm * 60))
        else None
      else None
  | EmptyString => None
  end.

Definition parse_rfc3339 (s : string) : option datetime :=
  read_digits 4 0 s ≫= fun '(y, s) => read_char "-" s ≫= fun s =>
  read_digits 2 0 s ≫= fun '(mo, s) => read_char "-" s ≫= fun s =>
  read_digits 2 0 s ≫= fun '(d, s) => read_char "T" s ≫= fun s =>
  read_digits 2 0 s ≫= fun '(h, s) => read_char ":" s ≫= fun s =>
  read_digits 2 0 s ≫= fun '(mi, s) => read_char ":" s ≫= fun s =>
  read_digits 2 0 s ≫= fun '(sec, s) =>
  read_fraction s ≫= fun '(us, s) =>
  read_offset s ≫= fun off =>
  let v := {| year := y; month := mo; day := d; hour := h; minute := mi; second := sec;
              microsecond := us; utcoffset := Some off |} in
  if datetime_ok v then Some v else None.

(** ** Printing a UTC value *)

Definition digit_char (d : Z) : ascii := ascii_of_N (Z.to_N (48 + d)).
Fixpoint pad (n : nat) (z : Z) : string :=
  match n with
  | O => EmptyString
  | S n' => String (digit_char ((z / 10 ^ Z.of_nat n') mod 10)) (pad n' z)
  end.
Definition isoformat_z (v : datetime) : string :=
  pad 4 (year v) +:+ "-" +:+ pad 2 (month v) +:+ "-" +:+ pad 2 (day v) +:+ "T"
  +:+ pad 2 (hour v) +:+ ":" +:+ pad 2 (minute v) +:+ ":" +:+ pad 2 (second v)
  +:+ (if microsecond v =? 0 then EmptyString else "." +:+ pad 6 (microsecond v)) +:+ "Z".

(** ** Reading back what was printed *)

Lemma digit_char_spec d :
  0 ≤ d < 10 → is_digit (digit_char d) = true ∧ digit_value (digit_char d) = d.
Proof.
  intros H.
  assert (d = 0 ∨ d = 1 ∨ d = 2 ∨ d = 3 ∨ d = 4 ∨ d = 5 ∨ d = 6 ∨ d = 7 ∨ d = 8 ∨ d = 9)
    as Hd by lia.
  by destruct Hd as [->|[->|[->|[->|[->|[->|[->|[->|[->| ->]]]]]]]]].
Qed.

Lemma mod_split z n :
  z mod 10 ^ Z.of_nat (S n)
  = (z / 10 ^ Z.of_nat n) mod 10 * 10 ^ Z.of_nat n + z mod 10 ^ Z.of_nat n.
Proof.
  rewrite Nat2Z.inj_succ, Z.pow_succ_r by lia. rewrite (Z.mul_comm 10).
  rewrite Z.rem_mul_r by lia. lia.
Qed.

Lemma read_digits_pad n z acc r :
  read_digits n acc (pad n z +:+ r) = Some (acc * 10 ^ Z.of_nat n + z mod 10 ^ Z.of_nat n, r).
Proof.
  revert acc. induction n as [|n IH]; intros acc.
  { simpl. rewrite Z.mod_1_r. do 2 f_equal. lia. }
  destruct (digit_char_spec ((z / 10 ^ Z.of_nat n) mod 10)) as [E1 E2].
  { apply Z.mod_pos_bound. lia. }
  cbn [pad String.append read_digits]. rewrite E1, E2, IH, mod_split.
  do 2 f_equal. rewrite Nat2Z.inj_succ, Z.pow_succ_r by lia. lia.
Qed.

Lemma read_pad n z r :
  0 ≤ z < 10 ^ Z.of_nat n → read_digits n 0 (pad n z +:+ r) = Some (z, r).
Proof. intros H. rewrite read_digits_pad, Z.mod_small by done. done. Qed.

Lemma fraction_pad n z acc : fraction n acc (pad n z) = acc * 10 ^ Z.of_nat n + z mod 10 ^ Z.of_nat n.
Proof.
  revert acc. induction n as [|n IH]; intros acc.
  { simpl. rewrite Z.mod_1_r. lia. }
  destruct (digit_char_spec ((z / 10 ^ Z.of_nat n) mod 10)) as [E1 E2].
  { apply Z.mod_pos_bound. lia. }
  cbn [pad fraction]. rewrite E2, IH, mod_split.
  rewrite Nat2Z.inj_succ, Z.pow_succ_r by lia. lia.
Qed.

Lemma pad_digits n z : str_all is_digit (pad n z) = true.
Proof.
  induction n as [|n IH]; [done|]. cbn [pad str_all].
  destruct (digit_char_spec ((z / 10 ^ Z.of_nat n) mod 10)) as [-> _]; [|done].
  apply Z.mod_pos_bound. lia.
Qed.

Lemma read_fraction_pad us :
  0 ≤ us ≤ 999999 →
  read_fraction ((if us =? 0 then EmptyString else "." +:+ pad 6 us) +:+ "Z") = Some (us, "Z").
Proof.
  intros H. destruct (us =? 0) eqn:E; [by apply Z.eqb_eq in E as ->|].
  change (("." +:+ pad 6 us) +:+ "Z") with (String "." (pad 6 us +:+ "Z")).
  cbn [read_fraction]. rewrite span_digits_app by (apply pad_digits || done).
  change (pad 6 us) with (String (digit_char ((us / 10 ^ 5) mod 10)) (pad 5 us)) at 1.
  cbv iota beta. rewrite fraction_pad, Z.mod_small by lia. do 2 f_equal.
Qed.

Lemma parse_isoformat_z v :
  datetime_ok v = true → utcoffset v = Some 0 → parse_rfc3339 (isoformat_z v) = Some v.
Proof.
  intros Hok Hoff. unfold parse_rfc3339, isoformat_z.
  assert (datetime_ok v = true) as Hr by done. unfold datetime_ok in Hr. breflect.
  assert (days_in_month (year v) (month v) ≤ 31).
  { unfold days_in_month. by repeat case_match. }
  repeat (rewrite read_pad by (simpl; lia);
          cbn [mbind option_bind read_char String.append];
          try (rewrite bool_decide_eq_true_2 by done; cbn [mbind option_bind])).
  rewrite read_fraction_pad by lia. cbn [mbind option_bind read_offset].
  rewrite <- Hoff. destruct v. simpl in *. by rewrite Hok.
Qed.
