(* ===== verification/PyClock.v ===== *)
(** * Aware datetimes in UTC: arithmetic, printing and reading

    The routing records keep their times as text.  The code reads a text with
    [datetime.fromisoformat], converts to UTC, compares, adds a [timedelta], and
    prints with [isoformat().replace("+00:00", "Z")].  A value converted to UTC
    is its [instant], in microseconds since 0001-01-01T00:00:00Z;
    [of_instant] recovers the fields. *)

From S2P Require Import Prelude Json PyTime.
From Stdlib Require Import Ascii.

(** ** From an instant to the fields of a UTC value *)

(** The last year from [y] on that begins before ordinal [n]. *)
Fixpoint find_year (fuel : nat) (y n : Z) : Z :=
  match fuel with
  | O => y
  | S f => if days_before_year (y + 1) <? n then find_year f (y + 1) n else y
  end.
(** The last month from [m] on that begins before day [k] of year [y]. *)
Fixpoint find_month (fuel : nat) (m : nat) (y k : Z) : nat :=
  match fuel with
  | O => m
  | S f => if days_before_month y (S m) <? k then find_month f (S m) y k else m
  end.

(** Four centuries have 146097 days, so the estimate is at most four years low;
    a year has twelve months. *)
Definition of_ordinal (n : Z) : Z * nat * Z :=
  let y := find_year 4 ((n - 1) * 400 / 146097) n in
  let k := n - days_before_year y in
  let m := find_month 11 1 y k in
  (y, m, k - days_before_month y m).

Definition of_instant (t : Z) : datetime :=
  let s := t / 1000000 in
  let '(y, m, d) := of_ordinal (s / 86400 + 1) in
  {| year := y; month := Z.of_nat m; day := d;
     hour := s mod 86400 / 3600; minute := s mod 3600 / 60; second := s mod 60;
     microsecond := t mod 1000000; utcoffset := Some 0 |}.

(** [datetime.max] in microseconds: years 1 to 9999 can be represented, anything
    else raises [OverflowError]. *)
Definition end_of_time : Z := 3652059 * 86400 * 1000000.
Definition in_range (t : Z) : bool := (0 <=? t) && (t <? end_of_time).

Definition utc_of (t : Z) : result Z := if in_range t then Ok t else Err OverflowError.
(** [value + timedelta(microseconds=d)] *)
Definition plus_micros (t d : Z) : result Z := utc_of (t + d).
(** [value.astimezone(timezone.utc)] of an aware value; [None] for a naive one. *)
Definition astimezone_utc (v : datetime) : option (result Z) :=
  match utcoffset v with Some _ => Some (utc_of (instant v)) | None => None end.

(** ** Text *)

(** [isoformat()] of a UTC value ends in "+00:00". *)
Definition isoformat_head (v : datetime) : string :=
  pad 4 (year v) +:+ "-" +:+ pad 2 (month v) +:+ "-" +:+ pad 2 (day v) +:+ "T"
  +:+ pad 2 (hour v) +:+ ":" +:+ pad 2 (minute v) +:+ ":" +:+ pad 2 (second v)
  +:+ (if microsecond v =? 0 then EmptyString else "." +:+ pad 6 (microsecond v)).
Definition isoformat (v : datetime) : string := isoformat_head v +:+ "+00:00".

(** [isoformat().replace("+00:00", "Z")] of the UTC value at [t]. *)
Definition timestamp (t : Z) : string := isoformat_z (of_instant t).

(** [datetime.fromisoformat] reads several notations; its documentation promises
    that it reads back what [isoformat] writes, and that promise is all the code
    relies on. *)
Class FromIso : Type := {
  fromisoformat : string → option datetime;       (* None: ValueError *)
  fromisoformat_isoformat : ∀ v,
    datetime_ok v = true → utcoffset v = Some 0 → fromisoformat (isoformat v) = Some v;
}.

(** [value[:-1]] and [value.endswith("Z")]. *)
Fixpoint butlast (s : string) : string :=
  match s with
  | EmptyString | String _ EmptyString => EmptyString
  | String c s' => String c (butlast s')
  end.
Fixpoint endswith_Z (s : string) : bool :=
  match s with
  | EmptyString => false
  | String c EmptyString => c == "Z"%char
  | String _ s' => endswith_Z s'
  end.

(** A reader of the notation [parse_rfc3339] accepts, "+00:00" included. *)
Program Definition rfc3339_iso : FromIso := {| fromisoformat := parse_rfc3339 |}.
Next Obligation.
  intros v Hok Hoff. unfold parse_rfc3339, isoformat, isoformat_head.
  assert (datetime_ok v = true) as Hr by done. unfold datetime_ok in Hr. breflect.
  assert (days_in_month (year v) (month v) ≤ 31).
  { unfold days_in_month. by repeat case_match. }
  repeat rewrite !str_app_assoc.
  repeat (rewrite read_pad by (simpl; lia);
          cbn [mbind option_bind read_char String.append];
          try (rewrite bool_decide_eq_true_2 by done; cbn [mbind option_bind])).
  assert (read_fraction
            ((if microsecond v =? 0 then EmptyString else String "." (pad 6 (microsecond v)))
             +:+ "+00:00") = Some (microsecond v, "+00:00")) as ->.
  { destruct (microsecond v =? 0) eqn:E; [by apply Z.eqb_eq in E as ->|].
    cbn [String.append read_fraction]. rewrite span_digits_app by (apply pad_digits || done).
    change (pad 6 (microsecond v))
      with (String (digit_char ((microsecond v / 10 ^ 5) mod 10)) (pad 5 (microsecond v))) at 1.
    cbv iota beta. rewrite fraction_pad, Z.mod_small by lia. done. }
  cbn [mbind option_bind].
  change (read_offset "+00:00") with (Some 0). cbn [mbind option_bind].
  rewrite <- Hoff. destruct v. simpl in *. by rewrite Hok.
Qed.

Section Reading.
Context `{FromIso}.

(** [fromisoformat(value[:-1] + "+00:00" if value.endswith("Z") else value)] as
    an aware instant; a naive value or an unreadable text gives [None]. *)
Definition read_time (s : string) : option Z :=
  fromisoformat (if endswith_Z s then butlast s +:+ "+00:00" else s) ≫= fun v =>
  match utcoffset v with Some _ => Some (instant v) | None => None end.

(** The "date-time" format check of src/eco_routing/contracts.py. *)
Definition is_date_time (s : string) : bool :=
  endswith_Z s && bool_decide (is_Some (read_time s)).
End Reading.

(** ** The fields of an instant *)

(** [lia] on floor divisions and remainders. *)
#[local] Ltac Zify.zify_post_hook ::= Z.to_euclidean_division_equations.

Lemma find_year_spec fuel y n :
  days_before_year y < n → n ≤ days_before_year (y + Z.of_nat fuel + 1) →
  days_before_year (find_year fuel y n) < n ≤ days_before_year (find_year fuel y n + 1) ∧
  y ≤ find_year fuel y n.
Proof.
  revert y. induction fuel as [|f IH]; intros y H1 H2; simpl.
  { replace (y + Z.of_nat 0 + 1) with (y + 1) in H2 by lia. lia. }
  destruct (_ <? n) eqn:E; breflect; [|lia].
  destruct (IH (y + 1)); [done| |lia].
  by replace (y + 1 + Z.of_nat f + 1) with (y + Z.of_nat (S f) + 1) by lia.
Qed.

Lemma find_month_spec fuel m y k :
  days_before_month y m < k → k ≤ days_before_month y (S (m + fuel)) →
  let r := find_month fuel m y k in
  days_before_month y r < k ≤ days_before_month y (S r) ∧ (m ≤ r ≤ m + fuel)%nat.
Proof.
  revert m. induction fuel as [|f IH]; intros m H1 H2; cbn [find_month].
  { rewrite Nat.add_0_r in *. simpl in *. lia. }
  destruct (_ <? k) eqn:E; breflect; cbn zeta; [|lia].
  destruct (IH (S m)); [done| |cbn zeta in *; lia].
  by replace (S m + f)%nat with (m + S f)%nat by lia.
Qed.

Lemma days_in_year y :
  days_before_month y 13 = days_before_year (y + 1) - days_before_year y.
Proof.
  unfold days_before_month, days_in_month, days_before_year, is_leap.
  repeat match goal with |- context [if bool_decide ?P then _ else _] =>
    let b := eval vm_compute in (bool_decide P) in change (bool_decide P) with b end.
  simpl Z.of_nat. simpl Z.eqb. cbv iota.
  destruct (y mod 4 =? 0) eqn:E4, (y mod 100 =? 0) eqn:E100, (y mod 400 =? 0) eqn:E400;
    simpl; breflect; lia.
Qed.

(** A year is 365.2425 days on average, within two days. *)
Lemma days_before_year_bounds y :
  146097 * (y - 1) - 800 ≤ 400 * days_before_year y ≤ 146097 * (y - 1) + 400.
Proof.
  unfold days_before_year. lia.
Qed.

Lemma days_before_year_mono y1 y2 : y1 ≤ y2 → days_before_year y1 ≤ days_before_year y2.
Proof.
  intros Hy. unfold days_before_year. destruct (decide (y1 = y2)) as [->|]; [lia|].
  pose proof (Z.div_le_mono (y1 - 1) (y2 - 1) 4 ltac:(lia) ltac:(lia)).
  pose proof (Z.div_le_mono (y1 - 1) (y2 - 1) 400 ltac:(lia) ltac:(lia)). lia.
Qed.

Lemma of_ordinal_spec n :
  1 ≤ n ≤ 3652059 →
  let '(y, m, d) := of_ordinal n in
  1 ≤ y ≤ 9999 ∧ (1 ≤ m ≤ 12)%nat ∧ 1 ≤ d ≤ days_in_month y (Z.of_nat m) ∧
  days_before_year y + days_before_month y m + d = n.
Proof.
  intros Hn. unfold of_ordinal.
  pose proof (Z.div_mod ((n - 1) * 400) 146097 ltac:(lia)) as Hq.
  pose proof (Z.mod_pos_bound ((n - 1) * 400) 146097 ltac:(lia)).
  set (q := (n - 1) * 400 / 146097) in *.
  pose proof (days_before_year_bounds q). pose proof (days_before_year_bounds (q + 5)).
  destruct (find_year_spec 4 q n) as [Hy Hlo]; [lia|by replace (q + _ + 1) with (q + 5) by lia; lia|].
  set (y := find_year 4 q n) in *. set (k := n - days_before_year y).
  destruct (find_month_spec 11 1 y k) as [Hm Hr].
  { simpl. lia. }
  { change (S (1 + 11)) with 13%nat. rewrite days_in_year. lia. }
  set (m := find_month 11 1 y k) in *.
  replace (days_before_month y (S m)) with (days_before_month y m + days_in_month y (Z.of_nat m))
    in Hm by (destruct m; [lia|done]).
  assert (y < 10000).
  { apply Z.nle_gt. intros Hge. apply days_before_year_mono in Hge.
    change (days_before_year 10000) with 3652059 in Hge. lia. }
  assert (1 ≤ y).
  { apply Z.nlt_ge. intros Hlt. assert (y + 1 ≤ 1) as Hle by lia.
    apply days_before_year_mono in Hle. change (days_before_year 1) with 0 in Hle. lia. }
  split_and!; lia.
Qed.

Lemma of_instant_spec t :
  in_range t = true →
  datetime_ok (of_instant t) = true ∧ utcoffset (of_instant t) = Some 0 ∧
  instant (of_instant t) = t.
Proof.
  unfold in_range, end_of_time. intros Ht. breflect. unfold of_instant.
  pose proof (Z.div_mod t 1000000 ltac:(lia)). pose proof (Z.mod_pos_bound t 1000000 ltac:(lia)).
  set (us := t mod 1000000) in *. set (s := t / 1000000) in *.
  pose proof (Z.div_mod s 86400 ltac:(lia)). pose proof (Z.mod_pos_bound s 86400 ltac:(lia)).
  assert (s mod 3600 = (s mod 86400) mod 3600)
    by (rewrite <- Znumtheory.Zmod_div_mod; [done|lia..|by exists 24]).
  assert (s mod 60 = (s mod 86400) mod 60)
    by (rewrite <- Znumtheory.Zmod_div_mod; [done|lia..|by exists 1440]).
  set (r := s mod 86400) in *. set (q := s / 86400) in *.
  pose proof (of_ordinal_spec (q + 1)) as Ho. destruct (of_ordinal (q + 1)) as [[y m] d].
  destruct Ho as (Hy & Hm & Hd & Hsum); [lia|].
  clearbody us s q r. split_and!; [|done|].
  - unfold datetime_ok. cbn [year month day hour minute second microsecond utcoffset].
    repeat (apply andb_true_iff; split); try (apply Z.leb_le; lia). done.
  - unfold instant, toordinal. cbn [year month day hour minute second microsecond utcoffset].
    rewrite Nat2Z.id, Hsum. simpl default. lia.
Qed.

(** ** Reading back a printed instant *)

Lemma timestamp_shape v : isoformat_z v = isoformat_head v +:+ "Z".
Proof. unfold isoformat_z, isoformat_head. by rewrite !str_app_assoc. Qed.

Lemma butlast_Z s : butlast (s +:+ "Z") = s.
Proof. induction s as [|c s IH]; [done|]. simpl. rewrite IH. by destruct s. Qed.
Lemma endswith_Z_app s : endswith_Z (s +:+ "Z") = true.
Proof. induction s as [|c s IH]; [done|]. simpl. rewrite IH. by destruct s. Qed.

Lemma read_timestamp `{FromIso} t : in_range t = true → read_time (timestamp t) = Some t.
Proof.
  intros (Hok & Hoff & Hi)%of_instant_spec. unfold read_time, timestamp.
  rewrite timestamp_shape, endswith_Z_app, butlast_Z.
  change (isoformat_head (of_instant t) +:+ "+00:00") with (isoformat (of_instant t)).
  rewrite fromisoformat_isoformat by done. cbn [mbind option_bind]. by rewrite Hoff, Hi.
Qed.

Lemma timestamp_date_time `{FromIso} t : in_range t = true → is_date_time (timestamp t) = true.
Proof.
  intros Ht. unfold is_date_time. rewrite read_timestamp by done.
  unfold timestamp. rewrite timestamp_shape, endswith_Z_app. by apply bool_decide_eq_true.
Qed.
#[export] Hint Resolve timestamp_date_time : eco.
