(* ===== verification/PyFloat.v ===== *)
(** * Seconds as binary64 numbers

    [datetime.timestamp()] is a float: the correctly rounded quotient of the
    microseconds since 1970 by a million.  The team coordinator multiplies it by
    a million and truncates.  [round53] is rounding to 53 bits, to nearest with
    ties to even, of a quotient of integers; numbers are kept in units of
    [2 ^ -80], which holds every float these computations meet: a timestamp of at
    least a microsecond needs bits down to [2 ^ -72]. *)

From S2P Require Import Prelude PyTime PyClock.

Definition SCALE : Z := 2 ^ 80.

(** [n / d] rounded to the nearest integer, ties to even. *)
Definition round_even (n d : Z) : Z :=
  let q := n / d in
  let r := n mod d in
  if 2 * r <? d then q else if d <? 2 * r then q + 1 else if Z.even q then q else q + 1.

(** The weight of the last of 53 bits of [n / d]. *)
Definition last_bit (n d : Z) : Z := Z.max 0 (Z.log2 (n / d) - 52).
Definition round53 (n d : Z) : Z :=
  let e := last_bit n d in round_even n (d * 2 ^ e) * 2 ^ e.

(** [int(seconds * 1_000_000)] where [seconds] is the float of [us] microseconds. *)
Definition truncated_micros (us : Z) : Z :=
  round53 (round53 (us * SCALE) 1000000 * 1000000) 1 / SCALE.

(** Microseconds from year 1 to 1970. *)
Definition unix_epoch : Z := 719162 * 86400 * 1000000.

(** [_epoch(value)] of src/eco_teams/runtime.py for the instant [t]. *)
Definition epoch (t : Z) : Z :=
  let us := t - unix_epoch in
  if us <? 0 then - truncated_micros (- us) else truncated_micros us.

(** [value.timestamp()] for the instant [t], in units of [2 ^ -80] seconds. *)
Definition posix_seconds (t : Z) : Z :=
  let us := t - unix_epoch in
  if us <? 0 then - round53 (- us * SCALE) 1000000 else round53 (us * SCALE) 1000000.

(** [datetime.fromtimestamp(us / 1_000_000, tz=timezone.utc)]: the fraction of the
    float is scaled by a million, as a float, and rounded half to even. *)
Definition from_epoch (us : Z) : Z :=
  let micros (us : Z) :=
    let x := round53 (us * SCALE) 1000000 in
    x / SCALE * 1000000 + round_even (round53 (x mod SCALE * 1000000) 1) SCALE in
  unix_epoch + (if us <? 0 then - micros (- us) else micros us).

(** ** Rounding is monotone *)

Lemma round_even_mono n n' d : 0 < d → n ≤ n' → round_even n d ≤ round_even n' d.
Proof.
  intros Hd Hn. unfold round_even.
  pose proof (Z.div_mod n d ltac:(lia)). pose proof (Z.mod_pos_bound n d Hd).
  pose proof (Z.div_mod n' d ltac:(lia)). pose proof (Z.mod_pos_bound n' d Hd).
  pose proof (Z.div_le_mono n n' d Hd Hn) as Hq.
  destruct (decide (n / d = n' / d)) as [E|E].
  - rewrite <- E in *. repeat case_match; breflect; nia.
  - assert (n / d + 1 ≤ n' / d) by lia. repeat case_match; breflect; lia.
Qed.

Lemma round_even_exact k d : 0 < d → round_even (k * d) d = k.
Proof.
  intros Hd. unfold round_even. rewrite Z.div_mul, Z.mod_mul by lia.
  rewrite (proj2 (Z.ltb_lt (2 * 0) d)) by lia. done.
Qed.

Lemma round53_lower n d :
  0 < d → 0 < last_bit n d → 2 ^ (52 + last_bit n d) ≤ round53 n d.
Proof.
  intros Hd He. unfold round53. set (e := last_bit n d) in *.
  assert (Z.log2 (n / d) = 52 + e) as Hlog by (unfold e, last_bit in *; lia).
  assert (0 < n / d) as Hpos.
  { apply Z.nle_gt. intros H. rewrite Z.log2_nonpos in Hlog by lia. lia. }
  pose proof (Z.log2_spec (n / d) Hpos) as [Hlo _]. rewrite Hlog in Hlo.
  rewrite Z.pow_add_r in * by lia. apply Z.mul_le_mono_nonneg_r; [lia|].
  rewrite <- (round_even_exact (2 ^ 52) (d * 2 ^ e)) by nia.
  apply round_even_mono; [nia|]. pose proof (Z.mul_div_le n d Hd). nia.
Qed.

Lemma round53_upper n d : 0 < d → 0 ≤ n → round53 n d ≤ 2 ^ (53 + last_bit n d).
Proof.
  intros Hd Hn. unfold round53. set (e := last_bit n d) in *.
  assert (0 ≤ e) by (unfold e, last_bit; lia).
  rewrite Z.pow_add_r by lia. apply Z.mul_le_mono_nonneg_r; [lia|].
  rewrite <- (round_even_exact (2 ^ 53) (d * 2 ^ e)) by nia.
  apply round_even_mono; [nia|].
  assert (n / d < 2 ^ (53 + e)) as Hlt.
  { destruct (decide (n / d = 0)) as [->|]; [by apply Z.pow_pos_nonneg; lia|].
    assert (0 < n / d) as Hpos by (pose proof (Z.div_pos n d Hn Hd); lia).
    pose proof (Z.log2_spec (n / d) Hpos) as [_ Hhi].
    eapply Z.lt_le_trans; [exact Hhi|]. apply Z.pow_le_mono_r; [lia|].
    unfold e, last_bit. lia. }
  rewrite Z.pow_add_r in Hlt by lia.
  pose proof (Z.div_mod n d ltac:(lia)). pose proof (Z.mod_pos_bound n d Hd). nia.
Qed.

Lemma round53_mono n n' d : 0 < d → 0 ≤ n → n ≤ n' → round53 n d ≤ round53 n' d.
Proof.
  intros Hd Hn Hle.
  assert (last_bit n d ≤ last_bit n' d) as He.
  { unfold last_bit. pose proof (Z.div_le_mono n n' d Hd Hle) as Hq.
    pose proof (Z.log2_le_mono _ _ Hq). lia. }
  assert (0 ≤ last_bit n d) by (unfold last_bit; lia).
  destruct (decide (last_bit n d = last_bit n' d)) as [E|E].
  - unfold round53. rewrite <- E. apply Z.mul_le_mono_nonneg_r; [lia|].
    apply round_even_mono; [|done]. pose proof (Z.pow_pos_nonneg 2 (last_bit n d)). nia.
  - etrans; [by apply round53_upper|]. etrans; [|by apply round53_lower; lia].
    apply Z.pow_le_mono_r; lia.
Qed.

Lemma round53_nonneg n d : 0 < d → 0 ≤ n → 0 ≤ round53 n d.
Proof.
  intros Hd Hn. etrans; [|by apply (round53_mono 0 n d)]. unfold round53.
  rewrite <- (Z.mul_0_l (d * 2 ^ last_bit 0 d)), round_even_exact; [lia|].
  pose proof (Z.pow_pos_nonneg 2 (last_bit 0 d)). unfold last_bit in *. nia.
Qed.

Lemma truncated_micros_mono us us' :
  0 ≤ us → us ≤ us' → 0 ≤ truncated_micros us ≤ truncated_micros us'.
Proof.
  intros H0 Hle. unfold truncated_micros, SCALE.
  assert (0 ≤ round53 (us * 2 ^ 80) 1000000) by (apply round53_nonneg; lia). split.
  - apply Z.div_pos; [|lia]. apply round53_nonneg; lia.
  - apply Z.div_le_mono; [lia|]. apply round53_mono; [lia..|].
    apply Z.mul_le_mono_nonneg_r; [lia|]. apply round53_mono; lia.
Qed.

(** A later instant never has an earlier epoch. *)
Lemma epoch_mono t t' : t ≤ t' → epoch t ≤ epoch t'.
Proof.
  intros Ht. unfold epoch. set (u := t - unix_epoch). set (u' := t' - unix_epoch).
  assert (u ≤ u') by lia. clearbody u u'.
  destruct (u <? 0) eqn:E, (u' <? 0) eqn:E'; breflect.
  - pose proof (truncated_micros_mono (- u') (- u) ltac:(lia) ltac:(lia)). lia.
  - pose proof (truncated_micros_mono 0 (- u) ltac:(lia) ltac:(lia)).
    pose proof (truncated_micros_mono 0 u' ltac:(lia) ltac:(lia)). lia.
  - lia.
  - apply truncated_micros_mono; lia.
Qed.

(** Values of CPython: microseconds survive for centuries, then bits are lost. *)
Example epoch_values :
  map (fun us => epoch (unix_epoch + us))
    [68014209015768742; 179703221285055922; -35899846172226449; 1753000000000001; 999999]
  = [68014209015768744; 179703221285055904; -35899846172226448; 1753000000000001; 999999].
Proof. vm_compute. reflexivity. Qed.
Example from_epoch_values :
  map (fun us => from_epoch us - unix_epoch)
    [68014209015768742; 179703221285055922; -35899846172226449; 1753000000000001; 999999]
  = [68014209015768745; 179703221285055908; -35899846172226448; 1753000000000001; 999999].
Proof. vm_compute. reflexivity. Qed.
