(* ===== verification/Schema.v ===== *)
(** * JSON Schema documents

    The records of the system are validated by the [jsonschema] package against
    schema documents under src/.  [schema] is the part of Draft 2020-12 those
    documents use, [conforms] the documented meaning of its keywords, and the
    class [Jsonschema] the validator itself, of which the sources rely on that
    documented meaning only. *)

From S2P Require Import Prelude Json.
From Stdlib Require Import Ascii.

#[warnings="-register-all"]
Inductive schema : Type :=
| SNull                                           (* {"type": "null"} *)
| SStr (p : string → bool)                        (* type string with pattern or format *)
| SInt (minimum : Z)                              (* type integer with minimum *)
| SRange (minimum maximum : Z)                    (* type integer with both bounds *)
| SBool                                           (* {"type": "boolean"} *)
| SEnum (l : list string)                         (* enum, or const with one value *)
| SOneOf (a b : schema)                           (* oneOf of two *)
| SArr (minItems maxItems : nat) (items : schema)
| SList (minItems : nat) (items : schema)         (* array without maxItems *)
| SStrs (minItems : nat) (p : string → bool)      (* array of strings, uniqueItems: true *)
| SObj (required : list string) (properties : list (string * schema))
                                                  (* additionalProperties: false *)
| SConst (b : bool).                              (* {"const": true} or {"const": false} *)

(** [re.search("^...$", v)]: Python's [$] also matches before one final newline. *)
Definition search_pattern (p : string → bool) (v : string) : bool :=
  p v || (fix chomp (acc : string → string) (v : string) : bool :=
            match v with
            | EmptyString => false
            | String "010" EmptyString => p (acc EmptyString)
            | String c v' => chomp (fun r => acc (String c r)) v'
            end) (fun r => r) v.

(** The strings of an array, when all its items are strings. *)
Definition as_strs (j : json) : option (list string) :=
  match j with
  | JArr l => mapM (fun x => match x with JStr v => Some v | _ => None end) l
  | _ => None
  end.

Fixpoint conforms (s : schema) (j : json) : bool :=
  match s, j with
  | SNull, JNull => true
  | SStr p, JStr v => p v
  | SInt lo, JInt v => lo <=? v
  | SRange lo hi, JInt v => (lo <=? v) && (v <=? hi)
  | SBool, JBool _ => true
  | SConst b, JBool b' => Bool.eqb b b'
  | SEnum l, JStr v => v in? l
  | SOneOf a b, _ => xorb (conforms a j) (conforms b j)
  | SArr lo hi item, JArr l =>
      (lo <=? length l)%nat && (length l <=? hi)%nat && forallb (conforms item) l
  | SList lo item, JArr l => (lo <=? length l)%nat && forallb (conforms item) l
  | SStrs lo p, JArr _ =>
      match as_strs j with
      | Some vs => (lo <=? length vs)%nat && bool_decide (NoDup vs) && forallb p vs
      | None => false
      end
  | SObj required props, JObj o =>
      bool_decide (NoDup o.*1)
      && forallb (fun k => k in? o.*1) required
      && forallb
           (fun kv =>
              (fix find (ps : list (string * schema)) : bool :=
                 match ps with
                 | [] => false
                 | (k, s') :: ps' => if kv.1 == k then conforms s' kv.2 else find ps'
                 end) props) o
  | _, _ => false
  end.

Class Jsonschema : Type := {
  is_valid : schema → json → bool;                (* Draft202012Validator(s).is_valid(j) *)
  is_valid_conforms : ∀ s j, is_valid s j = conforms s j;
}.

(** The validator with exactly the documented meaning. *)
Definition draft202012 : Jsonschema :=
  {| is_valid := conforms; is_valid_conforms := fun _ _ => eq_refl |}.

(** ** What conformance gives *)

Fixpoint prop_schema (k : string) (ps : list (string * schema)) : option schema :=
  match ps with
  | [] => None
  | (k', s) :: ps' => if k == k' then Some s else prop_schema k ps'
  end.

Lemma conforms_obj required props o :
  conforms (SObj required props) (JObj o) = true →
  NoDup o.*1 ∧ (∀ k, k ∈ required → k ∈ o.*1) ∧
  (∀ k v, (k, v) ∈ o → ∃ s, prop_schema k props = Some s ∧ conforms s v = true).
Proof.
  simpl. intros H. breflect. split_and!; [done| |].
  - intros k Hk. rewrite forallb_forall in H1. apply list_elem_of_In in Hk.
    specialize (H1 _ Hk). by breflect.
  - intros k v Hkv. rewrite forallb_forall in H0. apply list_elem_of_In in Hkv.
    specialize (H0 _ Hkv). simpl in H0. clear -H0.
    induction props as [|[k' s] ps IH]; [done|]. simpl.
    case_bool_decide; [by exists s|]. by apply IH.
Qed.

(** A required property is present and conforms to its schema. *)
Lemma conforms_required required props o k s :
  conforms (SObj required props) (JObj o) = true →
  k ∈ required → prop_schema k props = Some s →
  ∃ v, jassoc k o = Some v ∧ conforms s v = true.
Proof.
  intros (_ & Hreq & Hprops)%conforms_obj Hk Hs.
  destruct (jassoc_dom k o (Hreq k Hk)) as [v Hv]. exists v. split; [done|].
  destruct (Hprops k v (jassoc_elem _ _ _ Hv)) as (s' & E & Hc). congruence.
Qed.

Lemma as_strs_arr l vs : as_strs (JArr l) = Some vs → l = map JStr vs.
Proof.
  simpl. revert vs. induction l as [|x l IH]; intros vs H; simpl in H; [by injection H as <-|].
  destruct x; simpl in H; try discriminate. destruct (mapM _ l) eqn:E; simpl in H; [|discriminate].
  injection H as <-. simpl. f_equal. by apply IH.
Qed.

(** A record that conforms is a value JSON can carry. *)
Lemma conforms_wf s j : conforms s j = true → json_wf j = true.
Proof.
  revert s. induction j as [| | | |l IH|o IH] using json_nested_ind; intros sc; try done.
  - intros H. simpl. rewrite forallb_forall. intros x Hx.
    rewrite List.Forall_forall in IH.
    induction sc as [| | | | | |a IHa b IHb|lo hi item _|lo item _|lo p| |]; cbn [conforms] in H;
      try discriminate.
    + destruct (forallb json_wf l) eqn:E; [by rewrite forallb_forall in E; apply E|].
      destruct (conforms a (JArr l)), (conforms b (JArr l)); simpl in *; try discriminate; auto.
    + breflect. rewrite forallb_forall in H0. by apply (IH x Hx item), H0.
    + breflect. rewrite forallb_forall in H0. by apply (IH x Hx item), H0.
    + destruct (as_strs (JArr l)) as [vs|] eqn:E; [|discriminate].
      apply as_strs_arr in E as ->. apply in_map_iff in Hx as (v & <- & _). done.
  - intros H. induction sc as [| | | | | |a IHa b IHb| | | |req ps|]; cbn [conforms] in H;
      try discriminate.
    + destruct (conforms a (JObj o)), (conforms b (JObj o)); simpl in *; try discriminate; auto.
    + apply conforms_obj in H as (Hnd & _ & Hp). simpl. rewrite bool_decide_true by done. simpl.
      rewrite forallb_forall. intros [k v] Hkv. simpl.
      pose proof Hkv as Hin. apply list_elem_of_In in Hin. destruct (Hp k v Hin) as (s' & _ & Hs).
      rewrite List.Forall_forall in IH. by apply (IH (k, v) Hkv s').
Qed.
