(* ===== verification/RunReducer.v ===== *)
(** * The pure run-event reducer, src/eco_runtime/state_reducer.py

    [reduce_run_event] is the transition function that the in-memory event
    chain and the durable replay share.  The local variables that the Python
    function copies out of the projection and hands to [RunProjection.from_parts]
    are the record [Parts]. *)

From S2P Require Import Prelude Json.

Inductive RunState : Type :=
| NEW | RECEIVED | VALIDATED | PLANNED | AUTHORIZED | RUNNING
| SUCCEEDED | FAILED | DENIED | CANCELLED | EXHAUSTED.

#[export] Instance RunState_eq_dec : EqDecision RunState.
Proof. solve_decision. Defined.

Definition TERMINAL_STATES : list RunState :=
  [SUCCEEDED; FAILED; DENIED; CANCELLED; EXHAUSTED].

Record RunProjection : Type := {
  state : RunState;
  tool_states : list (string * string * string);
  adapter_completed : bool;
  adapter_failed : bool;
  budget_exhausted : bool;
  no_model_authorized : bool;
  no_model_started : bool;
  no_model_plan_digest : option string;
  no_model_scope_entries : list (string * string);
  no_model_results : list (string * string * string);
}.

(** The keyword arguments of [RunProjection.from_parts] other than [state]. *)
Record Parts : Type := {
  p_tools : gmap string (string * string);
  p_adapter_completed : bool;
  p_adapter_failed : bool;
  p_budget_exhausted : bool;
  p_nm_authorized : bool;
  p_nm_started : bool;
  p_nm_plan_digest : option string;
  p_nm_scope : gmap string string;
  p_nm_results : gmap string (string * string);
}.

Definition empty_parts : Parts :=
  {| p_tools := ∅; p_adapter_completed := false; p_adapter_failed := false;
     p_budget_exhausted := false; p_nm_authorized := false; p_nm_started := false;
     p_nm_plan_digest := None; p_nm_scope := ∅; p_nm_results := ∅ |}.

(** [RunProjection.initial()] *)
Definition initial : RunProjection :=
  {| state := NEW; tool_states := []; adapter_completed := false; adapter_failed := false;
     budget_exhausted := false; no_model_authorized := false; no_model_started := false;
     no_model_plan_digest := None; no_model_scope_entries := []; no_model_results := [] |}.

(** [tuple((key, a, b) for key, (a, b) in sorted(d.items()))] *)
Definition triples (m : gmap string (string * string)) : list (string * string * string) :=
  map (fun kv => (kv.1, kv.2.1, kv.2.2)) (sorted_items (map_to_list m)).

(** [{key: (a, b) for key, a, b in l}] *)
Definition triples_map (l : list (string * string * string)) : gmap string (string * string) :=
  foldl (fun m t => <[t.1.1 := (t.1.2, t.2)]> m) ∅ l.

(** [dict(l)] *)
Definition pairs_map (l : list (string * string)) : gmap string string :=
  foldl (fun m kv => <[kv.1 := kv.2]> m) ∅ l.

Definition from_parts (s : RunState) (p : Parts) : RunProjection :=
  {| state := s;
     tool_states := triples (p_tools p);
     adapter_completed := p_adapter_completed p;
     adapter_failed := p_adapter_failed p;
     budget_exhausted := p_budget_exhausted p;
     no_model_authorized := p_nm_authorized p;
     no_model_started := p_nm_started p;
     no_model_plan_digest := p_nm_plan_digest p;
     no_model_scope_entries := sorted_items (map_to_list (p_nm_scope p));
     no_model_results := triples (p_nm_results p) |}.

(** [projection.tool_map()], [projection.no_model_result_map()] and the other
    locals that [reduce_run_event] starts from. *)
Definition tool_map (pr : RunProjection) : gmap string (string * string) :=
  triples_map (tool_states pr).
Definition no_model_result_map (pr : RunProjection) : gmap string (string * string) :=
  triples_map (no_model_results pr).
Definition to_parts (pr : RunProjection) : Parts :=
  {| p_tools := tool_map pr;
     p_adapter_completed := adapter_completed pr;
     p_adapter_failed := adapter_failed pr;
     p_budget_exhausted := budget_exhausted pr;
     p_nm_authorized := no_model_authorized pr;
     p_nm_started := no_model_started pr;
     p_nm_plan_digest := no_model_plan_digest pr;
     p_nm_scope := pairs_map (no_model_scope_entries pr);
     p_nm_results := no_model_result_map pr |}.

(** ** Assignments to one local variable *)

Definition set_tools (p : Parts) t : Parts :=
  {| p_tools := t; p_adapter_completed := p_adapter_completed p;
     p_adapter_failed := p_adapter_failed p; p_budget_exhausted := p_budget_exhausted p;
     p_nm_authorized := p_nm_authorized p; p_nm_started := p_nm_started p;
     p_nm_plan_digest := p_nm_plan_digest p; p_nm_scope := p_nm_scope p;
     p_nm_results := p_nm_results p |}.
Definition set_results (p : Parts) r : Parts :=
  {| p_tools := p_tools p; p_adapter_completed := p_adapter_completed p;
     p_adapter_failed := p_adapter_failed p; p_budget_exhausted := p_budget_exhausted p;
     p_nm_authorized := p_nm_authorized p; p_nm_started := p_nm_started p;
     p_nm_plan_digest := p_nm_plan_digest p; p_nm_scope := p_nm_scope p;
     p_nm_results := r |}.
Definition set_flags (p : Parts) (completed failed exhausted : bool) : Parts :=
  {| p_tools := p_tools p; p_adapter_completed := completed;
     p_adapter_failed := failed; p_budget_exhausted := exhausted;
     p_nm_authorized := p_nm_authorized p; p_nm_started := p_nm_started p;
     p_nm_plan_digest := p_nm_plan_digest p; p_nm_scope := p_nm_scope p;
     p_nm_results := p_nm_results p |}.
Definition set_authorized (p : Parts) (plan_digest : string) : Parts :=
  {| p_tools := p_tools p; p_adapter_completed := p_adapter_completed p;
     p_adapter_failed := p_adapter_failed p; p_budget_exhausted := p_budget_exhausted p;
     p_nm_authorized := true; p_nm_started := p_nm_started p;
     p_nm_plan_digest := Some plan_digest; p_nm_scope := p_nm_scope p;
     p_nm_results := p_nm_results p |}.
Definition set_started (p : Parts) scope : Parts :=
  {| p_tools := p_tools p; p_adapter_completed := p_adapter_completed p;
     p_adapter_failed := p_adapter_failed p; p_budget_exhausted := p_budget_exhausted p;
     p_nm_authorized := p_nm_authorized p; p_nm_started := true;
     p_nm_plan_digest := p_nm_plan_digest p; p_nm_scope := scope;
     p_nm_results := p_nm_results p |}.

(** ** Conditions of the source *)

(** [value in {"a", "b", ...}]; an unhashable value is a [TypeError]. *)
Definition json_in (j : json) (l : list string) : result bool :=
  match j with
  | JArr _ | JObj _ => Err TypeError
  | JStr s => Ok (s in? l)
  | _ => Ok false
  end.

(** [any(state in {"requested", "allowed"} for state, _ in tools.values())] *)
Definition has_open (tools : gmap string (string * string)) : bool :=
  existsb (fun kv => kv.2.1 in? ["requested"; "allowed"]) (map_to_list tools).

Definition SLOTS : list string := ["slot-1"; "slot-2"; "slot-3"].

Definition lifecycle_error : py_error := RuntimeStateError "ECO_NO_MODEL_LIFECYCLE".
Definition binding_error : py_error := RuntimeStateError "ECO_TOOL_EVENT_BINDING".
Definition order_error : py_error := RuntimeStateError "ECO_TOOL_EVENT_ORDER".

(** The [for entry in entries] loop of "no-model.workflow.started". *)
Fixpoint scope_loop (entries : list json) (acc : gmap string string)
  : result (gmap string string) :=
  match entries with
  | [] => Ok acc
  | JObj entry :: rest =>
      let slot := jget "slot" entry in
      let entry_digest := jget "entryDigest" entry in
      let! known := json_in slot SLOTS in
      match known, slot, entry_digest with
      | true, JStr slot, JStr entry_digest =>
          raise lifecycle_error when (bool_decide (slot ∈ dom acc)) else
          scope_loop rest (<[slot := entry_digest]> acc)
      | _, _, _ => Err lifecycle_error
      end
  | _ => Err lifecycle_error
  end.

(** Number of distinct values of a dict: [len(set(d.values()))]. *)
Definition distinct_values {V} `{Countable V} (m : gmap string V) : nat :=
  size (list_to_set (map snd (map_to_list m)) : gset V).

Definition start_no_model (p : Parts) (spec : list (string * json)) : result Parts :=
  raise lifecycle_error when
    (negb (p_nm_authorized p)
     || negb (json_is_optstr (jget "subjectDigest" spec) (p_nm_plan_digest p))) else
  match jget "scopeEntries" spec with
  | JArr entries =>
      raise lifecycle_error when (negb (length entries =? 3)%nat) else
      let! scope_entries := scope_loop entries ∅ in
      raise lifecycle_error when
        ((dom scope_entries != list_to_set SLOTS)
         || negb (distinct_values scope_entries =? 3)%nat) else
      Ok (set_started p scope_entries)
  | _ => Err lifecycle_error
  end.

(** A "no-model.read.*" event of a started no-model run. *)
Definition no_model_read (p : Parts) (event_type : string) (spec : list (string * json))
  : result Parts :=
  match jget "subjectId" spec, jget "subjectDigest" spec with
  | JStr subject_id, JStr subject_digest =>
      match jget "scopeSlot" spec with
      | JStr scope_slot =>
          raise lifecycle_error when
            (negb (json_is_optstr (jget "entryDigest" spec) (p_nm_scope p !! scope_slot))) else
          let move phase := set_tools p (<[scope_slot := (phase, subject_digest)]> (p_tools p)) in
          match p_tools p !! scope_slot with
          | existing =>
            if event_type == "no-model.read.requested" then
              match existing with
              | Some _ => Err order_error
              | None => Ok (move "requested")
              end
            else
              match existing with
              | None => Err binding_error
              | Some (current, digest) =>
                  raise binding_error when (digest != subject_digest) else
                  if (event_type == "no-model.read.allowed") && (current == "requested")
                  then Ok (move "allowed")
                  else if (event_type == "no-model.read.started") && (current == "allowed")
                  then Ok (move "started")
                  else if (event_type == "no-model.read.denied")
                          && (current in? ["requested"; "allowed"])
                  then Ok (move "denied")
                  else if (event_type == "no-model.read.failed")
                          && (current in? ["allowed"; "started"])
                  then match jget "resultDigest" spec with
                       | JStr _ => Ok (move "failed")
                       | _ => Err binding_error
                       end
                  else if (event_type == "no-model.read.completed") && (current == "started")
                  then match jget "resultDigest" spec with
                       | JStr _ =>
                           match jget "contentDigest" spec with
                           | JStr content_digest =>
                               let heading_check := jget "headingCheck" spec in
                               let! known := json_in heading_check ["pass"; "fail"] in
                               match known, heading_check with
                               | true, JStr heading_check =>
                                   Ok (set_results (move "completed")
                                         (<[scope_slot := (content_digest, heading_check)]>
                                            (p_nm_results p)))
                               | _, _ => Err binding_error
                               end
                           | _ => Err binding_error
                           end
                       | _ => Err binding_error
                       end
                  else Err order_error
              end
          end
      | _ => Err lifecycle_error
      end
  | _, _ => Err binding_error
  end.

(** The preconditions of "no-model.workflow.succeeded". *)
Definition no_model_success_ok (p : Parts) : bool :=
  negb ((dom (p_tools p) != dom (p_nm_scope p))
        || existsb (fun kv => kv.2.1 != "completed") (map_to_list (p_tools p))
        || (dom (p_nm_results p) != dom (p_nm_scope p))
        || existsb (fun kv => kv.2.2 != "pass") (map_to_list (p_nm_results p))
        || negb (distinct_values (fst <$> p_nm_results p) =? 3)%nat).

(** A "tool.*" event of a running model run. *)
Definition tool_event (p : Parts) (event_type : string) (spec : list (string * json))
  : result Parts :=
  match jget "subjectId" spec, jget "subjectDigest" spec with
  | JStr subject_id, JStr subject_digest =>
      let move phase := set_tools p (<[subject_id := (phase, subject_digest)]> (p_tools p)) in
      if event_type == "tool.requested" then
        raise order_error when
          (p_adapter_completed p || p_adapter_failed p || p_budget_exhausted p
           || bool_decide (is_Some (p_tools p !! subject_id))) else
        Ok (move "requested")
      else
        match p_tools p !! subject_id with
        | None => Err binding_error
        | Some (current, digest) =>
            raise binding_error when (digest != subject_digest) else
            if (event_type == "tool.allowed") && (current == "requested")
            then Ok (move "allowed")
            else if (event_type == "tool.denied") && (current == "requested")
            then Ok (move "denied")
            else if (event_type == "tool.cancelled") && (current in? ["requested"; "allowed"])
            then Ok (move "cancelled")
            else if (event_type in? ["tool.completed"; "tool.failed"]) && (current == "allowed")
            then match jget "resultDigest" spec with
                 | JStr _ =>
                     Ok (move (if event_type == "tool.completed" then "completed" else "failed"))
                 | _ => Err binding_error
                 end
            else Err order_error
        end
  | _, _ => Err binding_error
  end.

(** Terminating events are refused while a tool operation is open. *)
Definition close_run (p : Parts) (s : RunState) : result RunProjection :=
  raise order_error when (has_open (p_tools p)) else Ok (from_parts s p).

(** The [projection.state == RunState.RUNNING] block after its no-model part;
    [None] is the fall-through to the end of the function. *)
Definition running_event (p : Parts) (event_type : string) (spec : list (string * json))
  : option (result RunProjection) :=
  let completed := p_adapter_completed p in
  let failed := p_adapter_failed p in
  let exhausted := p_budget_exhausted p in
  if startswith event_type "tool." then
    Some (let! p' := tool_event p event_type spec in Ok (from_parts RUNNING p'))
  else if event_type == "adapter.completed" then
    Some (raise (RuntimeStateError "ECO_ADAPTER_EVENT_ORDER") when
            (completed || failed || exhausted || has_open (p_tools p)) else
          Ok (from_parts RUNNING (set_flags p true failed exhausted)))
  else if event_type == "adapter.failed" then
    Some (raise (RuntimeStateError "ECO_ADAPTER_EVENT_ORDER") when (completed || failed) else
          Ok (from_parts RUNNING (set_flags p completed true exhausted)))
  else if event_type == "artifact.recorded" then
    Some (raise (RuntimeStateError "ECO_STATE_TRANSITION") when (failed || exhausted) else
          Ok (from_parts RUNNING p))
  else if event_type == "budget.exhausted" then
    Some (raise (RuntimeStateError "ECO_BUDGET_EVENT_ORDER") when (exhausted || completed) else
          Ok (from_parts RUNNING (set_flags p completed failed true)))
  else if event_type == "run.succeeded" then
    Some (raise (RuntimeStateError "ECO_RUN_SUCCESS_INVALID") when
            (negb completed || failed || exhausted || has_open (p_tools p)) else
          Ok (from_parts SUCCEEDED p))
  else if event_type == "run.exhausted" then
    Some (raise (RuntimeStateError "ECO_RUN_EXHAUSTION_INVALID") when (negb exhausted) else
          close_run p EXHAUSTED)
  else if event_type == "run.failed" then Some (close_run p FAILED)
  else if event_type == "run.cancelled" then Some (close_run p CANCELLED)
  else None.

(** The [if no_model_started] block. *)
Definition no_model_event (p : Parts) (event_type : string) (spec : list (string * json))
  : option (result RunProjection) :=
  if startswith event_type "adapter." || startswith event_type "tool."
     || (event_type in? ["artifact.recorded"; "budget.exhausted"; "run.succeeded"; "run.exhausted"])
  then Some (Err lifecycle_error)
  else if startswith event_type "no-model.read." then
    Some (let! p' := no_model_read p event_type spec in Ok (from_parts RUNNING p'))
  else if event_type == "no-model.workflow.succeeded" then
    Some (raise (RuntimeStateError "ECO_RUN_SUCCESS_INVALID") when
            (negb (no_model_success_ok p)) else
          Ok (from_parts SUCCEEDED p))
  else None.

(** The [projection.state == RunState.PLANNED] block. *)
Definition planned_event (p : Parts) (event_type : string) (spec : list (string * json))
  : option (result RunProjection) :=
  if event_type == "policy.allowed" then Some (Ok (from_parts AUTHORIZED p))
  else if event_type == "policy.denied" then Some (Ok (from_parts DENIED p))
  else if event_type == "no-model.policy.allowed" then
    Some (match jget "subjectDigest" spec with
          | JStr plan_digest => Ok (from_parts AUTHORIZED (set_authorized p plan_digest))
          | _ => Err lifecycle_error
          end)
  else if event_type == "no-model.policy.denied" then Some (Ok (from_parts DENIED p))
  else None.

(** The [projection.state == RunState.AUTHORIZED] block. *)
Definition authorized_event (p : Parts) (event_type : string) (spec : list (string * json))
  : option (result RunProjection) :=
  if event_type == "adapter.started" then
    Some (raise lifecycle_error when (p_nm_authorized p) else Ok (from_parts RUNNING p))
  else if event_type == "no-model.workflow.started" then
    Some (let! p' := start_no_model p spec in Ok (from_parts RUNNING p'))
  else None.

(** The end of the function: cancellation and failure before the run starts. *)
Definition late_event (s : RunState) (p : Parts) (event_type : string) : result RunProjection :=
  if s in? [RECEIVED; VALIDATED; PLANNED; AUTHORIZED] then
    if event_type == "run.failed" then Ok (from_parts FAILED p)
    else if event_type == "run.cancelled" then Ok (from_parts CANCELLED p)
    else Err (RuntimeStateError "ECO_STATE_TRANSITION")
  else Err (RuntimeStateError "ECO_STATE_TRANSITION").

Definition reduce_run_event (projection : RunProjection) (event_type : string)
    (spec : list (string * json)) : result RunProjection :=
  let p := to_parts projection in
  let s := state projection in
  let or_late (r : option (result RunProjection)) :=
    match r with Some r => r | None => late_event s p event_type end in
  match s with
  | NEW =>
      if event_type == "run.received" then Ok (from_parts RECEIVED p)
      else late_event s p event_type
  | RECEIVED =>
      if event_type == "run.validated" then Ok (from_parts VALIDATED p)
      else late_event s p event_type
  | VALIDATED =>
      if event_type == "plan.created" then Ok (from_parts PLANNED p)
      else late_event s p event_type
  | PLANNED => or_late (planned_event p event_type spec)
  | AUTHORIZED => or_late (authorized_event p event_type spec)
  | RUNNING =>
      if p_nm_started p then
        match no_model_event p event_type spec with
        | Some r => r
        | None => or_late (running_event p event_type spec)
        end
      else or_late (running_event p event_type spec)
  | _ => late_event s p event_type
  end.

(** Replaying a sequence of (type, spec) events. *)
Fixpoint replay (pr : RunProjection) (events : list (string * list (string * json)))
  : result RunProjection :=
  match events with
  | [] => Ok pr
  | (t, spec) :: rest =>
      let! pr' := reduce_run_event pr t spec in replay pr' rest
  end.

(** ** Projections and their parts *)

Lemma triples_map_spec (l : list (string * (string * string))) (acc : gmap string (string * string)) :
  foldl (fun m t => <[t.1.1 := (t.1.2, t.2)]> m) acc (map (fun kv => (kv.1, kv.2.1, kv.2.2)) l)
  = foldl (fun m kv => <[kv.1 := kv.2]> m) acc l.
Proof.
  revert acc. induction l as [|[k [a b]] l IH]; intros acc; simpl; [done|]. by rewrite IH.
Qed.

Lemma foldl_insert_nodup {V} (l : list (string * V)) (acc : gmap string V) :
  NoDup l.*1 → foldl (fun m kv => <[kv.1 := kv.2]> m) acc l = list_to_map l ∪ acc.
Proof.
  revert acc. induction l as [|[k v] l IH]; intros acc Hnd; simpl.
  { by rewrite (left_id_L ∅ (∪)). }
  apply NoDup_cons in Hnd as [Hk Hnd]. rewrite IH by done.
  rewrite <- insert_union_l, insert_union_r; [done|]. by apply not_elem_of_list_to_map.
Qed.

Lemma sorted_items_to_map {V} (m : gmap string V) :
  list_to_map (sorted_items (map_to_list m)) = m.
Proof.
  transitivity (list_to_map (map_to_list m) : gmap string V); [|by rewrite list_to_map_to_list].
  apply list_to_map_proper.
  - rewrite sorted_items_perm. apply NoDup_fst_map_to_list.
  - apply sorted_items_perm.
Qed.

Lemma foldl_sorted_items {V} (m : gmap string V) :
  foldl (fun m kv => <[kv.1 := kv.2]> m) ∅ (sorted_items (map_to_list m)) = m.
Proof.
  rewrite foldl_insert_nodup.
  - by rewrite (right_id_L ∅ (∪)), sorted_items_to_map.
  - rewrite sorted_items_perm. apply NoDup_fst_map_to_list.
Qed.

Lemma triples_roundtrip m : triples_map (triples m) = m.
Proof. unfold triples_map, triples. by rewrite triples_map_spec, foldl_sorted_items. Qed.

(** [from_parts] loses nothing: the parts of a projection it builds are the
    parts it was given. *)
Lemma to_from_parts s p : to_parts (from_parts s p) = p.
Proof.
  destruct p. unfold to_parts, from_parts, tool_map, no_model_result_map, pairs_map. simpl.
  by rewrite !triples_roundtrip, foldl_sorted_items.
Qed.

Lemma state_from_parts s p : state (from_parts s p) = s.
Proof. done. Qed.

Lemma initial_from_parts : initial = from_parts NEW empty_parts.
Proof. reflexivity. Qed.
#[export] Hint Rewrite to_from_parts state_from_parts : eco.
