(* ===== verification/RunMachine.v ===== *)
(** * The run lifecycle as a transition system

    [run_step] states, rule by rule, which events a run accepts and what each
    does to the run; [reduce_run_event] (RunReducer.v) implements it.  The
    invariants of a run are proved by rule induction over [run_step] and hold
    of everything the reducer can reach from the initial projection. *)

From S2P Require Import Prelude Json RunReducer.

Abbreviation event := (string * list (string * json))%type.

(** The subject an event is bound to. *)
Definition subject_is (spec : list (string * json)) (id d : string) : Prop :=
  jget "subjectId" spec = JStr id ∧ jget "subjectDigest" spec = JStr d.

Definition is_str (j : json) : Prop := ∃ s, j = JStr s.

Definition move (p : Parts) (key phase d : string) : Parts :=
  set_tools p (<[key := (phase, d)]> (p_tools p)).

(** A read event names a slot whose entry digest is the one the run started
    with. *)
Definition read_is (p : Parts) (spec : list (string * json)) (slot d : string) : Prop :=
  is_str (jget "subjectId" spec) ∧ jget "subjectDigest" spec = JStr d ∧
  jget "scopeSlot" spec = JStr slot ∧
  jget "entryDigest" spec = json_of_optstr (p_nm_scope p !! slot).

Inductive run_step : RunState → Parts → event → RunState → Parts → Prop :=
| S_received p sp : run_step NEW p ("run.received", sp) RECEIVED p
| S_validated p sp : run_step RECEIVED p ("run.validated", sp) VALIDATED p
| S_planned p sp : run_step VALIDATED p ("plan.created", sp) PLANNED p
| S_allowed p sp : run_step PLANNED p ("policy.allowed", sp) AUTHORIZED p
| S_denied p sp : run_step PLANNED p ("policy.denied", sp) DENIED p
| S_nm_allowed p sp d :
    jget "subjectDigest" sp = JStr d →
    run_step PLANNED p ("no-model.policy.allowed", sp) AUTHORIZED (set_authorized p d)
| S_nm_denied p sp : run_step PLANNED p ("no-model.policy.denied", sp) DENIED p
| S_adapter_started p sp :
    p_nm_authorized p = false →
    run_step AUTHORIZED p ("adapter.started", sp) RUNNING p
| S_nm_started p sp p' :
    start_no_model p sp = Ok p' →
    run_step AUTHORIZED p ("no-model.workflow.started", sp) RUNNING p'
| S_early_failed s p sp :
    s ∈ [RECEIVED; VALIDATED; PLANNED; AUTHORIZED] →
    run_step s p ("run.failed", sp) FAILED p
| S_early_cancelled s p sp :
    s ∈ [RECEIVED; VALIDATED; PLANNED; AUTHORIZED] →
    run_step s p ("run.cancelled", sp) CANCELLED p
(* model runs *)
| S_tool_requested p sp id d :
    p_nm_started p = false → subject_is sp id d →
    p_adapter_completed p = false → p_adapter_failed p = false →
    p_budget_exhausted p = false → p_tools p !! id = None →
    run_step RUNNING p ("tool.requested", sp) RUNNING (move p id "requested" d)
| S_tool_allowed p sp id d :
    p_nm_started p = false → subject_is sp id d →
    p_tools p !! id = Some ("requested", d) →
    run_step RUNNING p ("tool.allowed", sp) RUNNING (move p id "allowed" d)
| S_tool_denied p sp id d :
    p_nm_started p = false → subject_is sp id d →
    p_tools p !! id = Some ("requested", d) →
    run_step RUNNING p ("tool.denied", sp) RUNNING (move p id "denied" d)
| S_tool_cancelled p sp id d ph :
    p_nm_started p = false → subject_is sp id d → ph ∈ ["requested"; "allowed"] →
    p_tools p !! id = Some (ph, d) →
    run_step RUNNING p ("tool.cancelled", sp) RUNNING (move p id "cancelled" d)
| S_tool_completed p sp id d :
    p_nm_started p = false → subject_is sp id d → is_str (jget "resultDigest" sp) →
    p_tools p !! id = Some ("allowed", d) →
    run_step RUNNING p ("tool.completed", sp) RUNNING (move p id "completed" d)
| S_tool_failed p sp id d :
    p_nm_started p = false → subject_is sp id d → is_str (jget "resultDigest" sp) →
    p_tools p !! id = Some ("allowed", d) →
    run_step RUNNING p ("tool.failed", sp) RUNNING (move p id "failed" d)
| S_adapter_completed p sp :
    p_nm_started p = false →
    p_adapter_completed p = false → p_adapter_failed p = false →
    p_budget_exhausted p = false → has_open (p_tools p) = false →
    run_step RUNNING p ("adapter.completed", sp) RUNNING
      (set_flags p true (p_adapter_failed p) (p_budget_exhausted p))
| S_adapter_failed p sp :
    p_nm_started p = false →
    p_adapter_completed p = false → p_adapter_failed p = false →
    run_step RUNNING p ("adapter.failed", sp) RUNNING
      (set_flags p (p_adapter_completed p) true (p_budget_exhausted p))
| S_artifact p sp :
    p_nm_started p = false →
    p_adapter_failed p = false → p_budget_exhausted p = false →
    run_step RUNNING p ("artifact.recorded", sp) RUNNING p
| S_budget p sp :
    p_nm_started p = false →
    p_budget_exhausted p = false → p_adapter_completed p = false →
    run_step RUNNING p ("budget.exhausted", sp) RUNNING
      (set_flags p (p_adapter_completed p) (p_adapter_failed p) true)
| S_succeeded p sp :
    p_nm_started p = false →
    p_adapter_completed p = true → p_adapter_failed p = false →
    p_budget_exhausted p = false → has_open (p_tools p) = false →
    run_step RUNNING p ("run.succeeded", sp) SUCCEEDED p
| S_exhausted p sp :
    p_nm_started p = false →
    p_budget_exhausted p = true → has_open (p_tools p) = false →
    run_step RUNNING p ("run.exhausted", sp) EXHAUSTED p
| S_failed p sp :
    has_open (p_tools p) = false →
    run_step RUNNING p ("run.failed", sp) FAILED p
| S_cancelled p sp :
    has_open (p_tools p) = false →
    run_step RUNNING p ("run.cancelled", sp) CANCELLED p
(* no-model runs *)
| S_read_requested p sp slot d :
    p_nm_started p = true → read_is p sp slot d → p_tools p !! slot = None →
    run_step RUNNING p ("no-model.read.requested", sp) RUNNING (move p slot "requested" d)
| S_read_allowed p sp slot d :
    p_nm_started p = true → read_is p sp slot d →
    p_tools p !! slot = Some ("requested", d) →
    run_step RUNNING p ("no-model.read.allowed", sp) RUNNING (move p slot "allowed" d)
| S_read_started p sp slot d :
    p_nm_started p = true → read_is p sp slot d →
    p_tools p !! slot = Some ("allowed", d) →
    run_step RUNNING p ("no-model.read.started", sp) RUNNING (move p slot "started" d)
| S_read_denied p sp slot d ph :
    p_nm_started p = true → read_is p sp slot d → ph ∈ ["requested"; "allowed"] →
    p_tools p !! slot = Some (ph, d) →
    run_step RUNNING p ("no-model.read.denied", sp) RUNNING (move p slot "denied" d)
| S_read_failed p sp slot d ph :
    p_nm_started p = true → read_is p sp slot d → ph ∈ ["allowed"; "started"] →
    is_str (jget "resultDigest" sp) → p_tools p !! slot = Some (ph, d) →
    run_step RUNNING p ("no-model.read.failed", sp) RUNNING (move p slot "failed" d)
| S_read_completed p sp slot d content check :
    p_nm_started p = true → read_is p sp slot d → is_str (jget "resultDigest" sp) →
    jget "contentDigest" sp = JStr content → jget "headingCheck" sp = JStr check →
    check ∈ ["pass"; "fail"] → p_tools p !! slot = Some ("started", d) →
    run_step RUNNING p ("no-model.read.completed", sp) RUNNING
      (set_results (move p slot "completed" d) (<[slot := (content, check)]> (p_nm_results p)))
| S_nm_succeeded p sp :
    p_nm_started p = true → no_model_success_ok p = true →
    run_step RUNNING p ("no-model.workflow.succeeded", sp) SUCCEEDED p.

(** ** The reducer implements the rules *)

Lemma json_is_optstr_spec j y : json_is_optstr j y = true → j = json_of_optstr y.
Proof. destruct j, y; simpl; try done. intros ?%bool_decide_eq_true. by subst. Qed.
Lemma json_is_optstr_of y : json_is_optstr (json_of_optstr y) y = true.
Proof. destruct y; simpl; [by apply bool_decide_eq_true|done]. Qed.

Lemma json_in_ok j l b :
  json_in j l = Ok b → b = true → ∃ s, j = JStr s ∧ s ∈ l.
Proof. destruct j; simpl; intros [= <-] Hb; try done. apply bool_decide_eq_true in Hb. eauto. Qed.

#[local] Hint Unfold subject_is read_is is_str : eco.

(** Close a [run_step] goal with the rule for its event. *)
Ltac step_rule :=
  repeat match goal with
  | |- context [set_tools ?p (<[?k := (?ph, ?d)]> (p_tools ?p))] =>
      change (set_tools p (<[k := (ph, d)]> (p_tools p))) with (move p k ph d)
  | H : _ ∈ [_] |- _ => apply list_elem_of_singleton in H as ->
  | H : _ ∈ ["tool.completed"; "tool.failed"] |- _ => apply elem_of_cons in H as [->|H]
  | H : ¬ is_Some _ |- _ => apply eq_None_not_Some in H
  end;
  try done; once (econstructor; solve [eauto 12 with eco]).

Lemma tool_event_sound p t sp p' :
  p_nm_started p = false → tool_event p t sp = Ok p' → run_step RUNNING p (t, sp) RUNNING p'.
Proof.
  intros Hs H. unfold tool_event in H. run H; subst; breflect; subst; step_rule.
Qed.

Lemma no_model_read_sound p t sp p' :
  p_nm_started p = true → no_model_read p t sp = Ok p' → run_step RUNNING p (t, sp) RUNNING p'.
Proof.
  intros Hs H. unfold no_model_read in H. run H; subst; breflect; subst.
  all: repeat match goal with H : json_is_optstr _ _ = true |- _ =>
         apply json_is_optstr_spec in H end.
  all: try match goal with H : json_in _ _ = Ok true |- _ =>
         apply json_in_ok in H as (? & [= <-] & ?); [|done] end.
  all: step_rule.
Qed.

(** [pr'] is what the rules allow after event [e] from state [s] with parts [p]. *)
Definition steps_to (s : RunState) (p : Parts) (e : event) (pr' : RunProjection) : Prop :=
  ∃ p', pr' = from_parts (state pr') p' ∧ run_step s p e (state pr') p'.

Lemma steps_to_intro s p e s' p' : run_step s p e s' p' → steps_to s p e (from_parts s' p').
Proof. exists p'. by split. Qed.

(** Decide the branches of a block and close each with its rule. *)
Ltac block H :=
  run H; subst; breflect; subst;
  try (apply steps_to_intro; first [by apply tool_event_sound | by apply no_model_read_sound
                                   | step_rule]).

Lemma running_event_sound p t sp pr' :
  p_nm_started p = false → running_event p t sp = Some (Ok pr') → steps_to RUNNING p (t, sp) pr'.
Proof. intros Hs H. unfold running_event, close_run in H. block H. Qed.

Lemma no_model_event_sound p t sp pr' :
  p_nm_started p = true → no_model_event p t sp = Some (Ok pr') → steps_to RUNNING p (t, sp) pr'.
Proof. intros Hs H. unfold no_model_event in H. block H. Qed.

Lemma planned_event_sound p t sp pr' :
  planned_event p t sp = Some (Ok pr') → steps_to PLANNED p (t, sp) pr'.
Proof. intros H. unfold planned_event in H. block H. Qed.

Lemma authorized_event_sound p t sp pr' :
  authorized_event p t sp = Some (Ok pr') → steps_to AUTHORIZED p (t, sp) pr'.
Proof. intros H. unfold authorized_event in H. block H. Qed.

Lemma late_event_sound s p t sp pr' :
  late_event s p t = Ok pr' → steps_to s p (t, sp) pr'.
Proof. intros H. unfold late_event in H. block H. Qed.

(** After the no-model block fell through, only the two closing events remain. *)
Lemma running_fallthrough_sound p t sp pr' :
  p_nm_started p = true → no_model_event p t sp = None →
  running_event p t sp = Some (Ok pr') → steps_to RUNNING p (t, sp) pr'.
Proof.
  intros Hs Hn H. unfold no_model_event in Hn. run Hn. clear Hn.
  apply orb_false_iff in E as [[Hadapter Htool]%orb_false_iff Hlist].
  unfold running_event, close_run in H. rewrite Htool in H.
  repeat match type of H with
  | context [if bool_decide (t = ?x) then _ else _] =>
      destruct (decide (t = x)) as [->|?];
        [try discriminate Hadapter; try (vm_compute in Hlist; discriminate Hlist)
        |rewrite (bool_decide_eq_false_2 (t = x)) in H by assumption]
  end; [| |done]; simpl in H; run H; subst; apply steps_to_intro; by constructor.
Qed.

Lemma reduce_sound pr t sp pr' :
  reduce_run_event pr t sp = Ok pr' → steps_to (state pr) (to_parts pr) (t, sp) pr'.
Proof.
  unfold reduce_run_event. generalize (to_parts pr) (state pr). clear pr. intros p s H.
  destruct s; try by apply late_event_sound.
  - block H; by apply late_event_sound.
  - block H; by apply late_event_sound.
  - block H; by apply late_event_sound.
  - destruct (planned_event p t sp) as [[]|] eqn:E; simplify_eq;
      first [by apply planned_event_sound|by apply late_event_sound].
  - destruct (authorized_event p t sp) as [[]|] eqn:E; simplify_eq;
      first [by apply authorized_event_sound|by apply late_event_sound].
  - destruct (p_nm_started p) eqn:Hs.
    + destruct (no_model_event p t sp) as [[]|] eqn:En; simplify_eq;
        [by apply no_model_event_sound|].
      destruct (running_event p t sp) as [[]|] eqn:E; simplify_eq;
      first [by apply running_fallthrough_sound|by apply late_event_sound].
    + destruct (running_event p t sp) as [[]|] eqn:E; simplify_eq;
      first [by apply running_event_sound|by apply late_event_sound].
Qed.

(** Evaluate the tests of the source on string literals. *)
Ltac eval_lits :=
  repeat (match goal with
  | |- context [@bool_decide (String ?a ?b = String ?c ?d) ?D] =>
      let v := eval vm_compute in (@bool_decide (String a b = String c d) D) in
      change (@bool_decide (String a b = String c d) D) with v
  | |- context [@bool_decide (String ?a ?b ∈ ?l) ?D] =>
      let v := eval vm_compute in (@bool_decide (String a b ∈ l) D) in
      change (@bool_decide (String a b ∈ l) D) with v
  | |- context [startswith (String ?a ?b) ?c] =>
      let v := eval vm_compute in (startswith (String a b) c) in
      change (startswith (String a b) c) with v
  end; cbv iota; cbn [andb orb negb]).

(** Rewrite with the premises of a rule, evaluating as it goes. *)
Ltac eval_rule :=
  repeat match goal with
  | H : subject_is _ _ _ |- _ => destruct H
  | H : read_is _ _ _ _ |- _ => destruct H as ([] & ? & ? & ?)
  | H : is_str _ |- _ => destruct H as [? H]
  | H : _ ∈ [_] |- _ => apply list_elem_of_singleton in H as ->
  | H : _ ∈ _ :: _ |- _ => apply elem_of_cons in H as [->|H]
  end;
  repeat (eval_lits;
    match goal with
    | H : ?x = _ |- context [?x] => rewrite H
    | |- context [bool_decide (?a = ?a)] => rewrite (bool_decide_eq_true_2 (a = a)) by done
    | |- context [json_is_optstr (json_of_optstr ?y) ?y] => rewrite (json_is_optstr_of y)
    end; cbv iota; cbn [andb orb negb json_in]).

Lemma tool_event_complete p t sp p' :
  p_nm_started p = false → startswith t "tool." = true →
  run_step RUNNING p (t, sp) RUNNING p' → tool_event p t sp = Ok p'.
Proof.
  intros Hs Ht H. inversion H; subst; try discriminate Ht; try congruence.
  all: unfold tool_event; eval_rule. all: reflexivity.
Qed.

Lemma no_model_read_complete p t sp p' :
  p_nm_started p = true → startswith t "no-model.read." = true →
  run_step RUNNING p (t, sp) RUNNING p' → no_model_read p t sp = Ok p'.
Proof.
  intros Hs Ht H. inversion H; subst; try discriminate Ht; try congruence.
  all: unfold no_model_read; eval_rule. all: reflexivity.
Qed.

Lemma reduce_complete pr t sp s' p' :
  run_step (state pr) (to_parts pr) (t, sp) s' p' →
  reduce_run_event pr t sp = Ok (from_parts s' p').
Proof.
  unfold reduce_run_event. generalize (to_parts pr) (state pr). clear pr. intros p s H.
  remember (t, sp) as e eqn:Ee. pose proof H as Hstep.
  destruct H; simplify_eq; cbv zeta iota.
  all: try (match goal with Hs : p_nm_started ?p = _ |- context [p_nm_started ?p] => rewrite Hs end;
            cbv iota).
  all: try (unfold running_event; eval_lits; erewrite tool_event_complete by done; reflexivity).
  all: try (unfold no_model_event; eval_lits; erewrite no_model_read_complete by done; reflexivity).
  all: unfold planned_event, authorized_event, late_event.
  all: try (eval_rule; reflexivity).
  all: unfold no_model_event, running_event, close_run; eval_rule; try reflexivity.
  all: destruct (p_nm_started p); reflexivity.
Qed.

(** ** Reachable runs *)

Lemma replay_app pr es1 es2 :
  replay pr (es1 ++ es2) = let! pr' := replay pr es1 in replay pr' es2.
Proof.
  revert pr. induction es1 as [|[t sp] es1 IH]; intros pr; simpl; [done|].
  destruct (reduce_run_event pr t sp); [apply IH|done].
Qed.

(** Rule induction over the events that led to a projection. *)
Lemma replay_ind (P : list event → RunState → Parts → Prop) :
  P [] NEW empty_parts →
  (∀ es s p e s' p', P es s p → run_step s p e s' p' → P (es ++ [e]) s' p') →
  ∀ es pr, replay initial es = Ok pr → P es (state pr) (to_parts pr).
Proof.
  intros H0 Hstep es. induction es as [|[t sp] es IH] using rev_ind; intros pr H.
  { injection H as <-. rewrite initial_from_parts, to_from_parts. done. }
  rewrite replay_app in H. destruct (replay initial es) as [pr1|] eqn:E; [|done].
  simpl in H. destruct (reduce_run_event pr1 t sp) as [pr2|] eqn:E2; [|done].
  injection H as <-. apply reduce_sound in E2 as (p' & -> & Hs). rewrite to_from_parts.
  eapply Hstep; [by apply IH|]. by rewrite to_from_parts in Hs || exact Hs.
Qed.

(** *** Start-up, and separation of the two kinds of run *)

Definition executing (s : RunState) : bool :=
  match s with RUNNING | SUCCEEDED | EXHAUSTED => true | _ => false end.
Definition unplanned (s : RunState) : bool :=
  match s with NEW | RECEIVED | VALIDATED | PLANNED => true | _ => false end.

(** The events that start a run, by kind of run. *)
Definition startup (nm : bool) : list string :=
  ["run.received"; "run.validated"; "plan.created";
   if nm then "no-model.policy.allowed" else "policy.allowed";
   if nm then "no-model.workflow.started" else "adapter.started"].

Record control_inv (es : list event) (s : RunState) (p : Parts) : Prop := {
  ci_fresh : unplanned s = true → p = empty_parts;
  ci_authorized : s = AUTHORIZED →
    p = if p_nm_authorized p then set_authorized empty_parts (default EmptyString (p_nm_plan_digest p))
        else empty_parts;
  ci_model : p_nm_started p = false → p_nm_results p = ∅ ∧ p_nm_scope p = ∅;
  ci_no_model : p_nm_started p = true →
    p_adapter_completed p = false ∧ p_adapter_failed p = false ∧
    p_budget_exhausted p = false ∧ p_nm_authorized p = true ∧
    dom (p_nm_scope p) = list_to_set SLOTS;
  ci_early : match s with
             | NEW => es.*1 = []
             | RECEIVED => es.*1 = take 1 (startup false)
             | VALIDATED => es.*1 = take 2 (startup false)
             | PLANNED => es.*1 = take 3 (startup false)
             | AUTHORIZED => es.*1 = take 4 (startup (p_nm_authorized p))
             | _ => True
             end;
  ci_late : executing s = true → startup (p_nm_started p) `prefix_of` es.*1;
}.

Lemma start_no_model_ok p sp p' :
  start_no_model p sp = Ok p' →
  p_nm_authorized p = true ∧
  ∃ scope, p' = set_started p scope ∧ dom scope = list_to_set SLOTS ∧
           distinct_values scope = 3%nat.
Proof.
  unfold start_no_model. intros H. run H; subst. breflect.
  split; [done|]. eexists. split_and!; [done..|]. by apply Nat.eqb_eq.
Qed.

Lemma control_inv_reachable es pr :
  replay initial es = Ok pr → control_inv es (state pr) (to_parts pr).
Proof.
  apply replay_ind; clear es pr.
  - by split.
  - intros es s p e s' p' [H1 H2 H3 H4 H5 H6] Hstep.
    destruct Hstep; try (specialize (H1 eq_refl); subst p); simpl in *.
    all: try match goal with H : start_no_model _ _ = _ |- _ =>
           apply start_no_model_ok in H as (Ha & ? & -> & ? & _) end.
    all: try (specialize (H2 eq_refl); destruct (p_nm_authorized p) eqn:Ea; [|subst p];
              [set (d := default _ _) in H2; clearbody d; subst p|]; simpl in *; try done).
    all: split; rewrite ?fmap_app, ?H5; simpl in *; intros; try done.
    all: try by auto.
    all: try (exfalso; congruence).
    all: apply prefix_app_r; auto.
Qed.

(** *** Tool operations *)

Lemma has_open_false tools id ph d :
  has_open tools = false → tools !! id = Some (ph, d) → ph ≠ "requested" ∧ ph ≠ "allowed".
Proof.
  unfold has_open. intros H Hid. apply elem_of_map_to_list in Hid.
  assert (ph ∉ ["requested"; "allowed"]) as Hn; [|split; intros ->; apply Hn; set_solver].
  intros Hin. apply not_true_iff_false in H. apply H, existsb_exists.
  exists (id, (ph, d)). split; [by apply list_elem_of_In|]. by apply bool_decide_eq_true.
Qed.

(** The events that bring an operation of a model run to a phase, in order. *)
Definition tool_history (phase : string) : list string :=
  if phase == "requested" then ["tool.requested"]
  else if phase == "allowed" then ["tool.requested"; "tool.allowed"]
  else if phase == "denied" then ["tool.requested"; "tool.denied"]
  else if phase == "cancelled" then ["tool.requested"; "tool.cancelled"]
  else if phase == "completed" then ["tool.requested"; "tool.allowed"; "tool.completed"]
  else if phase == "failed" then ["tool.requested"; "tool.allowed"; "tool.failed"]
  else ["unknown phase"].

(** The events that bring a read of a no-model run to a phase, in order. *)
Definition read_history (phase : string) : list string :=
  if phase == "requested" then ["no-model.read.requested"]
  else if phase == "allowed" then ["no-model.read.requested"; "no-model.read.allowed"]
  else if phase == "started" then
    ["no-model.read.requested"; "no-model.read.allowed"; "no-model.read.started"]
  else if phase == "denied" then ["no-model.read.requested"; "no-model.read.denied"]
  else if phase == "completed" then
    ["no-model.read.requested"; "no-model.read.allowed"; "no-model.read.started";
     "no-model.read.completed"]
  else if phase == "failed" then
    ["no-model.read.requested"; "no-model.read.allowed"; "no-model.read.failed"]
  else ["unknown phase"].

(** What an event says: its type, the key it is about and the digest it is
    bound to. *)
Definition said (nm : bool) (e : event) : string * json * json :=
  (e.1, jget (if nm then "scopeSlot" else "subjectId") e.2, jget "subjectDigest" e.2).

Definition history_of (nm : bool) (phase key d : string) : list (string * json * json) :=
  map (fun t => (t, JStr key, JStr d)) (if nm then read_history phase else tool_history phase).

Definition tools_inv (es : list event) (s : RunState) (p : Parts) : Prop :=
  ∀ key ph d, p_tools p !! key = Some (ph, d) →
    sublist (history_of (p_nm_started p) ph key d) (map (said (p_nm_started p)) es).

Lemma sublist_snoc {A} (l1 l2 : list A) x :
  sublist l1 l2 → sublist (l1 ++ [x]) (l2 ++ [x]).
Proof. intros. by apply sublist_app. Qed.
Lemma sublist_snoc_r {A} (l1 l2 : list A) x : sublist l1 l2 → sublist l1 (l2 ++ [x]).
Proof. intros. by apply sublist_inserts_r. Qed.

(** An event that moves [key] to phase [ph] extends the history it had. *)
Lemma tools_inv_move es p key ph d e h :
  (∀ key ph d, p_tools p !! key = Some (ph, d) →
    sublist (history_of (p_nm_started p) ph key d) (map (said (p_nm_started p)) es)) →
  sublist h (map (said (p_nm_started p)) es) →
  sublist (history_of (p_nm_started p) ph key d) (h ++ [said (p_nm_started p) e]) →
  ∀ key' ph' d', <[key := (ph, d)]> (p_tools p) !! key' = Some (ph', d') →
    sublist (history_of (p_nm_started p) ph' key' d') (map (said (p_nm_started p)) (es ++ [e])).
Proof.
  intros IH Hh Hnew key' ph' d'. rewrite map_app. simpl.
  destruct (decide (key = key')) as [<-|Hne].
  - rewrite lookup_insert_eq. intros [= <- <-].
    etransitivity; [exact Hnew|]. by apply sublist_snoc.
  - rewrite lookup_insert_ne by done. intros. by apply sublist_snoc_r, IH.
Qed.

Ltac history :=
  unfold said, history_of, subject_is, read_is in *; destruct_and?; simpl;
  repeat match goal with
  | H : p_nm_started _ = _ |- _ => rewrite H in *
  | H : jget _ ?sp = _ |- context [jget _ ?sp] => rewrite H
  | H : _ ∈ [_] |- _ => apply list_elem_of_singleton in H as ->
  | H : _ ∈ _ :: _ |- _ => apply elem_of_cons in H as [->|H]
  end; simpl; repeat constructor.

Lemma tools_inv_reachable es pr :
  replay initial es = Ok pr → tools_inv es (state pr) (to_parts pr).
Proof.
  intros H. apply (replay_ind (fun es s p =>
    tools_inv es s p ∧ (s = AUTHORIZED ∨ unplanned s = true → p_tools p = ∅))) in H as [? _]; [done|..].
  { split; [intros key ph d; simpl; by rewrite lookup_empty|done]. }
  clear es pr H. intros es s p e s' p' [IH Hemp] Hstep.
  assert (∀ p', p_tools p' = p_tools p → p_nm_started p' = p_nm_started p →
            tools_inv (es ++ [e]) s' p') as Hsame.
  { intros p0 Ht Hs key ph d. rewrite Ht, Hs, map_app. intros. by apply sublist_snoc_r, IH. }
  unfold tools_inv in *. destruct Hstep; simpl in *.
  all: try match goal with H : start_no_model _ _ = _ |- _ =>
         apply start_no_model_ok in H as (? & ? & -> & _) end; simpl.
  all: split; [|by intros [?|?]; try done; apply Hemp; auto].
  all: try by apply Hsame.
  all: try (intros key ph' d'; rewrite Hemp by auto; by rewrite lookup_empty).
  all: try (apply (tools_inv_move _ _ _ _ _ _ []); [done|apply sublist_nil_l|]; by history).
  all: eapply tools_inv_move; [done|by apply IH|]; by history.
Qed.

Definition phases (nm : bool) : list string :=
  if nm then ["requested"; "allowed"; "started"; "denied"; "completed"; "failed"]
  else ["requested"; "allowed"; "denied"; "cancelled"; "completed"; "failed"].


(** Everything the phases of operations satisfy, in one induction. *)
Definition final (ph : string) : bool := ph in? ["denied"; "cancelled"; "completed"; "failed"].

(** An event that ends the operation [key]. *)
Definition closing (nm : bool) : list string :=
  if nm then ["no-model.read.denied"; "no-model.read.completed"; "no-model.read.failed"]
  else ["tool.denied"; "tool.cancelled"; "tool.completed"; "tool.failed"].
Definition closes (nm : bool) (key : string) (e : event) : bool :=
  (e.1 in? closing nm) && json_is_optstr (said nm e).1.2 (Some key).
Definition closed_count (nm : bool) (key : string) (es : list event) : nat :=
  length (List.filter (closes nm key) es).

(** How often an operation in this phase has been ended. *)
Definition ended (o : option (string * string)) : nat :=
  match o with Some (ph, _) => if final ph then 1 else 0 | None => 0 end.

Record phase_inv (es : list event) (s : RunState) (p : Parts) : Prop := {
  ph_empty : executing s = false → s = FAILED ∨ s = CANCELLED ∨ s = DENIED ∨ p_tools p = ∅;
  ph_known : ∀ key ph d, p_tools p !! key = Some (ph, d) → ph ∈ phases (p_nm_started p);
  ph_other : ∀ nm key, nm ≠ p_nm_started p → closed_count nm key es = 0%nat;
  ph_count : ∀ key, closed_count (p_nm_started p) key es = ended (p_tools p !! key);
}.

Lemma closed_count_snoc nm key es e :
  closed_count nm key (es ++ [e])
  = (closed_count nm key es + if closes nm key e then 1 else 0)%nat.
Proof.
  unfold closed_count. rewrite List.filter_app, length_app. simpl.
  by destruct (closes nm key e).
Qed.

(** An event whose type ends nothing. *)
Lemma closes_none nm key t sp :
  bool_decide (t ∈ closing nm) = false → closes nm key (t, sp) = false.
Proof. intros H. unfold closes. simpl. by rewrite H. Qed.

Lemma phase_inv_move es p s key ph d t sp :
  phase_inv es s p → ph ∈ phases (p_nm_started p) →
  (said (p_nm_started p) (t, sp)).1.2 = JStr key →
  bool_decide (t ∈ closing (negb (p_nm_started p))) = false →
  ended (p_tools p !! key) = 0%nat → final ph = bool_decide (t ∈ closing (p_nm_started p)) →
  phase_inv (es ++ [(t, sp)]) RUNNING (move p key ph d).
Proof.
  intros [H1 H2 H3 H4] Hph Hkey Hother Hopen Hfinal. split; simpl; [done|..].
  - intros key' ph' d' H. apply lookup_insert_Some in H as [[_ [= <- <-]]|[_ H]]; eauto.
  - intros nm key' Hnm. rewrite closed_count_snoc, H3 by done.
    rewrite closes_none; [done|]. by destruct nm, (p_nm_started p).
  - intros key'. rewrite closed_count_snoc, H4. unfold closes. rewrite Hkey. simpl.
    rewrite <- Hfinal. destruct (decide (key = key')) as [<-|Hne].
    + rewrite lookup_insert_eq, Hopen. rewrite bool_decide_eq_true_2 by done. simpl.
      by destruct (final ph).
    + rewrite lookup_insert_ne, bool_decide_eq_false_2 by done. rewrite andb_false_r. lia.
Qed.

Lemma phase_inv_same es s p e s' p' :
  phase_inv es s p → p_tools p' = p_tools p → p_nm_started p' = p_nm_started p →
  (executing s' = false → s' = FAILED ∨ s' = CANCELLED ∨ s' = DENIED ∨ p_tools p = ∅) →
  (∀ nm, bool_decide (e.1 ∈ closing nm) = false) → phase_inv (es ++ [e]) s' p'.
Proof.
  destruct e as [t sp]. intros [H1 H2 H3 H4] Ht Hs He Hc. split; rewrite ?Ht, ?Hs; try done.
  - intros. by rewrite closed_count_snoc, H3, closes_none by done.
  - intros. rewrite closed_count_snoc, H4, closes_none by done. lia.
Qed.

Lemma phase_inv_results es s p r : phase_inv es s p → phase_inv es s (set_results p r).
Proof. intros []. by split. Qed.

Lemma phase_inv_start es p x sp :
  phase_inv es AUTHORIZED p →
  phase_inv (es ++ [("no-model.workflow.started", sp)]) RUNNING (set_started p x).
Proof.
  intros [H1 H2 H3 H4].
  assert (p_tools p = ∅) as He by (destruct (H1 eq_refl) as [?|[?|[?|?]]]; done).
  assert (∀ nm key, closed_count nm key es = 0%nat) as H0.
  { intros nm key. destruct (decide (nm = p_nm_started p)) as [->|]; [|by apply H3].
    by rewrite H4, He, lookup_empty. }
  split; simpl; [done|..]; rewrite ?He; intros; rewrite ?lookup_empty in *; try done.
  all: rewrite closed_count_snoc, H0, closes_none; [done|by destruct nm || done].
Qed.

Lemma phase_inv_reachable es pr :
  replay initial es = Ok pr → phase_inv es (state pr) (to_parts pr).
Proof.
  apply replay_ind; clear es pr.
  { split; simpl; intros; rewrite ?lookup_empty in *; auto; done. }
  intros es s p e s' p' IH Hstep. pose proof IH as [H1 H2 H3 H4]. pose proof Hstep as Hs.
  destruct Hstep.
  all: try match goal with H : start_no_model _ _ = _ |- _ =>
         apply start_no_model_ok in H as (? & ? & -> & _) end.
  all: try (eapply phase_inv_same; [exact IH|done|done| |by intros []];
            simpl in *; intros; try done; auto;
            destruct (H1 eq_refl) as [?|[?|[?|?]]]; done || auto; fail).
  all: try by apply phase_inv_start.
  all: unfold subject_is, read_is in *; destruct_and?; try apply phase_inv_results.
  all: repeat match goal with
       | H : _ ∈ [_] |- _ => apply list_elem_of_singleton in H as ->
       | H : ?ph ∈ ["requested"; "allowed"] |- _ => apply elem_of_cons in H as [->|H]
       | H : ?ph ∈ ["allowed"; "started"] |- _ => apply elem_of_cons in H as [->|H]
       end.
  all: apply phase_inv_move with (s := RUNNING); try done;
    repeat match goal with
    | H : p_nm_started ?p = _ |- context [p_nm_started ?p] => rewrite H
    | H : p_tools ?p !! _ = _ |- context [p_tools ?p !! _] => rewrite H
    end; try done; by apply (bool_decide_eq_true_1 _).
Qed.

(** *** Success *)

Definition success_conditions (p : Parts) : Prop :=
  if p_nm_started p then no_model_success_ok p = true
  else p_adapter_completed p = true ∧ p_adapter_failed p = false ∧
       p_budget_exhausted p = false ∧ has_open (p_tools p) = false.

Lemma success_reachable es pr :
  replay initial es = Ok pr → state pr = SUCCEEDED → success_conditions (to_parts pr).
Proof.
  revert es pr. apply (replay_ind (fun _ s p => s = SUCCEEDED → success_conditions p)); [done|].
  intros es s p e s' p' _ Hstep Hs. destruct Hstep; try discriminate; unfold success_conditions.
  - match goal with H : p_nm_started _ = _ |- _ => rewrite H end. done.
  - match goal with H : p_nm_started _ = _ |- _ => rewrite H end. done.
Qed.

Lemma existsb_false_lookup {V} (f : string * V → bool) (m : gmap string V) k v :
  existsb f (map_to_list m) = false → m !! k = Some v → f (k, v) = false.
Proof.
  intros H Hk. apply not_true_iff_false. intros Ht. apply not_true_iff_false in H. apply H.
  apply existsb_exists. exists (k, v). split; [|done].
  by apply list_elem_of_In, elem_of_map_to_list.
Qed.

Lemma no_model_success_spec p :
  no_model_success_ok p = true →
  dom (p_tools p) = dom (p_nm_scope p) ∧ dom (p_nm_results p) = dom (p_nm_scope p) ∧
  (∀ slot ph d, p_tools p !! slot = Some (ph, d) → ph = "completed") ∧
  (∀ slot c check, p_nm_results p !! slot = Some (c, check) → check = "pass") ∧
  distinct_values (fst <$> p_nm_results p) = 3%nat.
Proof.
  unfold no_model_success_ok. intros H. apply negb_true_iff in H.
  repeat (apply orb_false_iff in H as [H ?]). breflect.
  split_and!; [done..| | |by apply Nat.eqb_eq].
  - intros slot ph d Hs. eapply existsb_false_lookup in Hs; [|done]. simpl in Hs. by breflect.
  - intros slot c ck Hs. eapply existsb_false_lookup in Hs; [|done]. simpl in Hs. by breflect.
Qed.

(** *** No-model runs never touch an adapter, a tool or the budget *)

Definition quiet (t : string) : bool :=
  negb (startswith t "adapter." || startswith t "tool."
        || (t in? ["artifact.recorded"; "budget.exhausted"])).

Lemma quiet_reachable es pr :
  replay initial es = Ok pr → no_model_started pr = true →
  Forall (fun t => quiet t = true) es.*1.
Proof.
  intros H Hs. refine (proj2 (replay_ind (fun es s p =>
    (s = AUTHORIZED ∨ unplanned s = true → p_nm_started p = false) ∧
    ((p_nm_started p = true ∨ s = AUTHORIZED ∨ unplanned s = true) →
     Forall (fun t => quiet t = true) es.*1)) _ _ es pr H) (or_introl Hs)); [done|].
  clear es pr H Hs. intros es s p e s' p' [IH0 IH] Hstep. rewrite fmap_app, Forall_app.
  destruct Hstep; simpl in *;
    (split; [intros [?|?]; try done; apply IH0; auto|intros Hq]).
  all: try (split; [apply IH; destruct Hq as [?|[?|?]]; auto; done|by repeat constructor]).
  all: destruct Hq as [Hq|[?|?]]; try congruence; rewrite IH0 in Hq by auto; done.
Qed.
