(* ===== verification/RunProps.v ===== *)
(** * Properties of runs

    What the run lifecycle of src/eco_runtime/state_reducer.py guarantees of
    every run, stated on the reducer and on the sequences of events it accepts. *)

From S2P Require Import Prelude Json RunReducer RunMachine.

(** Two complete runs, one of each kind. *)
Definition tool_spec (id d : string) : list (string * json) :=
  [("subjectId", JStr id); ("subjectDigest", JStr d); ("resultDigest", JStr "r")].
Definition model_run : list event :=
  [("run.received", []); ("run.validated", []); ("plan.created", []); ("policy.allowed", []);
   ("adapter.started", []); ("tool.requested", tool_spec "t1" "d1");
   ("tool.allowed", tool_spec "t1" "d1"); ("tool.requested", tool_spec "t2" "d2");
   ("tool.completed", tool_spec "t1" "d1"); ("tool.cancelled", tool_spec "t2" "d2");
   ("adapter.completed", []); ("run.succeeded", [])].

Definition entry (slot d : string) : json := JObj [("slot", JStr slot); ("entryDigest", JStr d)].
Definition read_spec (slot d : string) : list (string * json) :=
  [("subjectId", JStr "s"); ("subjectDigest", JStr slot); ("scopeSlot", JStr slot);
   ("entryDigest", JStr d); ("resultDigest", JStr "r"); ("contentDigest", JStr d);
   ("headingCheck", JStr "pass")].
Definition read_events (slot d : string) : list event :=
  map (fun t => (t, read_spec slot d))
    ["no-model.read.requested"; "no-model.read.allowed"; "no-model.read.started";
     "no-model.read.completed"].
Definition no_model_run : list event :=
  [("run.received", []); ("run.validated", []); ("plan.created", []);
   ("no-model.policy.allowed", [("subjectDigest", JStr "plan")]);
   ("no-model.workflow.started",
     [("subjectDigest", JStr "plan");
      ("scopeEntries", JArr [entry "slot-1" "a"; entry "slot-2" "b"; entry "slot-3" "c"])])]
  ++ read_events "slot-1" "a" ++ read_events "slot-2" "b" ++ read_events "slot-3" "c"
  ++ [("no-model.workflow.succeeded", [])].

(** The projection a sequence of events leads to. *)
Definition after (es : list event) : RunProjection :=
  match replay initial es with Ok pr => pr | Err _ => initial end.

(** [C2] The reducer implements the run lifecycle: it accepts an event exactly
    when a rule of the transition system [run_step] does, with that rule's
    effect on the state, the operations and the flags. *)
Theorem reducer_implements_lifecycle pr t sp pr' :
  reduce_run_event pr t sp = Ok pr' ↔
  ∃ p', pr' = from_parts (state pr') p' ∧
        run_step (state pr) (to_parts pr) (t, sp) (state pr') p'.
Proof.
  split; [apply reduce_sound|]. intros (p' & -> & H). by apply reduce_complete.
Qed.

(** Nothing executes before it is authorized: a run that is running, has
    succeeded or has exhausted its budget began with exactly the received,
    validated, planned, policy-allowed and started events of its kind. *)
Theorem execution_needs_startup es pr :
  replay initial es = Ok pr → executing (state pr) = true →
  startup (no_model_started pr) `prefix_of` es.*1.
Proof. intros H. apply (ci_late _ _ _ (control_inv_reachable _ _ H)). Qed.

Lemma execution_needs_startup_witness :
  startup (no_model_started (after model_run)) `prefix_of` model_run.*1.
Proof.
  apply (execution_needs_startup model_run (after model_run)); vm_compute; reflexivity.
Defined.

(** A terminal state accepts no event. *)
Theorem terminal_states_absorb pr t sp :
  state pr ∈ TERMINAL_STATES →
  reduce_run_event pr t sp = Err (RuntimeStateError "ECO_STATE_TRANSITION").
Proof.
  intros H. unfold reduce_run_event. destruct (state pr); try done;
    exfalso; repeat (apply elem_of_cons in H as [H|H]; [discriminate|]);
    by apply not_elem_of_nil in H.
Qed.

Lemma terminal_states_absorb_witness :
  reduce_run_event (after model_run) "run.failed" [] = Err (RuntimeStateError "ECO_STATE_TRANSITION").
Proof. apply terminal_states_absorb. apply (bool_decide_eq_true_1 _). vm_compute. reflexivity. Defined.

(** [C15] Success is earned.  A model run succeeds only with its adapter
    completed, no adapter failure, no exhausted budget and every tool operation
    denied, cancelled, completed or failed; a no-model run only with all three
    slots read to completion, each heading check passed, and three different
    content digests. *)
Theorem success_sound es pr :
  replay initial es = Ok pr → state pr = SUCCEEDED →
  if no_model_started pr then
    dom (tool_map pr) = list_to_set SLOTS ∧ dom (no_model_result_map pr) = list_to_set SLOTS ∧
    (∀ slot ph d, tool_map pr !! slot = Some (ph, d) → ph = "completed") ∧
    (∀ slot c check, no_model_result_map pr !! slot = Some (c, check) → check = "pass") ∧
    distinct_values (fst <$> no_model_result_map pr) = 3%nat
  else
    adapter_completed pr = true ∧ adapter_failed pr = false ∧ budget_exhausted pr = false ∧
    (∀ id ph d, tool_map pr !! id = Some (ph, d) →
       ph ∈ ["denied"; "cancelled"; "completed"; "failed"]).
Proof.
  intros H Hs. pose proof (success_reachable _ _ H Hs) as Hok.
  pose proof (ci_no_model _ _ _ (control_inv_reachable _ _ H)) as Hc.
  pose proof (ph_known _ _ _ (phase_inv_reachable _ _ H)) as Hk.
  unfold success_conditions in Hok. simpl in Hok, Hc, Hk.
  destruct (no_model_started pr).
  - destruct (Hc eq_refl) as (_ & _ & _ & _ & Hscope).
    apply no_model_success_spec in Hok. simpl in Hok. rewrite Hscope in Hok. naive_solver.
  - destruct Hok as (? & ? & ? & Hopen). split_and!; [done..|]. intros id ph d Hid.
    pose proof (Hk _ _ _ Hid) as Hin. destruct (has_open_false _ _ _ _ Hopen Hid).
    simpl in Hin. repeat (apply elem_of_cons in Hin as [->|Hin];
      [done || by apply (bool_decide_eq_true_1 _)|]).
    by apply not_elem_of_nil in Hin.
Qed.

Lemma success_sound_witness :
  dom (tool_map (after no_model_run)) = list_to_set SLOTS ∧
  adapter_completed (after model_run) = true.
Proof.
  assert (no_model_started (after no_model_run) = true) as E1 by (vm_compute; reflexivity).
  assert (no_model_started (after model_run) = false) as E2 by (vm_compute; reflexivity).
  pose proof (success_sound no_model_run (after no_model_run)) as H1. rewrite E1 in H1.
  pose proof (success_sound model_run (after model_run)) as H2. rewrite E2 in H2.
  split.
  - apply H1; vm_compute; reflexivity.
  - apply H2; vm_compute; reflexivity.
Defined.

(** An operation is in a phase only because of the events that lead there,
    in order and bound to the same key and digest: a completed tool call was
    requested and allowed first, a completed no-model read was requested,
    allowed and started first. *)
Theorem phases_have_histories es pr key ph d :
  replay initial es = Ok pr → tool_map pr !! key = Some (ph, d) →
  ph ∈ phases (no_model_started pr) ∧
  history_of (no_model_started pr) ph key d `sublist_of` map (said (no_model_started pr)) es.
Proof.
  intros H Hk. split.
  - by apply (ph_known _ _ _ (phase_inv_reachable _ _ H) key ph d).
  - by apply (tools_inv_reachable _ _ H key ph d).
Qed.

Lemma phases_have_histories_witness :
  history_of false "completed" "t1" "d1" `sublist_of` map (said false) model_run.
Proof.
  assert (no_model_started (after model_run) = false) as E by (vm_compute; reflexivity).
  pose proof (phases_have_histories model_run (after model_run) "t1" "completed" "d1") as H.
  rewrite E in H. apply H; vm_compute; reflexivity.
Defined.

(** [C30] No operation ends twice: at most one denied, cancelled, completed or
    failed event is accepted for each tool request, and for each slot. *)
Theorem operations_end_once es pr nm key :
  replay initial es = Ok pr → (closed_count nm key es ≤ 1)%nat.
Proof.
  intros H. pose proof (phase_inv_reachable _ _ H) as [_ _ H3 H4].
  destruct (decide (nm = p_nm_started (to_parts pr))) as [->|Hne].
  - rewrite H4. unfold ended. destruct (_ !! key) as [[ph d]|]; [|lia]. destruct (final ph); lia.
  - rewrite H3 by done. lia.
Qed.

Lemma operations_end_once_witness : (closed_count false "t1" model_run ≤ 1)%nat.
Proof. apply (operations_end_once model_run (after model_run)). vm_compute. reflexivity. Defined.

(** A started no-model run is isolated: none of its events is an adapter,
    tool, artifact or budget event, its adapter and budget flags are clear, and
    its scope is exactly the three slots. *)
Theorem no_model_runs_isolated es pr :
  replay initial es = Ok pr → no_model_started pr = true →
  Forall (fun t => quiet t = true) es.*1 ∧
  adapter_completed pr = false ∧ adapter_failed pr = false ∧ budget_exhausted pr = false ∧
  dom (p_nm_scope (to_parts pr)) = list_to_set SLOTS.
Proof.
  intros H Hs. split; [by eapply quiet_reachable|].
  destruct (ci_no_model _ _ _ (control_inv_reachable _ _ H) Hs) as (? & ? & ? & _ & ?). done.
Qed.

Lemma no_model_runs_isolated_witness :
  Forall (fun t => quiet t = true) no_model_run.*1.
Proof. apply (no_model_runs_isolated no_model_run (after no_model_run)); vm_compute; reflexivity. Defined.

(** A projection is canonical: [from_parts] and the dictionary views are
    inverse to each other on everything the reducer produces, so replaying from
    a stored projection is replaying from the state it was built from. *)
Theorem projections_canonical :
  (∀ s p, to_parts (from_parts s p) = p) ∧
  (∀ es pr, replay initial es = Ok pr → from_parts (state pr) (to_parts pr) = pr).
Proof.
  split; [apply to_from_parts|]. intros es. induction es as [|[t sp] es _] using rev_ind; intros pr H.
  { injection H as <-. by rewrite initial_from_parts, to_from_parts. }
  rewrite replay_app in H. destruct (replay initial es) as [pr1|]; [|done].
  simpl in H. destruct (reduce_run_event pr1 t sp) as [pr2|] eqn:E; [|done].
  injection H as <-. apply reduce_sound in E as (p' & -> & _). by rewrite to_from_parts.
Qed.
