(* ===== verification/RunEventChain.v ===== *)
(** * The in-memory event chain, src/eco_runtime/state.py

    [RunEventChain] admits one run's events: a call of [append] validates the
    record, checks it against the chain's head and the producer's capability,
    reduces it, and only then extends the chain.  A capability is a Python
    object compared by identity; here it is the object's identity, a number.
    [append] returns the object's state after the call and the call's result,
    a raised exception included. *)

From S2P Require Import Prelude Json Digest PyTime Schema RunReducer RunMachine.
From Stdlib Require Import Ascii.

Definition EVENT_SEMANTICS : list (string * (string * list string)) :=
  [("run.received", ("pending", ["runtime"]));
   ("run.validated", ("success", ["runtime"]));
   ("plan.created", ("success", ["runtime"]));
   ("policy.allowed", ("success", ["policy"]));
   ("policy.denied", ("denied", ["policy"]));
   ("no-model.policy.allowed", ("success", ["policy"]));
   ("no-model.policy.denied", ("denied", ["policy"]));
   ("adapter.started", ("pending", ["adapter"]));
   ("adapter.completed", ("success", ["adapter"]));
   ("adapter.failed", ("failed", ["adapter"]));
   ("no-model.workflow.started", ("pending", ["runtime"]));
   ("no-model.read.requested", ("pending", ["runtime"]));
   ("no-model.read.allowed", ("success", ["policy"]));
   ("no-model.read.started", ("pending", ["runtime"]));
   ("no-model.read.denied", ("denied", ["policy"]));
   ("no-model.read.completed", ("success", ["broker"]));
   ("no-model.read.failed", ("failed", ["runtime"; "broker"]));
   ("no-model.workflow.succeeded", ("success", ["runtime"]));
   ("tool.requested", ("pending", ["runtime"]));
   ("tool.allowed", ("success", ["policy"]));
   ("tool.denied", ("denied", ["policy"]));
   ("tool.cancelled", ("cancelled", ["runtime"]));
   ("tool.completed", ("success", ["broker"]));
   ("tool.failed", ("failed", ["broker"]));
   ("artifact.recorded", ("success", ["runtime"; "broker"; "adapter"]));
   ("budget.exhausted", ("exhausted", ["runtime"]));
   ("run.succeeded", ("success", ["runtime"]));
   ("run.failed", ("failed", ["runtime"]));
   ("run.cancelled", ("cancelled", ["runtime"]));
   ("run.exhausted", ("exhausted", ["runtime"]))].

(** ** src/eco_runtime/schemas/run-event.schema.json *)

Definition id_schema : schema := SStr (search_pattern is_identifier).
Definition sha256_schema : schema := SStr (search_pattern is_digest).
Definition is_reason_code (s : string) : bool :=
  startswith s "ECO_"
  && str_all (fun c => is_upper c || is_digit c || (c == "_"%char)) s
  && (5 <=? String.length s)%nat.
Definition is_rfc3339_date_time (s : string) : bool := bool_decide (is_Some (parse_rfc3339 s)).
Definition slot_schema : schema := SEnum SLOTS.
Definition metadata_schema : schema :=
  SObj ["id"; "runId"; "sequence"; "occurredAt"; "producer"; "producerIssuer";
        "previousEventDigest"]
       [("id", id_schema); ("runId", id_schema); ("sequence", SInt 1);
        ("occurredAt", SStr is_rfc3339_date_time);
        ("producer", SEnum ["runtime"; "policy"; "broker"; "adapter"]);
        ("producerIssuer", id_schema);
        ("previousEventDigest", SOneOf sha256_schema SNull)].
Definition event_spec_schema : schema :=
  SObj ["type"; "outcome"]
       [("type", SEnum EVENT_SEMANTICS.*1);
        ("outcome", SEnum ["pending"; "success"; "denied"; "failed"; "cancelled"; "exhausted"]);
        ("subjectId", id_schema); ("subjectDigest", sha256_schema); ("scopeSlot", slot_schema);
        ("entryDigest", sha256_schema); ("contentDigest", sha256_schema);
        ("headingCheck", SEnum ["pass"; "fail"]);
        ("scopeEntries",
          SArr 3 3 (SObj ["slot"; "entryDigest"]
                         [("slot", slot_schema); ("entryDigest", sha256_schema)]));
        ("resultDigest", sha256_schema); ("reasonCode", SStr (search_pattern is_reason_code));
        ("metrics",
          SObj [] [("durationMs", SInt 0); ("inputTokens", SInt 0); ("outputTokens", SInt 0);
                   ("byteCount", SInt 0); ("modelRequests", SInt 0); ("toolRequests", SInt 0);
                   ("costMicrousd", SInt 0)])].
Definition run_event_schema : schema :=
  SObj ["apiVersion"; "kind"; "metadata"; "spec"]
       [("apiVersion", SEnum ["runtime.ai.ecosystem/v1alpha1"]); ("kind", SEnum ["RunEvent"]);
        ("metadata", metadata_schema); ("spec", event_spec_schema)].

(** ** The chain *)

(** The fields [append] reads out of a record. *)
Record EventView : Type := {
  ev_id : string; ev_run : string; ev_sequence : Z; ev_time : string;
  ev_producer : string; ev_issuer : string; ev_previous : option string;
  ev_type : string; ev_outcome : string; ev_spec : list (string * json);
}.

Definition view (event : json) : option EventView :=
  match event with
  | JObj o =>
      match jget "metadata" o, jget "spec" o with
      | JObj m, JObj sp =>
          match jget "id" m, jget "runId" m, jget "sequence" m, jget "occurredAt" m with
          | JStr i, JStr r, JInt n, JStr t =>
              match jget "producer" m, jget "producerIssuer" m, jget "previousEventDigest" m,
                    jget "type" sp, jget "outcome" sp with
              | JStr p, JStr iss, JStr d, JStr ty, JStr out =>
                  Some {| ev_id := i; ev_run := r; ev_sequence := n; ev_time := t;
                          ev_producer := p; ev_issuer := iss; ev_previous := Some d;
                          ev_type := ty; ev_outcome := out; ev_spec := sp |}
              | JStr p, JStr iss, JNull, JStr ty, JStr out =>
                  Some {| ev_id := i; ev_run := r; ev_sequence := n; ev_time := t;
                          ev_producer := p; ev_issuer := iss; ev_previous := None;
                          ev_type := ty; ev_outcome := out; ev_spec := sp |}
              | _, _, _, _, _ => None
              end
          | _, _, _, _ => None
          end
      | _, _ => None
      end
  | _ => None
  end.

Record RunEventChain : Type := {
  ch_run_id : string;
  ch_capabilities : gmap string (string * nat);
  ch_state : RunState;
  ch_parts : Parts;
  ch_events : list json;
  ch_event_ids : gset string;
  ch_head_digest : option string;
  ch_occurred_at : option datetime;
}.

(** [RunEventChain.__init__]; a capability is an issuer and an optional object. *)
Definition new_chain (run_id : string) (capabilities : gmap string (string * option nat))
  : result RunEventChain :=
  raise ValueError when (run_id == EmptyString) else
  raise ValueError when
    (dom capabilities != {["runtime"; "policy"; "broker"; "adapter"]}) else
  raise ValueError when
    (existsb (fun kv => (kv.2.1 == EmptyString) || (kv.2.2 == None)) (map_to_list capabilities)) else
  let tokens := map (fun kv => kv.2.2) (map_to_list capabilities) in
  raise ValueError when
    (negb (size (list_to_set tokens : gset (option nat)) =? length tokens)%nat) else
  Ok {| ch_run_id := run_id;
        ch_capabilities := omap (fun v => pair v.1 <$> v.2) capabilities;
        ch_state := NEW; ch_parts := empty_parts; ch_events := []; ch_event_ids := ∅;
        ch_head_digest := None; ch_occurred_at := None |}.

Section Append.
Context `{Crypto} `{Jsonschema}.

(** The checks and the reduction of [append], in the order of the source. *)
Definition admit_event (c : RunEventChain) (event : json) (capability : option nat)
  : result (EventView * datetime * RunProjection) :=
  let err code := RuntimeStateError code in
  raise (err "ECO_EVENT_INVALID") when (negb (is_valid run_event_schema event)) else
  match view event with
  | None => Err KeyError
  | Some e =>
      raise (err "ECO_RUN_TERMINAL") when (ch_state c in? TERMINAL_STATES) else
      raise (err "ECO_EVENT_RUN_MISMATCH") when (ev_run e != ch_run_id c) else
      raise (err "ECO_EVENT_ID_REUSED") when (bool_decide (ev_id e ∈ ch_event_ids c)) else
      raise (err "ECO_EVENT_SEQUENCE") when
        (ev_sequence e != Z.of_nat (length (ch_events c)) + 1) else
      raise (err "ECO_EVENT_CHAIN_MISMATCH") when (ev_previous e != ch_head_digest c) else
      match parse_rfc3339 (ev_time e) with
      | None => Err ValueError
      | Some occurred_at =>
          raise (err "ECO_EVENT_TIME_REVERSED") when
            (match ch_occurred_at c with
             | Some last => instant occurred_at <? instant last
             | None => false
             end) else
          match assoc (ev_type e) EVENT_SEMANTICS with
          | None => Err KeyError
          | Some (expected_outcome, producers) =>
              raise (err "ECO_EVENT_OUTCOME") when (ev_outcome e != expected_outcome) else
              raise (err "ECO_EVENT_PRODUCER") when (negb (ev_producer e in? producers)) else
              match ch_capabilities c !! ev_producer e with
              | None => Err KeyError
              | Some (trusted_issuer, trusted_capability) =>
                  raise (err "ECO_EVENT_PRODUCER_UNTRUSTED") when
                    ((capability != Some trusted_capability)
                     || (ev_issuer e != trusted_issuer)) else
                  let! next_projection :=
                    reduce_run_event (from_parts (ch_state c) (ch_parts c))
                                     (ev_type e) (ev_spec e) in
                  Ok (e, occurred_at, next_projection)
              end
          end
      end
  end.

Definition append (c : RunEventChain) (event : json) (capability : option nat)
  : RunEventChain * result RunState :=
  match admit_event c event capability with
  | Err e => (c, Err e)
  | Ok (e, occurred_at, next_projection) =>
      ({| ch_run_id := ch_run_id c; ch_capabilities := ch_capabilities c;
          ch_state := state next_projection; ch_parts := to_parts next_projection;
          ch_events := ch_events c ++ [event];
          ch_event_ids := {[ev_id e]} ∪ ch_event_ids c;
          ch_head_digest := Some (semantic_digest event);
          ch_occurred_at := Some occurred_at |}, Ok (state next_projection))
  end.

(** Any sequence of calls, the failing ones included. *)
Definition calls (c : RunEventChain) (l : list (json * option nat)) : RunEventChain :=
  foldl (fun c x => (append c x.1 x.2).1) c l.
End Append.
