(* ===== verification/ChainProps.v ===== *)
(** * Properties of the event chain

    Everything here is about a chain built by [new_chain] and any sequence of
    calls of [append], accepted or refused. *)

From S2P Require Import Prelude Json Digest PyTime Schema RunReducer RunMachine RunEventChain.

(** ** What a valid record provides *)

Lemma conforms_str p j : conforms (SStr p) j = true → ∃ s, j = JStr s ∧ p s = true.
Proof. destruct j; try done. eauto. Qed.
Lemma conforms_int lo j : conforms (SInt lo) j = true → ∃ z, j = JInt z.
Proof. destruct j; try done. eauto. Qed.
Lemma conforms_enum l j : conforms (SEnum l) j = true → ∃ s, j = JStr s ∧ s ∈ l.
Proof. destruct j; try done. simpl. intros H. breflect. eauto. Qed.
Lemma conforms_obj_shape r ps j : conforms (SObj r ps) j = true → ∃ o, j = JObj o.
Proof. destruct j; try done. eauto. Qed.
Lemma conforms_digest_or_null p j :
  conforms (SOneOf (SStr p) SNull) j = true → (∃ s, j = JStr s) ∨ j = JNull.
Proof. destruct j; simpl; intros; try done; eauto. Qed.

Lemma jassoc_jget k o v : jassoc k o = Some v → jget k o = v.
Proof. unfold jget. by intros ->. Qed.

(** [field H k]: the required property [k] of the record [H] is about. *)
Ltac field H k :=
  let v := fresh "v" in let E := fresh "E" in let C := fresh "C" in
  destruct (conforms_required _ _ _ k _ H ltac:(by apply (bool_decide_eq_true_1 _); vm_compute)
              ltac:(reflexivity)) as (v & E & C);
  apply jassoc_jget in E.

Lemma valid_view e :
  conforms run_event_schema e = true →
  ∃ v, view e = Some v ∧ is_Some (parse_rfc3339 (ev_time v))
       ∧ is_Some (assoc (ev_type v) EVENT_SEMANTICS)
       ∧ ev_producer v ∈ ["runtime"; "policy"; "broker"; "adapter"]
       ∧ conforms event_spec_schema (JObj (ev_spec v)) = true.
Proof.
  intros H. destruct (conforms_obj_shape _ _ _ H) as [o ->].
  field H "metadata". field H "spec".
  destruct (conforms_obj_shape _ _ _ C) as [m ->], (conforms_obj_shape _ _ _ C0) as [sp ->].
  field C "id". field C "runId". field C "sequence". field C "occurredAt". field C "producer".
  field C "producerIssuer". field C "previousEventDigest". field C0 "type". field C0 "outcome".
  apply conforms_str in C1 as (i & -> & _), C2 as (r & -> & _), C4 as (t & -> & Ht),
    C6 as (iss & -> & _).
  apply conforms_int in C3 as (n & ->).
  apply conforms_enum in C5 as (p & -> & Hp), C8 as (ty & -> & Hty), C9 as (out & -> & _).
  unfold view. rewrite E, E0. cbv iota beta.
  rewrite E1, E2, E3, E4, E5, E6, E8, E9. cbv iota beta.
  apply bool_decide_eq_true in Ht. apply assoc_dom in Hty.
  apply conforms_digest_or_null in C7 as [[d ->]| ->]; rewrite E7; eexists; by split_and!.
Qed.

(** ** Accepted calls *)

Section Chain.
Context `{Crypto} `{Jsonschema}.

Definition event_of (e : json) : option event := (fun v => (ev_type v, ev_spec v)) <$> view e.
Definition event_id (e : json) : option string := ev_id <$> view e.
Definition event_instant (e : json) : option Z :=
  v ← view e; instant <$> parse_rfc3339 (ev_time v).

(** The conditions under which [append] accepts a record. *)
Record accepts (c : RunEventChain) (e : json) (cap : option nat)
    (v : EventView) (d : datetime) (pr : RunProjection) : Prop := {
  ac_valid : conforms run_event_schema e = true;
  ac_view : view e = Some v;
  ac_open : ch_state c ∉ TERMINAL_STATES;
  ac_run : ev_run v = ch_run_id c;
  ac_fresh : ev_id v ∉ ch_event_ids c;
  ac_sequence : ev_sequence v = Z.of_nat (length (ch_events c)) + 1;
  ac_previous : ev_previous v = ch_head_digest c;
  ac_time : parse_rfc3339 (ev_time v) = Some d;
  ac_forward : ∀ last, ch_occurred_at c = Some last → instant last ≤ instant d;
  ac_semantics : ∃ outcome producers,
    assoc (ev_type v) EVENT_SEMANTICS = Some (outcome, producers) ∧
    ev_outcome v = outcome ∧ ev_producer v ∈ producers;
  ac_capability : ∃ token,
    ch_capabilities c !! ev_producer v = Some (ev_issuer v, token) ∧ cap = Some token;
  ac_reduced : reduce_run_event (from_parts (ch_state c) (ch_parts c)) (ev_type v) (ev_spec v)
               = Ok pr;
}.

Lemma admit_event_ok c e cap v d pr :
  admit_event c e cap = Ok (v, d, pr) → accepts c e cap v d pr.
Proof.
  unfold admit_event. rewrite is_valid_conforms. intros Hr.
  destruct (conforms run_event_schema e) eqn:Ev; [|done]. cbn [negb] in Hr.
  destruct (view e) as [v'|] eqn:Evw; [|done].
  repeat match type of Hr with
  | (if ?b then Err _ else _) = _ => destruct b eqn:?; [discriminate Hr|]
  end.
  destruct (parse_rfc3339 (ev_time v')) as [d'|] eqn:Et; [|done].
  destruct (match ch_occurred_at c with Some _ => _ | None => _ end) eqn:Eo; [done|].
  destruct (assoc (ev_type v') EVENT_SEMANTICS) as [[out prods]|] eqn:Es; [|done].
  destruct (ev_outcome v' != out) eqn:E1; [done|].
  destruct (negb (ev_producer v' in? prods)) eqn:E2; [done|].
  destruct (ch_capabilities c !! ev_producer v') as [[iss tok]|] eqn:Ec; [|done].
  destruct ((cap != Some tok) || (ev_issuer v' != iss)) eqn:E3; [done|].
  destruct (reduce_run_event _ _ _) as [pr'|] eqn:Er; [|done].
  injection Hr as <- <- <-. breflect. subst. split; eauto.
  intros last El. rewrite El in Eo. by breflect.
Qed.

(** ** The invariant *)

Definition previous_of (es : list json) (i : nat) : option string :=
  match i with O => None | S j => semantic_digest <$> es !! j end.

Record chain_inv (c : RunEventChain) : Prop := {
  ci_replay : replay initial (omap event_of (ch_events c))
              = Ok (from_parts (ch_state c) (ch_parts c));
  ci_events : ∀ i e, ch_events c !! i = Some e →
    conforms run_event_schema e = true ∧
    ∃ v, view e = Some v ∧ ev_run v = ch_run_id c ∧ ev_sequence v = Z.of_nat i + 1 ∧
         ev_previous v = previous_of (ch_events c) i;
  ci_head : ch_head_digest c = semantic_digest <$> last (ch_events c);
  ci_id_set : ch_event_ids c = list_to_set (omap event_id (ch_events c));
  ci_ids : NoDup (omap event_id (ch_events c));
  ci_times : StronglySorted Z.le (omap event_instant (ch_events c));
  ci_last : ∀ t, t ∈ omap event_instant (ch_events c) →
    ∃ d, ch_occurred_at c = Some d ∧ t ≤ instant d;
}.

Lemma new_chain_inv rid caps c : new_chain rid caps = Ok c → chain_inv c.
Proof.
  unfold new_chain. intros Hr.
  repeat match type of Hr with
  | (if ?b then Err _ else _) = _ => destruct b eqn:?; [discriminate Hr|]
  end.
  injection Hr as <-. split; simpl; try done; try constructor.
  intros t. by rewrite elem_of_nil.
Qed.

Lemma previous_of_snoc es e i :
  (i ≤ length es)%nat → previous_of (es ++ [e]) i = previous_of es i.
Proof. intros Hi. destruct i as [|j]; [done|]. simpl. by rewrite lookup_app_l by lia. Qed.

Lemma previous_of_length es : previous_of es (length es) = semantic_digest <$> last es.
Proof.
  destruct es as [|x es] using rev_ind; [done|].
  rewrite last_snoc, length_app, Nat.add_1_r. simpl.
  by rewrite lookup_app_r, Nat.sub_diag by lia.
Qed.

Lemma append_inv c e cap : chain_inv c → chain_inv (append c e cap).1.
Proof.
  intros Hc. unfold append. destruct (admit_event c e cap) as [[[v d] pr]|] eqn:Ea; [|done].
  apply admit_event_ok in Ea. simpl.
  assert (omap event_of [e] = [(ev_type v, ev_spec v)]) as Ho
    by (simpl; unfold event_of; by rewrite (ac_view _ _ _ _ _ _ Ea)).
  assert (omap event_id [e] = [ev_id v]) as Hi
    by (simpl; unfold event_id; by rewrite (ac_view _ _ _ _ _ _ Ea)).
  assert (omap event_instant [e] = [instant d]) as Ht
    by (simpl; unfold event_instant; rewrite (ac_view _ _ _ _ _ _ Ea); simpl;
        by rewrite (ac_time _ _ _ _ _ _ Ea)).
  destruct Hc as [C1 C2 C3 C4 C5 C6 C7]. split; cbn [ch_run_id ch_state ch_parts ch_events
    ch_event_ids ch_head_digest ch_occurred_at]; rewrite ?omap_app, ?Ho, ?Hi, ?Ht.
  - rewrite replay_app, C1. simpl. rewrite (ac_reduced _ _ _ _ _ _ Ea).
    destruct (reduce_sound _ _ _ _ (ac_reduced _ _ _ _ _ _ Ea)) as (p' & -> & _).
    by rewrite to_from_parts.
  - intros i x [[Hlt Hx]|[-> ->]]%lookup_snoc_Some.
    + rewrite previous_of_snoc by lia. by apply C2.
    + split; [apply Ea|]. exists v. rewrite previous_of_snoc, previous_of_length, <- C3 by lia.
      split_and!; by apply Ea.
  - by rewrite last_snoc.
  - rewrite list_to_set_app_L, C4. simpl. by rewrite (right_id_L ∅ (∪)), (comm_L (∪)).
  - apply NoDup_app. split_and!; [done| |apply NoDup_singleton].
    intros x Hx ->%list_elem_of_singleton. apply (ac_fresh _ _ _ _ _ _ Ea).
    rewrite C4. by apply elem_of_list_to_set.
  - apply StronglySorted_app_2; [|done|by repeat constructor].
    intros x1 x2 H1 ->%list_elem_of_singleton. destruct (C7 x1 H1) as (d0 & E0 & Hle).
    pose proof (ac_forward _ _ _ _ _ _ Ea d0 E0). lia.
  - intros t [Hin| ->%list_elem_of_singleton]%elem_of_app; [|eauto with lia].
    destruct (C7 t Hin) as (d0 & E0 & Hle). exists d. split; [done|].
    pose proof (ac_forward _ _ _ _ _ _ Ea d0 E0). lia.
Qed.

Lemma calls_inv rid caps c l : new_chain rid caps = Ok c → chain_inv (calls c l).
Proof.
  intros Hc%new_chain_inv. revert c Hc. induction l as [|x l IH]; intros c Hc; [done|].
  simpl. apply IH. by apply append_inv.
Qed.
End Chain.

(** ** Canonical forms and the previous-event link *)

Definition items (j : json) : list (string * json) := match j with JObj o => o | _ => [] end.
Definition previous_field (e : json) : json :=
  jget "previousEventDigest" (items (jget "metadata" (items e))).

Lemma view_previous e v : view e = Some v → previous_field e = json_of_optstr (ev_previous v).
Proof.
  unfold view, previous_field. intros Hv. repeat (case_match; try discriminate Hv);
    injection Hv as <-; cbn [items];
    by repeat match goal with E : jget _ _ = _ |- _ => rewrite E; clear E; cbn [items] end.
Qed.

Lemma jget_items k j : json_wf j = true → jget k (items (jnorm j)) = jnorm (jget k (items j)).
Proof.
  destruct j; try done. intros Hw. simpl in Hw. breflect. cbn [jnorm items]. by apply jget_jnorm.
Qed.
Lemma jget_wf k j : json_wf j = true → json_wf (jget k (items j)) = true.
Proof.
  destruct j; try done. simpl. intros Hw. breflect. unfold jget.
  destruct (jassoc k o) as [v|] eqn:E; [|done]. apply jassoc_elem, list_elem_of_In in E.
  rewrite forallb_forall in H0. by apply (H0 _ E).
Qed.

Lemma previous_field_jnorm e :
  json_wf e = true → previous_field (jnorm e) = jnorm (previous_field e).
Proof.
  intros Hw. unfold previous_field. rewrite jget_items by done.
  by rewrite jget_items by (by apply jget_wf).
Qed.

Lemma jnorm_optstr y : jnorm (json_of_optstr y) = json_of_optstr y.
Proof. by destruct y. Qed.

Lemma json_of_optstr_inj y1 y2 : json_of_optstr y1 = json_of_optstr y2 → y1 = y2.
Proof. destruct y1, y2; simpl; congruence. Qed.

(** ** Errors of the reducer on schema-valid events *)

Definition state_error {A} (r : result A) : Prop :=
  ∀ e, r = Err e → ∃ code, e = RuntimeStateError code.

Lemma conforms_optional req props o k s :
  conforms (SObj req props) (JObj o) = true → prop_schema k props = Some s →
  jget k o = JNull ∨ conforms s (jget k o) = true.
Proof.
  intros (_ & _ & Hp)%conforms_obj Hs. unfold jget.
  destruct (jassoc k o) as [v|] eqn:E; [right|by left]. simpl.
  destruct (Hp k v (jassoc_elem _ _ _ E)) as (s' & E' & Hc). congruence.
Qed.

Lemma json_in_scalar j l p : j = JNull ∨ conforms (SEnum p) j = true → ∃ b, json_in j l = Ok b.
Proof. intros [->|(s & -> & _)%conforms_enum]; simpl; eauto. Qed.

Ltac state_errors :=
  repeat (case_match; try done; try (intros ? ?; simplify_eq; eauto; fail));
  try (intros ? ?; simplify_eq; eauto).

Lemma scope_loop_errors l acc :
  forallb (conforms (SObj ["slot"; "entryDigest"]
                          [("slot", slot_schema); ("entryDigest", sha256_schema)])) l = true →
  state_error (scope_loop l acc).
Proof.
  revert acc. induction l as [|x l IH]; intros acc Hl; [done|].
  cbn [forallb] in Hl. apply andb_true_iff in Hl as [Hx Hl].
  destruct (conforms_obj_shape _ _ _ Hx) as [o ->].
  destruct (json_in_scalar (jget "slot" o) SLOTS SLOTS) as [b Eb].
  { by eapply conforms_optional. }
  unfold state_error. cbn [scope_loop]. rewrite Eb. cbv zeta.
  repeat (case_match; try (intros ? ?; simplify_eq; eauto; fail)). by apply IH.
Qed.

Definition block_errors (r : option (result RunProjection)) : Prop :=
  match r with Some r => state_error r | None => True end.

Lemma bind_errors {A B} (r : result A) (k : A → result B) :
  state_error r → (∀ a, state_error (k a)) → state_error (let! a := r in k a).
Proof. intros Hr Hk. destruct r as [a|e]; [apply Hk|]. intros e' [= <-]. by apply Hr. Qed.

Lemma late_errors s p t : state_error (late_event s p t).
Proof. unfold late_event. state_errors. Qed.
Lemma running_errors p t sp :
  state_error (tool_event p t sp) → block_errors (running_event p t sp).
Proof.
  intros Ht. unfold running_event, close_run, order_error. cbv zeta.
  case_match; [by apply bind_errors|]. unfold block_errors. state_errors.
Qed.
Lemma no_model_errors p t sp :
  state_error (no_model_read p t sp) → block_errors (no_model_event p t sp).
Proof.
  intros Ht. unfold no_model_event, lifecycle_error.
  case_match; [state_errors|]. case_match; [by apply bind_errors|]. unfold block_errors. state_errors.
Qed.
Lemma planned_errors p t sp : block_errors (planned_event p t sp).
Proof. unfold planned_event, block_errors, lifecycle_error. state_errors. Qed.
Lemma authorized_errors p t sp :
  state_error (start_no_model p sp) → block_errors (authorized_event p t sp).
Proof.
  intros Hs. unfold authorized_event, lifecycle_error. case_match; [unfold block_errors; state_errors|].
  case_match; [by apply bind_errors|done].
Qed.

Lemma reduce_errors pr t sp :
  conforms event_spec_schema (JObj sp) = true → state_error (reduce_run_event pr t sp).
Proof.
  intros Hsp.
  assert (state_error (start_no_model (to_parts pr) sp)) as H1.
  { unfold start_no_model, lifecycle_error.
    destruct (conforms_optional _ _ _ "scopeEntries" _ Hsp eq_refl) as [E|E].
    { rewrite E. state_errors. }
    case_match; [state_errors|]. destruct (jget "scopeEntries" sp) as [| | | |l|];
      [state_errors..| |state_errors].
    case_match; [state_errors|]. cbn [conforms] in E. apply andb_true_iff in E as [_ E].
    pose proof (scope_loop_errors l ∅ E) as Hl. destruct (scope_loop l ∅); [state_errors|].
    intros e' [= <-]. by apply (Hl _ eq_refl). }
  assert (state_error (no_model_read (to_parts pr) t sp)) as H2.
  { destruct (json_in_scalar (jget "headingCheck" sp) ["pass"; "fail"] ["pass"; "fail"]) as [b Eb].
    { by eapply conforms_optional. }
    unfold no_model_read, lifecycle_error, order_error, binding_error. cbv zeta. rewrite Eb.
    state_errors. }
  assert (state_error (tool_event (to_parts pr) t sp)) as H3.
  { unfold tool_event, order_error, binding_error. cbv zeta. state_errors. }
  pose proof (late_errors (state pr) (to_parts pr) t) as H4.
  pose proof (running_errors (to_parts pr) t sp H3) as H5.
  pose proof (no_model_errors (to_parts pr) t sp H2) as H6.
  pose proof (planned_errors (to_parts pr) t sp) as H7.
  pose proof (authorized_errors (to_parts pr) t sp H1) as H8.
  unfold reduce_run_event. cbv zeta. destruct (state pr); try done;
    repeat (case_match; simpl in *; try done).
Qed.

Lemma size_NoDup {A} `{Countable A} (l : list A) :
  size (list_to_set l : gset A) = length l → NoDup l.
Proof.
  assert (∀ k : list A, (size (list_to_set k : gset A) ≤ length k)%nat) as Hle.
  { induction k as [|x k IH]; [done|]. cbn [list_to_set length].
    rewrite size_union_alt, size_singleton.
    assert (size (list_to_set k ∖ {[x]} : gset A) ≤ size (list_to_set k : gset A))%nat
      by (apply subseteq_size; set_solver). lia. }
  induction l as [|x l IH]; simpl; [constructor|]. intros Hs.
  assert (x ∉ l) as Hx.
  { intros Hin. replace ({[x]} ∪ list_to_set l) with (list_to_set l : gset A) in Hs.
    - pose proof (Hle l). lia.
    - apply set_eq. intros y. rewrite elem_of_union, elem_of_singleton, elem_of_list_to_set.
      split; [by right|]. by intros [->|?]. }
  constructor; [done|]. apply IH. rewrite size_union in Hs.
  - rewrite size_singleton in Hs. lia.
  - rewrite disjoint_singleton_l. by rewrite elem_of_list_to_set.
Qed.

(** ** Claims *)

Section Claims.
Context `{Crypto} `{Jsonschema}.

(** No two of these texts have the same digest. *)
Definition no_collisions (texts : list string) : Prop :=
  ∀ a b, a ∈ texts → b ∈ texts → sha256_hex a = sha256_hex b → a = b.

Lemma linked_unique es1 es2 :
  Forall (fun e => json_wf e = true) (es1 ++ es2) →
  (∀ i e, es1 !! i = Some e → previous_field e = json_of_optstr (previous_of es1 i)) →
  (∀ i e, es2 !! i = Some e → previous_field e = json_of_optstr (previous_of es2 i)) →
  no_collisions (map canonical_json (es1 ++ es2)) →
  semantic_digest <$> last es1 = semantic_digest <$> last es2 →
  map jnorm es1 = map jnorm es2.
Proof.
  revert es2. induction es1 as [|e1 es1 IH] using rev_ind; intros es2 Hwf L1 L2 Hnc Hh.
  { destruct es2 as [|e2 es2 _] using rev_ind; [done|]. by rewrite last_snoc in Hh. }
  destruct es2 as [|e2 es2 _] using rev_ind; [by rewrite last_snoc in Hh|].
  rewrite !last_snoc in Hh. injection Hh as Hd. rewrite List.Forall_forall in Hwf.
  assert (∀ x, x ∈ (es1 ++ [e1]) ++ es2 ++ [e2] → json_wf x = true) as Hwf'
    by (intros x Hx; by apply Hwf, list_elem_of_In).
  assert (e1 ∈ (es1 ++ [e1]) ++ es2 ++ [e2]) as I1 by (rewrite !elem_of_app, !list_elem_of_singleton; auto).
  assert (e2 ∈ (es1 ++ [e1]) ++ es2 ++ [e2]) as I2 by (rewrite !elem_of_app, !list_elem_of_singleton; auto).
  assert (jnorm e1 = jnorm e2) as Hj.
  { apply canonical_json_inj; [by apply Hwf'..|].
    apply Hnc; [by apply (list_elem_of_fmap_2 canonical_json)..|done]. }
  assert (previous_of es1 (length es1) = previous_of es2 (length es2)) as Hp.
  { apply json_of_optstr_inj.
    rewrite <- (previous_of_snoc es1 e1), <- (previous_of_snoc es2 e2) by lia.
    rewrite <- (L1 (length es1) e1), <- (L2 (length es2) e2)
      by (rewrite lookup_app_r, Nat.sub_diag by lia; done).
    assert (∀ e y, previous_field e = json_of_optstr y → jnorm (previous_field e) = previous_field e)
      as Hn by (intros e y ->; apply jnorm_optstr).
    rewrite <- (Hn e1 _ (L1 (length es1) e1 ltac:(by rewrite lookup_app_r, Nat.sub_diag by lia))).
    rewrite <- (Hn e2 _ (L2 (length es2) e2 ltac:(by rewrite lookup_app_r, Nat.sub_diag by lia))).
    rewrite <- !previous_field_jnorm by (by apply Hwf'). by rewrite Hj. }
  rewrite !map_app. simpl. rewrite Hj. f_equal. rewrite !previous_of_length in Hp.
  apply IH; [| | | |done].
  - rewrite List.Forall_forall. intros x Hx. apply list_elem_of_In in Hx. apply Hwf'.
    rewrite !elem_of_app in *. tauto.
  - intros i e Hi. pose proof (lookup_lt_Some _ _ _ Hi).
    rewrite (L1 i e) by (by rewrite lookup_app_l). by rewrite previous_of_snoc by lia.
  - intros i e Hi. pose proof (lookup_lt_Some _ _ _ Hi).
    rewrite (L2 i e) by (by rewrite lookup_app_l). by rewrite previous_of_snoc by lia.
  - intros a b Ha Hb. apply Hnc; rewrite !map_app, !elem_of_app in *; tauto.
Qed.

Lemma calls_snoc c l x : calls c (l ++ [x]) = (append (calls c l) x.1 x.2).1.
Proof. unfold calls. by rewrite foldl_app. Qed.

Lemma append_constant c e cap :
  ch_run_id (append c e cap).1 = ch_run_id c ∧
  ch_capabilities (append c e cap).1 = ch_capabilities c.
Proof. unfold append. by destruct (admit_event c e cap) as [[[v d] pr]|]. Qed.
Lemma calls_run_id c l : ch_run_id (calls c l) = ch_run_id c.
Proof.
  induction l as [|x l IH] using rev_ind; [done|]. rewrite calls_snoc, <- IH. apply append_constant.
Qed.
Lemma calls_capabilities c l : ch_capabilities (calls c l) = ch_capabilities c.
Proof.
  induction l as [|x l IH] using rev_ind; [done|]. rewrite calls_snoc, <- IH. apply append_constant.
Qed.

Lemma append_events c e cap :
  (append c e cap).1 = c ∨
  ∃ v d pr, accepts c e cap v d pr ∧ ch_events (append c e cap).1 = ch_events c ++ [e].
Proof.
  unfold append. destruct (admit_event c e cap) as [[[v d] pr]|] eqn:E; [|by left].
  right. exists v, d, pr. split; [by apply admit_event_ok|done].
Qed.

Lemma new_chain_ok rid caps c :
  new_chain rid caps = Ok c →
  dom caps = {["runtime"; "policy"; "broker"; "adapter"]} ∧
  (∀ p v, caps !! p = Some v → v.2 ≠ None) ∧
  NoDup (map (fun kv => kv.2.2) (map_to_list caps)) ∧
  c = {| ch_run_id := rid; ch_capabilities := omap (fun v => pair v.1 <$> v.2) caps;
         ch_state := NEW; ch_parts := empty_parts; ch_events := []; ch_event_ids := ∅;
         ch_head_digest := None; ch_occurred_at := None |}.
Proof.
  unfold new_chain. intros Hr.
  repeat match type of Hr with
  | (if ?b then Err _ else _) = _ => destruct b eqn:?; [discriminate Hr|]
  end.
  injection Hr as <-. breflect. split_and!; [done| | |done].
  - intros p v Hv Hn. apply not_true_iff_false in Heqb1. apply Heqb1, existsb_exists.
    exists (p, v). split; [by apply list_elem_of_In, elem_of_map_to_list|].
    simpl. rewrite Hn. apply orb_true_r.
  - apply size_NoDup. by apply Nat.eqb_eq.
Qed.

Lemma new_chain_run_id rid caps c : new_chain rid caps = Ok c → ch_run_id c = rid.
Proof. intros (_ & _ & _ & ->)%new_chain_ok. done. Qed.
Lemma new_chain_events rid caps c : new_chain rid caps = Ok c → ch_events (calls c []) = [].
Proof. intros (_ & _ & _ & ->)%new_chain_ok. done. Qed.
Lemma new_chain_capabilities rid caps c :
  new_chain rid caps = Ok c → ch_capabilities c = omap (fun v => pair v.1 <$> v.2) caps.
Proof. intros (_ & _ & _ & ->)%new_chain_ok. done. Qed.
Lemma new_chain_producers rid caps c p :
  new_chain rid caps = Ok c → p ∈ ["runtime"; "policy"; "broker"; "adapter"] →
  is_Some (ch_capabilities c !! p).
Proof.
  intros (Hd & Hn & _ & ->)%new_chain_ok Hp. simpl. rewrite lookup_omap.
  assert (p ∈ dom caps) as [v Hv]%elem_of_dom.
  { rewrite Hd. repeat (apply elem_of_cons in Hp as [->|Hp]; [set_solver|]).
    by apply elem_of_nil in Hp. }
  rewrite Hv. simpl. pose proof (Hn _ _ Hv). destruct v as [i [tok|]]; [|done]. by eexists.
Qed.

(** Two producers never share a capability. *)
Lemma new_chain_tokens rid caps c p q i1 i2 tok :
  new_chain rid caps = Ok c →
  ch_capabilities c !! p = Some (i1, tok) → ch_capabilities c !! q = Some (i2, tok) → p = q.
Proof.
  intros (_ & _ & Hnd & ->)%new_chain_ok. simpl. rewrite !lookup_omap.
  intros ([j1 [t1|]] & Hp & [= -> ->])%bind_Some ([j2 [t2|]] & Hq & [= -> ->])%bind_Some.
  apply elem_of_map_to_list in Hp, Hq.
  assert ((p, (i1, Some tok)) = (q, (i2, Some tok))) as [= ->]; [|done].
  by apply (NoDup_map_inj _ _ Hnd).
Qed.

Lemma admit_errors c e cap :
  (∀ p, p ∈ ["runtime"; "policy"; "broker"; "adapter"] → is_Some (ch_capabilities c !! p)) →
  state_error (admit_event c e cap).
Proof.
  intros Hcaps. unfold admit_event. rewrite is_valid_conforms.
  destruct (conforms run_event_schema e) eqn:Ev; [|intros ? [= <-]; eauto].
  destruct (valid_view e Ev) as (v & -> & [d Ed] & [[out prods] Es] & Hp & Hsp).
  cbn [negb]. rewrite Ed, Es. destruct (Hcaps _ Hp) as [[iss tok] ->].
  repeat match goal with
  | |- state_error (if ?b then Err _ else _) => destruct b; [intros ? [= <-]; eauto|]
  end.
  apply bind_errors; [by apply reduce_errors|]. by intros a e'.
Qed.

Lemma inv_previous c :
  chain_inv c → ∀ i e, ch_events c !! i = Some e →
  previous_field e = json_of_optstr (previous_of (ch_events c) i).
Proof.
  intros Hc i e He. destruct (ci_events _ Hc _ _ He) as (_ & v & Ev & _ & _ & Hp).
  by rewrite <- Hp, <- (view_previous _ _ Ev).
Qed.
Lemma inv_wf c : chain_inv c → Forall (fun e => json_wf e = true) (ch_events c).
Proof.
  intros Hc. apply Forall_lookup. intros i e He.
  destruct (ci_events _ Hc _ _ He) as (Hv & _). by eapply conforms_wf.
Qed.

(** [C6] The chain's state is a replay: after any calls of [append], the
    state and the tracked operations are exactly what the reducer computes from
    the events the chain holds, so everything proved of replayed runs holds of
    the chain; and every event of the chain takes part. *)
Theorem chain_refines_reducer rid caps c l :
  new_chain rid caps = Ok c →
  replay initial (omap event_of (ch_events (calls c l)))
    = Ok (from_parts (ch_state (calls c l)) (ch_parts (calls c l)))
  ∧ length (omap event_of (ch_events (calls c l))) = length (ch_events (calls c l)).
Proof.
  intros Hc. pose proof (calls_inv _ _ _ l Hc) as Hi. split; [apply Hi|].
  pose proof (ci_events _ Hi) as He. revert He. generalize (calls c l). intros c' He.
  assert (∀ e, e ∈ ch_events c' → is_Some (event_of e)) as Hv.
  { intros e [i Hie]%list_elem_of_lookup. destruct (He _ _ Hie) as (_ & v & Ev & _).
    unfold event_of. rewrite Ev. by eexists. }
  clear He. induction (ch_events c') as [|e es IH]; [done|]. simpl.
  destruct (Hv e) as [x ->]; [left|]. simpl. f_equal. apply IH. intros; apply Hv. by right.
Qed.

(** The chain is intact: its events are schema-valid records of this
    run, numbered 1, 2, 3, ..., each carrying the digest of its predecessor
    (none for the first); their ids are distinct, their times never go
    backwards, and the head is the digest of the last one. *)
Theorem chain_integrity rid caps c l :
  new_chain rid caps = Ok c →
  let es := ch_events (calls c l) in
  (∀ i e, es !! i = Some e →
     conforms run_event_schema e = true ∧
     ∃ v, view e = Some v ∧ ev_run v = rid ∧ ev_sequence v = Z.of_nat i + 1 ∧
          ev_previous v = match i with O => None | S j => semantic_digest <$> es !! j end) ∧
  NoDup (omap event_id es) ∧ StronglySorted Z.le (omap event_instant es) ∧
  ch_head_digest (calls c l) = semantic_digest <$> last es.
Proof.
  intros Hc es. pose proof (calls_inv _ _ _ l Hc) as Hi.
  assert (ch_run_id (calls c l) = rid) as Hr.
  { rewrite calls_run_id. by apply new_chain_run_id in Hc. }
  split_and!; try apply Hi. intros i e He. destruct (ci_events _ Hi _ _ He) as (Hv & v & E).
  split; [done|]. exists v. by rewrite <- Hr.
Qed.

(** The head digest commits to the whole history: two chains with the
    same head hold the same events in canonical form, unless two of their
    events' canonical texts collide under SHA-256. *)
Theorem chain_tamper_evident rid1 caps1 c1 l1 rid2 caps2 c2 l2 :
  new_chain rid1 caps1 = Ok c1 → new_chain rid2 caps2 = Ok c2 →
  no_collisions (map canonical_json (ch_events (calls c1 l1) ++ ch_events (calls c2 l2))) →
  ch_head_digest (calls c1 l1) = ch_head_digest (calls c2 l2) →
  map jnorm (ch_events (calls c1 l1)) = map jnorm (ch_events (calls c2 l2)).
Proof.
  intros H1 H2 Hnc Hh.
  pose proof (calls_inv _ _ _ l1 H1) as I1. pose proof (calls_inv _ _ _ l2 H2) as I2.
  rewrite (ci_head _ I1), (ci_head _ I2) in Hh.
  apply linked_unique; [|by apply inv_previous|by apply inv_previous|done|done].
  rewrite Forall_app. split; by apply inv_wf.
Qed.


(** [append] never fails in an undeclared way: on a chain built by the
    constructor, whatever the record and the capability, an exception it raises
    is a [RuntimeStateError], and the chain is what it was before the call. *)
Theorem append_raises_state_errors rid caps c l e cap x :
  new_chain rid caps = Ok c → (append (calls c l) e cap).2 = Err x →
  (∃ code, x = RuntimeStateError code) ∧ (append (calls c l) e cap).1 = calls c l.
Proof.
  intros Hc Hx. unfold append in *. pose proof (admit_errors (calls c l) e cap) as He.
  rewrite calls_capabilities in He. specialize (He (fun p => new_chain_producers _ _ _ p Hc)).
  destruct (admit_event (calls c l) e cap) as [[[v d] pr]|err]; [done|].
  injection Hx as <-. split; [by apply He|done].
Qed.
End Claims.

(** ** A concrete chain *)

Definition meta (id : string) (n : Z) (producer issuer : string) (prev : option string) : json :=
  JObj [("id", JStr id); ("runId", JStr "run-1"); ("sequence", JInt n);
        ("occurredAt", JStr "2026-01-02T03:04:05.5Z"); ("producer", JStr producer);
        ("producerIssuer", JStr issuer); ("previousEventDigest", json_of_optstr prev)].
Definition record (m : json) (type outcome : string) : json :=
  JObj [("apiVersion", JStr "runtime.ai.ecosystem/v1alpha1"); ("kind", JStr "RunEvent");
        ("metadata", m); ("spec", JObj [("type", JStr type); ("outcome", JStr outcome)])].
Definition example_caps : gmap string (string * option nat) :=
  <["runtime" := ("rt", Some 1%nat)]> (<["policy" := ("po", Some 2%nat)]>
  (<["broker" := ("br", Some 3%nat)]> (<["adapter" := ("ad", Some 4%nat)]> ∅))).
Definition example_chain : RunEventChain :=
  match new_chain "run-1" example_caps with
  | Ok c => c
  | Err _ => {| ch_run_id := EmptyString; ch_capabilities := ∅; ch_state := NEW;
                ch_parts := empty_parts; ch_events := []; ch_event_ids := ∅;
                ch_head_digest := None; ch_occurred_at := None |}
  end.
Definition first_event : json := record (meta "e1" 1 "runtime" "rt" None) "run.received" "pending".
(** The same record with its items listed in another order. *)
Definition first_event' : json := JObj (rev (items first_event)).
Definition second_event : json :=
  record (meta "e2" 2 "runtime" "rt" (Some (semantic_digest (H := Checksum.crypto) first_event)))
         "run.validated" "success".
Definition example_calls : list (json * option nat) :=
  [(first_event, Some 1%nat); (first_event, Some 1%nat); (second_event, Some 1%nat)].

#[local] Existing Instance Checksum.crypto.
#[local] Existing Instance draft202012.

Lemma chain_refines_reducer_witness :
  replay initial (omap event_of (ch_events (calls example_chain example_calls)))
    = Ok (from_parts VALIDATED empty_parts).
Proof.
  transitivity (Ok (from_parts (ch_state (calls example_chain example_calls))
                                (ch_parts (calls example_chain example_calls)))).
  - apply (chain_refines_reducer "run-1" example_caps). vm_compute. reflexivity.
  - vm_compute. reflexivity.
Defined.

Lemma chain_integrity_witness :
  NoDup (omap event_id (ch_events (calls example_chain example_calls))) ∧
  length (ch_events (calls example_chain example_calls)) = 2%nat.
Proof.
  split; [|vm_compute; reflexivity].
  apply (chain_integrity "run-1" example_caps example_chain example_calls). vm_compute. reflexivity.
Defined.

Lemma chain_tamper_evident_witness :
  map jnorm (ch_events (calls example_chain [(first_event, Some 1%nat)]))
  = map jnorm (ch_events (calls example_chain [(first_event', Some 1%nat)])).
Proof.
  apply (chain_tamper_evident "run-1" example_caps example_chain _
           "run-1" example_caps example_chain);
    [vm_compute; reflexivity|vm_compute; reflexivity| |vm_compute; reflexivity].
  assert (map canonical_json (ch_events (calls example_chain [(first_event, Some 1%nat)])
            ++ ch_events (calls example_chain [(first_event', Some 1%nat)]))
          = [canonical_json first_event; canonical_json first_event]) as ->
    by (vm_compute; reflexivity).
  intros a b Ha Hb _. apply elem_of_cons in Ha as [->|Ha], Hb as [->|Hb];
    repeat match goal with Hx : _ ∈ [_] |- _ => apply list_elem_of_singleton in Hx as -> end;
    reflexivity.
Defined.


Lemma append_raises_state_errors_witness :
  (append (calls example_chain example_calls) first_event (Some 1%nat)).2
    = Err (RuntimeStateError "ECO_EVENT_ID_REUSED") ∧
  (append (calls example_chain example_calls) first_event (Some 1%nat)).1
    = calls example_chain example_calls.
Proof.
  split; [vm_compute; reflexivity|].
  apply (append_raises_state_errors "run-1" example_caps example_chain example_calls first_event
           (Some 1%nat) (RuntimeStateError "ECO_EVENT_ID_REUSED")); vm_compute; reflexivity.
Defined.
