(* ===== verification/Budget.v ===== *)
(** * The run budget, src/eco_runtime/budget.py

    [BudgetLedger] accounts one run's spending against the limits of its plan.
    Its methods are state-passing functions that return the ledger after the
    call and the call's result; the clock, Python's [time.monotonic], is an
    argument, in nanoseconds.  An [InputByteReservation] is an object of its
    own with a [_finished] flag; [BudgetWorld] holds a ledger with every
    reservation object handed out so far, so that a client can use any of them
    in any order and more than once.

    The plan is a JSON record that [validate_record] accepted.  The ledger reads
    the fields of [PlanFields]; that a valid plan has them, with the bounds the
    schema gives them, is the law [run_plan_valid_fields]. *)

From S2P Require Import Prelude Json Digest.

Record Limits : Type := {
  maxDurationSeconds : Z; maxModelRequests : Z; maxToolRequests : Z;
  maxInputBytes : Z; maxOutputBytes : Z; maxTotalTokens : Z; maxCostMicrousd : Z;
}.

Record PlanFields : Type := {
  pf_run_id : string;
  pf_limits : Limits;
  pf_inputs : list Z;     (* the byteLength of each input *)
}.

Definition int_in (lo hi : Z) (k : string) (o : list (string * json)) : option Z :=
  match jget k o with
  | JInt z => if (lo <=? z) && (z <=? hi) then Some z else None
  | _ => None
  end.

Definition limits_of (b : list (string * json)) : option Limits :=
  d ← int_in 1 86400 "maxDurationSeconds" b;
  m ← int_in 1 1000 "maxModelRequests" b;
  t ← int_in 0 10000 "maxToolRequests" b;
  i ← int_in 1 1073741824 "maxInputBytes" b;
  o ← int_in 1 1073741824 "maxOutputBytes" b;
  k ← int_in 1 10000000 "maxTotalTokens" b;
  c ← int_in 0 1000000000000 "maxCostMicrousd" b;
  Some {| maxDurationSeconds := d; maxModelRequests := m; maxToolRequests := t;
          maxInputBytes := i; maxOutputBytes := o; maxTotalTokens := k; maxCostMicrousd := c |}.

Definition input_length (j : json) : option Z :=
  match j with
  | JObj o => match jget "byteLength" o with
              | JInt z => if 0 <=? z then Some z else None
              | _ => None
              end
  | _ => None
  end.

(** [plan["metadata"]["runId"]], [plan["spec"]["budget"]] and the byte lengths of
    [plan["spec"]["inputs"]]. *)
Definition plan_fields (plan : json) : option PlanFields :=
  match plan with
  | JObj o =>
      match jget "metadata" o, jget "spec" o with
      | JObj m, JObj s =>
          match jget "runId" m, jget "budget" s, jget "inputs" s with
          | JStr r, JObj b, JArr l =>
              lim ← limits_of b;
              ins ← mapM input_length l;
              Some {| pf_run_id := r; pf_limits := lim; pf_inputs := ins |}
          | _, _, _ => None
          end
      | _, _ => None
      end
  | _ => None
  end.

(** [validate_record] on run plans. *)
Class RunPlanValidation : Type := {
  run_plan_valid : json → bool;
  run_plan_valid_fields : ∀ plan, run_plan_valid plan = true → is_Some (plan_fields plan);
}.

(** ** The ledger *)

Record BudgetLedger : Type := {
  bl_run_id : string;
  bl_plan_digest : string;
  bl_limits : Limits;
  bl_started_at : Z;
  bl_tool_requests : Z;
  bl_input_bytes : Z;
  bl_reserved_input_bytes : Z;
  bl_next_reservation_id : Z;
  bl_input_reservations : gmap Z Z;
  bl_output_bytes : Z;
  bl_model_requests : Z;
  bl_total_tokens : Z;
  bl_cost_microusd : Z;
}.

Definition budget_error (code : string) : py_error := RuntimeBudgetError code.

Definition zsum (l : list Z) : Z := foldr Z.add 0 l.

(** [BudgetLedger.__init__] *)
Definition new_ledger `{Crypto} `{RunPlanValidation} (plan : json) (clock : Z)
  : result BudgetLedger :=
  raise ContractValidationError when (negb (run_plan_valid plan)) else
  match plan_fields plan with
  | None => Err KeyError
  | Some f =>
      let input_bytes := zsum (pf_inputs f) in
      raise (budget_error "ECO_BUDGET_EXHAUSTED") when
        (input_bytes >? maxInputBytes (pf_limits f)) else
      Ok {| bl_run_id := pf_run_id f; bl_plan_digest := semantic_digest plan;
            bl_limits := pf_limits f; bl_started_at := clock; bl_tool_requests := 0;
            bl_input_bytes := input_bytes; bl_reserved_input_bytes := 0;
            bl_next_reservation_id := 1; bl_input_reservations := ∅; bl_output_bytes := 0;
            bl_model_requests := 0; bl_total_tokens := 0; bl_cost_microusd := 0 |}
  end.

(** The fields a method assigns. *)
Definition set_input (b : BudgetLedger) (input reserved next : Z) (rs : gmap Z Z) : BudgetLedger :=
  {| bl_run_id := bl_run_id b; bl_plan_digest := bl_plan_digest b; bl_limits := bl_limits b;
     bl_started_at := bl_started_at b; bl_tool_requests := bl_tool_requests b;
     bl_input_bytes := input; bl_reserved_input_bytes := reserved;
     bl_next_reservation_id := next; bl_input_reservations := rs;
     bl_output_bytes := bl_output_bytes b; bl_model_requests := bl_model_requests b;
     bl_total_tokens := bl_total_tokens b; bl_cost_microusd := bl_cost_microusd b |}.
Definition set_tool_requests (b : BudgetLedger) (n : Z) : BudgetLedger :=
  {| bl_run_id := bl_run_id b; bl_plan_digest := bl_plan_digest b; bl_limits := bl_limits b;
     bl_started_at := bl_started_at b; bl_tool_requests := n;
     bl_input_bytes := bl_input_bytes b; bl_reserved_input_bytes := bl_reserved_input_bytes b;
     bl_next_reservation_id := bl_next_reservation_id b;
     bl_input_reservations := bl_input_reservations b;
     bl_output_bytes := bl_output_bytes b; bl_model_requests := bl_model_requests b;
     bl_total_tokens := bl_total_tokens b; bl_cost_microusd := bl_cost_microusd b |}.
Definition set_model (b : BudgetLedger) (model output tokens cost : Z) : BudgetLedger :=
  {| bl_run_id := bl_run_id b; bl_plan_digest := bl_plan_digest b; bl_limits := bl_limits b;
     bl_started_at := bl_started_at b; bl_tool_requests := bl_tool_requests b;
     bl_input_bytes := bl_input_bytes b; bl_reserved_input_bytes := bl_reserved_input_bytes b;
     bl_next_reservation_id := bl_next_reservation_id b;
     bl_input_reservations := bl_input_reservations b;
     bl_output_bytes := output; bl_model_requests := model;
     bl_total_tokens := tokens; bl_cost_microusd := cost |}.

(** [_check_duration_locked] *)
Definition duration_exhausted (b : BudgetLedger) (now : Z) : bool :=
  now - bl_started_at b >? maxDurationSeconds (bl_limits b) * 1000000000.

Definition reserve_tool_request (b : BudgetLedger) (now : Z) : BudgetLedger * result Z :=
  if duration_exhausted b now then (b, Err (budget_error "ECO_DURATION_EXHAUSTED"))
  else if bl_tool_requests b >=? maxToolRequests (bl_limits b)
  then (b, Err (budget_error "ECO_TOOL_BUDGET_EXHAUSTED"))
  else (set_tool_requests b (bl_tool_requests b + 1),
        Ok (maxInputBytes (bl_limits b) - bl_input_bytes b - bl_reserved_input_bytes b)).

Record InputByteReservation : Type := {
  r_id : Z; r_byte_count : Z; r_finished : bool;
}.
Definition finish (r : InputByteReservation) : InputByteReservation :=
  {| r_id := r_id r; r_byte_count := r_byte_count r; r_finished := true |}.

Definition reserve_input_bytes (b : BudgetLedger) (now byte_count : Z)
  : BudgetLedger * result InputByteReservation :=
  if byte_count <? 0 then (b, Err ValueError)
  else if duration_exhausted b now then (b, Err (budget_error "ECO_DURATION_EXHAUSTED"))
  else if bl_input_bytes b + bl_reserved_input_bytes b + byte_count >? maxInputBytes (bl_limits b)
  then (b, Err (budget_error "ECO_INPUT_BUDGET_EXHAUSTED"))
  else
    let reservation_id := bl_next_reservation_id b in
    (set_input b (bl_input_bytes b) (bl_reserved_input_bytes b + byte_count) (reservation_id + 1)
               (<[reservation_id := byte_count]> (bl_input_reservations b)),
     Ok {| r_id := reservation_id; r_byte_count := byte_count; r_finished := false |}).

Definition release_input_reservation (b : BudgetLedger) (reservation_id : Z)
  : BudgetLedger * result unit :=
  match bl_input_reservations b !! reservation_id with
  | None => (b, Err (budget_error "ECO_BUDGET_RESERVATION_INVALID"))
  | Some byte_count =>
      (set_input b (bl_input_bytes b) (bl_reserved_input_bytes b - byte_count)
                 (bl_next_reservation_id b) (delete reservation_id (bl_input_reservations b)),
       Ok tt)
  end.

Definition commit_input_reservation (b : BudgetLedger) (reservation_id actual_byte_count : Z)
  : BudgetLedger * result unit :=
  if actual_byte_count <? 0 then (b, Err ValueError)
  else
    match bl_input_reservations b !! reservation_id with
    | None => (b, Err (budget_error "ECO_BUDGET_RESERVATION_INVALID"))
    | Some reserved =>
        if actual_byte_count >? reserved
        then (b, Err (budget_error "ECO_INPUT_BUDGET_EXHAUSTED"))
        else
          (set_input b (bl_input_bytes b + actual_byte_count) (bl_reserved_input_bytes b - reserved)
                     (bl_next_reservation_id b) (delete reservation_id (bl_input_reservations b)),
           Ok tt)
    end.

Definition consume_input_bytes (b : BudgetLedger) (now byte_count : Z)
  : BudgetLedger * result unit :=
  if byte_count <? 0 then (b, Err ValueError)
  else if duration_exhausted b now then (b, Err (budget_error "ECO_DURATION_EXHAUSTED"))
  else if bl_input_bytes b + bl_reserved_input_bytes b + byte_count >? maxInputBytes (bl_limits b)
  then (b, Err (budget_error "ECO_INPUT_BUDGET_EXHAUSTED"))
  else (set_input b (bl_input_bytes b + byte_count) (bl_reserved_input_bytes b)
                  (bl_next_reservation_id b) (bl_input_reservations b), Ok tt).

Definition consume_model_usage (b : BudgetLedger) (now output_bytes tokens cost_microusd : Z)
  : BudgetLedger * result unit :=
  if (output_bytes <? 0) || (tokens <? 0) || (cost_microusd <? 0) then (b, Err ValueError)
  else if duration_exhausted b now then (b, Err (budget_error "ECO_DURATION_EXHAUSTED"))
  else
    let model := bl_model_requests b + 1 in
    let output := bl_output_bytes b + output_bytes in
    let tokens := bl_total_tokens b + tokens in
    let cost := bl_cost_microusd b + cost_microusd in
    if model >? maxModelRequests (bl_limits b)
    then (b, Err (budget_error "ECO_MODEL_BUDGET_EXHAUSTED"))
    else if output >? maxOutputBytes (bl_limits b)
    then (b, Err (budget_error "ECO_OUTPUT_BUDGET_EXHAUSTED"))
    else if tokens >? maxTotalTokens (bl_limits b)
    then (b, Err (budget_error "ECO_TOKEN_BUDGET_EXHAUSTED"))
    else if cost >? maxCostMicrousd (bl_limits b)
    then (b, Err (budget_error "ECO_COST_BUDGET_EXHAUSTED"))
    else (set_model b model output tokens cost, Ok tt).

(** ** [snapshot] *)

Record BudgetSnapshot : Type := {
  s_run_id : string; s_plan_digest : string; s_tool_requests : Z; s_input_bytes : Z;
  s_reserved_input_bytes : Z; s_output_bytes : Z; s_model_requests : Z; s_total_tokens : Z;
  s_cost_microusd : Z;
}.
Definition snapshot (b : BudgetLedger) : BudgetSnapshot :=
  {| s_run_id := bl_run_id b; s_plan_digest := bl_plan_digest b;
     s_tool_requests := bl_tool_requests b; s_input_bytes := bl_input_bytes b;
     s_reserved_input_bytes := bl_reserved_input_bytes b; s_output_bytes := bl_output_bytes b;
     s_model_requests := bl_model_requests b; s_total_tokens := bl_total_tokens b;
     s_cost_microusd := bl_cost_microusd b |}.

(** ** [InputByteReservation.commit] and [.release] *)

Definition reservation_commit (b : BudgetLedger) (r : InputByteReservation) (actual : Z)
  : BudgetLedger * InputByteReservation * result unit :=
  if r_finished r then (b, r, Err (budget_error "ECO_BUDGET_RESERVATION_USED"))
  else
    match commit_input_reservation b (r_id r) actual with
    | (b', Ok tt) => (b', finish r, Ok tt)
    | (b', Err e) => (b', r, Err e)
    end.

Definition reservation_release (b : BudgetLedger) (r : InputByteReservation)
  : BudgetLedger * InputByteReservation * result unit :=
  if r_finished r then (b, r, Ok tt)
  else
    match release_input_reservation b (r_id r) with
    | (b', Ok tt) => (b', finish r, Ok tt)
    | (b', Err e) => (b', r, Err e)
    end.

(** ** A ledger and the reservations handed out *)

Record BudgetWorld : Type := { w_ledger : BudgetLedger; w_reservations : list InputByteReservation }.

Inductive budget_op : Type :=
| ReserveTool (now : Z)
| ReserveInput (now byte_count : Z)
| Commit (i : nat) (actual : Z)          (* on the i-th reservation object *)
| Release (i : nat)
| ConsumeInput (now byte_count : Z)
| ConsumeModel (now output_bytes tokens cost_microusd : Z).

Definition call (w : BudgetWorld) (o : budget_op) : BudgetWorld * result unit :=
  let keep {A} (x : BudgetLedger * result A) : BudgetWorld * result unit :=
    ({| w_ledger := x.1; w_reservations := w_reservations w |},
     match x.2 with Ok _ => Ok tt | Err e => Err e end) in
  let on i (f : InputByteReservation → BudgetLedger * InputByteReservation * result unit) :=
    match w_reservations w !! i with
    | None => (w, Err KeyError)
    | Some r => let x := f r in
                ({| w_ledger := x.1.1; w_reservations := <[i := x.1.2]> (w_reservations w) |}, x.2)
    end in
  match o with
  | ReserveTool now => keep (reserve_tool_request (w_ledger w) now)
  | ReserveInput now n =>
      match reserve_input_bytes (w_ledger w) now n with
      | (b, Ok r) => ({| w_ledger := b; w_reservations := w_reservations w ++ [r] |}, Ok tt)
      | (b, Err e) => ({| w_ledger := b; w_reservations := w_reservations w |}, Err e)
      end
  | Commit i actual => on i (fun r => reservation_commit (w_ledger w) r actual)
  | Release i => on i (reservation_release (w_ledger w))
  | ConsumeInput now n => keep (consume_input_bytes (w_ledger w) now n)
  | ConsumeModel now out tok cost => keep (consume_model_usage (w_ledger w) now out tok cost)
  end.

Definition budget_calls (w : BudgetWorld) (l : list budget_op) : BudgetWorld :=
  foldl (fun w o => (call w o).1) w l.

Definition world_of (b : BudgetLedger) : BudgetWorld := {| w_ledger := b; w_reservations := [] |}.
