(* ===== verification/BudgetProps.v ===== *)
(** * Properties of the run budget

    All of them are about a ledger built by the constructor and any sequence of
    calls on it and on the reservation objects it handed out, refused calls and
    repeated use of a reservation included. *)

From S2P Require Import Prelude Json Digest Budget.

(** ** The invariant *)

Definition open_bytes (r : InputByteReservation) : Z := if r_finished r then 0 else r_byte_count r.

Record budget_inv (w : BudgetWorld) : Prop := {
  bi_handle : ∀ i r, w_reservations w !! i = Some r →
    r_id r = Z.of_nat i + 1 ∧ 0 ≤ r_byte_count r ∧
    bl_input_reservations (w_ledger w) !! r_id r
      = if r_finished r then None else Some (r_byte_count r);
  bi_next : bl_next_reservation_id (w_ledger w) = Z.of_nat (length (w_reservations w)) + 1;
  bi_reserved : bl_reserved_input_bytes (w_ledger w) = zsum (map open_bytes (w_reservations w));
  bi_input : 0 ≤ bl_input_bytes (w_ledger w)
    ∧ bl_input_bytes (w_ledger w) + bl_reserved_input_bytes (w_ledger w)
      ≤ maxInputBytes (bl_limits (w_ledger w));
  bi_tools : 0 ≤ bl_tool_requests (w_ledger w) ≤ maxToolRequests (bl_limits (w_ledger w));
  bi_model : 0 ≤ bl_model_requests (w_ledger w) ≤ maxModelRequests (bl_limits (w_ledger w));
  bi_output : 0 ≤ bl_output_bytes (w_ledger w) ≤ maxOutputBytes (bl_limits (w_ledger w));
  bi_tokens : 0 ≤ bl_total_tokens (w_ledger w) ≤ maxTotalTokens (bl_limits (w_ledger w));
  bi_cost : 0 ≤ bl_cost_microusd (w_ledger w) ≤ maxCostMicrousd (bl_limits (w_ledger w));
}.

Lemma zsum_app l1 l2 : zsum (l1 ++ l2) = zsum l1 + zsum l2.
Proof. induction l1 as [|x l1 IH]; simpl; [done|]. rewrite IH. lia. Qed.

Lemma zsum_insert {A} (f : A → Z) (l : list A) i x y :
  l !! i = Some x → zsum (map f (<[i := y]> l)) = zsum (map f l) - f x + f y.
Proof.
  revert i. induction l as [|a l IH]; intros i Hi; [done|].
  destruct i as [|i]; simpl in *; [injection Hi as ->; lia|]. rewrite (IH i Hi). lia.
Qed.

Lemma zsum_nonneg l : Forall (fun x => 0 ≤ x) l → 0 ≤ zsum l.
Proof. induction 1; simpl; lia. Qed.

Lemma open_bytes_nonneg w : budget_inv w → 0 ≤ zsum (map open_bytes (w_reservations w)).
Proof.
  intros Hw. apply zsum_nonneg. apply Forall_fmap, Forall_lookup. intros i r Hr.
  destruct (bi_handle _ Hw i r Hr) as (_ & Hn & _). simpl. unfold open_bytes.
  by destruct (r_finished r).
Qed.

(** Closing the [i]-th reservation, [used] of its bytes becoming input. *)
Lemma close_inv w i r used :
  budget_inv w → w_reservations w !! i = Some r → r_finished r = false →
  0 ≤ used ≤ r_byte_count r →
  budget_inv
    {| w_ledger := set_input (w_ledger w) (bl_input_bytes (w_ledger w) + used)
         (bl_reserved_input_bytes (w_ledger w) - r_byte_count r)
         (bl_next_reservation_id (w_ledger w))
         (delete (r_id r) (bl_input_reservations (w_ledger w)));
       w_reservations := <[i := finish r]> (w_reservations w) |}.
Proof.
  intros Hw Hi Hf Hu. destruct (bi_handle _ Hw i r Hi) as (Hid & _ & _).
  split; simpl; try apply Hw.
  - intros j r' Hj. destruct (decide (j = i)) as [->|Hne].
    + rewrite list_lookup_insert_eq in Hj by (by eapply lookup_lt_Some). injection Hj as <-.
      simpl. destruct (bi_handle _ Hw i r Hi) as (_ & Hn & _).
      split_and!; [done|done|]. by rewrite lookup_delete_eq.
    + rewrite list_lookup_insert_ne in Hj by done.
      destruct (bi_handle _ Hw j r' Hj) as (Hid' & ? & ?).
      split_and!; [done|done|]. by rewrite lookup_delete_ne by lia.
  - rewrite length_insert. apply Hw.
  - rewrite (zsum_insert _ _ _ r) by done. rewrite <- (bi_reserved _ Hw).
    unfold open_bytes. simpl. rewrite Hf. lia.
  - pose proof (bi_input _ Hw). lia.
Qed.

Lemma release_inv w i : budget_inv w → budget_inv (call w (Release i)).1.
Proof.
  intros Hw. simpl. destruct (w_reservations w !! i) as [r|] eqn:Hi; [|done].
  unfold reservation_release. destruct (r_finished r) eqn:Hf; simpl.
  { rewrite list_insert_id by done. by destruct w. }
  unfold release_input_reservation.
  destruct (bi_handle _ Hw i r Hi) as (_ & Hn & E). rewrite E, Hf. simpl.
  pose proof (close_inv w i r 0 Hw Hi Hf) as Hc. rewrite Z.add_0_r in Hc. apply Hc. lia.
Qed.

Lemma commit_inv w i a : budget_inv w → budget_inv (call w (Commit i a)).1.
Proof.
  intros Hw. simpl. destruct (w_reservations w !! i) as [r|] eqn:Hi; [|done].
  assert (budget_inv {| w_ledger := w_ledger w; w_reservations := <[i := r]> (w_reservations w) |})
    as Hsame by (rewrite list_insert_id by done; by destruct w).
  unfold reservation_commit. destruct (r_finished r) eqn:Hf; [done|].
  unfold commit_input_reservation. destruct (a <? 0) eqn:Ea; [done|].
  destruct (bi_handle _ Hw i r Hi) as (_ & Hn & E). rewrite E, Hf.
  destruct (a >? r_byte_count r) eqn:Eg; [done|]. breflect. simpl. by apply close_inv.
Qed.

Lemma reserve_inv w now n : budget_inv w → budget_inv (call w (ReserveInput now n)).1.
Proof.
  intros Hw. assert (budget_inv {| w_ledger := w_ledger w; w_reservations := w_reservations w |})
    as Hsame by (by destruct w).
  simpl. unfold reserve_input_bytes. destruct (n <? 0) eqn:En; [done|].
  destruct (duration_exhausted _ _); [done|]. destruct (_ >? _) eqn:Eg; [done|]. breflect.
  pose proof (bi_next _ Hw) as Hnext.
  split; simpl; try apply Hw.
  - intros i r [[Hlt Hi]|[-> <-]]%lookup_snoc_Some.
    + destruct (bi_handle _ Hw i r Hi) as (Hid & ? & ?). split_and!; [done|done|].
      by rewrite lookup_insert_ne by lia.
    + simpl. split_and!; [done|done|]. by rewrite lookup_insert_eq.
  - rewrite length_app. simpl. lia.
  - rewrite map_app, zsum_app, (bi_reserved _ Hw). simpl. unfold open_bytes. simpl. lia.
  - pose proof (bi_input _ Hw). lia.
Qed.

Lemma call_inv w o : budget_inv w → budget_inv (call w o).1.
Proof.
  intros Hw. destruct o as [now|now n|i a|i|now n|now out tok cost];
    [|by apply reserve_inv|by apply commit_inv|by apply release_inv| |];
    simpl; unfold reserve_tool_request, consume_input_bytes, consume_model_usage;
    repeat case_match; simpl; try (by destruct w); breflect;
    split; simpl; try apply Hw; pose proof (bi_input _ Hw); pose proof (bi_tools _ Hw);
    pose proof (bi_model _ Hw); pose proof (bi_output _ Hw); pose proof (bi_tokens _ Hw);
    pose proof (bi_cost _ Hw); lia.
Qed.

Lemma int_in_bounds lo hi k o z : int_in lo hi k o = Some z → lo ≤ z ≤ hi.
Proof. unfold int_in. intros Hi. repeat case_match; try done. simplify_eq. by breflect. Qed.

Lemma plan_fields_bounds p f :
  plan_fields p = Some f →
  0 ≤ zsum (pf_inputs f) ∧ 0 ≤ maxToolRequests (pf_limits f) ∧
  0 ≤ maxModelRequests (pf_limits f) ∧ 0 ≤ maxOutputBytes (pf_limits f) ∧
  0 ≤ maxTotalTokens (pf_limits f) ∧ 0 ≤ maxCostMicrousd (pf_limits f).
Proof.
  unfold plan_fields. intros Hp. repeat (case_match; try discriminate Hp).
  apply bind_Some in Hp as (lim & Hlim & (ins & Hins & [= <-])%bind_Some). simpl.
  split.
  - apply zsum_nonneg. apply mapM_Some_1 in Hins. clear -Hins.
    induction Hins as [|j z l k Hz _ IH]; constructor; [|done].
    unfold input_length in Hz. repeat (case_match; try discriminate Hz). simplify_eq. by breflect.
  - unfold limits_of in Hlim.
    repeat (apply bind_Some in Hlim as (? & ?%int_in_bounds & Hlim)).
    injection Hlim as <-. simpl. lia.
Qed.

Lemma new_ledger_inv `{Crypto} `{RunPlanValidation} plan clock b :
  new_ledger plan clock = Ok b → budget_inv (world_of b).
Proof.
  unfold new_ledger. intros Hr. destruct (negb (run_plan_valid plan)); [done|].
  destruct (plan_fields plan) as [f|] eqn:Ef; [|done]. destruct (_ >? _) eqn:Eg; [done|].
  injection Hr as <-. apply plan_fields_bounds in Ef. breflect.
  split; simpl; try lia. intros i r. by rewrite lookup_nil.
Qed.

Lemma budget_calls_snoc w l o : budget_calls w (l ++ [o]) = (call (budget_calls w l) o).1.
Proof. unfold budget_calls. by rewrite foldl_app. Qed.

Lemma budget_calls_inv `{Crypto} `{RunPlanValidation} plan clock b l :
  new_ledger plan clock = Ok b → budget_inv (budget_calls (world_of b) l).
Proof.
  intros Hb%new_ledger_inv. induction l as [|o l IH] using rev_ind; [done|].
  rewrite budget_calls_snoc. by apply call_inv.
Qed.

(** ** Accounting *)

(** The calls of a sequence that returned normally. *)
Fixpoint accepted (w : BudgetWorld) (l : list budget_op) : list budget_op :=
  match l with
  | [] => []
  | o :: l' => (if is_ok (call w o).2 then [o] else []) ++ accepted (call w o).1 l'
  end.

(** What a call that returned normally spends. *)
Definition op_tools (o : budget_op) : Z := match o with ReserveTool _ => 1 | _ => 0 end.
Definition op_input (o : budget_op) : Z :=
  match o with Commit _ a => a | ConsumeInput _ n => n | _ => 0 end.
Definition op_model (o : budget_op) : Z := match o with ConsumeModel _ _ _ _ => 1 | _ => 0 end.
Definition op_output (o : budget_op) : Z := match o with ConsumeModel _ n _ _ => n | _ => 0 end.
Definition op_tokens (o : budget_op) : Z := match o with ConsumeModel _ _ n _ => n | _ => 0 end.
Definition op_cost (o : budget_op) : Z := match o with ConsumeModel _ _ _ n => n | _ => 0 end.

(** A counter that each call changes by exactly what it spends. *)
Definition counts (counter : BudgetLedger → Z) (charge : budget_op → Z) : Prop :=
  ∀ w o, counter (w_ledger (call w o).1)
         = counter (w_ledger w) + (if is_ok (call w o).2 then charge o else 0).

Lemma counts_calls counter charge w l :
  counts counter charge →
  counter (w_ledger (budget_calls w l)) = counter (w_ledger w) + zsum (map charge (accepted w l)).
Proof.
  intros Hc. revert w. induction l as [|o l IH]; intros w; simpl; [lia|].
  unfold budget_calls in *. rewrite IH, Hc, map_app, zsum_app.
  destruct (is_ok _); simpl; lia.
Qed.

Ltac counts :=
  intros w o; destruct o; simpl;
  unfold reserve_tool_request, reserve_input_bytes, reservation_commit, reservation_release,
    commit_input_reservation, release_input_reservation, consume_input_bytes, consume_model_usage;
  repeat case_match; simplify_eq/=; try lia.

Lemma counts_tools : counts bl_tool_requests op_tools.
Proof. counts. Qed.
Lemma counts_input : counts bl_input_bytes op_input.
Proof. counts. Qed.
Lemma counts_model : counts bl_model_requests op_model.
Proof. counts. Qed.
Lemma counts_output : counts bl_output_bytes op_output.
Proof. counts. Qed.
Lemma counts_tokens : counts bl_total_tokens op_tokens.
Proof. counts. Qed.
Lemma counts_cost : counts bl_cost_microusd op_cost.
Proof. counts. Qed.
Lemma call_limits w o : bl_limits (w_ledger (call w o).1) = bl_limits (w_ledger w).
Proof.
  destruct o; simpl;
    unfold reserve_tool_request, reserve_input_bytes, reservation_commit, reservation_release,
      commit_input_reservation, release_input_reservation, consume_input_bytes,
      consume_model_usage; repeat case_match; simplify_eq/=; done.
Qed.
Lemma calls_limits w l : bl_limits (w_ledger (budget_calls w l)) = bl_limits (w_ledger w).
Proof.
  induction l as [|o l IH] using rev_ind; [done|]. by rewrite budget_calls_snoc, call_limits.
Qed.

(** ** Claims *)

Section Claims.
Context `{Crypto} `{RunPlanValidation}.

(** [C18] The budget is never exceeded: whatever the calls, the counters of
    the snapshot stay between zero and the plan's limits, input already read
    plus input reserved fits in the input limit, and the reserved total is the
    sum of the reservations still open. *)
Theorem budget_never_exceeded plan clock b l :
  new_ledger plan clock = Ok b →
  let w := budget_calls (world_of b) l in
  let s := snapshot (w_ledger w) in
  let limits := bl_limits b in
  0 ≤ s_tool_requests s ≤ maxToolRequests limits ∧
  0 ≤ s_model_requests s ≤ maxModelRequests limits ∧
  0 ≤ s_output_bytes s ≤ maxOutputBytes limits ∧
  0 ≤ s_total_tokens s ≤ maxTotalTokens limits ∧
  0 ≤ s_cost_microusd s ≤ maxCostMicrousd limits ∧
  0 ≤ s_input_bytes s ∧ 0 ≤ s_reserved_input_bytes s ∧
  s_input_bytes s + s_reserved_input_bytes s ≤ maxInputBytes limits ∧
  s_reserved_input_bytes s = zsum (map open_bytes (w_reservations w)).
Proof.
  intros Hb. pose proof (budget_calls_inv _ _ _ l Hb) as Hw. cbv zeta.
  change (bl_limits b) with (bl_limits (w_ledger (world_of b))).
  rewrite <- (calls_limits (world_of b) l).
  pose proof (open_bytes_nonneg _ Hw) as Hn. rewrite <- (bi_reserved _ Hw) in Hn.
  destruct Hw. simpl. split_and!; try done; lia.
Qed.

(** Accounting is exact: each counter is its initial value plus what
    the calls that returned normally spent; a refused call spends nothing. *)
Theorem budget_exact_accounting b l :
  let s := snapshot (w_ledger (budget_calls (world_of b) l)) in
  let spent := accepted (world_of b) l in
  s_tool_requests s = bl_tool_requests b + zsum (map op_tools spent) ∧
  s_input_bytes s = bl_input_bytes b + zsum (map op_input spent) ∧
  s_model_requests s = bl_model_requests b + zsum (map op_model spent) ∧
  s_output_bytes s = bl_output_bytes b + zsum (map op_output spent) ∧
  s_total_tokens s = bl_total_tokens b + zsum (map op_tokens spent) ∧
  s_cost_microusd s = bl_cost_microusd b + zsum (map op_cost spent).
Proof.
  simpl. split_and!.
  - apply (counts_calls _ _ (world_of b)), counts_tools.
  - apply (counts_calls _ _ (world_of b)), counts_input.
  - apply (counts_calls _ _ (world_of b)), counts_model.
  - apply (counts_calls _ _ (world_of b)), counts_output.
  - apply (counts_calls _ _ (world_of b)), counts_tokens.
  - apply (counts_calls _ _ (world_of b)), counts_cost.
Qed.

(** A reservation is good for one use: while it is open, releasing it
    and committing any amount up to its size succeed, whatever happened to the
    budget or the clock since; once it is closed, another commit is refused
    and another release changes nothing. *)
Theorem reservation_used_once plan clock b l i r :
  new_ledger plan clock = Ok b →
  w_reservations (budget_calls (world_of b) l) !! i = Some r →
  let w := budget_calls (world_of b) l in
  if r_finished r then
    (∀ a, call w (Commit i a) = (w, Err (RuntimeBudgetError "ECO_BUDGET_RESERVATION_USED"))) ∧
    call w (Release i) = (w, Ok tt)
  else
    (∀ a, 0 ≤ a ≤ r_byte_count r → (call w (Commit i a)).2 = Ok tt ∧
       w_reservations (call w (Commit i a)).1 !! i = Some (finish r)) ∧
    (call w (Release i)).2 = Ok tt ∧
    w_reservations (call w (Release i)).1 !! i = Some (finish r).
Proof.
  intros Hb Hi w. pose proof (budget_calls_inv _ _ _ l Hb) as Hw. fold w in Hi, Hw.
  destruct (bi_handle _ Hw i r Hi) as (_ & Hn & E).
  pose proof (lookup_lt_Some _ _ _ Hi) as Hlt. simpl. rewrite Hi.
  unfold reservation_commit, reservation_release.
  destruct (r_finished r) eqn:Ef.
  - simpl. rewrite list_insert_id by done. by destruct w.
  - unfold commit_input_reservation, release_input_reservation. rewrite E. simpl. split.
    + intros a Ha. destruct (a <? 0) eqn:E1; [breflect; lia|].
      destruct (a >? r_byte_count r) eqn:E2; [breflect; lia|]. simpl.
      by rewrite list_lookup_insert_eq.
    + by rewrite list_lookup_insert_eq.
Qed.
End Claims.

(** ** A concrete ledger *)

Definition example_plan : json :=
  JObj [("metadata", JObj [("runId", JStr "run-1")]);
        ("spec", JObj
          [("inputs", JArr [JObj [("byteLength", JInt 10)]; JObj [("byteLength", JInt 5)]]);
           ("budget", JObj
             [("maxDurationSeconds", JInt 60); ("maxModelRequests", JInt 2);
              ("maxToolRequests", JInt 1); ("maxInputBytes", JInt 100);
              ("maxOutputBytes", JInt 50); ("maxTotalTokens", JInt 1000);
              ("maxCostMicrousd", JInt 500)])])].
Definition fields_validation : RunPlanValidation :=
  {| run_plan_valid p := bool_decide (is_Some (plan_fields p));
     run_plan_valid_fields p := bool_decide_eq_true_1 _ |}.
#[local] Existing Instance Checksum.crypto.
#[local] Existing Instance fields_validation.
Definition example_ledger : BudgetLedger :=
  match new_ledger example_plan 0 with
  | Ok b => b
  | Err _ => {| bl_run_id := EmptyString; bl_plan_digest := EmptyString;
                bl_limits := {| maxDurationSeconds := 0; maxModelRequests := 0;
                  maxToolRequests := 0; maxInputBytes := 0; maxOutputBytes := 0;
                  maxTotalTokens := 0; maxCostMicrousd := 0 |};
                bl_started_at := 0; bl_tool_requests := 0; bl_input_bytes := 0;
                bl_reserved_input_bytes := 0; bl_next_reservation_id := 0;
                bl_input_reservations := ∅; bl_output_bytes := 0; bl_model_requests := 0;
                bl_total_tokens := 0; bl_cost_microusd := 0 |}
  end.
Definition example_ops : list budget_op :=
  [ReserveInput 1 40; ReserveTool 2; ReserveInput 3 60; Commit 0 30; ReserveTool 4;
   ReserveInput 5 20; ConsumeModel 6 10 500 400; ConsumeModel 7 10 500 400].

Lemma budget_never_exceeded_witness :
  s_input_bytes (snapshot (w_ledger (budget_calls (world_of example_ledger) example_ops)))
  + s_reserved_input_bytes (snapshot (w_ledger (budget_calls (world_of example_ledger) example_ops)))
  ≤ maxInputBytes (bl_limits example_ledger).
Proof.
  pose proof (budget_never_exceeded example_plan 0 example_ledger example_ops) as Hw.
  apply Hw. vm_compute. reflexivity.
Defined.

Lemma reservation_used_once_witness :
  call (budget_calls (world_of example_ledger) example_ops) (Commit 0 1)
    = (budget_calls (world_of example_ledger) example_ops,
       Err (RuntimeBudgetError "ECO_BUDGET_RESERVATION_USED")) ∧
  (call (budget_calls (world_of example_ledger) example_ops) (Commit 1 20)).2 = Ok tt.
Proof.
  pose proof (reservation_used_once example_plan 0 example_ledger example_ops 0
                {| r_id := 1; r_byte_count := 40; r_finished := true |}) as H0.
  pose proof (reservation_used_once example_plan 0 example_ledger example_ops 1
                {| r_id := 2; r_byte_count := 20; r_finished := false |}) as H1.
  assert (new_ledger example_plan 0 = Ok example_ledger) as Hn by (vm_compute; reflexivity).
  destruct (H0 Hn ltac:(vm_compute; reflexivity)) as [C0 _].
  destruct (H1 Hn ltac:(vm_compute; reflexivity)) as [C1 _].
  split; [exact (C0 1)|]. apply (C1 20). vm_compute. by split.
Defined.
