(* ===== verification/Telemetry.v ===== *)
(** * The telemetry ledger, src/eco_telemetry/ledger.py

    [TelemetryLedger] accumulates cost records and refuses one that would pass a
    cap.  A Python value given to a constructor is a [json] value, so that the
    type checks of the source are checks here; the ledger itself is a record and
    [record] returns it with the call's result. *)

From S2P Require Import Prelude Json.
From Stdlib Require Import Ascii.

Definition telemetry_invalid : py_error := TelemetryError "ECO_TELEMETRY_INVALID".
Definition cap_exceeded : py_error := TelemetryError "ECO_TELEMETRY_CAP_EXCEEDED".

(** [[a-z0-9][a-z0-9._:-]{0,79}\Z] *)
Definition _ID_RE (s : string) : bool :=
  re_ident (fun c => is_lower c || is_digit c)
    (fun c => is_lower c || is_digit c || (c == "."%char) || (c == "_"%char) || (c == ":"%char)
              || (c == "-"%char)) 79 s.
Definition _identifier (value : json) : result string :=
  match value with
  | JStr s => if _ID_RE s then Ok s else Err telemetry_invalid
  | _ => Err telemetry_invalid
  end.
(** A Boolean is an [int] in Python, and refused. *)
Definition _non_negative (value : json) : result Z :=
  match value with
  | JInt z => if z <? 0 then Err telemetry_invalid else Ok z
  | _ => Err telemetry_invalid
  end.

(** ** Cost records *)

Record CostRecord : Type := {
  cr_run_id : string; cr_role_id : string; cr_tokens : Z; cr_cost : Z; cr_elapsed : Z;
}.
(** [CostRecord(...)] with [__post_init__]. *)
Definition new_cost_record (run_id role_id tokens cost_microusd elapsed_ms : json)
  : result CostRecord :=
  let! r := _identifier run_id in
  let! o := _identifier role_id in
  let! t := _non_negative tokens in
  let! c := _non_negative cost_microusd in
  let! e := _non_negative elapsed_ms in
  Ok {| cr_run_id := r; cr_role_id := o; cr_tokens := t; cr_cost := c; cr_elapsed := e |}.
(** [CostRecord.as_record] *)
Definition cost_record_json (e : CostRecord) : json :=
  JObj [("runId", JStr (cr_run_id e)); ("roleId", JStr (cr_role_id e)); ("tokens", JInt (cr_tokens e));
        ("costMicrousd", JInt (cr_cost e)); ("elapsedMs", JInt (cr_elapsed e))].

(** ** The ledger *)

Record role_total : Type := { rt_tokens : Z; rt_cost : Z; rt_elapsed : Z; rt_events : Z }.
Definition no_usage : role_total := {| rt_tokens := 0; rt_cost := 0; rt_elapsed := 0; rt_events := 0 |}.
Definition add_usage (e : CostRecord) (r : role_total) : role_total :=
  {| rt_tokens := rt_tokens r + cr_tokens e; rt_cost := rt_cost r + cr_cost e;
     rt_elapsed := rt_elapsed r + cr_elapsed e; rt_events := rt_events r + 1 |}.

Record TelemetryLedger : Type := {
  tl_cost_cap : option Z; tl_token_cap : option Z; tl_records : list CostRecord;
  tl_tokens : Z; tl_cost : Z; tl_elapsed : Z; tl_per_role : gmap string role_total;
}.
Definition cap_of (value : json) : result (option Z) :=
  match value with JNull => Ok None | _ => let! z := _non_negative value in Ok (Some z) end.
Definition new_ledger (cost_cap_microusd token_cap : json) : result TelemetryLedger :=
  let! c := cap_of cost_cap_microusd in
  let! t := cap_of token_cap in
  Ok {| tl_cost_cap := c; tl_token_cap := t; tl_records := []; tl_tokens := 0; tl_cost := 0;
        tl_elapsed := 0; tl_per_role := ∅ |}.

(** [cap is not None and total > cap] *)
Definition over (cap : option Z) (total : Z) : bool :=
  match cap with Some c => c <? total | None => false end.

(** [event] is [None] when it is not a [CostRecord]. *)
Definition record (l : TelemetryLedger) (event : option CostRecord) : TelemetryLedger * result unit :=
  match event with
  | None => (l, Err telemetry_invalid)
  | Some e =>
      if over (tl_cost_cap l) (tl_cost l + cr_cost e) then (l, Err cap_exceeded)
      else if over (tl_token_cap l) (tl_tokens l + cr_tokens e) then (l, Err cap_exceeded)
      else
        let role := default no_usage (tl_per_role l !! cr_role_id e) in
        ({| tl_cost_cap := tl_cost_cap l; tl_token_cap := tl_token_cap l;
            tl_records := tl_records l ++ [e]; tl_tokens := tl_tokens l + cr_tokens e;
            tl_cost := tl_cost l + cr_cost e; tl_elapsed := tl_elapsed l + cr_elapsed e;
            tl_per_role := <[cr_role_id e := add_usage e role]> (tl_per_role l) |}, Ok tt)
  end.
Definition records (l : TelemetryLedger) (events : list (option CostRecord)) : TelemetryLedger :=
  foldl (fun l e => (record l e).1) l events.

Definition within_caps (l : TelemetryLedger) : bool :=
  negb (over (tl_cost_cap l) (tl_cost l)) && negb (over (tl_token_cap l) (tl_tokens l)).

(** ** Summaries *)

Record TelemetrySummary : Type := {
  ts_tokens : Z; ts_cost : Z; ts_elapsed : Z; ts_per_role : gmap string role_total;
  ts_cost_cap : option Z; ts_token_cap : option Z;
}.
Definition summary (l : TelemetryLedger) : TelemetrySummary :=
  {| ts_tokens := tl_tokens l; ts_cost := tl_cost l; ts_elapsed := tl_elapsed l;
     ts_per_role := tl_per_role l; ts_cost_cap := tl_cost_cap l; ts_token_cap := tl_token_cap l |}.
Definition json_of_cap (cap : option Z) : json := match cap with Some z => JInt z | None => JNull end.
Definition headroom (cap : option Z) (total : Z) : option Z := (fun c => c - total) <$> cap.
Definition role_json (r : role_total) : json :=
  JObj [("tokens", JInt (rt_tokens r)); ("costMicrousd", JInt (rt_cost r));
        ("elapsedMs", JInt (rt_elapsed r)); ("events", JInt (rt_events r))].
(** [TelemetrySummary.as_record] *)
Definition summary_record (s : TelemetrySummary) : json :=
  JObj [("totalTokens", JInt (ts_tokens s)); ("totalCostMicrousd", JInt (ts_cost s));
        ("totalElapsedMs", JInt (ts_elapsed s));
        ("perRole", JObj (map (fun kv => (kv.1, role_json kv.2)) (sorted_items (map_to_list (ts_per_role s)))));
        ("costCapMicrousd", json_of_cap (ts_cost_cap s)); ("tokenCap", json_of_cap (ts_token_cap s));
        ("costHeadroomMicrousd", json_of_cap (headroom (ts_cost_cap s) (ts_cost s)));
        ("tokenHeadroom", json_of_cap (headroom (ts_token_cap s) (ts_tokens s)))].

(** ** What the ledger should say of a list of records *)

Definition total (f : CostRecord → Z) (l : list CostRecord) : Z := foldr (fun e n => f e + n) 0 l.
Definition of_role (role : string) (l : list CostRecord) : list CostRecord :=
  List.filter (fun e => cr_role_id e == role) l.
(** The grouping by role, computed from the records alone. *)
Definition role_report (role : string) (l : list CostRecord) : option role_total :=
  match of_role role l with
  | [] => None
  | rs => Some {| rt_tokens := total cr_tokens rs; rt_cost := total cr_cost rs;
                  rt_elapsed := total cr_elapsed rs; rt_events := Z.of_nat (length rs) |}
  end.
Definition affordable (l : TelemetryLedger) (e : CostRecord) : Prop :=
  (∀ c, tl_cost_cap l = Some c → total cr_cost (tl_records l) + cr_cost e ≤ c) ∧
  (∀ c, tl_token_cap l = Some c → total cr_tokens (tl_records l) + cr_tokens e ≤ c).

(** ** Invariant *)

Lemma total_with f l e : total f (l ++ [e]) = total f l + f e.
Proof. unfold total. induction l as [|x l IH]; simpl; lia. Qed.

Lemma of_role_snoc role l e :
  of_role role (l ++ [e]) = of_role role l ++ (if cr_role_id e == role then [e] else []).
Proof. unfold of_role. rewrite List.filter_app. simpl. by case_bool_decide. Qed.

Lemma role_report_snoc role l e :
  role_report role (l ++ [e]) =
  if cr_role_id e == role then Some (add_usage e (default no_usage (role_report role l)))
  else role_report role l.
Proof.
  unfold role_report. rewrite of_role_snoc. case_bool_decide; [|by rewrite app_nil_r].
  destruct (of_role role l) as [|x rs].
  - simpl. unfold add_usage, total; simpl. do 2 f_equal; lia.
  - cbn [app]. unfold add_usage; cbn [default rt_tokens rt_cost rt_elapsed rt_events].
    rewrite !app_comm_cons, !total_with, length_app. simpl. do 2 f_equal; lia.
Qed.

Lemma over_spec cap n : over cap n = false ↔ ∀ c, cap = Some c → n ≤ c.
Proof.
  destruct cap as [c|]; simpl; [|by split].
  rewrite Z.ltb_ge. split; [by intros ? ? [= <-]|auto].
Qed.

(** A record constructed by the code. *)
Definition cost_record_wf (e : CostRecord) : Prop := 0 ≤ cr_tokens e ∧ 0 ≤ cr_cost e ∧ 0 ≤ cr_elapsed e.
Lemma new_cost_record_wf r o t c e x : new_cost_record r o t c e = Ok x → cost_record_wf x.
Proof.
  unfold new_cost_record, _identifier, _non_negative. intros Hx.
  repeat case_match; simplify_eq; breflect; by split_and!.
Qed.

Record ledger_inv (l : TelemetryLedger) : Prop := {
  li_tokens : tl_tokens l = total cr_tokens (tl_records l);
  li_cost : tl_cost l = total cr_cost (tl_records l);
  li_elapsed : tl_elapsed l = total cr_elapsed (tl_records l);
  li_roles : ∀ role, tl_per_role l !! role = role_report role (tl_records l);
  li_caps : within_caps l = true;
}.

Lemma cap_of_inv value cap : cap_of value = Ok cap → over cap 0 = false.
Proof.
  unfold cap_of, _non_negative. intros Hc. repeat case_match; simplify_eq; [done|].
  simpl. apply Z.ltb_ge. by breflect.
Qed.
Lemma telemetry_opens a b l : new_ledger a b = Ok l → ledger_inv l ∧ tl_records l = [].
Proof.
  unfold new_ledger. destruct (cap_of a) as [c|] eqn:Ea; [|discriminate].
  destruct (cap_of b) as [t|] eqn:Eb; [|discriminate]. intros [= <-]. split; [|done].
  constructor; try done. unfold within_caps. cbn [tl_cost_cap tl_token_cap tl_cost tl_tokens].
  by rewrite (cap_of_inv _ _ Ea), (cap_of_inv _ _ Eb).
Qed.

(** A record is admitted exactly when it is affordable. *)
Lemma record_spec l e :
  ledger_inv l →
  (record l (Some e)).2 = Ok tt ∧ affordable l e ∧ ledger_inv (record l (Some e)).1 ∧
    tl_records (record l (Some e)).1 = tl_records l ++ [e] ∨
  record l (Some e) = (l, Err cap_exceeded) ∧ ¬ affordable l e.
Proof.
  intros [Ht Hc He Hr Hcap]. unfold affordable, record. rewrite <-Hc, <-Ht, <-!over_spec.
  destruct (over (tl_cost_cap l) _) eqn:E1; [right; split; [done|by intros [? _]]|].
  destruct (over (tl_token_cap l) _) eqn:E2; [right; split; [done|by intros [_ ?]]|].
  left. cbn [fst snd]. split_and!; try done. constructor; cbn [tl_tokens tl_cost tl_elapsed tl_records tl_per_role].
  - by rewrite total_with, Ht.
  - by rewrite total_with, Hc.
  - by rewrite total_with, He.
  - intros role. rewrite role_report_snoc. case_bool_decide as Hrole.
    + subst role. by rewrite lookup_insert_eq, Hr.
    + by rewrite lookup_insert_ne, Hr.
  - unfold within_caps. cbn. by rewrite E1, E2.
Qed.
Lemma record_inv l e : ledger_inv l → ledger_inv (record l e).1.
Proof.
  intros Hl. destruct e as [e|]; [|done].
  destruct (record_spec l e Hl) as [(_ & _ & ? & _)|[-> _]]; done.
Qed.
Lemma records_inv l es : ledger_inv l → ledger_inv (records l es).
Proof. revert l. induction es as [|e es IH]; intros l Hl; [done|]. simpl. by apply IH, record_inv. Qed.
Lemma record_caps l e :
  tl_cost_cap (record l e).1 = tl_cost_cap l ∧ tl_token_cap (record l e).1 = tl_token_cap l.
Proof. destruct e as [e|]; [|done]. simpl. by repeat case_match. Qed.
Lemma records_caps l es :
  tl_cost_cap (records l es) = tl_cost_cap l ∧ tl_token_cap (records l es) = tl_token_cap l.
Proof.
  revert l. induction es as [|e es IH]; intros l; [done|]. simpl.
  destruct (IH (record l e).1) as [-> ->]. apply record_caps.
Qed.

(** ** Properties *)


Definition spend_example (role : string) (tokens cost : Z) : option CostRecord :=
  match new_cost_record (JStr "run-1") (JStr role) (JInt tokens) (JInt cost) (JInt 5) with
  | Ok e => Some e
  | Err _ => None
  end.
Definition capped_example : TelemetryLedger :=
  {| tl_cost_cap := Some 100; tl_token_cap := None; tl_records := []; tl_tokens := 0; tl_cost := 0;
     tl_elapsed := 0; tl_per_role := ∅ |}.
Definition spends_example : list (option CostRecord) :=
  [spend_example "planner" 10 60; spend_example "writer" 20 50; None; spend_example "planner" 5 40].

