(* ===== verification/LoopContracts.v ===== *)
(** * The contracts of bounded loops, src/eco_loops/contracts.py

    The frozen dataclasses are records; a [__post_init__] is a function that
    returns [Ok tt] or raises.  Its [isinstance] tests are the types of the
    fields.  Loop states are strings, as in the source: a durable journal reads
    them back from a database. *)

From S2P Require Import Prelude Json Digest PyTime.

Definition ACTIVE_STATES : list string := ["ready"; "running"; "gating"; "retry-wait"].
Definition TERMINAL_STATES : list string := ["succeeded"; "failed"; "exhausted"; "cancelled"].
Definition LOOP_STATES : list string := "new" :: ACTIVE_STATES ++ TERMINAL_STATES.

Definition TRANSITIONS (current : string) : list string :=
  if current == "new" then ["ready"; "cancelled"]
  else if current == "ready" then ["running"; "cancelled"; "exhausted"]
  else if current == "running" then ["gating"; "retry-wait"; "failed"; "cancelled"; "exhausted"]
  else if current == "gating" then ["succeeded"; "retry-wait"; "failed"; "cancelled"; "exhausted"]
  else if current == "retry-wait" then ["running"; "cancelled"; "exhausted"]
  else [].

Definition transition_allowed (current target : string) : bool := target in? TRANSITIONS current.

Definition definition_invalid : py_error := LoopContractError "ECO_LOOP_DEFINITION_INVALID".

Definition positive (value : Z) : result unit :=
  raise definition_invalid when (value <? 1) else Ok tt.
Definition non_negative (value : Z) : result unit :=
  raise definition_invalid when (value <? 0) else Ok tt.
(** [_utc]: timezone-aware and at offset zero. *)
Definition utc (value : datetime) : result unit :=
  match utcoffset value with
  | None => Err definition_invalid
  | Some o => raise definition_invalid when (o != 0) else Ok tt
  end.

(** ** Budgets *)

Record LoopBudget : Type := {
  max_attempts : Z;
  max_iterations : Z;
  deadline : datetime;
  max_tokens : Z;
  max_cost_microusd : Z;
  max_storage_bytes : Z;
  reserve_tokens_per_attempt : Z;
  reserve_cost_microusd_per_attempt : Z;
  reserve_storage_bytes_per_attempt : Z;
}.

Definition LoopBudget_post_init (b : LoopBudget) : result unit :=
  let! _ := positive (max_attempts b) in
  let! _ := positive (max_iterations b) in
  let! _ := utc (deadline b) in
  let! _ := non_negative (max_tokens b) in
  let! _ := non_negative (max_cost_microusd b) in
  let! _ := non_negative (max_storage_bytes b) in
  let! _ := non_negative (reserve_tokens_per_attempt b) in
  let! _ := non_negative (reserve_cost_microusd_per_attempt b) in
  let! _ := non_negative (reserve_storage_bytes_per_attempt b) in
  raise definition_invalid when (reserve_tokens_per_attempt b >? max_tokens b) else
  raise definition_invalid when (reserve_cost_microusd_per_attempt b >? max_cost_microusd b) else
  raise definition_invalid when (reserve_storage_bytes_per_attempt b >? max_storage_bytes b) else
  Ok tt.

Definition LoopBudget_record (b : LoopBudget) : json :=
  JObj [("maxAttempts", JInt (max_attempts b));
        ("maxIterations", JInt (max_iterations b));
        ("deadline", JStr (isoformat_z (deadline b)));
        ("maxTokens", JInt (max_tokens b));
        ("maxCostMicrousd", JInt (max_cost_microusd b));
        ("maxStorageBytes", JInt (max_storage_bytes b));
        ("reserveTokensPerAttempt", JInt (reserve_tokens_per_attempt b));
        ("reserveCostMicrousdPerAttempt", JInt (reserve_cost_microusd_per_attempt b));
        ("reserveStorageBytesPerAttempt", JInt (reserve_storage_bytes_per_attempt b))].

(** ** Retry policy *)

Record RetryPolicy : Type := {
  allowed_reason_codes : gset string;
  max_stagnant_iterations : Z;
}.

Definition RetryPolicy_post_init (r : RetryPolicy) : result unit :=
  let! _ := positive (max_stagnant_iterations r) in
  raise definition_invalid when
    (existsb (fun code => negb (is_code code)) (elements (allowed_reason_codes r))) else
  Ok tt.

Definition RetryPolicy_record (r : RetryPolicy) : json :=
  JObj [("allowedReasonCodes",
          JArr (map JStr (sorted_strs (elements (allowed_reason_codes r)))));
        ("maxStagnantIterations", JInt (max_stagnant_iterations r))].

(** ** Definitions *)

Record LoopDefinition : Type := {
  loop_id : string;
  version : string;
  objective_digest : string;
  gate_digest : string;
  profile : string;
  side_effect_mode : string;
  deterministic : bool;
  executable : bool;
  budget : LoopBudget;
  retry : RetryPolicy;
  state_outline : list string;
}.

(** [tuple(dict.fromkeys(l))]: first occurrences, in order. *)
Fixpoint fromkeys (seen l : list string) : list string :=
  match l with
  | [] => []
  | x :: l' => if x in? seen then fromkeys seen l' else x :: fromkeys (x :: seen) l'
  end.

Definition LoopDefinition_post_init (d : LoopDefinition) : result unit :=
  raise definition_invalid when (negb (is_slug (loop_id d))) else
  raise definition_invalid when
    ((version d == EmptyString) || (32 <? py_len (version d))%nat) else
  raise definition_invalid when
    (negb (is_digest (objective_digest d)) || negb (is_digest (gate_digest d))) else
  raise definition_invalid when (negb (side_effect_mode d in? ["no-effect"; "report-only"])) else
  raise definition_invalid when
    ((profile d == EmptyString) || (128 <? py_len (profile d))%nat) else
  raise definition_invalid when (fromkeys [] (state_outline d) != state_outline d) else
  raise definition_invalid when
    (existsb (fun state => negb (state in? LOOP_STATES)) (state_outline d)) else
  Ok tt.

Definition LoopDefinition_record (d : LoopDefinition) : json :=
  JObj [("loopId", JStr (loop_id d));
        ("version", JStr (version d));
        ("objectiveDigest", JStr (objective_digest d));
        ("gateDigest", JStr (gate_digest d));
        ("profile", JStr (profile d));
        ("sideEffectMode", JStr (side_effect_mode d));
        ("deterministic", JBool (deterministic d));
        ("executable", JBool (executable d));
        ("budget", LoopBudget_record (budget d));
        ("retry", RetryPolicy_record (retry d));
        ("stateOutline", JArr (map JStr (state_outline d)))].

Definition definition_digest_of `{Crypto} (d : LoopDefinition) : string :=
  semantic_digest (LoopDefinition_record d).

(** ** Results of attempts and gates *)

Record AttemptResult : Type := {
  ar_outcome : string;
  ar_reason_code : string;
  ar_candidate_digest : string;
  ar_evidence_digest : string;
}.
Definition outcome_invalid : py_error := LoopContractError "ECO_LOOP_OUTCOME_INVALID".
Definition AttemptResult_post_init (a : AttemptResult) : result unit :=
  raise outcome_invalid when
    (negb (ar_outcome a in? ["candidate"; "retryable-error"; "fatal-error"])) else
  raise outcome_invalid when (negb (is_code (ar_reason_code a))) else
  raise outcome_invalid when
    (negb (is_digest (ar_candidate_digest a)) || negb (is_digest (ar_evidence_digest a))) else
  Ok tt.

Record GateOutcome : Type := {
  go_outcome : string;
  go_reason_code : string;
  go_progress_digest : string;
  go_evidence_digest : string;
}.
Definition gate_invalid : py_error := LoopContractError "ECO_LOOP_GATE_INVALID".
Definition GateOutcome_post_init (g : GateOutcome) : result unit :=
  raise gate_invalid when (negb (go_outcome g in? ["pass"; "fail"])) else
  raise gate_invalid when (negb (is_code (go_reason_code g))) else
  raise gate_invalid when
    (negb (is_digest (go_progress_digest g)) || negb (is_digest (go_evidence_digest g))) else
  Ok tt.

(** ** Usage and checkpoints *)

Record LoopUsage : Type := {
  attempts : Z;
  iterations : Z;
  tokens : Z;
  cost_microusd : Z;
  storage_bytes : Z;
}.
#[export] Instance LoopUsage_eq_dec : EqDecision LoopUsage.
Proof. solve_decision. Defined.

Definition zero_usage : LoopUsage :=
  {| attempts := 0; iterations := 0; tokens := 0; cost_microusd := 0; storage_bytes := 0 |}.

Definition LoopUsage_post_init (u : LoopUsage) : result unit :=
  let! _ := non_negative (attempts u) in
  let! _ := non_negative (iterations u) in
  let! _ := non_negative (tokens u) in
  let! _ := non_negative (cost_microusd u) in
  non_negative (storage_bytes u).

Definition LoopUsage_record (u : LoopUsage) : json :=
  JObj [("attempts", JInt (attempts u));
        ("iterations", JInt (iterations u));
        ("tokens", JInt (tokens u));
        ("costMicrousd", JInt (cost_microusd u));
        ("storageBytes", JInt (storage_bytes u))].

Record LoopCheckpoint : Type := {
  run_id : string;
  definition_digest : string;
  state : string;
  sequence : Z;
  usage : LoopUsage;
  last_progress_digest : option string;
  stagnant_iterations : Z;
  terminal_reason : option string;
  head_digest : option string;
}.
#[export] Instance LoopCheckpoint_eq_dec : EqDecision LoopCheckpoint.
Proof. solve_decision. Defined.

Definition opt_ok (p : string → bool) (o : option string) : bool :=
  match o with Some s => p s | None => true end.

Definition checkpoint_invalid : py_error := LoopContractError "ECO_LOOP_CHECKPOINT_INVALID".
Definition LoopCheckpoint_post_init (c : LoopCheckpoint) : result unit :=
  raise checkpoint_invalid when (negb (is_slug (run_id c))) else
  raise checkpoint_invalid when (negb (is_digest (definition_digest c))) else
  raise checkpoint_invalid when (negb (state c in? LOOP_STATES)) else
  let! _ := non_negative (sequence c) in
  let! _ := non_negative (stagnant_iterations c) in
  raise checkpoint_invalid when (negb (opt_ok is_digest (last_progress_digest c))) else
  raise checkpoint_invalid when (negb (opt_ok is_code (terminal_reason c))) else
  raise checkpoint_invalid when (negb (opt_ok is_digest (head_digest c))) else
  Ok tt.

(** [LoopCheckpoint(...)]: the constructor returns the record or raises. *)
Definition mk_checkpoint (c : LoopCheckpoint) : result LoopCheckpoint :=
  let! _ := LoopCheckpoint_post_init c in Ok c.
Definition mk_usage (u : LoopUsage) : result LoopUsage :=
  let! _ := LoopUsage_post_init u in Ok u.

Lemma positive_ok v x : positive v = Ok x → 1 ≤ v.
Proof. unfold positive. destruct (v <? 1) eqn:E; [done|]. by breflect. Qed.
Lemma non_negative_ok v x : non_negative v = Ok x → 0 ≤ v.
Proof. unfold non_negative. destruct (v <? 0) eqn:E; [done|]. by breflect. Qed.

(** ** The states of a loop *)

Lemma terminal_no_transition s t : s ∈ TERMINAL_STATES → transition_allowed s t = false.
Proof.
  intros Hs. unfold TERMINAL_STATES in Hs.
  repeat (apply elem_of_cons in Hs as [->|Hs]; [by apply bool_decide_eq_false_2, not_elem_of_nil|]).
  by apply elem_of_nil in Hs.
Qed.

Lemma transition_target s t : transition_allowed s t = true → t ∈ LOOP_STATES.
Proof.
  unfold transition_allowed, TRANSITIONS. intros Ht. apply bool_decide_eq_true in Ht.
  repeat case_bool_decide;
    repeat (apply elem_of_cons in Ht as [->|Ht]; [by apply (bool_decide_eq_true_1 _)|]);
    by apply elem_of_nil in Ht.
Qed.
