(* ===== verification/LoopJournal.v ===== *)
(** * The loop journals, src/eco_loops/engine.py

    [InMemory] is [InMemoryLoopJournal], [SQLite] is [SQLiteLoopJournal]: the
    same operations on a process-local dictionary of checkpoints and on three
    database tables whose event rows hold canonical JSON text.  Operations
    return the journal after the call and the call's result; a transaction that
    rolls back leaves the tables as they were.  [LoopJournal] is the interface
    the engine uses. *)

From S2P Require Import Prelude Json Digest PyTime LoopContracts.

(** The keyword arguments of [transition]. *)
Record TransitionArgs : Type := {
  t_usage : option LoopUsage;
  t_progress_digest : option string;
  t_stagnant_iterations : option Z;
  t_reason_code : string;
  t_evidence_digest : option string;
}.
(** [transition(checkpoint, state, reason_code=reason)] *)
Definition just (reason : string) : TransitionArgs :=
  {| t_usage := None; t_progress_digest := None; t_stagnant_iterations := None;
     t_reason_code := reason; t_evidence_digest := None |}.

Class LoopJournal (J : Type) : Type := {
  create : J → string → LoopDefinition → J * result LoopCheckpoint;
  load : J → string → result LoopCheckpoint;
  events : J → string → result (list json);
  request_cancel : J → string → J * result unit;
  set_kill_switch : J → bool → J;
  stop_reason : J → string → result (option string);
  transition : J → LoopCheckpoint → string → TransitionArgs → J * result LoopCheckpoint;
}.

(** ** Shared by both journals *)

Definition engine_error (code : string) : py_error := LoopEngineError code.

Definition event_is_content_free (event : list (string * json)) : bool :=
  bool_decide
    ((list_to_set event.*1 : gset string)
     = {["runId"; "sequence"; "from"; "to"; "definitionDigest"; "reasonCode"; "evidenceDigest";
         "previousEventDigest"; "usage"; "progressDigest"; "stagnantIterations"]}).

Definition next_usage (current : LoopCheckpoint) (a : TransitionArgs) : LoopUsage :=
  default (usage current) (t_usage a).
Definition next_progress (current : LoopCheckpoint) (a : TransitionArgs) : option string :=
  match t_progress_digest a with Some p => Some p | None => last_progress_digest current end.
Definition next_stagnant (current : LoopCheckpoint) (a : TransitionArgs) : Z :=
  default (stagnant_iterations current) (t_stagnant_iterations a).

(** [any(after[key] < before[key] for key in before)] *)
Definition usage_reversed (before after : LoopUsage) : bool :=
  (attempts after <? attempts before) || (iterations after <? iterations before)
  || (tokens after <? tokens before) || (cost_microusd after <? cost_microusd before)
  || (storage_bytes after <? storage_bytes before).

(** The [event] dict both journals write. *)
Definition transition_event (current : LoopCheckpoint) (target : string) (a : TransitionArgs)
  : list (string * json) :=
  [("runId", JStr (run_id current));
   ("sequence", JInt (sequence current + 1));
   ("from", JStr (state current));
   ("to", JStr target);
   ("definitionDigest", JStr (definition_digest current));
   ("reasonCode", JStr (t_reason_code a));
   ("evidenceDigest", json_of_optstr (t_evidence_digest a));
   ("previousEventDigest", json_of_optstr (head_digest current));
   ("usage", LoopUsage_record (next_usage current a));
   ("progressDigest", json_of_optstr (next_progress current a));
   ("stagnantIterations", JInt (next_stagnant current a))].

Definition next_checkpoint `{Crypto} (current : LoopCheckpoint) (target : string)
    (a : TransitionArgs) : LoopCheckpoint :=
  {| run_id := run_id current;
     definition_digest := definition_digest current;
     state := target;
     sequence := sequence current + 1;
     usage := next_usage current a;
     last_progress_digest := next_progress current a;
     stagnant_iterations := next_stagnant current a;
     terminal_reason := if target in? TERMINAL_STATES then Some (t_reason_code a) else None;
     head_digest := Some (semantic_digest (JObj (transition_event current target a))) |}.

Definition initial_checkpoint `{Crypto} (run : string) (definition : LoopDefinition)
  : LoopCheckpoint :=
  {| run_id := run; definition_digest := definition_digest_of definition; state := "new";
     sequence := 0; usage := zero_usage; last_progress_digest := None; stagnant_iterations := 0;
     terminal_reason := None; head_digest := None |}.

(** ** InMemoryLoopJournal *)

Module InMemory.
Record journal : Type := {
  checkpoints : gmap string LoopCheckpoint;
  event_lists : gmap string (list json);
  cancelled : gset string;
  kill_switch : bool;
}.
Definition empty : journal :=
  {| checkpoints := ∅; event_lists := ∅; cancelled := ∅; kill_switch := false |}.

Section Operations.
Context `{Crypto}.

Definition create (j : journal) (run : string) (definition : LoopDefinition)
  : journal * result LoopCheckpoint :=
  match mk_checkpoint (initial_checkpoint run definition) with
  | Err e => (j, Err e)
  | Ok initial =>
      match checkpoints j !! run with
      | Some existing =>
          if definition_digest existing != definition_digest_of definition
          then (j, Err (engine_error "ECO_LOOP_DEFINITION_DRIFT"))
          else (j, Ok existing)
      | None =>
          ({| checkpoints := <[run := initial]> (checkpoints j);
              event_lists := <[run := []]> (event_lists j);
              cancelled := cancelled j; kill_switch := kill_switch j |}, Ok initial)
      end
  end.

Definition load (j : journal) (run : string) : result LoopCheckpoint :=
  match checkpoints j !! run with
  | Some c => Ok c
  | None => Err (engine_error "ECO_LOOP_RUN_UNKNOWN")
  end.

Definition events (j : journal) (run : string) : result (list json) :=
  match event_lists j !! run with
  | Some es => Ok es
  | None => Err (engine_error "ECO_LOOP_RUN_UNKNOWN")
  end.

Definition request_cancel (j : journal) (run : string) : journal * result unit :=
  match checkpoints j !! run with
  | None => (j, Err (engine_error "ECO_LOOP_RUN_UNKNOWN"))
  | Some _ =>
      ({| checkpoints := checkpoints j; event_lists := event_lists j;
          cancelled := {[run]} ∪ cancelled j; kill_switch := kill_switch j |}, Ok tt)
  end.

Definition set_kill_switch (j : journal) (enabled : bool) : journal :=
  {| checkpoints := checkpoints j; event_lists := event_lists j;
     cancelled := cancelled j; kill_switch := enabled |}.

Definition stop_reason (j : journal) (run : string) : result (option string) :=
  if kill_switch j then Ok (Some "ECO_LOOP_KILL_SWITCH")
  else if bool_decide (run ∈ cancelled j) then Ok (Some "ECO_LOOP_CANCELLED")
  else Ok None.

Definition transition (j : journal) (expected : LoopCheckpoint) (target : string)
    (a : TransitionArgs) : journal * result LoopCheckpoint :=
  let err code := (j, Err (engine_error code)) in
  match checkpoints j !! run_id expected with
  | None => err "ECO_LOOP_RUN_UNKNOWN"
  | Some current =>
      if current != expected then
        if state current in? TERMINAL_STATES then (j, Ok current)
        else err "ECO_LOOP_CHECKPOINT_CONFLICT"
      else if negb (transition_allowed (state current) target)
      then err "ECO_LOOP_TRANSITION_DENIED"
      else if (target in? TERMINAL_STATES) && (state current in? TERMINAL_STATES)
      then (j, Ok current)
      else if negb (startswith (t_reason_code a) "ECO_") then err "ECO_LOOP_EVENT_INVALID"
      else if negb (opt_ok is_digest (t_evidence_digest a)) then err "ECO_LOOP_EVENT_INVALID"
      else if usage_reversed (usage current) (next_usage current a)
      then err "ECO_LOOP_USAGE_REVERSED"
      else
        let event := JObj (transition_event current target a) in
        match mk_checkpoint (next_checkpoint current target a) with
        | Err e => (j, Err e)
        | Ok next =>
            match event_lists j !! run_id current with
            | None => (j, Err KeyError)
            | Some es =>
                ({| checkpoints := <[run_id current := next]> (checkpoints j);
                    event_lists := <[run_id current := es ++ [event]]> (event_lists j);
                    cancelled := cancelled j; kill_switch := kill_switch j |}, Ok next)
            end
        end
  end.
End Operations.

#[global] Instance loop_journal `{Crypto} : LoopJournal journal :=
  {| LoopJournal.create := create; LoopJournal.load := load; LoopJournal.events := events;
     LoopJournal.request_cancel := request_cancel;
     LoopJournal.set_kill_switch := set_kill_switch;
     LoopJournal.stop_reason := stop_reason; LoopJournal.transition := transition |}.
End InMemory.

(** ** SQLiteLoopJournal *)

Module SQLite.
(** A row of [loop_runs] without its key. *)
Record run_row : Type := {
  c_definition_digest : string;
  c_state : string;
  c_sequence : Z;
  c_attempts : Z;
  c_iterations : Z;
  c_tokens : Z;
  c_cost_microusd : Z;
  c_storage_bytes : Z;
  c_last_progress_digest : option string;
  c_stagnant_iterations : Z;
  c_terminal_reason : option string;
  c_head_digest : option string;
  c_cancelled : Z;
}.
(** A row of [loop_events]. *)
Record event_row : Type := {
  e_run_id : string;
  e_sequence : Z;
  e_event_json : string;
  e_event_digest : string;
}.
Record database : Type := {
  loop_runs : gmap string run_row;
  loop_events : list event_row;
  kill_value : Z;                        (* loop_meta('kill_switch') *)
}.
(** The tables of a fresh journal. *)
Definition fresh : database := {| loop_runs := ∅; loop_events := []; kill_value := 0 |}.

(** Binding a Python int to an INTEGER column. *)
Definition int64 (z : Z) : bool := (- 2 ^ 63 <=? z) && (z <? 2 ^ 63).

Definition row_checkpoint (run : string) (r : run_row) : LoopCheckpoint :=
  {| run_id := run; definition_digest := c_definition_digest r; state := c_state r;
     sequence := c_sequence r;
     usage := {| attempts := c_attempts r; iterations := c_iterations r; tokens := c_tokens r;
                 cost_microusd := c_cost_microusd r; storage_bytes := c_storage_bytes r |};
     last_progress_digest := c_last_progress_digest r;
     stagnant_iterations := c_stagnant_iterations r;
     terminal_reason := c_terminal_reason r; head_digest := c_head_digest r |}.

(** [_checkpoint] *)
Definition checkpoint (run : string) (r : run_row) : result LoopCheckpoint :=
  let! _ := LoopUsage_post_init (usage (row_checkpoint run r)) in
  mk_checkpoint (row_checkpoint run r).

(** [_run_row] *)
Definition run_row_of (db : database) (run : string) : result run_row :=
  match loop_runs db !! run with
  | Some r => Ok r
  | None => Err (engine_error "ECO_LOOP_RUN_UNKNOWN")
  end.

(** [SELECT ... WHERE run_id = ? ORDER BY sequence] *)
Definition select_events (db : database) (run : string) : list event_row :=
  py_sorted (fun a b => e_sequence a <=? e_sequence b)
            (filter (fun r => e_run_id r = run) (loop_events db)).

Section Operations.
Context `{Crypto}.

Definition corrupt : py_error := engine_error "ECO_LOOP_JOURNAL_CORRUPT".

(** The [for expected_sequence, row in enumerate(rows, start=1)] loop, carrying
    [previous_digest], [previous_state] and [last]. *)
Fixpoint verify_rows (c : LoopCheckpoint) (expected_sequence : Z)
    (previous_digest : option string) (previous_state : json)
    (last : option (list (string * json))) (rows : list event_row)
  : result (option string * option (list (string * json))) :=
  match rows with
  | [] => Ok (previous_digest, last)
  | row :: rest =>
      match json_loads (e_event_json row) with
      | None => Err corrupt
      | Some (JObj event) =>
          if negb (event_is_content_free event)
             || (e_sequence row != expected_sequence)
             || negb (py_eq (jget "sequence" event) (JInt expected_sequence))
             || negb (py_eq (jget "runId" event) (JStr (run_id c)))
             || negb (py_eq (jget "definitionDigest" event) (JStr (definition_digest c)))
             || negb (py_eq (jget "previousEventDigest" event) (json_of_optstr previous_digest))
             || negb (py_eq (jget "from" event) previous_state)
             || (semantic_digest (JObj event) != e_event_digest row)
          then Err corrupt
          else verify_rows c (expected_sequence + 1) (Some (e_event_digest row))
                           (jget "to" event) (Some event) rest
      | Some _ => Err corrupt
      end
  end.

(** [_verify] *)
Definition verify (db : database) (c : LoopCheckpoint) : result unit :=
  let rows := select_events db (run_id c) in
  raise corrupt when (Z.of_nat (length rows) != sequence c) else
  let! '(previous_digest, last) := verify_rows c 1 None (JStr "new") None rows in
  if sequence c == 0 then
    raise corrupt when (negb (head_digest c == None) || (state c != "new")) else Ok tt
  else
    match last with
    | None => Err AssertionError
    | Some last =>
        raise corrupt when
          ((head_digest c != previous_digest)
           || negb (py_eq (jget "to" last) (JStr (state c)))
           || negb (py_eq (jget "usage" last) (LoopUsage_record (usage c)))
           || negb (py_eq (jget "progressDigest" last)
                          (json_of_optstr (last_progress_digest c)))
           || negb (py_eq (jget "stagnantIterations" last) (JInt (stagnant_iterations c)))
           || (if state c in? TERMINAL_STATES
               then negb (py_eq (jget "reasonCode" last) (json_of_optstr (terminal_reason c)))
               else false)) else
        Ok tt
    end.

Definition create (db : database) (run : string) (definition : LoopDefinition)
  : database * result LoopCheckpoint :=
  match mk_checkpoint (initial_checkpoint run definition) with
  | Err e => (db, Err e)
  | Ok initial =>
      match loop_runs db !! run with
      | None =>
          ({| loop_runs :=
                <[run := {| c_definition_digest := definition_digest_of definition;
                            c_state := "new"; c_sequence := 0; c_attempts := 0;
                            c_iterations := 0; c_tokens := 0; c_cost_microusd := 0;
                            c_storage_bytes := 0; c_last_progress_digest := None;
                            c_stagnant_iterations := 0; c_terminal_reason := None;
                            c_head_digest := None; c_cancelled := 0 |}]> (loop_runs db);
              loop_events := loop_events db; kill_value := kill_value db |}, Ok initial)
      | Some row =>
          (db, let! existing := checkpoint run row in
               let! _ := verify db existing in
               raise (engine_error "ECO_LOOP_DEFINITION_DRIFT") when
                 (definition_digest existing != definition_digest_of definition) else
               Ok existing)
      end
  end.

Definition load (db : database) (run : string) : result LoopCheckpoint :=
  let! row := run_row_of db run in
  let! c := checkpoint run row in
  let! _ := verify db c in
  Ok c.

Fixpoint loads_all (rows : list event_row) : result (list json) :=
  match rows with
  | [] => Ok []
  | row :: rest =>
      match json_loads (e_event_json row) with
      | None => Err ValueError
      | Some e => let! es := loads_all rest in Ok (e :: es)
      end
  end.

Definition events (db : database) (run : string) : result (list json) :=
  let! row := run_row_of db run in
  let! c := checkpoint run row in
  let! _ := verify db c in
  loads_all (select_events db run).

Definition set_cancelled (r : run_row) : run_row :=
  {| c_definition_digest := c_definition_digest r; c_state := c_state r;
     c_sequence := c_sequence r; c_attempts := c_attempts r; c_iterations := c_iterations r;
     c_tokens := c_tokens r; c_cost_microusd := c_cost_microusd r;
     c_storage_bytes := c_storage_bytes r;
     c_last_progress_digest := c_last_progress_digest r;
     c_stagnant_iterations := c_stagnant_iterations r;
     c_terminal_reason := c_terminal_reason r; c_head_digest := c_head_digest r;
     c_cancelled := 1 |}.

Definition request_cancel (db : database) (run : string) : database * result unit :=
  match loop_runs db !! run with
  | None => (db, Err (engine_error "ECO_LOOP_RUN_UNKNOWN"))
  | Some r =>
      ({| loop_runs := <[run := set_cancelled r]> (loop_runs db);
          loop_events := loop_events db; kill_value := kill_value db |}, Ok tt)
  end.

Definition set_kill_switch (db : database) (enabled : bool) : database :=
  {| loop_runs := loop_runs db; loop_events := loop_events db;
     kill_value := if enabled then 1 else 0 |}.

Definition stop_reason (db : database) (run : string) : result (option string) :=
  match loop_runs db !! run with
  | None => Err (engine_error "ECO_LOOP_RUN_UNKNOWN")
  | Some r =>
      if kill_value db != 0 then Ok (Some "ECO_LOOP_KILL_SWITCH")
      else if c_cancelled r != 0 then Ok (Some "ECO_LOOP_CANCELLED")
      else Ok None
  end.

(** The row [transition] writes with its UPDATE. *)
Definition updated_row (r : run_row) (n : LoopCheckpoint) : run_row :=
  {| c_definition_digest := c_definition_digest r; c_state := state n;
     c_sequence := sequence n; c_attempts := attempts (usage n);
     c_iterations := iterations (usage n); c_tokens := tokens (usage n);
     c_cost_microusd := cost_microusd (usage n);
     c_storage_bytes := storage_bytes (usage n);
     c_last_progress_digest := last_progress_digest n;
     c_stagnant_iterations := stagnant_iterations n;
     c_terminal_reason := terminal_reason n; c_head_digest := head_digest n;
     c_cancelled := c_cancelled r |}.
Definition row_fits (n : LoopCheckpoint) : bool :=
  int64 (sequence n) && int64 (attempts (usage n)) && int64 (iterations (usage n))
  && int64 (tokens (usage n)) && int64 (cost_microusd (usage n))
  && int64 (storage_bytes (usage n)) && int64 (stagnant_iterations n).

(** The INSERT and the UPDATE, with the errors of the database driver. *)
Definition write_transition (db : database) (r : run_row) (current : LoopCheckpoint)
    (target : string) (a : TransitionArgs) : result database :=
  let event := JObj (transition_event current target a) in
  let n := next_checkpoint current target a in
  raise OverflowError when (negb (row_fits n)) else
  raise IntegrityError when
    (existsb (fun x => (e_run_id x == run_id current) && (e_sequence x == sequence n))
             (loop_events db)) else
  Ok {| loop_runs := <[run_id current := updated_row r n]> (loop_runs db);
        loop_events := loop_events db ++
          [{| e_run_id := run_id current; e_sequence := sequence n;
              e_event_json := canonical_json event;
              e_event_digest := semantic_digest event |}];
        kill_value := kill_value db |}.

Definition transition (db : database) (expected : LoopCheckpoint) (target : string)
    (a : TransitionArgs) : database * result LoopCheckpoint :=
  let run := run_id expected in
  match
    let! row := run_row_of db run in
    let! current := checkpoint run row in
    let! _ := verify db current in
    Ok (row, current)
  with
  | Err e => (db, Err e)
  | Ok (row, current) =>
      let err code := (db, Err (engine_error code)) in
      if current != expected then
        if state current in? TERMINAL_STATES then (db, Ok current)
        else err "ECO_LOOP_CHECKPOINT_CONFLICT"
      else if negb (transition_allowed (state current) target)
      then err "ECO_LOOP_TRANSITION_DENIED"
      else if negb (startswith (t_reason_code a) "ECO_") then err "ECO_LOOP_EVENT_INVALID"
      else if negb (opt_ok is_digest (t_evidence_digest a)) then err "ECO_LOOP_EVENT_INVALID"
      else if usage_reversed (usage current) (next_usage current a)
      then err "ECO_LOOP_USAGE_REVERSED"
      else
        match write_transition db row current target a with
        | Err e => (db, Err e)
        | Ok db' => (db', load db' (run_id current))
        end
  end.
End Operations.

#[global] Instance loop_journal `{Crypto} : LoopJournal database :=
  {| LoopJournal.create := create; LoopJournal.load := load; LoopJournal.events := events;
     LoopJournal.request_cancel := request_cancel;
     LoopJournal.set_kill_switch := set_kill_switch;
     LoopJournal.stop_reason := stop_reason; LoopJournal.transition := transition |}.
End SQLite.
