(* ===== verification/LoopRefinement.v ===== *)
(** * Histories: what both loop journals record

    [history c es] is the abstract specification of one run's journal: [es] is
    the list of event records of the transitions that led from a new checkpoint
    to [c].  Each is checked against [TRANSITIONS], carries the digest of its
    predecessor and never lowers the usage.  The lemmas below show what the
    [_verify] scan of the durable journal does on the rows of a history. *)

From S2P Require Import Prelude Json Digest PyTime LoopContracts LoopJournal.

Section History.
Context `{Crypto}.

Inductive history : LoopCheckpoint → list json → Prop :=
| history_new run d :
    is_slug run = true → history (initial_checkpoint run d) []
| history_step c es target a :
    history c es →
    transition_allowed (state c) target = true →
    startswith (t_reason_code a) "ECO_" = true →
    opt_ok is_digest (t_evidence_digest a) = true →
    usage_reversed (usage c) (next_usage c a) = false →
    LoopCheckpoint_post_init (next_checkpoint c target a) = Ok tt →
    history (next_checkpoint c target a) (es ++ [JObj (transition_event c target a)]).

(** The rows of [loop_events] that record a list of events. *)
Fixpoint event_rows (run : string) (n : Z) (es : list json) : list SQLite.event_row :=
  match es with
  | [] => []
  | e :: es' =>
      {| SQLite.e_run_id := run; SQLite.e_sequence := n;
         SQLite.e_event_json := canonical_json e;
         SQLite.e_event_digest := semantic_digest e |} :: event_rows run (n + 1) es'
  end.

Lemma event_rows_app run n es1 es2 :
  event_rows run n (es1 ++ es2)
  = event_rows run n es1 ++ event_rows run (n + Z.of_nat (length es1)) es2.
Proof.
  revert n. induction es1 as [|e es1 IH]; intros n; simpl.
  { by rewrite Z.add_0_r. }
  rewrite IH. do 3 f_equal. lia.
Qed.
Lemma event_rows_length run n es : length (event_rows run n es) = length es.
Proof. revert n. induction es; intros n; simpl; [done|]. by f_equal. Qed.

Lemma event_rows_bounds run n es r :
  r ∈ event_rows run n es →
  SQLite.e_run_id r = run ∧ n ≤ SQLite.e_sequence r < n + Z.of_nat (length es).
Proof.
  revert n. induction es as [|e es IH]; intros n; simpl; [by intros ?%elem_of_nil|].
  intros [->|Hr]%elem_of_cons; simpl; [split; [done|lia]|].
  destruct (IH _ Hr). split; [done|lia].
Qed.

Lemma event_rows_sorted run n es :
  StronglySorted (fun a b => (SQLite.e_sequence a <=? SQLite.e_sequence b) = true)
                 (event_rows run n es).
Proof.
  revert n. induction es as [|e es IH]; intros n; simpl; constructor; [done|].
  apply Forall_forall. intros r Hr. apply event_rows_bounds in Hr as [_ Hr]. simpl.
  apply Z.leb_le. lia.
Qed.

(** ** Facts about a history *)

Lemma post_init_ok c :
  LoopCheckpoint_post_init c = Ok tt →
  is_slug (run_id c) = true ∧ is_digest (definition_digest c) = true ∧ state c ∈ LOOP_STATES ∧
  0 ≤ sequence c ∧ 0 ≤ stagnant_iterations c ∧ opt_ok is_digest (last_progress_digest c) = true ∧
  opt_ok is_code (terminal_reason c) = true ∧ opt_ok is_digest (head_digest c) = true.
Proof.
  unfold LoopCheckpoint_post_init, non_negative. intros Hc.
  repeat (case_match; try discriminate Hc); breflect; by split_and!.
Qed.

Lemma initial_post_init run d :
  is_slug run = true → LoopCheckpoint_post_init (initial_checkpoint run d) = Ok tt.
Proof.
  intros Hr. unfold LoopCheckpoint_post_init. simpl. rewrite Hr. unfold definition_digest_of.
  by rewrite semantic_digest_is_digest.
Qed.

Lemma history_post_init c es : history c es → LoopCheckpoint_post_init c = Ok tt.
Proof. destruct 1; [by apply initial_post_init|done]. Qed.

Lemma history_length c es : history c es → sequence c = Z.of_nat (length es).
Proof. induction 1; [done|]. rewrite length_app. simpl. lia. Qed.

Definition usage_nonneg (u : LoopUsage) : Prop :=
  0 ≤ attempts u ∧ 0 ≤ iterations u ∧ 0 ≤ tokens u ∧ 0 ≤ cost_microusd u ∧ 0 ≤ storage_bytes u.

Lemma usage_reversed_false u v :
  usage_reversed u v = false →
  attempts u ≤ attempts v ∧ iterations u ≤ iterations v ∧ tokens u ≤ tokens v ∧
  cost_microusd u ≤ cost_microusd v ∧ storage_bytes u ≤ storage_bytes v.
Proof. unfold usage_reversed. intros Hu. breflect. by split_and!. Qed.

Lemma history_usage c es : history c es → usage_nonneg (usage c).
Proof.
  induction 1 as [run d|c es target a _ IH _ _ _ Hu _]; [done|].
  apply usage_reversed_false in Hu. unfold usage_nonneg in *. simpl. lia.
Qed.

Lemma usage_post_init u : usage_nonneg u → LoopUsage_post_init u = Ok tt.
Proof.
  intros (H1 & H2 & H3 & H4 & H5). unfold LoopUsage_post_init, non_negative.
  rewrite !(proj2 (Z.ltb_ge _ _)) by done. done.
Qed.

Lemma history_new_state c es : history c es → es = [] → state c = "new" ∧ head_digest c = None.
Proof. destruct 1 as [|c es]; [done|]. by destruct es. Qed.

(** ** The verification scan *)

Lemma transition_event_wf c target a : json_wf (JObj (transition_event c target a)) = true.
Proof.
  unfold transition_event. cbn [json_wf fmap list_fmap fst].
  rewrite bool_decide_true; [|apply (bool_decide_eq_true_1 _); vm_compute; reflexivity].
  cbn [forallb snd json_wf LoopUsage_record andb].
  destruct (t_evidence_digest a), (head_digest c), (next_progress c a); reflexivity.
Qed.

Lemma transition_event_get c target a k :
  jget k (jnorm_items (transition_event c target a)) = jnorm (jget k (transition_event c target a)).
Proof.
  apply jget_jnorm. pose proof (transition_event_wf c target a) as Hw.
  cbn [json_wf] in Hw. apply andb_true_iff in Hw as [Hw _]. by apply bool_decide_eq_true in Hw.
Qed.

Lemma event_keys_content_free c target a :
  event_is_content_free (jnorm_items (transition_event c target a)) = true.
Proof.
  unfold event_is_content_free. apply bool_decide_eq_true.
  assert ((jnorm_items (transition_event c target a)).*1 ≡ₚ (transition_event c target a).*1) as ->.
  { unfold jnorm_items. by rewrite sorted_items_perm. }
  unfold transition_event. cbn [fmap list_fmap fst]. apply (bool_decide_eq_true_1 _).
  vm_compute. reflexivity.
Qed.

Definition to_of (last : option (list (string * json))) : json :=
  match last with Some e => jget "to" e | None => JStr "new" end.

Lemma verify_rows_snoc c n pd last rows row :
  SQLite.verify_rows c n pd (to_of last) last (rows ++ [row])
  = let! '(pd', last') := SQLite.verify_rows c n pd (to_of last) last rows in
    SQLite.verify_rows c (n + Z.of_nat (length rows)) pd' (to_of last') last' [row].
Proof.
  revert n pd last. induction rows as [|r rows IH]; intros n pd last.
  { simpl. by rewrite Z.add_0_r. }
  cbn [app SQLite.verify_rows]. destruct (json_loads _) as [[]|]; try done.
  case_match; [done|]. change (jget "to" o) with (to_of (Some o)). rewrite IH.
  cbn [length]. replace (n + 1 + Z.of_nat (length rows)) with (n + Z.of_nat (S (length rows))) by lia.
  done.
Qed.

Lemma verify_rows_ext c c' n pd ps last rows :
  run_id c = run_id c' → definition_digest c = definition_digest c' →
  SQLite.verify_rows c n pd ps last rows = SQLite.verify_rows c' n pd ps last rows.
Proof.
  intros E1 E2. revert n pd ps last. induction rows as [|r rows IH]; intros n pd ps last; [done|].
  simpl. rewrite E1, E2. destruct (json_loads _) as [[]|]; try done. case_match; [done|]. apply IH.
Qed.

Lemma py_eq_str s : py_eq (JStr s) (JStr s) = true.
Proof. simpl. by apply bool_decide_eq_true. Qed.
Lemma py_eq_int z : py_eq (JInt z) (JInt z) = true.
Proof. simpl. by apply bool_decide_eq_true. Qed.
Lemma py_eq_optstr o : py_eq (jnorm (json_of_optstr o)) (json_of_optstr o) = true.
Proof. destruct o; [apply py_eq_str|done]. Qed.

(** The scan accepts the row of the next event. *)
Lemma verify_next_row c target a last :
  SQLite.verify_rows c (sequence c + 1) (head_digest c) (JStr (state c)) last
    (event_rows (run_id c) (sequence c + 1) [JObj (transition_event c target a)])
  = Ok (Some (semantic_digest (JObj (transition_event c target a))),
        Some (jnorm_items (transition_event c target a))).
Proof.
  cbn [event_rows SQLite.verify_rows SQLite.e_event_json SQLite.e_sequence SQLite.e_event_digest].
  rewrite json_loads_canonical by apply transition_event_wf.
  change (jnorm (JObj (transition_event c target a)))
    with (JObj (jnorm_items (transition_event c target a))).
  cbv iota beta. rewrite event_keys_content_free, !transition_event_get.
  rewrite (bool_decide_true (sequence c + 1 = sequence c + 1)) by done.
  unfold semantic_digest.
  change (JObj (jnorm_items (transition_event c target a)))
    with (jnorm (JObj (transition_event c target a))).
  rewrite canonical_json_jnorm, (bool_decide_true (sha256_hex _ = sha256_hex _)) by done.
  change (jget "sequence" (transition_event c target a)) with (JInt (sequence c + 1)).
  change (jget "runId" (transition_event c target a)) with (JStr (run_id c)).
  change (jget "definitionDigest" (transition_event c target a)) with (JStr (definition_digest c)).
  change (jget "previousEventDigest" (transition_event c target a))
    with (json_of_optstr (head_digest c)).
  change (jget "from" (transition_event c target a)) with (JStr (state c)).
  rewrite py_eq_optstr. cbn [jnorm]. by rewrite !py_eq_str, py_eq_int.
Qed.

(** What [_verify] compares the checkpoint's columns with. *)
Definition last_matches (c : LoopCheckpoint) (last : option (list (string * json))) : Prop :=
  match last with
  | None => sequence c = 0
  | Some e =>
      0 < sequence c ∧
      py_eq (jget "usage" e) (LoopUsage_record (usage c)) = true ∧
      py_eq (jget "progressDigest" e) (json_of_optstr (last_progress_digest c)) = true ∧
      py_eq (jget "stagnantIterations" e) (JInt (stagnant_iterations c)) = true ∧
      (state c ∈ TERMINAL_STATES →
       py_eq (jget "reasonCode" e) (json_of_optstr (terminal_reason c)) = true)
  end.

Lemma last_matches_next c target a :
  0 ≤ sequence c →
  last_matches (next_checkpoint c target a) (Some (jnorm_items (transition_event c target a))).
Proof.
  intros Hs. unfold last_matches. rewrite !transition_event_get.
  change (jget "usage" (transition_event c target a)) with (LoopUsage_record (next_usage c a)).
  change (jget "progressDigest" (transition_event c target a))
    with (json_of_optstr (next_progress c a)).
  change (jget "stagnantIterations" (transition_event c target a))
    with (JInt (next_stagnant c a)).
  change (jget "reasonCode" (transition_event c target a)) with (JStr (t_reason_code a)).
  cbn [next_checkpoint sequence usage last_progress_digest stagnant_iterations terminal_reason
       state].
  split_and!; [lia|by apply py_eq_jnorm|apply py_eq_optstr|apply py_eq_int|].
  intros Ht. rewrite bool_decide_true by done. apply py_eq_str.
Qed.

Lemma verify_rows_history c es :
  history c es →
  ∃ last, SQLite.verify_rows c 1 None (JStr "new") None (event_rows (run_id c) 1 es)
          = Ok (head_digest c, last) ∧ to_of last = JStr (state c) ∧ last_matches c last.
Proof.
  induction 1 as [run d|c es target a Hh (last & Hv & Hto & _) Hal _ _ _ _]; [by exists None|].
  pose proof (history_length _ _ Hh) as Hlen.
  exists (Some (jnorm_items (transition_event c target a))). split_and!.
  - rewrite event_rows_app, (verify_rows_ext _ c) by done.
    cbn [next_checkpoint run_id]. replace (1 + Z.of_nat (length es)) with (sequence c + 1) by lia.
    change (event_rows (run_id c) (sequence c + 1) [JObj (transition_event c target a)])
      with [{| SQLite.e_run_id := run_id c; SQLite.e_sequence := sequence c + 1;
               SQLite.e_event_json := canonical_json (JObj (transition_event c target a));
               SQLite.e_event_digest := semantic_digest (JObj (transition_event c target a)) |}].
    change (JStr "new") with (to_of None). rewrite verify_rows_snoc.
    change (to_of None) with (JStr "new"). rewrite Hv. cbv iota beta.
    rewrite event_rows_length, Hto. replace (1 + Z.of_nat (length es)) with (sequence c + 1) by lia.
    apply verify_next_row.
  - cbn [to_of]. rewrite transition_event_get. done.
  - apply last_matches_next. lia.
Qed.

(** [_verify] accepts the rows of a history. *)
Lemma verify_history db c es :
  history c es → SQLite.select_events db (run_id c) = event_rows (run_id c) 1 es →
  SQLite.verify db c = Ok tt.
Proof.
  intros Hh Hsel. unfold SQLite.verify. rewrite Hsel, event_rows_length.
  rewrite <- (history_length _ _ Hh), bool_decide_true by done. cbn [negb].
  destruct (verify_rows_history _ _ Hh) as (last & -> & Hto & Hm). cbv iota beta.
  destruct last as [e|]; simpl in Hto, Hm.
  - destruct Hm as (Hs & Hu & Hp & Hst & Hr).
    rewrite (bool_decide_false (sequence c = 0)) by lia.
    rewrite Hto, Hu, Hp, Hst, py_eq_str, (bool_decide_true (head_digest c = head_digest c)) by done.
    simpl. case_bool_decide as Ht; [|done]. by rewrite (Hr Ht).
  - rewrite (bool_decide_true (sequence c = 0)) by done.
    rewrite (history_length _ _ Hh) in Hm.
    assert (es = []) as Hes by (apply nil_length_inv; lia).
    destruct (history_new_state _ _ Hh Hes) as [E1 E2]. by rewrite E1, E2.
Qed.

Lemma loads_all_history c es :
  history c es → ∀ run n, SQLite.loads_all (event_rows run n es) = Ok (map jnorm es).
Proof.
  assert (∀ es, Forall (fun e => json_wf e = true) es →
    ∀ run n, SQLite.loads_all (event_rows run n es) = Ok (map jnorm es)) as Hall.
  { induction 1 as [|e l He _ IH]; intros run n; [done|]. simpl.
    by rewrite json_loads_canonical, IH. }
  intros Hh. apply Hall. induction Hh as [|c es target a _ IH]; [done|].
  apply Forall_app. split; [done|]. constructor; [apply transition_event_wf|done].
Qed.
End History.

(** * The durable journal refines the in-memory one

    [mem_inv] is the invariant of the in-memory journal, [refines] the relation
    between it and the tables of the durable one.  Every operation of the two
    journals is related. *)

Import InMemory SQLite.

Section Refinement.
Context `{Crypto}.

Record mem_inv (m : journal) : Prop := {
  mi_run : ∀ run c, checkpoints m !! run = Some c →
    run_id c = run ∧ ∃ es, event_lists m !! run = Some es ∧ history c es;
  mi_none : ∀ run, checkpoints m !! run = None → event_lists m !! run = None;
  mi_cancel : ∀ run, run ∈ cancelled m → is_Some (checkpoints m !! run);
}.

Lemma empty_inv : mem_inv empty.
Proof. by split. Qed.

Lemma mk_checkpoint_ok c : LoopCheckpoint_post_init c = Ok tt → mk_checkpoint c = Ok c.
Proof. unfold mk_checkpoint. by intros ->. Qed.
Lemma mk_checkpoint_inv c c' :
  mk_checkpoint c = Ok c' → c' = c ∧ LoopCheckpoint_post_init c = Ok tt.
Proof.
  unfold mk_checkpoint. intros Hc. destruct (LoopCheckpoint_post_init c) as [[]|]; [|done].
  by injection Hc as <-.
Qed.

Lemma create_inv m run d : mem_inv m → mem_inv (InMemory.create m run d).1.
Proof.
  intros Hm. unfold InMemory.create.
  destruct (mk_checkpoint _) as [i|] eqn:Ei; [|done].
  apply mk_checkpoint_inv in Ei as [-> Hi].
  destruct (checkpoints m !! run) as [c|] eqn:Ec; [by case_match|].
  split; simpl.
  - intros run' c'. destruct (decide (run' = run)) as [->|Hne].
    + rewrite !lookup_insert_eq. intros [= <-]. split; [done|]. exists []. split; [done|].
      constructor. by apply post_init_ok in Hi as [? _].
    + rewrite !lookup_insert_ne by done. apply Hm.
  - intros run'. rewrite lookup_insert_None. intros [? ?].
    rewrite lookup_insert_ne by done. by apply Hm.
  - intros run' Hr. apply lookup_insert_is_Some'. right. by apply Hm.
Qed.

Lemma cancel_inv m run : mem_inv m → mem_inv (InMemory.request_cancel m run).1.
Proof.
  intros Hm. unfold InMemory.request_cancel. destruct (checkpoints m !! run) eqn:E; [|done].
  split; simpl; try apply Hm. intros run' [->%elem_of_singleton|Hr]%elem_of_union; [by rewrite E|].
  by apply Hm.
Qed.

Lemma kill_inv m b : mem_inv m → mem_inv (InMemory.set_kill_switch m b).
Proof. intros [? ? ?]. by split. Qed.

(** The journal after recording one more transition of a run. *)
Definition recorded (m : journal) (c : LoopCheckpoint) (es : list json) (target : string)
    (a : TransitionArgs) : journal :=
  {| checkpoints := <[run_id c := next_checkpoint c target a]> (checkpoints m);
     event_lists := <[run_id c := es ++ [JObj (transition_event c target a)]]> (event_lists m);
     cancelled := cancelled m; kill_switch := kill_switch m |}.

(** The conditions under which a transition is recorded. *)
Definition recordable (c : LoopCheckpoint) (target : string) (a : TransitionArgs) : Prop :=
  transition_allowed (state c) target = true ∧
  startswith (t_reason_code a) "ECO_" = true ∧
  opt_ok is_digest (t_evidence_digest a) = true ∧
  usage_reversed (usage c) (next_usage c a) = false ∧
  LoopCheckpoint_post_init (next_checkpoint c target a) = Ok tt.

Lemma recorded_inv m c es target a :
  mem_inv m → checkpoints m !! run_id c = Some c → event_lists m !! run_id c = Some es →
  recordable c target a → mem_inv (recorded m c es target a).
Proof.
  intros Hm Hc He (H1 & H2 & H3 & H4 & H5). split; simpl.
  - intros run' c'. destruct (decide (run' = run_id c)) as [->|Hne].
    + rewrite !lookup_insert_eq. intros [= <-]. split; [done|]. eexists. split; [done|].
      constructor; try done. destruct (mi_run _ Hm _ _ Hc) as (_ & es' & He' & Hh). congruence.
    + rewrite !lookup_insert_ne by done. apply Hm.
  - intros run'. rewrite lookup_insert_None. intros [? ?].
    rewrite lookup_insert_ne by done. by apply Hm.
  - intros run' Hr. apply lookup_insert_is_Some'. right. by apply Hm.
Qed.

(** A call of the in-memory [transition] either leaves the journal alone or
    records one transition of the expected checkpoint. *)
Lemma mem_transition_cases m expected target a :
  mem_inv m →
  ((InMemory.transition m expected target a).1 = m ∧
   ∀ c, (InMemory.transition m expected target a).2 = Ok c →
     checkpoints m !! run_id expected = Some c ∧ c ≠ expected ∧ state c ∈ TERMINAL_STATES) ∨
  (∃ es, checkpoints m !! run_id expected = Some expected ∧
     event_lists m !! run_id expected = Some es ∧ recordable expected target a ∧
     InMemory.transition m expected target a
     = (recorded m expected es target a, Ok (next_checkpoint expected target a))).
Proof.
  intros Hm. unfold InMemory.transition. cbv zeta.
  destruct (checkpoints m !! run_id expected) as [c|] eqn:Ec; [|by left].
  case_bool_decide as Hne; cbn [negb].
  2:{ left. case_bool_decide; (split; [done|]); [|done]. by intros ? [= <-]. }
  subst c. destruct (mi_run _ Hm _ _ Ec) as (_ & es & He & _).
  destruct (transition_allowed (state expected) target) eqn:Et; cbn [negb]; [|by left].
  assert (bool_decide (state expected ∈ TERMINAL_STATES) = false) as Hnt.
  { apply bool_decide_eq_false. intros Hin%(terminal_no_transition _ target). congruence. }
  rewrite Hnt, andb_false_r.
  destruct (startswith _ _) eqn:E1; cbn [negb]; [|by left].
  destruct (opt_ok _ _) eqn:E2; cbn [negb]; [|by left].
  destruct (usage_reversed _ _) eqn:E3; [by left|].
  destruct (mk_checkpoint _) as [n|] eqn:En; [|by left].
  apply mk_checkpoint_inv in En as [-> En]. rewrite He. right. by exists es.
Qed.

Lemma mem_transition_ok m c es target a :
  checkpoints m !! run_id c = Some c → event_lists m !! run_id c = Some es →
  recordable c target a →
  InMemory.transition m c target a = (recorded m c es target a, Ok (next_checkpoint c target a)).
Proof.
  intros Hc He (H1 & H2 & H3 & H4 & H5). unfold InMemory.transition. cbv zeta.
  rewrite Hc, (bool_decide_true (c = c)), H1 by done. cbn [negb].
  assert (bool_decide (state c ∈ TERMINAL_STATES) = false) as Hnt.
  { apply bool_decide_eq_false. intros Hin%(terminal_no_transition _ target). congruence. }
  by rewrite Hnt, andb_false_r, H2, H3, H4, (mk_checkpoint_ok _ H5), He.
Qed.

Lemma transition_inv m expected target a :
  mem_inv m → mem_inv (InMemory.transition m expected target a).1.
Proof.
  intros Hm. destruct (mem_transition_cases m expected target a Hm)
    as [[-> _]|(es & Hc & He & Hr & ->)]; [done|]. simpl. by apply recorded_inv.
Qed.

(** ** The relation *)

Definition row_of (o : option LoopCheckpoint) (cancel : bool) (run : string)
    (r : option run_row) : Prop :=
  match o, r with
  | None, None => True
  | Some c, Some r => row_checkpoint run r = c ∧ bool_decide (c_cancelled r ≠ 0) = cancel
  | _, _ => False
  end.

Record refines (m : journal) (db : database) : Prop := {
  rf_runs : ∀ run, row_of (checkpoints m !! run) (bool_decide (run ∈ cancelled m)) run
                          (loop_runs db !! run);
  rf_events : ∀ run, filter (fun r => e_run_id r = run) (loop_events db)
                     = event_rows run 1 (default [] (event_lists m !! run));
  rf_kill : bool_decide (kill_value db ≠ 0) = kill_switch m;
}.

Lemma fresh_refines : refines empty fresh.
Proof. by split. Qed.

Lemma refines_select m db run :
  refines m db → select_events db run = event_rows run 1 (default [] (event_lists m !! run)).
Proof.
  intros Hr. unfold select_events. rewrite (rf_events _ _ Hr). apply py_sorted_id.
  apply event_rows_sorted.
Qed.

(** What a read transaction of the durable journal sees of a run. *)
Lemma refines_current m db run c :
  mem_inv m → refines m db → checkpoints m !! run = Some c →
  ∃ r, loop_runs db !! run = Some r ∧ checkpoint run r = Ok c ∧ verify db c = Ok tt ∧
       row_checkpoint run r = c ∧ bool_decide (c_cancelled r ≠ 0) = bool_decide (run ∈ cancelled m).
Proof.
  intros Hm Hr Hc. pose proof (rf_runs _ _ Hr run) as Hrow. rewrite Hc in Hrow.
  destruct (loop_runs db !! run) as [r|]; [|done]. destruct Hrow as [Hrow Hcan].
  destruct (mi_run _ Hm _ _ Hc) as (Hid & es & He & Hh). exists r.
  split_and!; [done| | |done|done].
  - unfold checkpoint. rewrite Hrow.
    rewrite (usage_post_init _ (history_usage _ _ Hh)). apply mk_checkpoint_ok.
    by eapply history_post_init.
  - apply (verify_history _ _ es Hh). rewrite Hid, (refines_select _ _ _ Hr), He. done.
Qed.
Lemma refines_unknown m db run :
  refines m db → checkpoints m !! run = None → loop_runs db !! run = None.
Proof.
  intros Hr Hc. pose proof (rf_runs _ _ Hr run) as Hrow. rewrite Hc in Hrow.
  by destruct (loop_runs db !! run).
Qed.

Lemma load_refines m db run :
  mem_inv m → refines m db → SQLite.load db run = InMemory.load m run.
Proof.
  intros Hm Hr. unfold SQLite.load, InMemory.load, run_row_of.
  destruct (checkpoints m !! run) as [c|] eqn:Hc.
  - destruct (refines_current _ _ _ _ Hm Hr Hc) as (r & -> & -> & -> & _). done.
  - by rewrite (refines_unknown _ _ _ Hr Hc).
Qed.

Lemma events_refines m db run :
  mem_inv m → refines m db →
  SQLite.events db run = let! es := InMemory.events m run in Ok (map jnorm es).
Proof.
  intros Hm Hr. unfold SQLite.events, InMemory.events, run_row_of.
  destruct (checkpoints m !! run) as [c|] eqn:Hc.
  - destruct (refines_current _ _ _ _ Hm Hr Hc) as (r & -> & -> & -> & _).
    destruct (mi_run _ Hm _ _ Hc) as (Hid & es & He & Hh).
    rewrite (refines_select _ _ _ Hr), He. simpl. by eapply loads_all_history.
  - by rewrite (refines_unknown _ _ _ Hr Hc), (mi_none _ Hm _ Hc).
Qed.

Lemma stop_refines m db run :
  refines m db → is_Some (checkpoints m !! run) →
  SQLite.stop_reason db run = InMemory.stop_reason m run.
Proof.
  intros Hr [c Hc]. pose proof (rf_runs _ _ Hr run) as Hrow. rewrite Hc in Hrow.
  unfold SQLite.stop_reason, InMemory.stop_reason.
  destruct (loop_runs db !! run) as [r|]; [|done]. destruct Hrow as [_ Hcan].
  pose proof (rf_kill _ _ Hr) as Hk. rewrite bool_decide_not in Hcan, Hk.
  by rewrite Hk, Hcan.
Qed.

Lemma kill_refines m db b :
  refines m db → refines (InMemory.set_kill_switch m b) (SQLite.set_kill_switch db b).
Proof. intros [? ? ?]. split; try done. by destruct b. Qed.

Lemma cancel_refines m db run :
  refines m db →
  refines (InMemory.request_cancel m run).1 (SQLite.request_cancel db run).1 ∧
  (SQLite.request_cancel db run).2 = (InMemory.request_cancel m run).2.
Proof.
  intros Hr. unfold InMemory.request_cancel, SQLite.request_cancel.
  pose proof (rf_runs _ _ Hr run) as Hrow.
  destruct (checkpoints m !! run) as [c|] eqn:Hc, (loop_runs db !! run) as [r|] eqn:Er; try done.
  split; [|done]. destruct Hrow as [Hrow _]. split; simpl; try apply Hr.
  intros run'. destruct (decide (run' = run)) as [->|Hne].
  - rewrite lookup_insert_eq, Hc. simpl. split; [done|].
    symmetry. apply bool_decide_eq_true, elem_of_union. left. by apply elem_of_singleton.
  - rewrite lookup_insert_ne by done. pose proof (rf_runs _ _ Hr run') as Hrow'.
    replace (bool_decide (run' ∈ {[run]} ∪ cancelled m)) with (bool_decide (run' ∈ cancelled m));
      [done|]. apply bool_decide_ext. rewrite elem_of_union, elem_of_singleton. tauto.
Qed.

Lemma create_refines m db run d :
  mem_inv m → refines m db →
  refines (InMemory.create m run d).1 (SQLite.create db run d).1 ∧
  (SQLite.create db run d).2 = (InMemory.create m run d).2.
Proof.
  intros Hm Hr. unfold InMemory.create, SQLite.create.
  destruct (mk_checkpoint _) as [i|] eqn:Ei; [|done]. apply mk_checkpoint_inv in Ei as [-> _].
  destruct (checkpoints m !! run) as [c|] eqn:Hc.
  - destruct (refines_current _ _ _ _ Hm Hr Hc) as (r & -> & -> & -> & _).
    cbv iota beta. by case_bool_decide.
  - rewrite (refines_unknown _ _ _ Hr Hc). split; [|done]. split; simpl; try apply Hr.
    + intros run'. destruct (decide (run' = run)) as [->|Hne].
      * rewrite !lookup_insert_eq. simpl. split; [done|]. symmetry. apply bool_decide_eq_false.
        intros Hcan%(mi_cancel _ Hm). rewrite Hc in Hcan. by destruct Hcan.
      * rewrite !lookup_insert_ne by done. apply Hr.
    + intros run'. rewrite (rf_events _ _ Hr). destruct (decide (run' = run)) as [->|Hne].
      * by rewrite lookup_insert_eq, (mi_none _ Hm _ Hc).
      * by rewrite lookup_insert_ne.
Qed.

(** ** Transitions *)

(** The tables after [write_transition]. *)
Definition written (db : database) (r : run_row) (c : LoopCheckpoint) (target : string)
    (a : TransitionArgs) : database :=
  {| loop_runs := <[run_id c := updated_row r (next_checkpoint c target a)]> (loop_runs db);
     loop_events := loop_events db ++
       [{| e_run_id := run_id c; e_sequence := sequence c + 1;
           e_event_json := canonical_json (JObj (transition_event c target a));
           e_event_digest := semantic_digest (JObj (transition_event c target a)) |}];
     kill_value := kill_value db |}.

Lemma write_ok m db r c target a :
  mem_inv m → refines m db → checkpoints m !! run_id c = Some c →
  row_fits (next_checkpoint c target a) = true →
  write_transition db r c target a = Ok (written db r c target a).
Proof.
  intros Hm Hr Hc Hfit. unfold write_transition. rewrite Hfit. cbn [negb].
  destruct (existsb _ _) eqn:Ex; [|done]. exfalso.
  apply existsb_exists in Ex as (x & Hx & Heq). apply andb_true_iff in Heq as [E1 E2].
  apply bool_decide_eq_true in E1, E2. cbn [next_checkpoint sequence] in E2.
  apply list_elem_of_In in Hx.
  assert (x ∈ filter (fun r => e_run_id r = run_id c) (loop_events db)) as Hf
    by (by apply list_elem_of_filter).
  rewrite (rf_events _ _ Hr) in Hf. apply event_rows_bounds in Hf as [_ Hb].
  destruct (mi_run _ Hm _ _ Hc) as (_ & es & He & Hh). rewrite He in Hb. simpl in Hb.
  rewrite (history_length _ _ Hh) in E2. lia.
Qed.

Lemma written_refines m db r c es target a :
  mem_inv m → refines m db → checkpoints m !! run_id c = Some c →
  event_lists m !! run_id c = Some es → loop_runs db !! run_id c = Some r →
  row_checkpoint (run_id c) r = c →
  refines (recorded m c es target a) (written db r c target a).
Proof.
  intros Hm Hr Hc He Er Hrow. pose proof (rf_runs _ _ Hr (run_id c)) as Hrr.
  rewrite Hc, Er in Hrr. destruct Hrr as [_ Hcan]. split; simpl; try apply Hr.
  - intros run. destruct (decide (run = run_id c)) as [->|Hne].
    + rewrite !lookup_insert_eq. simpl. split; [|done]. unfold row_checkpoint, next_checkpoint. simpl.
      f_equal; [by apply (f_equal definition_digest) in Hrow|]. by destruct (next_usage c a).
    + rewrite !lookup_insert_ne by done. apply Hr.
  - intros run. rewrite filter_app, (rf_events _ _ Hr).
    destruct (decide (run = run_id c)) as [->|Hne].
    + rewrite filter_cons_True, filter_nil by done. rewrite lookup_insert_eq, He. simpl.
      rewrite event_rows_app. simpl. destruct (mi_run _ Hm _ _ Hc) as (_ & es' & He' & Hh).
      assert (es' = es) as -> by congruence. rewrite (history_length _ _ Hh).
      do 3 f_equal; lia.
    + rewrite filter_cons_False, filter_nil, app_nil_r by (simpl; congruence).
      by rewrite lookup_insert_ne.
Qed.

Lemma transition_refines m db expected target a :
  mem_inv m → refines m db →
  LoopCheckpoint_post_init (next_checkpoint expected target a) = Ok tt →
  row_fits (next_checkpoint expected target a) = true →
  refines (InMemory.transition m expected target a).1 (SQLite.transition db expected target a).1 ∧
  (SQLite.transition db expected target a).2 = (InMemory.transition m expected target a).2.
Proof.
  intros Hm Hr Hpost Hfit. unfold InMemory.transition, SQLite.transition, run_row_of. cbv zeta.
  destruct (checkpoints m !! run_id expected) as [c|] eqn:Hc.
  2:{ by rewrite (refines_unknown _ _ _ Hr Hc). }
  destruct (refines_current _ _ _ _ Hm Hr Hc) as (r & Er & Ec & Ev & Hrow & _).
  rewrite Er. cbv iota beta. rewrite Ec. cbv iota beta. rewrite Ev. cbv iota beta.
  case_bool_decide as Hne; cbn [negb]; [|by case_bool_decide; split].
  revert Hrow. subst c. intros Hrow.
  destruct (transition_allowed (state expected) target) eqn:Et; cbn [negb]; [|by split].
  assert (bool_decide (state expected ∈ TERMINAL_STATES) = false) as Hnt.
  { apply bool_decide_eq_false. intros Hin%(terminal_no_transition _ target). congruence. }
  rewrite Hnt, andb_false_r.
  destruct (startswith _ _) eqn:E1; cbn [negb]; [|by split].
  destruct (opt_ok _ _) eqn:E2; cbn [negb]; [|by split].
  destruct (usage_reversed _ _) eqn:E3; [by split|].
  destruct (mi_run _ Hm _ _ Hc) as (_ & es & He & Hh).
  rewrite (mk_checkpoint_ok _ Hpost), He, (write_ok m) by done. cbv iota beta. cbn [fst snd].
  assert (refines (recorded m expected es target a) (written db r expected target a)) as Hr'
    by (by apply written_refines).
  assert (mem_inv (recorded m expected es target a)) as Hm'
    by (by apply recorded_inv).
  split; [exact Hr'|]. rewrite (load_refines _ _ _ Hm' Hr'). unfold InMemory.load.
  cbn [recorded checkpoints]. by rewrite lookup_insert_eq.
Qed.
End Refinement.
