(* ===== verification/LoopEngine.v ===== *)
(** * The bounded loop engine, src/eco_loops/engine.py

    [BoundedLoopEngine] over any journal.  The world a run acts on holds the
    journal, and counts the readings of the clock and the calls of the executor
    and of the gate: the clock is an arbitrary function of the reading's index,
    the executor and the gate arbitrary functions of the call's index and its
    arguments.  While one of them runs, other parties may request cancellation
    of any run and set the kill switch; each call says which of these happened.

    A method is a state-passing function with a result.  The [while] loop of
    [run] takes fuel; [None] is running out of it. *)

From S2P Require Import Prelude Json Digest PyTime LoopContracts LoopJournal.

(** What other parties do during a call. *)
Inductive control : Type :=
| CancelRun (run : string)
| KillSwitch (enabled : bool).

(** How a call of the executor or of the gate ends. *)
Inductive called (A : Type) : Type :=
| Returned (a : A)           (* [A(...)] constructed and returned *)
| ReturnedOther              (* a value of another class *)
| RaisedContractError        (* LoopContractError *)
| RaisedOther.               (* any other Exception *)
Arguments Returned {A} a.
Arguments ReturnedOther {A}.
Arguments RaisedContractError {A}.
Arguments RaisedOther {A}.

(** Constructing an invalid record raises [LoopContractError] in the callable. *)
Definition constructed {A} (post_init : A → result unit) (x : called A) : called A :=
  match x with
  | Returned a => match post_init a with Ok _ => Returned a | Err _ => RaisedContractError end
  | _ => x
  end.

Section Engine.
Context `{Crypto} {J : Type} `{LoopJournal J}.

Record world : Type := {
  w_journal : J;
  w_ticks : nat;        (* clock readings so far *)
  w_executed : nat;     (* executor calls so far *)
  w_gated : nat;        (* gate calls so far *)
}.

Definition M (A : Type) : Type := world → world * result A.
Definition ret {A} (a : A) : M A := fun w => (w, Ok a).
Definition fail {A} (e : py_error) : M A := fun w => (w, Err e).
Definition bind {A B} (m : M A) (k : A → M B) : M B :=
  fun w => match m w with
           | (w', Ok a) => k a w'
           | (w', Err e) => (w', Err e)
           end.
Notation "'do!' x := m 'in' k" := (bind m (fun x => k))
  (at level 10, x name, m at level 100, k at level 200).

(** A journal operation. *)
Definition on_journal {A} (f : J → J * result A) : M A :=
  fun w => let '(j, r) := f (w_journal w) in
           ({| w_journal := j; w_ticks := w_ticks w; w_executed := w_executed w;
               w_gated := w_gated w |}, r).
Definition reading {A} (f : J → result A) : M A := on_journal (fun j => (j, f j)).

Definition act (j : J) (c : control) : J :=
  match c with
  | CancelRun run => (request_cancel j run).1
  | KillSwitch enabled => set_kill_switch j enabled
  end.

Context (definition : LoopDefinition) (clock : nat → datetime).
Context (executor : nat → LoopCheckpoint → list control * called AttemptResult).
Context (gate : nat → LoopCheckpoint → AttemptResult → list control * called GateOutcome).

Definition call_executor (checkpoint : LoopCheckpoint) : M (called AttemptResult) :=
  fun w => let '(controls, r) := executor (w_executed w) checkpoint in
           ({| w_journal := foldl act (w_journal w) controls; w_ticks := w_ticks w;
               w_executed := S (w_executed w); w_gated := w_gated w |},
            Ok (constructed AttemptResult_post_init r)).
Definition call_gate (checkpoint : LoopCheckpoint) (attempt : AttemptResult)
  : M (called GateOutcome) :=
  fun w => let '(controls, r) := gate (w_gated w) checkpoint attempt in
           ({| w_journal := foldl act (w_journal w) controls; w_ticks := w_ticks w;
               w_executed := w_executed w; w_gated := S (w_gated w) |},
            Ok (constructed GateOutcome_post_init r)).

(** [_now] *)
Definition now : M datetime :=
  fun w => let value := clock (w_ticks w) in
           ({| w_journal := w_journal w; w_ticks := S (w_ticks w); w_executed := w_executed w;
               w_gated := w_gated w |},
            match utcoffset value with
            | None => Err (LoopEngineError "ECO_LOOP_CLOCK_INVALID")
            | Some _ => Ok value
            end).
Definition past_deadline (value : datetime) : bool :=
  instant value >=? instant (deadline (budget definition)).

Definition move (checkpoint : LoopCheckpoint) (target : string) (a : TransitionArgs)
  : M LoopCheckpoint := on_journal (fun j => transition j checkpoint target a).

(** [_terminal] *)
Definition terminal (checkpoint : LoopCheckpoint) (target reason : string) : M LoopCheckpoint :=
  move checkpoint target (just reason).

(** [_stop_or_budget] *)
Definition stop_or_budget (checkpoint : LoopCheckpoint) : M (option LoopCheckpoint) :=
  let b := budget definition in
  let u := usage checkpoint in
  let exhausted reason := do! c := terminal checkpoint "exhausted" reason in ret (Some c) in
  do! stop := reading (fun j => stop_reason j (run_id checkpoint)) in
  match stop with
  | Some reason => do! c := terminal checkpoint "cancelled" reason in ret (Some c)
  | None =>
      do! t := now in
      if past_deadline t then exhausted "ECO_LOOP_DEADLINE_EXHAUSTED"
      else if attempts u >=? max_attempts b then exhausted "ECO_LOOP_ATTEMPTS_EXHAUSTED"
      else if iterations u >=? max_iterations b then exhausted "ECO_LOOP_ITERATIONS_EXHAUSTED"
      else if tokens u + reserve_tokens_per_attempt b >? max_tokens b
      then exhausted "ECO_LOOP_TOKENS_EXHAUSTED"
      else if cost_microusd u + reserve_cost_microusd_per_attempt b >? max_cost_microusd b
      then exhausted "ECO_LOOP_COST_EXHAUSTED"
      else if storage_bytes u + reserve_storage_bytes_per_attempt b >? max_storage_bytes b
      then exhausted "ECO_LOOP_STORAGE_EXHAUSTED"
      else ret None
  end.

Definition start (run : string) : M LoopCheckpoint :=
  do! checkpoint := on_journal (fun j => create j run definition) in
  if state checkpoint == "new" then
    do! stop := reading (fun j => stop_reason j run) in
    match stop with
    | Some reason => terminal checkpoint "cancelled" reason
    | None => move checkpoint "ready" (just "ECO_LOOP_READY")
    end
  else ret checkpoint.

Definition recover (run : string) : M LoopCheckpoint :=
  do! checkpoint := reading (fun j => load j run) in
  if definition_digest checkpoint != definition_digest_of definition
  then fail (LoopEngineError "ECO_LOOP_DEFINITION_DRIFT")
  else if state checkpoint == "new" then start run
  else if state checkpoint in? (["ready"; "retry-wait"] ++ TERMINAL_STATES) then ret checkpoint
  else terminal checkpoint "failed" "ECO_LOOP_RECOVERY_AMBIGUOUS".

(** The reserved usage of one more attempt. *)
Definition reserve (u : LoopUsage) : LoopUsage :=
  let b := budget definition in
  {| attempts := attempts u + 1; iterations := iterations u;
     tokens := tokens u + reserve_tokens_per_attempt b;
     cost_microusd := cost_microusd u + reserve_cost_microusd_per_attempt b;
     storage_bytes := storage_bytes u + reserve_storage_bytes_per_attempt b |}.
Definition one_more_iteration (u : LoopUsage) : LoopUsage :=
  {| attempts := attempts u; iterations := iterations u + 1; tokens := tokens u;
     cost_microusd := cost_microusd u; storage_bytes := storage_bytes u |}.

(** Leaving [run] with a checkpoint, or going round the loop with one. *)
Definition leave (m : M LoopCheckpoint) : M (LoopCheckpoint + LoopCheckpoint) :=
  do! c := m in ret (inl c).
Definition continue (m : M LoopCheckpoint) : M (LoopCheckpoint + LoopCheckpoint) :=
  do! c := m in ret (inr c).

(** The part of the loop body after the gate returned [outcome]. *)
Definition decide_gate (checkpoint : LoopCheckpoint) (g : GateOutcome)
  : M (LoopCheckpoint + LoopCheckpoint) :=
  let stagnant :=
    if last_progress_digest checkpoint == Some (go_progress_digest g)
    then stagnant_iterations checkpoint + 1 else 0 in
  let with_gate reason :=
    {| t_usage := None; t_progress_digest := Some (go_progress_digest g);
       t_stagnant_iterations := Some stagnant; t_reason_code := reason;
       t_evidence_digest := Some (go_evidence_digest g) |} in
  if go_outcome g == "pass" then
    leave (move checkpoint "succeeded" (with_gate (go_reason_code g)))
  else if bool_decide (go_reason_code g ∉ allowed_reason_codes (retry definition)) then
    leave (move checkpoint "failed" (with_gate "ECO_LOOP_RETRY_DENIED"))
  else if stagnant >=? max_stagnant_iterations (retry definition) then
    leave (move checkpoint "exhausted" (with_gate "ECO_LOOP_NO_PROGRESS"))
  else continue (move checkpoint "retry-wait" (with_gate (go_reason_code g))).

(** The stop and deadline checks made after the executor and after the gate. *)
Definition interrupted (run : string) (checkpoint : LoopCheckpoint)
    (k : M (LoopCheckpoint + LoopCheckpoint)) : M (LoopCheckpoint + LoopCheckpoint) :=
  do! stop := reading (fun j => stop_reason j run) in
  match stop with
  | Some reason => leave (terminal checkpoint "cancelled" reason)
  | None =>
      do! t := now in
      if past_deadline t
      then leave (terminal checkpoint "exhausted" "ECO_LOOP_DEADLINE_EXHAUSTED")
      else k
  end.

(** The gate phase of an attempt that produced a candidate. *)
Definition gate_phase (run : string) (checkpoint : LoopCheckpoint) (attempt : AttemptResult)
  : M (LoopCheckpoint + LoopCheckpoint) :=
  do! usage' := (fun w => (w, mk_usage (one_more_iteration (usage checkpoint)))) in
  do! checkpoint := move checkpoint "gating"
    {| t_usage := Some usage'; t_progress_digest := None; t_stagnant_iterations := None;
       t_reason_code := "ECO_LOOP_GATE_STARTED";
       t_evidence_digest := Some (ar_evidence_digest attempt) |} in
  do! outcome := call_gate checkpoint attempt in
  match outcome with
  | RaisedContractError | ReturnedOther =>
      leave (terminal checkpoint "failed" "ECO_LOOP_GATE_INVALID")
  | RaisedOther => leave (terminal checkpoint "failed" "ECO_LOOP_GATE_FAILED")
  | Returned g => interrupted run checkpoint (decide_gate checkpoint g)
  end.

(** One round of the [while] loop. *)
Definition attempt_round (run : string) (checkpoint : LoopCheckpoint)
  : M (LoopCheckpoint + LoopCheckpoint) :=
  do! over := stop_or_budget checkpoint in
  match over with
  | Some c => ret (inl c)
  | None =>
      do! reserved := (fun w => (w, mk_usage (reserve (usage checkpoint)))) in
      do! checkpoint := move checkpoint "running"
        {| t_usage := Some reserved; t_progress_digest := None; t_stagnant_iterations := None;
           t_reason_code := "ECO_LOOP_ATTEMPT_RESERVED"; t_evidence_digest := None |} in
      do! outcome := call_executor checkpoint in
      match outcome with
      | RaisedContractError | ReturnedOther =>
          leave (terminal checkpoint "failed" "ECO_LOOP_OUTCOME_INVALID")
      | RaisedOther => leave (terminal checkpoint "failed" "ECO_LOOP_EXECUTOR_FAILED")
      | Returned attempt =>
          interrupted run checkpoint
            (if ar_outcome attempt == "retryable-error" then
               if bool_decide (ar_reason_code attempt ∉ allowed_reason_codes (retry definition))
               then leave (terminal checkpoint "failed" "ECO_LOOP_RETRY_DENIED")
               else continue (move checkpoint "retry-wait"
                      {| t_usage := None; t_progress_digest := None;
                         t_stagnant_iterations := None;
                         t_reason_code := ar_reason_code attempt;
                         t_evidence_digest := Some (ar_evidence_digest attempt) |})
             else if ar_outcome attempt == "fatal-error" then
               leave (terminal checkpoint "failed" (ar_reason_code attempt))
             else gate_phase run checkpoint attempt)
      end
  end.

Fixpoint run_loop (fuel : nat) (run : string) (checkpoint : LoopCheckpoint) (w : world)
  : option (world * result LoopCheckpoint) :=
  if state checkpoint in? TERMINAL_STATES then Some (w, Ok checkpoint)
  else if negb (state checkpoint in? ["ready"; "retry-wait"])
  then Some (w, Err (LoopEngineError "ECO_LOOP_RECOVERY_AMBIGUOUS"))
  else
    match fuel with
    | O => None
    | S fuel' =>
        match attempt_round run checkpoint w with
        | (w', Err e) => Some (w', Err e)
        | (w', Ok (inl c)) => Some (w', Ok c)
        | (w', Ok (inr c)) => run_loop fuel' run c w'
        end
    end.

(** [run]; [same_callable] is the test [executor is gate]. *)
Definition run (fuel : nat) (same_callable : bool) (run_id : string) (w : world)
  : option (world * result LoopCheckpoint) :=
  if negb (executable definition)
  then Some (w, Err (LoopEngineError "ECO_LOOP_PROFILE_NOT_EXECUTABLE"))
  else if negb (deterministic definition)
          || negb (side_effect_mode definition in? ["no-effect"; "report-only"])
  then Some (w, Err (LoopEngineError "ECO_LOOP_PROFILE_DENIED"))
  else if same_callable
  then Some (w, Err (LoopEngineError "ECO_LOOP_GATE_NOT_INDEPENDENT"))
  else
    match start run_id w with
    | (w', Err e) => Some (w', Err e)
    | (w', Ok checkpoint) => run_loop fuel run_id checkpoint w'
    end.
End Engine.
Arguments world J : clear implicits.
Arguments M J A : clear implicits.
