(* ===== verification/LoopProofs.v ===== *)
(** * What a loop journal promises to the engine

    [JournalLaws] is the contract the engine's theorems are proved against; both
    journals satisfy it. *)

From S2P Require Import Prelude Json Digest PyTime LoopContracts LoopJournal LoopRefinement LoopEngine.

Class JournalLaws (J : Type) `{Crypto} `{LoopJournal J} : Type := {
  journal_ok : J → Prop;
  (** the checkpoint of a run, and whether the journal has room for one *)
  current : J → string → option LoopCheckpoint;
  fits : LoopCheckpoint → bool;

  current_valid j run c : journal_ok j → current j run = Some c →
    run_id c = run ∧ LoopCheckpoint_post_init c = Ok tt ∧ usage_nonneg (usage c);
  create_known j run d c : journal_ok j → current j run = Some c →
    create j run d
    = (j, if definition_digest c != definition_digest_of d
          then Err (LoopEngineError "ECO_LOOP_DEFINITION_DRIFT") else Ok c);
  create_new j run d : journal_ok j → current j run = None →
    if is_slug run then
      ∃ j', create j run d = (j', Ok (initial_checkpoint run d)) ∧ journal_ok j' ∧
            ∀ run', current j' run' = if decide (run' = run) then Some (initial_checkpoint run d)
                                      else current j run'
    else ∃ e, create j run d = (j, Err e);
  load_current j run : journal_ok j →
    load j run = match current j run with
                 | Some c => Ok c
                 | None => Err (LoopEngineError "ECO_LOOP_RUN_UNKNOWN")
                 end;
  cancel_keeps j run : journal_ok j →
    journal_ok (request_cancel j run).1 ∧ ∀ run', current (request_cancel j run).1 run' = current j run';
  kill_keeps j b : journal_ok j →
    journal_ok (set_kill_switch j b) ∧ ∀ run', current (set_kill_switch j b) run' = current j run';
  stop_known j run c : journal_ok j → current j run = Some c →
    ∃ o, stop_reason j run = Ok o ∧ opt_ok is_code o = true;
  transition_records j c target a : journal_ok j → current j (run_id c) = Some c →
    recordable c target a →
    if fits (next_checkpoint c target a) then
      ∃ j', transition j c target a = (j', Ok (next_checkpoint c target a)) ∧ journal_ok j' ∧
            ∀ run', current j' run' = if decide (run' = run_id c)
                                      then Some (next_checkpoint c target a) else current j run'
    else ∃ e, transition j c target a = (j, Err e);
}.

Section Instances.
Context `{Crypto}.
Import InMemory SQLite.
#[local] Obligation Tactic := idtac.

Lemma mem_stop_code (m : journal) run :
  ∃ o, InMemory.stop_reason m run = Ok o ∧ opt_ok is_code o = true.
Proof. unfold InMemory.stop_reason. repeat case_match; eexists; by split. Qed.

Lemma mem_create_known m run d c :
  mem_inv m → checkpoints m !! run = Some c →
  InMemory.create m run d
  = (m, if definition_digest c != definition_digest_of d
        then Err (LoopEngineError "ECO_LOOP_DEFINITION_DRIFT") else Ok c).
Proof.
  intros Hm Hc. destruct (mi_run _ Hm _ _ Hc) as (Hid & es & _ & Hh).
  assert (is_slug run = true) as Hs.
  { apply history_post_init, post_init_ok in Hh as [Hs _]. by rewrite <- Hid. }
  unfold InMemory.create. rewrite (mk_checkpoint_ok _ (initial_post_init run d Hs)), Hc.
  by case_bool_decide.
Qed.

Lemma mk_initial_bad run d : is_slug run = false → ∃ e, mk_checkpoint (initial_checkpoint run d) = Err e.
Proof. intros Hs. unfold mk_checkpoint, LoopCheckpoint_post_init. simpl. rewrite Hs. by eexists. Qed.

Lemma mem_create_new m run d :
  checkpoints m !! run = None →
  if is_slug run then
    InMemory.create m run d
    = ({| checkpoints := <[run := initial_checkpoint run d]> (checkpoints m);
          event_lists := <[run := []]> (event_lists m);
          cancelled := cancelled m; kill_switch := kill_switch m |},
       Ok (initial_checkpoint run d))
  else ∃ e, InMemory.create m run d = (m, Err e).
Proof.
  intros Hc. unfold InMemory.create. destruct (is_slug run) eqn:Hs.
  - by rewrite (mk_checkpoint_ok _ (initial_post_init run d Hs)), Hc.
  - destruct (mk_initial_bad run d Hs) as [e ->]. by eexists.
Qed.

Lemma mem_valid m run c :
  mem_inv m → checkpoints m !! run = Some c →
  run_id c = run ∧ LoopCheckpoint_post_init c = Ok tt ∧ usage_nonneg (usage c).
Proof.
  intros Hm Hc. destruct (mi_run _ Hm _ _ Hc) as (Hid & es & _ & Hh).
  split_and!; [done|by eapply history_post_init|by eapply history_usage].
Qed.

#[export] Program Instance in_memory_laws : JournalLaws journal :=
  {| journal_ok := mem_inv;
     current m run := checkpoints m !! run;
     fits _ := true |}.
Next Obligation. intros. by eapply mem_valid. Qed.
Next Obligation. intros. by apply mem_create_known. Qed.
Next Obligation.
  intros m run d Hm Hc. pose proof (mem_create_new m run d Hc) as Hn.
  pose proof (create_inv m run d Hm) as Hi. simpl.
  destruct (is_slug run); [|done]. rewrite Hn in Hi. eexists. split; [exact Hn|]. split; [done|].
  intros run'. simpl. destruct (decide (run' = run)) as [->|Hne].
  - by rewrite lookup_insert_eq.
  - by rewrite lookup_insert_ne.
Qed.
Next Obligation. intros. simpl. unfold InMemory.load. by case_match. Qed.
Next Obligation.
  intros m run Hm. split; [by apply cancel_inv|]. intros run'. simpl.
  unfold InMemory.request_cancel. by case_match.
Qed.
Next Obligation. intros m b Hm. split; [by apply kill_inv|]. done. Qed.
Next Obligation. intros. apply mem_stop_code. Qed.
Next Obligation.
  intros m c target a Hm Hc Hr. destruct (mi_run _ Hm _ _ Hc) as (_ & es & He & _). simpl.
  eexists. split; [by apply (mem_transition_ok m c es)|]. split; [by apply recorded_inv|].
  intros run'. simpl. destruct (decide (run' = run_id c)) as [->|Hne].
  - by rewrite lookup_insert_eq.
  - by rewrite lookup_insert_ne.
Qed.

(** The durable journal: tables that refine some in-memory journal. *)
Definition db_ok (db : database) : Prop := ∃ m, mem_inv m ∧ refines m db.
Definition db_current (db : database) (run : string) : option LoopCheckpoint :=
  row_checkpoint run <$> loop_runs db !! run.

Lemma refines_db_current m db run : refines m db → db_current db run = checkpoints m !! run.
Proof.
  intros Hr. unfold db_current. pose proof (rf_runs _ _ Hr run) as Hrow.
  destruct (checkpoints m !! run), (loop_runs db !! run); try done. simpl. by destruct Hrow as [-> _].
Qed.

Lemma sqlite_overflow m db c target a :
  mem_inv m → refines m db → checkpoints m !! run_id c = Some c → recordable c target a →
  row_fits (next_checkpoint c target a) = false →
  SQLite.transition db c target a = (db, Err OverflowError).
Proof.
  intros Hm Hr Hc (H1 & H2 & H3 & H4 & H5) Hf.
  destruct (refines_current _ _ _ _ Hm Hr Hc) as (r & Er & Ec & Ev & _).
  unfold SQLite.transition, run_row_of. cbv zeta. rewrite Er. cbv iota beta. rewrite Ec.
  cbv iota beta. rewrite Ev. cbv iota beta.
  rewrite (bool_decide_true (c = c)), H1, H2, H3, H4 by done. cbn [negb].
  unfold write_transition. by rewrite Hf.
Qed.

#[export] Program Instance sqlite_laws : JournalLaws database :=
  {| journal_ok := db_ok; current := db_current; fits := row_fits |}.
Next Obligation.
  intros db run c (m & Hm & Hr). rewrite (refines_db_current m) by done. by apply (mem_valid m).
Qed.
Next Obligation.
  intros db run d c (m & Hm & Hr). rewrite (refines_db_current m) by done. intros Hc. simpl.
  destruct (refines_current _ _ _ _ Hm Hr Hc) as (r & Er & Ec & Ev & Hrow & _).
  destruct (mem_valid _ _ _ Hm Hc) as (<- & Hp & _). apply post_init_ok in Hp as [Hs _].
  unfold SQLite.create. rewrite (mk_checkpoint_ok _ (initial_post_init _ d Hs)), Er. cbv iota beta.
  rewrite Ec. cbv iota beta. rewrite Ev. by case_bool_decide.
Qed.
Next Obligation.
  intros db run d (m & Hm & Hr). rewrite (refines_db_current m) by done. intros Hc. simpl.
  pose proof (mem_create_new m run d Hc) as Hn. destruct (create_refines m db run d Hm Hr) as [Hr' E].
  pose proof (create_inv m run d Hm) as Hi. destruct (is_slug run) eqn:Hs.
  - rewrite Hn in Hr', E, Hi. destruct (SQLite.create db run d) as [db' res]. simpl in E. subst res.
    exists db'. split; [done|]. split; [by eexists|]. intros run'.
    rewrite (refines_db_current _ _ _ Hr'), (refines_db_current _ _ _ Hr). simpl.
    destruct (decide (run' = run)) as [->|Hne]; [by rewrite lookup_insert_eq|by rewrite lookup_insert_ne].
  - unfold SQLite.create. destruct (mk_initial_bad run d Hs) as [e ->]. by eexists.
Qed.
Next Obligation.
  intros db run (m & Hm & Hr). rewrite (refines_db_current m) by done. simpl.
  by rewrite (load_refines m).
Qed.
Next Obligation.
  intros db run (m & Hm & Hr). destruct (cancel_refines m db run Hr) as [Hr' _]. split.
  - exists (InMemory.request_cancel m run).1. split; [by apply cancel_inv|done].
  - intros run'. simpl. rewrite (refines_db_current _ _ _ Hr'), (refines_db_current _ _ _ Hr).
    unfold InMemory.request_cancel. by case_match.
Qed.
Next Obligation.
  intros db b (m & Hm & Hr). split.
  - exists (InMemory.set_kill_switch m b). split; [by apply kill_inv|by apply kill_refines].
  - done.
Qed.
Next Obligation.
  intros db run c (m & Hm & Hr). rewrite (refines_db_current m) by done. intros Hc. simpl.
  rewrite (stop_refines m) by (done || by rewrite Hc). apply mem_stop_code.
Qed.
Next Obligation.
  intros db c target a (m & Hm & Hr). rewrite (refines_db_current m) by done. intros Hc Hrec. simpl.
  destruct (row_fits _) eqn:Hf; [|eexists; by eapply sqlite_overflow].
  destruct (transition_refines m db c target a Hm Hr) as [Hr' E]; [apply Hrec|done|].
  destruct (mi_run _ Hm _ _ Hc) as (_ & es & He & _).
  rewrite (mem_transition_ok m c es) in Hr', E by done.
  pose proof (recorded_inv m c es target a Hm Hc He Hrec) as Hm'.
  destruct (SQLite.transition db c target a) as [db' res]. simpl in E, Hr'. subst res.
  exists db'. split; [done|]. split; [by eexists|]. intros run'.
  rewrite (refines_db_current _ _ _ Hr'), (refines_db_current _ _ _ Hr). simpl.
  destruct (decide (run' = run_id c)) as [->|Hne]; [by rewrite lookup_insert_eq|by rewrite lookup_insert_ne].
Qed.
End Instances.

(** * Reasoning about the loop engine

    Weakest preconditions of the engine's methods over any journal that keeps
    [JournalLaws], and the loop's invariant: the journal's checkpoint of the run
    is within budget, and pays for every call of the executor. *)

Lemma is_code_prefix s : is_code s = true → startswith s "ECO_" = true.
Proof. unfold is_code. intros Hs. repeat (case_match; try discriminate Hs); vm_compute; by destruct s3. Qed.

Section Wp.
Context `{JournalLaws J}.

Lemma next_post_init c target a :
  LoopCheckpoint_post_init c = Ok tt → target ∈ LOOP_STATES → is_code (t_reason_code a) = true →
  opt_ok is_digest (t_progress_digest a) = true → 0 ≤ default 0 (t_stagnant_iterations a) →
  LoopCheckpoint_post_init (next_checkpoint c target a) = Ok tt.
Proof.
  intros (P1 & P2 & _ & P4 & P5 & P6 & _)%post_init_ok Ht Hc Hp Hs.
  unfold LoopCheckpoint_post_init, non_negative, next_checkpoint. cbn -[is_slug is_digest is_code].
  rewrite P1, P2, (bool_decide_true (target ∈ LOOP_STATES)) by done. cbn [negb].
  rewrite (proj2 (Z.ltb_ge (sequence c + 1) 0)) by lia.
  assert (0 ≤ next_stagnant c a) as Hn.
  { unfold next_stagnant. by destruct (t_stagnant_iterations a). }
  rewrite (proj2 (Z.ltb_ge _ 0) Hn).
  assert (opt_ok is_digest (next_progress c a) = true) as ->.
  { unfold next_progress. by destruct (t_progress_digest a). }
  assert (opt_ok is_code (if target in? TERMINAL_STATES then Some (t_reason_code a) else None)
          = true) as -> by (by case_bool_decide).
  by rewrite semantic_digest_is_digest.
Qed.

Lemma recordable_intro c target a :
  LoopCheckpoint_post_init c = Ok tt → transition_allowed (state c) target = true →
  is_code (t_reason_code a) = true → opt_ok is_digest (t_evidence_digest a) = true →
  opt_ok is_digest (t_progress_digest a) = true → 0 ≤ default 0 (t_stagnant_iterations a) →
  usage_reversed (usage c) (next_usage c a) = false → recordable c target a.
Proof.
  intros Hc Ht Hr He Hp Hs Hu. split_and!; try done; [by apply is_code_prefix|].
  apply next_post_init; try done. by eapply transition_target.
Qed.

Lemma usage_forward u v :
  attempts u ≤ attempts v → iterations u ≤ iterations v → tokens u ≤ tokens v →
  cost_microusd u ≤ cost_microusd v → storage_bytes u ≤ storage_bytes v →
  usage_reversed u v = false.
Proof.
  rewrite <- !Z.ltb_ge. unfold usage_reversed. by intros -> -> -> -> ->.
Qed.
Lemma usage_same u : usage_reversed u u = false.
Proof. by apply usage_forward. Qed.

(** ** Weakest preconditions *)

Definition wp {A} (m : M J A) (Q : world J → result A → Prop) (w : world J) : Prop :=
  Q (m w).1 (m w).2.

Lemma wp_mono {A} (m : M J A) (Q Q' : world J → result A → Prop) w :
  wp m Q w → (∀ w' r, Q w' r → Q' w' r) → wp m Q' w.
Proof. unfold wp. auto. Qed.

Lemma wp_bind {A B} (m : M J A) (k : A → M J B) (Q : world J → result B → Prop) w :
  wp m (fun w' r => match r with Ok a => wp (k a) Q w' | Err e => Q w' (Err e) end) w →
  wp (bind m k) Q w.
Proof. unfold wp, bind. destruct (m w) as [w' [a|e]]; done. Qed.

Lemma wp_ret {A} (a : A) (Q : world J → result A → Prop) w : Q w (Ok a) → wp (ret a) Q w.
Proof. done. Qed.

(** The world with [run]'s checkpoint [c] in the journal. *)
Definition at_checkpoint (run : string) (w : world J) (c : LoopCheckpoint) : Prop :=
  journal_ok (w_journal w) ∧ current (w_journal w) run = Some c.

Lemma at_checkpoint_valid run w c :
  at_checkpoint run w c →
  run_id c = run ∧ LoopCheckpoint_post_init c = Ok tt ∧ usage_nonneg (usage c).
Proof. intros [Hj Hc]. by eapply current_valid. Qed.

Lemma wp_move run w c target a (Q : world J → result LoopCheckpoint → Prop) :
  at_checkpoint run w c → recordable c target a →
  (∀ w', at_checkpoint run w' (next_checkpoint c target a) → w_executed w' = w_executed w →
         Q w' (Ok (next_checkpoint c target a))) →
  (∀ e, Q w (Err e)) →
  wp (move c target a) Q w.
Proof.
  intros Hat Hr Hok Herr. destruct (at_checkpoint_valid _ _ _ Hat) as (Hid & _ & _).
  destruct Hat as [Hj Hc]. unfold wp, move, on_journal.
  rewrite <- Hid in Hc. pose proof (transition_records _ c target a Hj Hc Hr) as Ht.
  destruct (fits _).
  - destruct Ht as (j' & -> & Hj' & Hcur). apply Hok; [|done]. split; [done|].
    simpl. rewrite Hcur. by rewrite decide_True.
  - destruct Ht as [e ->]. simpl. destruct w. apply Herr.
Qed.

Lemma wp_stop run w c (Q : world J → result (option string) → Prop) :
  at_checkpoint run w c → (∀ o, opt_ok is_code o = true → Q w (Ok o)) →
  wp (reading (fun j => stop_reason j run)) Q w.
Proof.
  intros [Hj Hc] HQ. unfold wp, reading, on_journal. simpl.
  destruct (stop_known _ _ _ Hj Hc) as (o & -> & Ho). destruct w. by apply HQ.
Qed.

Lemma act_keeps run j x c :
  journal_ok j → current j run = Some c →
  journal_ok (act j x) ∧ current (act j x) run = Some c.
Proof.
  intros Hj Hc. destruct x as [r|b]; simpl.
  - destruct (cancel_keeps j r Hj) as [? E]. by rewrite E.
  - destruct (kill_keeps j b Hj) as [? E]. by rewrite E.
Qed.
Lemma acts_keep run l j c :
  journal_ok j → current j run = Some c →
  journal_ok (foldl act j l) ∧ current (foldl act j l) run = Some c.
Proof.
  revert j. induction l as [|x l IH]; intros j Hj Hc; [done|]. simpl.
  destruct (act_keeps run j x c Hj Hc). by apply IH.
Qed.

Context (definition : LoopDefinition) (clock : nat → datetime).
Context (executor : nat → LoopCheckpoint → list control * called AttemptResult).
Context (gate : nat → LoopCheckpoint → AttemptResult → list control * called GateOutcome).

Lemma wp_now run w c (Q : world J → result datetime → Prop) :
  at_checkpoint run w c →
  (∀ w' r, at_checkpoint run w' c → w_executed w' = w_executed w → Q w' r) →
  wp (now clock) Q w.
Proof. intros Hat HQ. unfold wp, now. by apply HQ. Qed.

Lemma wp_executor run w c (Q : world J → result (called AttemptResult) → Prop) :
  at_checkpoint run w c →
  (∀ w' x, at_checkpoint run w' c → w_executed w' = S (w_executed w) →
     (∀ a, x = Returned a → AttemptResult_post_init a = Ok tt ∧
           (executor (w_executed w) c).2 = Returned a) → Q w' (Ok x)) →
  wp (call_executor executor c) Q w.
Proof.
  intros [Hj Hc] HQ. unfold wp, call_executor. destruct (executor (w_executed w) c) as [l x] eqn:E.
  simpl. apply HQ; [exact (acts_keep run l _ c Hj Hc)|done|].
  intros a Ha. destruct x as [a'| | |]; simpl in Ha; try done.
  destruct (AttemptResult_post_init a') as [[]|] eqn:Ep; [|done]. by injection Ha as ->.
Qed.

Lemma wp_gate run w c at' (Q : world J → result (called GateOutcome) → Prop) :
  at_checkpoint run w c →
  (∀ w' x, at_checkpoint run w' c → w_executed w' = w_executed w →
     (∀ g, x = Returned g → GateOutcome_post_init g = Ok tt ∧
           (gate (w_gated w) c at').2 = Returned g) → Q w' (Ok x)) →
  wp (call_gate gate c at') Q w.
Proof.
  intros [Hj Hc] HQ. unfold wp, call_gate. destruct (gate (w_gated w) c at') as [l x] eqn:E.
  simpl. apply HQ; [exact (acts_keep run l _ c Hj Hc)|done|].
  intros g Hg. destruct x as [g'| | |]; simpl in Hg; try done.
  destruct (GateOutcome_post_init g') as [[]|] eqn:Ep; [|done]. by injection Hg as ->.
Qed.
End Wp.

Definition within (b : LoopBudget) (u : LoopUsage) : Prop :=
  attempts u ≤ max_attempts b ∧ iterations u ≤ max_iterations b ∧ tokens u ≤ max_tokens b ∧
  cost_microusd u ≤ max_cost_microusd b ∧ storage_bytes u ≤ max_storage_bytes b.

Lemma budget_post_init_ok b :
  LoopBudget_post_init b = Ok tt →
  1 ≤ max_attempts b ∧ 1 ≤ max_iterations b ∧
  0 ≤ reserve_tokens_per_attempt b ≤ max_tokens b ∧
  0 ≤ reserve_cost_microusd_per_attempt b ≤ max_cost_microusd b ∧
  0 ≤ reserve_storage_bytes_per_attempt b ≤ max_storage_bytes b.
Proof.
  unfold LoopBudget_post_init. intros Hb. run Hb. breflect.
  repeat match goal with
  | E : positive _ = Ok _ |- _ => apply positive_ok in E
  | E : non_negative _ = Ok _ |- _ => apply non_negative_ok in E
  end. lia.
Qed.

Section Bounded.
Context `{HL : JournalLaws J}.
Context (definition : LoopDefinition) (clock : nat → datetime).
Context (executor : nat → LoopCheckpoint → list control * called AttemptResult).
Context (gate : nat → LoopCheckpoint → AttemptResult → list control * called GateOutcome).
Context (Hbudget : LoopBudget_post_init (budget definition) = Ok tt).
Context (run_name : string).

(** The loop invariant, relative to [n0] executor calls and [a0] attempts when
    the loop was entered; [k] attempts are paid for and not yet made. *)
Definition good (n0 a0 k : Z) (w : world J) (c : LoopCheckpoint) : Prop :=
  at_checkpoint run_name w c ∧ within (budget definition) (usage c) ∧
  Z.of_nat (w_executed w) - n0 + k ≤ attempts (usage c) - a0.

(** A success that the gate decided, on a candidate the executor produced. *)
Definition decided_by_gate (c : LoopCheckpoint) : Prop :=
  ∃ i ci a j cj g,
    (executor i ci).2 = Returned a ∧ ar_outcome a = "candidate" ∧
    (gate j cj a).2 = Returned g ∧ go_outcome g = "pass" ∧
    run_id ci = run_name ∧ run_id cj = run_name ∧ state cj = "gating" ∧
    terminal_reason c = Some (go_reason_code g) ∧
    last_progress_digest c = Some (go_progress_digest g).

Definition left_with (c : LoopCheckpoint) : Prop :=
  state c ∈ TERMINAL_STATES ∧ (state c = "succeeded" → decided_by_gate c).

Definition round_post (n0 a0 a : Z) (w : world J) (r : result (LoopCheckpoint + LoopCheckpoint))
  : Prop :=
  ∃ c, good n0 a0 0 w c ∧
    match r with
    | Ok (inl c') => c' = c ∧ left_with c
    | Ok (inr c') => c' = c ∧ state c = "retry-wait" ∧ a + 1 ≤ attempts (usage c)
    | Err _ => True
    end.

Lemma good_weaken n0 a0 w c : good n0 a0 1 w c → good n0 a0 0 w c.
Proof. intros (? & ? & ?). split_and!; [done|done|lia]. Qed.

Lemma good_ext n0 a0 k w w' c :
  good n0 a0 k w c → at_checkpoint run_name w' c → w_executed w' = w_executed w →
  good n0 a0 k w' c.
Proof. intros (_ & ? & ?) ? E. unfold good. by rewrite E. Qed.

(** Moving without new usage. *)
Lemma wp_same_usage n0 a0 w c target a (Q : world J → result LoopCheckpoint → Prop) :
  good n0 a0 0 w c → recordable c target a → t_usage a = None →
  (∀ w', good n0 a0 0 w' (next_checkpoint c target a) → Q w' (Ok (next_checkpoint c target a))) →
  (∀ e, Q w (Err e)) → wp (move c target a) Q w.
Proof.
  intros (Hat & Hw & Hp) Hr Hu Hok Herr.
  apply (wp_move run_name); [done|done| |done]. intros w' Hat' E. apply Hok.
  unfold good. cbn [next_checkpoint usage]. unfold next_usage. rewrite Hu, E. done.
Qed.

Lemma wp_leave n0 a0 a1 w c target a :
  good n0 a0 0 w c → recordable c target a → t_usage a = None →
  left_with (next_checkpoint c target a) →
  wp (leave (move c target a)) (round_post n0 a0 a1) w.
Proof.
  intros Hg Hr Hu Hl. apply wp_bind, (wp_same_usage n0 a0); [done..| |].
  - intros w' Hg'. apply wp_ret. eexists. split; [done|]. by split.
  - intros e. exists c. by split.
Qed.

Lemma wp_continue n0 a0 a1 w c a :
  good n0 a0 0 w c → recordable c "retry-wait" a → t_usage a = None →
  a1 + 1 ≤ attempts (usage c) →
  wp (continue (move c "retry-wait" a)) (round_post n0 a0 a1) w.
Proof.
  intros Hg Hr Hu Ha. apply wp_bind, (wp_same_usage n0 a0); [done..| |].
  - intros w' Hg'. apply wp_ret. eexists. split; [done|]. split_and!; [done|done|].
    cbn [next_checkpoint usage]. unfold next_usage. by rewrite Hu.
  - intros e. exists c. by split.
Qed.

(** Ending a run from outside the gate. *)
Lemma recordable_just n0 a0 k w c target reason :
  good n0 a0 k w c → transition_allowed (state c) target = true → is_code reason = true →
  recordable c target (just reason).
Proof.
  intros (Hat & _ & _) Ht Hr. apply at_checkpoint_valid in Hat as (_ & Hv & _).
  apply recordable_intro; try done. apply usage_same.
Qed.

Lemma wp_terminal n0 a0 a1 w c target reason :
  good n0 a0 0 w c → transition_allowed (state c) target = true →
  target ∈ ["failed"; "cancelled"; "exhausted"] → is_code reason = true →
  wp (leave (terminal c target reason)) (round_post n0 a0 a1) w.
Proof.
  intros Hg Ht Hin Hr. apply wp_leave; [done|by eapply recordable_just|done|].
  split; cbn [next_checkpoint state].
  - repeat (apply elem_of_cons in Hin as [->|Hin]; [by apply (bool_decide_eq_true_1 _)|]).
    by apply elem_of_nil in Hin.
  - intros ->. by apply (bool_decide_eq_true_2 _) in Hin.
Qed.

(** ** The methods *)

Definition startable (c : LoopCheckpoint) : Prop := state c ∈ ["ready"; "retry-wait"].

Lemma startable_moves c target :
  startable c → target ∈ ["running"; "cancelled"; "exhausted"] →
  transition_allowed (state c) target = true.
Proof.
  intros Hs Ht. unfold startable in Hs.
  repeat (apply elem_of_cons in Hs as [Hs|Hs];
    [rewrite Hs; repeat (apply elem_of_cons in Ht as [->|Ht]; [by vm_compute|]);
     by apply elem_of_nil in Ht|]).
  by apply elem_of_nil in Hs.
Qed.

(** Room in the budget for one more attempt. *)
Definition room (u : LoopUsage) : Prop :=
  let b := budget definition in
  attempts u < max_attempts b ∧ iterations u < max_iterations b ∧
  tokens u + reserve_tokens_per_attempt b ≤ max_tokens b ∧
  cost_microusd u + reserve_cost_microusd_per_attempt b ≤ max_cost_microusd b ∧
  storage_bytes u + reserve_storage_bytes_per_attempt b ≤ max_storage_bytes b.

Lemma wp_option_terminal n0 a0 w c target reason (Q : world J → result (option LoopCheckpoint) → Prop) :
  good n0 a0 0 w c → transition_allowed (state c) target = true →
  target ∈ ["failed"; "cancelled"; "exhausted"] → is_code reason = true →
  (∀ w' c', good n0 a0 0 w' c' → left_with c' → Q w' (Ok (Some c'))) →
  (∀ e, Q w (Err e)) →
  wp (bind (terminal c target reason) (fun c' => ret (Some c'))) Q w.
Proof.
  intros Hg Ht Hin Hr Hok Herr. pose proof (wp_terminal n0 a0 0 w c target reason Hg Ht Hin Hr) as Hw.
  unfold wp, leave, bind, terminal, ret in *.
  destruct (move c target (just reason) w) as [w' [c'|e]] eqn:E; simpl in *.
  - destruct Hw as (c2 & Hg2 & -> & Hl). by apply Hok.
  - assert (w' = w) as ->; [|done].
    unfold move, on_journal in E. destruct Hg as (Hat & _ & _).
    destruct (at_checkpoint_valid _ _ _ Hat) as (Hid & Hv & _). destruct Hat as [Hj Hc].
    rewrite <- Hid in Hc.
    assert (recordable c target (just reason)) as Hrec
      by (apply recordable_intro; try done; apply usage_same).
    pose proof (transition_records _ c target (just reason) Hj Hc Hrec) as Htr.
    destruct (fits _); [destruct Htr as (j' & Ej & _)|destruct Htr as [e' Ej]];
      rewrite Ej in E; [done|]. injection E as <- _. by destruct w.
Qed.

Lemma wp_stop_or_budget n0 a0 w c (Q : world J → result (option LoopCheckpoint) → Prop) :
  good n0 a0 0 w c → startable c →
  (∀ w' c', good n0 a0 0 w' c' → left_with c' → Q w' (Ok (Some c'))) →
  (∀ w', good n0 a0 0 w' c → room (usage c) → Q w' (Ok None)) →
  (∀ w' e, good n0 a0 0 w' c → Q w' (Err e)) →
  wp (stop_or_budget definition clock c) Q w.
Proof.
  intros Hg Hs Hsome Hnone Herr. pose proof Hg as (Hat & Hw & _).
  destruct (at_checkpoint_valid _ _ _ Hat) as (Hid & _ & _).
  assert (∀ t, t ∈ ["running"; "cancelled"; "exhausted"] → transition_allowed (state c) t = true)
    as Hal by (intros t; by apply startable_moves).
  unfold stop_or_budget. cbv zeta. rewrite Hid.
  apply wp_bind, (wp_stop _ _ c); [done|]. intros o Ho. destruct o as [reason|].
  { apply (wp_option_terminal n0 a0); try done; [by apply Hal; repeat constructor|
      by repeat constructor|by intros; apply Herr]. }
  apply wp_bind, (wp_now clock run_name _ c); [done|]. intros w' r Hat' He.
  assert (good n0 a0 0 w' c) as Hg' by (by eapply good_ext).
  destruct r as [t|e]; [|by apply Herr].
  assert (∀ reason, is_code reason = true →
    wp (bind (terminal c "exhausted" reason) (fun c' => ret (Some c'))) Q w') as Hex.
  { intros reason Hr. apply (wp_option_terminal n0 a0); try done;
      [by apply Hal; repeat constructor|by repeat constructor|by intros; apply Herr]. }
  repeat match goal with
  | |- wp (if ?b then bind _ _ else _) _ _ =>
      destruct b eqn:?; [by apply Hex; vm_compute|]
  end.
  apply wp_ret, Hnone; [done|]. breflect. unfold room. cbv zeta. lia.
Qed.

Lemma wp_interrupted n0 a0 a1 w c k :
  good n0 a0 0 w c → transition_allowed (state c) "cancelled" = true →
  transition_allowed (state c) "exhausted" = true →
  (∀ w', good n0 a0 0 w' c → wp k (round_post n0 a0 a1) w') →
  wp (interrupted definition clock run_name c k) (round_post n0 a0 a1) w.
Proof.
  intros Hg H1 H2 Hk. pose proof Hg as (Hat & _ & _). unfold interrupted.
  apply wp_bind, (wp_stop _ _ c); [done|]. intros o Ho. destruct o as [reason|].
  { by apply wp_terminal; [..|repeat constructor|]. }
  apply wp_bind, (wp_now clock run_name _ c); [done|]. intros w' r Hat' He.
  assert (good n0 a0 0 w' c) as Hg' by (by eapply good_ext).
  destruct r as [t|e]; [|exists c; by split].
  destruct (past_deadline definition t); [|by apply Hk].
  by apply wp_terminal; [..|repeat constructor|].
Qed.

Lemma gate_post_init_ok g :
  GateOutcome_post_init g = Ok tt →
  is_code (go_reason_code g) = true ∧ is_digest (go_progress_digest g) = true ∧
  is_digest (go_evidence_digest g) = true.
Proof. unfold GateOutcome_post_init. intros Hg. run Hg. by breflect. Qed.
Lemma attempt_post_init_ok a :
  AttemptResult_post_init a = Ok tt →
  ar_outcome a ∈ ["candidate"; "retryable-error"; "fatal-error"] ∧
  is_code (ar_reason_code a) = true ∧ is_digest (ar_evidence_digest a) = true.
Proof. unfold AttemptResult_post_init. intros Ha. run Ha. by breflect. Qed.

Lemma wp_decide_gate n0 a0 a1 w c g i ci a j :
  good n0 a0 0 w c → state c = "gating" → a1 + 1 ≤ attempts (usage c) →
  GateOutcome_post_init g = Ok tt → (gate j c a).2 = Returned g →
  (executor i ci).2 = Returned a → ar_outcome a = "candidate" → run_id ci = run_name →
  wp (decide_gate definition c g) (round_post n0 a0 a1) w.
Proof.
  intros Hg Hst Ha (Hr & Hp & He)%gate_post_init_ok Eg Ee Hcand Hci.
  pose proof Hg as (Hat & _ & _). destruct (at_checkpoint_valid _ _ _ Hat) as (Hid & Hv & _).
  unfold decide_gate. cbv zeta. set (stagnant := if _ == _ then _ else 0).
  assert (0 ≤ stagnant) as Hs.
  { unfold stagnant. apply post_init_ok in Hv as (_ & _ & _ & _ & ? & _). case_bool_decide; lia. }
  set (args reason := {| t_usage := None; t_progress_digest := Some (go_progress_digest g);
    t_stagnant_iterations := Some stagnant; t_reason_code := reason;
    t_evidence_digest := Some (go_evidence_digest g) |}).
  assert (∀ target reason, target ∈ ["succeeded"; "retry-wait"; "failed"; "exhausted"] →
    is_code reason = true → recordable c target (args reason)) as Hrec.
  { intros target reason Hin Hc. apply recordable_intro; try done; [|apply usage_same].
    rewrite Hst. repeat (apply elem_of_cons in Hin as [->|Hin]; [by vm_compute|]).
    by apply elem_of_nil in Hin. }
  case_bool_decide as Hpass.
  { apply wp_leave; [done|apply Hrec; [by repeat constructor|done]|done|].
    split; [by apply (bool_decide_eq_true_1 _)|]. intros _.
    exists i, ci, a, j, c, g. by split_and!. }
  case_bool_decide.
  { apply wp_leave; [done|apply Hrec; [by repeat constructor|by vm_compute]|done|].
    split; [by apply (bool_decide_eq_true_1 _)|done]. }
  destruct (stagnant >=? _).
  { apply wp_leave; [done|apply Hrec; [by repeat constructor|by vm_compute]|done|].
    split; [by apply (bool_decide_eq_true_1 _)|done]. }
  apply wp_continue; [done|apply Hrec; [by repeat constructor|done]|done|done].
Qed.

Lemma mk_usage_ok u : usage_nonneg u → mk_usage u = Ok u.
Proof. intros Hu. unfold mk_usage. by rewrite usage_post_init. Qed.

Lemma wp_gate_phase n0 a0 a1 w c a i ci :
  good n0 a0 0 w c → state c = "running" → a1 + 1 ≤ attempts (usage c) →
  iterations (usage c) < max_iterations (budget definition) →
  AttemptResult_post_init a = Ok tt → (executor i ci).2 = Returned a →
  ar_outcome a = "candidate" → run_id ci = run_name →
  wp (gate_phase definition clock gate run_name c a) (round_post n0 a0 a1) w.
Proof.
  intros Hg Hst Ha Hit (_ & Hr & He)%attempt_post_init_ok Ee Hcand Hci.
  pose proof Hg as (Hat & Hw & Hp). destruct (at_checkpoint_valid _ _ _ Hat) as (Hid & Hv & Hn).
  unfold gate_phase. apply wp_bind. unfold wp. cbn [fst snd]. rewrite mk_usage_ok.
  2:{ unfold usage_nonneg, one_more_iteration in *. simpl. lia. }
  apply wp_bind, (wp_move run_name); [done| | |].
  - apply recordable_intro; try done; [by rewrite Hst; vm_compute|].
    apply usage_forward; simpl; lia.
  - intros w' Hat' Hex. set (c' := next_checkpoint _ _ _) in *.
    assert (good n0 a0 0 w' c') as Hg'.
    { unfold good, within. rewrite Hex. unfold within in Hw. split; [done|]. simpl.
      unfold next_usage. simpl. split; [lia|lia]. }
    apply wp_bind, (wp_gate gate run_name); [done|]. intros w2 x Hat2 Hex2 Hx.
    assert (good n0 a0 0 w2 c') as Hg2 by (by eapply good_ext).
    destruct x as [g| | |].
    + destruct (Hx g eq_refl) as [Hgp Hgc].
      apply wp_interrupted; [done|by vm_compute|by vm_compute|]. intros w3 Hg3.
      by eapply (wp_decide_gate n0 a0 a1 w3 c' g i ci a).
    + by apply wp_terminal; [done|vm_compute|repeat constructor|vm_compute].
    + by apply wp_terminal; [done|vm_compute|repeat constructor|vm_compute].
    + by apply wp_terminal; [done|vm_compute|repeat constructor|vm_compute].
  - intros e. exists c. by split.
Qed.

Lemma wp_attempt_round n0 a0 w c :
  good n0 a0 0 w c → startable c →
  wp (attempt_round definition clock executor gate run_name c)
     (round_post n0 a0 (attempts (usage c))) w.
Proof.
  intros Hg Hs. unfold attempt_round.
  apply wp_bind, (wp_stop_or_budget n0 a0); [done|done| | |].
  { intros w' c' Hg' Hl. apply wp_ret. exists c'. by split. }
  2:{ intros w' e Hg'. exists c. by split. }
  clear w Hg. intros w Hg Hroom. pose proof Hg as (Hat & Hw & Hp).
  destruct (at_checkpoint_valid _ _ _ Hat) as (Hid & Hv & Hn).
  pose proof (budget_post_init_ok _ Hbudget) as Hb.
  apply wp_bind. unfold wp. cbn [fst snd]. rewrite mk_usage_ok.
  2:{ unfold usage_nonneg, reserve in *. simpl. lia. }
  apply wp_bind, (wp_move run_name); [done| | |intros e; exists c; by split].
  { apply recordable_intro; try done; [by apply startable_moves; [|repeat constructor]|].
    apply usage_forward; simpl; lia. }
  intros w' Hat' Hex. set (c' := next_checkpoint _ _ _) in *.
  assert (good n0 a0 1 w' c') as Hg'.
  { unfold good, within. rewrite Hex. unfold within, room in *. split; [done|]. simpl.
    unfold next_usage, reserve. simpl. split; [|lia]. lia. }
  assert (attempts (usage c) + 1 ≤ attempts (usage c')) as Ha by (simpl; unfold next_usage; simpl; lia).
  assert (iterations (usage c') < max_iterations (budget definition)) as Hit
    by (destruct Hroom as (_ & ? & _); done).
  apply wp_bind, (wp_executor executor run_name); [done|]. intros w2 x Hat2 Hex2 Hx.
  assert (good n0 a0 0 w2 c') as Hg2.
  { destruct Hg' as (_ & ? & ?). split_and!; [done|done|]. rewrite Hex2. lia. }
  destruct x as [a| | |].
  2-4: by apply wp_terminal; [done|vm_compute|repeat constructor|vm_compute].
  destruct (Hx a eq_refl) as [Hap Hac].
  apply wp_interrupted; [done|by vm_compute|by vm_compute|]. intros w3 Hg3.
  pose proof (attempt_post_init_ok _ Hap) as (Hout & Hcode & Hev).
  pose proof Hg3 as (Hat3 & _ & _). destruct (at_checkpoint_valid _ _ _ Hat3) as (Hid3 & Hv3 & _).
  case_bool_decide as Hretry.
  { case_bool_decide; [by apply wp_terminal; [done|vm_compute|repeat constructor|vm_compute]|].
    apply wp_continue; [done| |done|done].
    apply recordable_intro; try done. apply usage_same. }
  case_bool_decide as Hfatal.
  { apply wp_terminal; [done|by vm_compute|by repeat constructor|done]. }
  eapply (wp_gate_phase n0 a0 _ w3 c' a (w_executed w') c'); try done.
  repeat (apply elem_of_cons in Hout as [Hout|Hout]; [by try done|]). by apply elem_of_nil in Hout.
Qed.

(** The loop ends: an attempt that goes round uses up one of [max_attempts]. *)
Lemma run_loop_ends n0 a0 fuel w c :
  good n0 a0 0 w c →
  max_attempts (budget definition) - attempts (usage c) < Z.of_nat fuel →
  ∃ w' r, run_loop definition clock executor gate fuel run_name c w = Some (w', r) ∧
    ∃ c', good n0 a0 0 w' c' ∧
      match r with
      | Ok x => x = c' ∧ state c' ∈ TERMINAL_STATES ∧
                (state c' = "succeeded" → c' = c ∨ decided_by_gate c')
      | Err _ => True
      end.
Proof.
  revert w c. induction fuel as [|fuel IH]; intros w c Hg Hf; simpl.
  { destruct Hg as (_ & (Ha & _) & _). lia. }
  case_bool_decide as Hterm.
  { eexists _, _. split; [done|]. exists c. split_and!; [done|done|done|by left]. }
  case_bool_decide as Hstart; cbn [negb].
  2:{ eexists _, _. split; [done|]. exists c. by split. }
  pose proof (wp_attempt_round n0 a0 w c Hg Hstart) as Hround. unfold wp in Hround.
  destruct (attempt_round _ _ _ _ _ c w) as [w' [[c'|c']|e]]; simpl in Hround;
    destruct Hround as (c2 & Hg2 & Hr).
  - destruct Hr as (-> & Ht & Hs). eexists _, _. split; [done|]. exists c2. split_and!; try done.
    intros Hsu. right. by apply Hs.
  - destruct Hr as (-> & Hst & Ha). destruct (IH w' c2 Hg2) as (w3 & r & E & c3 & Hg3 & Hr3).
    { lia. }
    exists w3, r. split; [done|]. exists c3. split; [done|]. destruct r as [x|]; [|done].
    destruct Hr3 as (-> & Ht & Hs). split_and!; [done|done|]. intros Hsu.
    destruct (Hs Hsu) as [->|]; [|by right]. rewrite Hst in Hsu. done.
  - eexists _, _. split; [done|]. exists c2. by split.
Qed.

Lemma run_loop_fuel fuel fuel' c w x :
  run_loop definition clock executor gate fuel run_name c w = Some x → (fuel ≤ fuel')%nat →
  run_loop definition clock executor gate fuel' run_name c w = Some x.
Proof.
  revert fuel' c w. induction fuel as [|fuel IH]; intros [|fuel'] c w; simpl; try done.
  - intros Hx _. by repeat case_match.
  - lia.
  - intros Hx Hle. repeat case_match; try done. apply IH; [done|lia].
Qed.

(** [start] leaves the run's checkpoint in place: the one there was, or a new
    one moved to "ready" or "cancelled". *)
Definition start_post (n0 a0 : Z) (before : option LoopCheckpoint) (w : world J)
    (r : result LoopCheckpoint) : Prop :=
  journal_ok (w_journal w) ∧ Z.of_nat (w_executed w) = n0 ∧
  (∀ c, current (w_journal w) run_name = Some c → good n0 a0 0 w c) ∧
  match r with
  | Ok c => current (w_journal w) run_name = Some c ∧ (state c = "succeeded" → before = Some c)
  | Err _ => True
  end.

Lemma good_start_post n0 a0 before w c r :
  good n0 a0 0 w c → Z.of_nat (w_executed w) = n0 →
  match r with Ok x => x = c ∧ (state c = "succeeded" → before = Some c) | Err _ => True end →
  start_post n0 a0 before w r.
Proof.
  intros Hg He Hr. pose proof Hg as ([Hj Hc] & _ & _). split_and!; [done|done| |].
  - intros c2 Hc2. by assert (c2 = c) as -> by congruence.
  - destruct r as [x|]; [|done]. by destruct Hr as [-> ?].
Qed.

Lemma wp_start_new n0 a0 before w c :
  good n0 a0 0 w c → Z.of_nat (w_executed w) = n0 → state c = "new" →
  wp (bind (reading (fun j => stop_reason j run_name)) (fun stop =>
        match stop with
        | Some reason => terminal c "cancelled" reason
        | None => move c "ready" (just "ECO_LOOP_READY")
        end)) (start_post n0 a0 before) w.
Proof.
  intros Hg He Hst. pose proof Hg as (Hat & _ & _).
  apply wp_bind, (wp_stop _ _ c); [done|]. intros o Ho.
  assert (∀ target reason, target ∈ ["ready"; "cancelled"] → is_code reason = true →
    wp (move c target (just reason)) (start_post n0 a0 before) w) as Hmove.
  { intros target reason Hin Hr.
    assert (transition_allowed (state c) target = true ∧ target ≠ "succeeded") as [Htr Hns].
    { rewrite Hst. repeat (apply elem_of_cons in Hin as [->|Hin]; [by vm_compute|]).
      by apply elem_of_nil in Hin. }
    apply (wp_move run_name); [done|by eapply recordable_just| |].
    - intros w' Hat' Hex'. eapply good_start_post; [|congruence|by split].
      destruct Hg as (_ & Hw & Hp). split_and!; [done|done|]. by rewrite Hex'.
    - intros e. by eapply good_start_post. }
  destruct o as [reason|]; (apply Hmove; [by repeat constructor|done]).
Qed.

Lemma wp_start w :
  journal_ok (w_journal w) →
  (∀ c, current (w_journal w) run_name = Some c → within (budget definition) (usage c)) →
  let before := current (w_journal w) run_name in
  let a0 := match before with Some c => attempts (usage c) | None => 0 end in
  wp (start definition run_name) (start_post (Z.of_nat (w_executed w)) a0 before) w.
Proof.
  intros Hj Hwi before a0. pose proof (budget_post_init_ok _ Hbudget) as Hb.
  unfold start. apply wp_bind. unfold wp at 1, on_journal. unfold before in *.
  destruct (current (w_journal w) run_name) as [c|] eqn:Hc.
  - rewrite (create_known _ _ definition c Hj Hc). destruct w as [j tk ex gt]. simpl in *.
    assert (good (Z.of_nat ex) a0 0 {| w_journal := j; w_ticks := tk; w_executed := ex;
                                       w_gated := gt |} c) as Hg.
    { split_and!; [done|by apply Hwi|]. unfold a0. simpl. lia. }
    case_bool_decide as Hd; cbn [negb]; [|by eapply good_start_post].
    case_bool_decide as Hst; [by apply wp_start_new|]. apply wp_ret. by eapply good_start_post.
  - pose proof (create_new _ _ definition Hj Hc) as Hcr. destruct (is_slug run_name).
    + destruct Hcr as (j' & -> & Hj' & Hcur). cbn [fst snd]. simpl (state _ == _).
      apply wp_start_new; [|done|done]. split_and!.
      * split; [done|]. simpl. rewrite Hcur. by rewrite decide_True.
      * unfold within. simpl. lia.
      * simpl. unfold a0. lia.
    + destruct Hcr as [e ->]. cbn [fst snd]. split_and!; [done|done| |done]. simpl. congruence.
Qed.
End Bounded.
