(* ===== verification/LoopProps.v ===== *)
(** * Properties of bounded loops

    The engine's properties hold over any journal that keeps [JournalLaws]; the
    witnesses run it on the in-memory and on the durable journal. *)

From S2P Require Import Prelude Json Digest PyTime LoopContracts LoopJournal LoopRefinement LoopEngine LoopProofs.

(** ** Clients of a journal *)

Inductive journal_op : Type :=
| OpCreate (run : string) (d : LoopDefinition)
| OpLoad (run : string)
| OpEvents (run : string)
| OpCancel (run : string)
| OpKill (enabled : bool)
| OpStop (run : string)
| OpTransition (expected : LoopCheckpoint) (target : string) (a : TransitionArgs).

Inductive answer : Type :=
| ACheckpoint (r : result LoopCheckpoint)
| AEvents (r : result (list json))
| AUnit (r : result unit)
| AStop (r : result (option string)).

Definition perform {J} `{LoopJournal J} (j : J) (o : journal_op) : J * answer :=
  match o with
  | OpCreate run d => let x := create j run d in (x.1, ACheckpoint x.2)
  | OpLoad run => (j, ACheckpoint (load j run))
  | OpEvents run => (j, AEvents (events j run))
  | OpCancel run => let x := request_cancel j run in (x.1, AUnit x.2)
  | OpKill b => (set_kill_switch j b, AUnit (Ok tt))
  | OpStop run => (j, AStop (stop_reason j run))
  | OpTransition c target a => let x := transition j c target a in (x.1, ACheckpoint x.2)
  end.

Fixpoint performs {J} `{LoopJournal J} (j : J) (l : list journal_op) : J * list answer :=
  match l with
  | [] => (j, [])
  | o :: l' => let x := perform j o in let y := performs x.1 l' in (y.1, x.2 :: y.2)
  end.

(** Event lists as sequences of dicts: item order does not matter. *)
Definition normal (x : answer) : answer :=
  match x with AEvents (Ok es) => AEvents (Ok (map jnorm es)) | _ => x end.

Section Journals.
Context `{Crypto}.

(** Requests on which the two journals must agree: a transition whose target
    checkpoint is valid and fits the database's integer columns, a stop query
    of a known run, and any other request. *)
Definition safe (m : InMemory.journal) (o : journal_op) : bool :=
  match o with
  | OpStop run => bool_decide (is_Some (InMemory.checkpoints m !! run))
  | OpTransition c target a =>
      (LoopCheckpoint_post_init (next_checkpoint c target a) == Ok tt)
      && SQLite.row_fits (next_checkpoint c target a)
  | _ => true
  end.
Fixpoint all_safe (m : InMemory.journal) (l : list journal_op) : bool :=
  match l with
  | [] => true
  | o :: l' => safe m o && all_safe (perform m o).1 l'
  end.

Lemma perform_inv m o : mem_inv m → mem_inv (perform m o).1.
Proof.
  intros Hm. destruct o; simpl; try done;
    [by apply create_inv|by apply cancel_inv|by apply kill_inv|by apply transition_inv].
Qed.
Lemma performs_inv m l : mem_inv m → mem_inv (performs m l).1.
Proof.
  revert m. induction l as [|o l IH]; intros m Hm; [done|]. simpl. by apply IH, perform_inv.
Qed.

Lemma perform_refines m db o :
  mem_inv m → refines m db → safe m o = true →
  refines (perform m o).1 (perform db o).1 ∧ (perform db o).2 = normal (perform m o).2.
Proof.
  intros Hm Hr Hs. destruct o as [run d|run|run|run|b|run|c target a]; cbn [perform fst snd normal].
  - destruct (create_refines m db run d Hm Hr) as [? E]. split; [done|]. f_equal. exact E.
  - split; [done|]. f_equal. by apply load_refines.
  - split; [done|]. pose proof (events_refines m db run Hm Hr) as E. simpl in *. rewrite E.
    by destruct (InMemory.events m run).
  - destruct (cancel_refines m db run Hr) as [? E]. split; [done|]. f_equal. exact E.
  - split; [by apply kill_refines|done].
  - split; [done|]. f_equal. apply stop_refines; [done|]. simpl in Hs. by breflect.
  - simpl in Hs. breflect. destruct (transition_refines m db c target a) as [? E]; try done.
    split; [done|]. f_equal. exact E.
Qed.

Lemma recorded_forward m c0 es0 target a run c es :
  mem_inv m → InMemory.checkpoints m !! run_id c0 = Some c0 →
  InMemory.event_lists m !! run_id c0 = Some es0 → recordable c0 target a →
  InMemory.checkpoints m !! run = Some c → InMemory.event_lists m !! run = Some es →
  ∃ c1 es1, InMemory.checkpoints (recorded m c0 es0 target a) !! run = Some c1 ∧
    InMemory.event_lists (recorded m c0 es0 target a) !! run = Some es1 ∧
    es `prefix_of` es1 ∧ definition_digest c1 = definition_digest c ∧
    usage_reversed (usage c) (usage c1) = false ∧
    (state c ∈ TERMINAL_STATES → c1 = c ∧ es1 = es).
Proof.
  intros Hm Hc0 He0 (Hal & _ & _ & Hu & _) Hc He. simpl.
  destruct (decide (run = run_id c0)) as [->|Hne].
  - rewrite !lookup_insert_eq. assert (c = c0) as -> by congruence.
    assert (es = es0) as -> by congruence. eexists _, _. split_and!; try done.
    + by apply prefix_app_r.
    + intros Ht. by rewrite (terminal_no_transition _ target Ht) in Hal.
  - rewrite !lookup_insert_ne by done. exists c, es. split_and!; try done. apply usage_same.
Qed.

Lemma perform_forward m o run c es :
  mem_inv m → load m run = Ok c → events m run = Ok es →
  ∃ c1 es1, load (perform m o).1 run = Ok c1 ∧ events (perform m o).1 run = Ok es1 ∧
    es `prefix_of` es1 ∧ definition_digest c1 = definition_digest c ∧
    usage_reversed (usage c) (usage c1) = false ∧
    (state c ∈ TERMINAL_STATES → c1 = c ∧ es1 = es).
Proof.
  intros Hm Hc He.
  assert (∀ j, (∀ run, InMemory.load j run = InMemory.load m run) →
    (∀ run, InMemory.events j run = InMemory.events m run) →
    ∃ c1 es1, InMemory.load j run = Ok c1 ∧ InMemory.events j run = Ok es1 ∧
      es `prefix_of` es1 ∧ definition_digest c1 = definition_digest c ∧
      usage_reversed (usage c) (usage c1) = false ∧
      (state c ∈ TERMINAL_STATES → c1 = c ∧ es1 = es)) as Hsame.
  { intros j E1 E2. exists c, es. rewrite E1, E2. split_and!; try done. apply usage_same. }
  simpl in Hc, He. unfold InMemory.load, InMemory.events in Hc, He.
  destruct (InMemory.checkpoints m !! run) as [c'|] eqn:Ec; [|done]. injection Hc as ->.
  destruct (InMemory.event_lists m !! run) as [es'|] eqn:Ee; [|done]. injection He as ->.
  destruct o as [run' d| | |run'| | |c0 target a]; simpl; try (by apply Hsame).
  - unfold InMemory.create. destruct (mk_checkpoint _); [|by apply Hsame].
    destruct (InMemory.checkpoints m !! run') eqn:E'; [by case_match; apply Hsame|].
    assert (run' ≠ run) by congruence. exists c, es. simpl.
    unfold InMemory.load, InMemory.events. simpl. rewrite !lookup_insert_ne by done.
    rewrite Ec, Ee. split_and!; try done. apply usage_same.
  - unfold InMemory.request_cancel. case_match; by apply Hsame.
  - destruct (mem_transition_cases m c0 target a Hm) as [[E _]|(es0 & Hc0 & He0 & Hr & E)].
    + rewrite E. by apply Hsame.
    + rewrite E. cbn [fst].
      destruct (recorded_forward m c0 es0 target a run c es) as (c1 & es1 & E1 & E2 & Hrest); try done.
      exists c1, es1. unfold InMemory.load, InMemory.events. by rewrite E1, E2.
Qed.

Lemma performs_refines' l :
  all_safe InMemory.empty l = true →
  mem_inv (performs InMemory.empty l).1 ∧
  refines (performs InMemory.empty l).1 (performs SQLite.fresh l).1.
Proof.
  assert (∀ m db, mem_inv m → refines m db → all_safe m l = true →
    mem_inv (performs m l).1 ∧ refines (performs m l).1 (performs db l).1) as Hsim.
  { induction l as [|o l IH]; intros m db Hm Hr Hs; [done|]. simpl in Hs. breflect.
    destruct (perform_refines m db o Hm Hr) as [Hr' _]; [done|].
    cbn [performs fst snd]. by apply IH; [apply perform_inv|..]. }
  apply Hsim; [apply empty_inv|apply fresh_refines].
Qed.
Lemma performs_refines l :
  all_safe InMemory.empty l = true → ∃ m, mem_inv m ∧ refines m (performs SQLite.fresh l).1.
Proof. intros [? ?]%performs_refines'. by eexists. Qed.

Lemma next_bad_reason c target reason :
  LoopCheckpoint_post_init c = Ok tt → transition_allowed (state c) target = true →
  target ∈ TERMINAL_STATES → is_code reason = false →
  mk_checkpoint (next_checkpoint c target (just reason))
  = Err (LoopContractError "ECO_LOOP_CHECKPOINT_INVALID").
Proof.
  intros (P1 & P2 & _ & P4 & P5 & P6 & _)%post_init_ok Ht%transition_target Hterm Hc.
  unfold mk_checkpoint, LoopCheckpoint_post_init, non_negative, next_checkpoint.
  cbn -[is_slug is_digest is_code]. unfold next_stagnant, next_progress. cbn -[is_slug is_digest is_code].
  rewrite P1, P2, (bool_decide_true (target ∈ LOOP_STATES)) by done. cbn [negb].
  rewrite (proj2 (Z.ltb_ge (sequence c + 1) 0)) by lia. rewrite (proj2 (Z.ltb_ge _ 0) P5), P6.
  rewrite bool_decide_true by done. cbn [negb opt_ok]. by rewrite Hc.
Qed.

Lemma row_updated r run c target a :
  run = run_id c → SQLite.c_definition_digest r = definition_digest c →
  SQLite.row_checkpoint run (SQLite.updated_row r (next_checkpoint c target a))
  = next_checkpoint c target a.
Proof.
  intros -> Hd. unfold SQLite.row_checkpoint, next_checkpoint. simpl. rewrite Hd.
  by destruct (next_usage c a).
Qed.

Lemma sqlite_commits m db r c target reason :
  mem_inv m → refines m db → InMemory.checkpoints m !! run_id c = Some c →
  SQLite.loop_runs db !! run_id c = Some r → SQLite.checkpoint (run_id c) r = Ok c →
  SQLite.verify db c = Ok tt → transition_allowed (state c) target = true →
  startswith reason "ECO_" = true →
  SQLite.row_fits (next_checkpoint c target (just reason)) = true →
  SQLite.transition db c target (just reason)
  = (written db r c target (just reason),
     SQLite.load (written db r c target (just reason)) (run_id c)).
Proof.
  intros Hm Hr Ec Er Echk Ev Hal Hpre Hfit.
  unfold SQLite.transition, SQLite.run_row_of. cbv zeta. rewrite Er. cbv iota beta. rewrite Echk.
  cbv iota beta. rewrite Ev. cbv iota beta. rewrite (bool_decide_true (c = c)), Hal by done.
  cbn [negb t_reason_code just t_evidence_digest opt_ok]. rewrite Hpre. cbn [negb].
  unfold next_usage at 1. cbn [t_usage just default]. rewrite usage_same.
  by rewrite (write_ok m db r) by done.
Qed.

Lemma mem_refuses m c target reason e :
  InMemory.checkpoints m !! run_id c = Some c → transition_allowed (state c) target = true →
  startswith reason "ECO_" = true →
  mk_checkpoint (next_checkpoint c target (just reason)) = Err e →
  InMemory.transition m c target (just reason) = (m, Err e).
Proof.
  intros Ec Hal Hpre Hbad. unfold InMemory.transition. cbv zeta.
  rewrite Ec, (bool_decide_true (c = c)), Hal by done.
  assert (bool_decide (state c ∈ TERMINAL_STATES) = false) as Hnt.
  { apply bool_decide_eq_false. intros Hin%(terminal_no_transition _ target). congruence. }
  rewrite Hnt, andb_false_r. cbn [negb t_reason_code just t_evidence_digest opt_ok]. rewrite Hpre.
  cbn [negb]. unfold next_usage at 1. cbn [t_usage just default]. by rewrite usage_same, Hbad.
Qed.

(** [C4] The durable journal refines the in-memory one: started empty, both
    answer every sequence of requests alike (event dicts up to the order of
    their items), as long as transitions are to valid checkpoints. *)
Theorem sqlite_refines_memory l :
  all_safe InMemory.empty l = true →
  (performs SQLite.fresh l).2 = map normal (performs InMemory.empty l).2.
Proof.
  assert (∀ m db, mem_inv m → refines m db → all_safe m l = true →
    (performs db l).2 = map normal (performs m l).2) as Hsim.
  { induction l as [|o l IH]; intros m db Hm Hr Hs; [done|]. simpl in Hs. breflect.
    destruct (perform_refines m db o Hm Hr) as [Hr' E]; [done|].
    cbn [performs fst snd map]. rewrite E. f_equal. by apply IH; [apply perform_inv|..]. }
  apply Hsim; [apply empty_inv|apply fresh_refines].
Qed.

(** The journal is append-only: whatever is requested later, a run's
    checkpoint only moves forward.  Its event list grows at the end, its usage
    never decreases, its definition stays the same, and a terminal checkpoint
    is final. *)
Theorem journal_append_only l1 l2 run c es :
  let m1 := (performs InMemory.empty l1).1 in
  let m2 := (performs m1 l2).1 in
  load m1 run = Ok c → events m1 run = Ok es →
  ∃ c' es', load m2 run = Ok c' ∧ events m2 run = Ok es' ∧ es `prefix_of` es' ∧
    definition_digest c' = definition_digest c ∧
    usage_reversed (usage c) (usage c') = false ∧
    (state c ∈ TERMINAL_STATES → c' = c ∧ es' = es).
Proof.
  cbv zeta. assert (mem_inv (performs InMemory.empty l1).1) as Hm by apply performs_inv, empty_inv.
  revert Hm. generalize (performs InMemory.empty l1).1. intros m. revert m c es.
  induction l2 as [|o l IH]; intros m c es Hm Hc He.
  { exists c, es. split_and!; try done. apply usage_same. }
  cbn [performs fst snd].
  assert (∃ c1 es1, load (perform m o).1 run = Ok c1 ∧ events (perform m o).1 run = Ok es1 ∧
    es `prefix_of` es1 ∧ definition_digest c1 = definition_digest c ∧
    usage_reversed (usage c) (usage c1) = false ∧
    (state c ∈ TERMINAL_STATES → c1 = c ∧ es1 = es)) as (c1 & es1 & Hc1 & He1 & Hp & Hd & Hu & Ht).
  { by apply perform_forward. }
  destruct (IH _ _ _ (perform_inv _ _ Hm) Hc1 He1) as (c2 & es2 & ? & ? & Hp2 & Hd2 & Hu2 & Ht2).
  exists c2, es2. split_and!; try done; [by transitivity es1|congruence| |].
  - apply usage_reversed_false in Hu, Hu2. apply usage_forward; lia.
  - intros Hte. destruct (Ht Hte) as [-> ->]. by apply Ht2.
Qed.

Lemma history_links c es :
  history c es →
  head_digest c = semantic_digest <$> last es ∧
  ∀ i e, es !! i = Some e → ∃ o, e = JObj o ∧ jget "sequence" o = JInt (Z.of_nat i + 1) ∧
    jget "runId" o = JStr (run_id c) ∧
    jget "previousEventDigest" o
    = json_of_optstr (match i with O => None | S k => semantic_digest <$> es !! k end).
Proof.
  induction 1 as [run d|c es target a Hh [Hhead IH] _ _ _ _ _]; [done|].
  split; [by rewrite last_snoc|]. intros i e [[Hlt Hi]|[-> <-]]%lookup_snoc_Some.
  - destruct (IH i e Hi) as (o & -> & Hs & Hr & Hp). exists o. split_and!; try done.
    rewrite Hp. destruct i as [|k]; [done|]. by rewrite lookup_app_l by lia.
  - eexists. split; [done|]. split_and!; [| done |].
    + change (jget "sequence" _) with (JInt (sequence c + 1)).
      by rewrite (history_length _ _ Hh).
    + change (jget "previousEventDigest" _) with (json_of_optstr (head_digest c)).
      rewrite Hhead. destruct es as [|x es _] using rev_ind; [done|].
      rewrite last_snoc, length_app, Nat.add_1_r. simpl.
      by rewrite <- app_assoc, lookup_app_r, Nat.sub_diag by lia.
Qed.

(** What a journal holds of a run is a history: its events are the
    allowed transitions from a new checkpoint to the current one, numbered
    from 1, each carrying the digest of its predecessor, with the head digest
    of the last. *)
Theorem journal_records_histories l run c :
  load (performs InMemory.empty l).1 run = Ok c →
  ∃ es, events (performs InMemory.empty l).1 run = Ok es ∧ history c es ∧ run_id c = run ∧
    sequence c = Z.of_nat (length es) ∧ head_digest c = semantic_digest <$> last es ∧
    ∀ i e, es !! i = Some e → ∃ o, e = JObj o ∧ jget "sequence" o = JInt (Z.of_nat i + 1) ∧
      jget "runId" o = JStr run ∧
      jget "previousEventDigest" o
      = json_of_optstr (match i with O => None | S k => semantic_digest <$> es !! k end).
Proof.
  assert (mem_inv (performs InMemory.empty l).1) as Hm by apply performs_inv, empty_inv.
  simpl. unfold InMemory.load, InMemory.events.
  destruct (InMemory.checkpoints _ !! run) as [c'|] eqn:Ec; [|done]. intros [= ->].
  destruct (mi_run _ Hm _ _ Ec) as (Hid & es & -> & Hh). exists es.
  destruct (history_links _ _ Hh) as [Hhead Hl]. rewrite <- Hid.
  split_and!; try done. by apply history_length.
Qed.

(** The durable journal never reports its own writing as corrupt: after
    any safe requests, loading a run and listing its events succeed on every
    run it knows. *)
Theorem sqlite_verifies_own_writes l run :
  all_safe InMemory.empty l = true →
  let db := (performs SQLite.fresh l).1 in
  match SQLite.loop_runs db !! run with
  | Some r => load db run = Ok (SQLite.row_checkpoint run r) ∧ is_ok (events db run) = true
  | None => load db run = Err (LoopEngineError "ECO_LOOP_RUN_UNKNOWN")
  end.
Proof.
  intros Hs db. destruct (performs_refines l Hs) as (m & Hm & Hr).
  pose proof (rf_runs _ _ Hr run) as Hrow. fold db in Hr, Hrow.
  pose proof (load_refines m db run Hm Hr) as El. pose proof (events_refines m db run Hm Hr) as Ee.
  simpl. unfold InMemory.load, InMemory.events in El, Ee.
  destruct (InMemory.checkpoints m !! run) as [c|] eqn:Ec,
    (SQLite.loop_runs db !! run) as [r|] eqn:Er; try done.
  destruct Hrow as [-> _]. destruct (mi_run _ Hm _ _ Ec) as (_ & es & E & _).
  rewrite E in Ee. by rewrite El, Ee.
Qed.

(** A divergence of the two journals.  The durable [transition] checks a
    terminal reason only by its "ECO_" prefix, commits it, and validates it
    afterwards: with a reason that has the prefix but is not a safe code, the
    call fails, and so does every later [load] of the run.  The in-memory
    journal refuses the same call and keeps the run. *)
Theorem sqlite_unsafe_reason_bricks_run l c target reason :
  all_safe InMemory.empty l = true →
  load (performs SQLite.fresh l).1 (run_id c) = Ok c →
  transition_allowed (state c) target = true → target ∈ TERMINAL_STATES →
  startswith reason "ECO_" = true → is_code reason = false →
  SQLite.row_fits (next_checkpoint c target (just reason)) = true →
  let invalid := LoopContractError "ECO_LOOP_CHECKPOINT_INVALID" in
  let x := transition (performs SQLite.fresh l).1 c target (just reason) in
  let y := transition (performs InMemory.empty l).1 c target (just reason) in
  x.2 = Err invalid ∧ load x.1 (run_id c) = Err invalid ∧
  y.2 = Err invalid ∧ load y.1 (run_id c) = Ok c.
Proof.
  intros Hs Hload Hal Hterm Hpre Hcode Hfit. cbv zeta. destruct (performs_refines' l Hs) as [Hm Hr].
  revert Hm Hr Hload. generalize (performs InMemory.empty l).1 (performs SQLite.fresh l).1.
  intros m db Hm Hr Hload. simpl in *. rewrite (load_refines m) in Hload by done.
  unfold InMemory.load in Hload.
  destruct (InMemory.checkpoints m !! run_id c) as [c'|] eqn:Ec; [|done]. injection Hload as ->.
  destruct (mem_valid _ _ _ Hm Ec) as (_ & Hv & _).
  assert (mk_checkpoint (next_checkpoint c target (just reason))
          = Err (LoopContractError "ECO_LOOP_CHECKPOINT_INVALID")) as Hbad
    by (by apply next_bad_reason).
  destruct (refines_current _ _ _ _ Hm Hr Ec) as (r & Er & Echk & Ev & Hrow & _).
  rewrite (sqlite_commits m db r) by done. rewrite (mem_refuses m c _ _ _ Ec Hal Hpre Hbad).
  cbn [fst snd]. assert (SQLite.load (written db r c target (just reason)) (run_id c)
                         = Err (LoopContractError "ECO_LOOP_CHECKPOINT_INVALID")) as ->.
  { unfold SQLite.load, SQLite.run_row_of, written. cbn [SQLite.loop_runs].
    rewrite lookup_insert_eq. cbv iota beta. unfold SQLite.checkpoint.
    rewrite row_updated by (by apply (f_equal definition_digest) in Hrow).
    cbn [next_checkpoint usage]. change (next_usage c (just reason)) with (usage c).
    destruct (mem_valid _ _ _ Hm Ec) as (_ & _ & Hn). rewrite (usage_post_init _ Hn). by rewrite Hbad. }
  split_and!; try done. unfold InMemory.load. by rewrite Ec.
Qed.
End Journals.

(** ** The engine *)

Section Counts.
Context `{HL : JournalLaws J}.
Lemma move_counts c target a (w : world J) :
  w_executed (move c target a w).1 = w_executed w ∧ w_gated (move c target a w).1 = w_gated w.
Proof. unfold move, on_journal. by destruct (transition _ _ _ _). Qed.
Lemma start_counts d run_name (w : world J) :
  w_executed (start d run_name w).1 = w_executed w ∧ w_gated (start d run_name w).1 = w_gated w.
Proof.
  unfold start, bind, on_journal. destruct (create _ _ _) as [j [c|e]]; [|done].
  case_bool_decide; [|done]. unfold reading, on_journal. cbn [w_journal].
  destruct (stop_reason j run_name) as [[reason|]|]; [| |done]; unfold terminal;
    match goal with |- w_executed (_ ?w0).1 = _ ∧ _ => exact (move_counts _ _ _ w0) end.
Qed.
End Counts.

Section Engine.
Context `{HL : JournalLaws J}.
Context (definition : LoopDefinition) (clock : nat → datetime).
Context (executor : nat → LoopCheckpoint → list control * called AttemptResult).
Context (gate : nat → LoopCheckpoint → AttemptResult → list control * called GateOutcome).

(** The fuel that is always enough. *)
Definition enough_fuel : nat := S (Z.to_nat (max_attempts (budget definition))).

(** What a run may start from: a sound journal in which the run, if it exists,
    is within budget. *)
Definition resumable (run_name : string) (w : world J) : Prop :=
  journal_ok (w_journal w) ∧
  ∀ c, current (w_journal w) run_name = Some c →
    usage_nonneg (usage c) ∧ within (budget definition) (usage c).

Definition attempts_before (run_name : string) (w : world J) : Z :=
  match current (w_journal w) run_name with Some c => attempts (usage c) | None => 0 end.

(** What holds of the world and of the result when [run] is over. *)
Definition run_post (run_name : string) (w w' : world J) (r : result LoopCheckpoint) : Prop :=
  journal_ok (w_journal w') ∧
  (∀ c, current (w_journal w') run_name = Some c → within (budget definition) (usage c)) ∧
  Z.of_nat (w_executed w') - Z.of_nat (w_executed w)
  ≤ max_attempts (budget definition) - attempts_before run_name w ∧
  match r with
  | Ok c => current (w_journal w') run_name = Some c ∧ state c ∈ TERMINAL_STATES ∧
      (state c = "succeeded" →
       current (w_journal w) run_name = Some c ∨ decided_by_gate executor gate run_name c)
  | Err _ => True
  end.

Lemma attempts_before_le run_name w :
  LoopBudget_post_init (budget definition) = Ok tt → resumable run_name w →
  attempts_before run_name w ≤ max_attempts (budget definition).
Proof.
  intros Hb [_ Hwi]. apply budget_post_init_ok in Hb. unfold attempts_before.
  destruct (current _ _) as [c|]; [|lia]. destruct (Hwi c eq_refl) as [_ [? _]]. done.
Qed.

Lemma run_refused run_name w e :
  LoopBudget_post_init (budget definition) = Ok tt → resumable run_name w →
  run_post run_name w w (Err e).
Proof.
  intros Hb Hw. pose proof (attempts_before_le _ _ Hb Hw). destruct Hw as [Hj Hwi].
  split_and!; try done; [|lia]. intros c Hc. by apply Hwi.
Qed.

Lemma run_ends same_callable run_name w fuel :
  LoopBudget_post_init (budget definition) = Ok tt → resumable run_name w →
  (enough_fuel ≤ fuel)%nat →
  ∃ w' r, run definition clock executor gate fuel same_callable run_name w = Some (w', r) ∧
          run_post run_name w w' r.
Proof.
  intros Hb Hw Hfuel. pose proof (attempts_before_le _ _ Hb Hw) as Hbefore. unfold run.
  repeat (case_match; [eexists _, _; split; [done|by apply run_refused]|]).
  destruct Hw as [Hj Hwi].
  pose proof (wp_start definition Hb run_name w Hj (fun c Hc => proj2 (Hwi c Hc))) as Hs.
  unfold wp in Hs. cbv zeta in Hs. fold (attempts_before run_name w) in Hs.
  destruct (start definition run_name w) as [w1 [c1|e]]; simpl in Hs;
    destruct Hs as (Hj1 & Hex1 & Hg1 & Hr1).
  - destruct Hr1 as [Hc1 Hs1]. pose proof (Hg1 c1 Hc1) as Hg.
    destruct (run_loop_ends definition clock executor gate Hb run_name _ _ fuel w1 c1 Hg)
      as (w' & r & -> & c' & (Hat & Hw' & Hp') & Hr').
    { destruct Hg as (Hat & _). apply at_checkpoint_valid in Hat as (_ & _ & Hn & _).
      unfold enough_fuel in Hfuel. lia. }
    exists w', r. split; [done|]. destruct Hat as [Hj' Hc']. split_and!; try done.
    + intros c Hc. by assert (c = c') as -> by congruence.
    + destruct Hw' as (? & _). lia.
    + destruct r as [x|]; [|done]. destruct Hr' as (-> & Ht & Hsu). split_and!; try done.
      intros Hst. destruct (Hsu Hst) as [->|]; [left; by apply Hs1|by right].
  - exists w1, (Err e). split; [done|]. split_and!; try done; [|lia].
    intros c Hc. by destruct (Hg1 c Hc) as (_ & ? & _).
Qed.

Lemma run_fuel_enough same_callable run_name w fuel fuel' x :
  run definition clock executor gate fuel same_callable run_name w = Some x →
  (fuel ≤ fuel')%nat →
  run definition clock executor gate fuel' same_callable run_name w = Some x.
Proof.
  unfold run. intros Hx Hle. repeat case_match; try done. by eapply run_loop_fuel.
Qed.

(** [C16] The loop terminates: whatever the executor, the gate, the clock and
    the other parties do, [run] comes to an end, within as many rounds as
    [max_attempts] allows. *)
Theorem run_terminates same_callable run_name w :
  LoopBudget_post_init (budget definition) = Ok tt → resumable run_name w →
  ∃ w' r, ∀ fuel, (enough_fuel ≤ fuel)%nat →
    run definition clock executor gate fuel same_callable run_name w = Some (w', r).
Proof.
  intros Hb Hw. destruct (run_ends same_callable run_name w enough_fuel Hb Hw)
    as (w' & r & E & _); [done|].
  exists w', r. intros fuel Hle. by eapply run_fuel_enough.
Qed.

(** [C17] The budget is never exceeded, however the run ends, an exception
    included: the recorded attempts, iterations, tokens, cost and storage stay
    within their limits, and the executor is called at most as often as
    [max_attempts] leaves attempts to the run. *)
Theorem run_within_budget same_callable run_name w fuel w' r :
  LoopBudget_post_init (budget definition) = Ok tt → resumable run_name w →
  (enough_fuel ≤ fuel)%nat →
  run definition clock executor gate fuel same_callable run_name w = Some (w', r) →
  (∀ c, current (w_journal w') run_name = Some c → within (budget definition) (usage c)) ∧
  Z.of_nat (w_executed w') - Z.of_nat (w_executed w)
  ≤ max_attempts (budget definition) - attempts_before run_name w.
Proof.
  intros Hb Hw Hf E. destruct (run_ends same_callable run_name w fuel Hb Hw Hf)
    as (w2 & r2 & E2 & _ & ? & ? & _).
  by assert (w2 = w') as -> by congruence.
Qed.


(** A stop request is honoured before any work: when the run is
    cancelled or the kill switch is set, [run] calls neither the executor nor
    the gate, and what it returns for a run that was waiting is "cancelled"
    with the reason of the stop. *)
Theorem stop_prevents_work same_callable run_name w fuel c reason w' r :
  journal_ok (w_journal w) → current (w_journal w) run_name = Some c →
  stop_reason (w_journal w) run_name = Ok (Some reason) →
  run definition clock executor gate fuel same_callable run_name w = Some (w', r) →
  w_executed w' = w_executed w ∧ w_gated w' = w_gated w ∧
  ∀ c', r = Ok c' → c' = c ∨ (state c' = "cancelled" ∧ terminal_reason c' = Some reason).
Proof.
  intros Hj Hc Hstop. unfold run.
  repeat (match goal with |- (if ?b then _ else _) = _ → _ => destruct b end;
          [by intros [= <- <-]|]).
  destruct (current_valid _ _ _ Hj Hc) as (Hid & Hv & _).
  destruct (stop_known _ _ _ Hj Hc) as (o & Eo & Hcode). rewrite Hstop in Eo.
  injection Eo as <-. simpl in Hcode.
  assert (∀ w2 x, (move c "cancelled" (just reason) w) = (w2, x) →
    transition_allowed (state c) "cancelled" = true →
    w_executed w2 = w_executed w ∧ w_gated w2 = w_gated w ∧
    ∀ c', x = Ok c' → state c' = "cancelled" ∧ terminal_reason c' = Some reason) as Hmove.
  { intros w2 x E Hal. unfold move, on_journal in E.
    assert (recordable c "cancelled" (just reason)) as Hrec
      by (apply recordable_intro; try done; apply usage_same).
    rewrite <- Hid in Hc. pose proof (transition_records _ c _ _ Hj Hc Hrec) as Ht.
    destruct (fits _); [destruct Ht as (j' & Ej & _)|destruct Ht as [e Ej]]; rewrite Ej in E;
      injection E as <- <-; split_and!; try done. by intros c' [= <-]. }
  destruct w as [j tk ex gt]. cbn [w_journal w_ticks w_executed w_gated] in *.
  unfold start, bind, on_journal. cbn [w_journal]. rewrite (create_known _ _ definition c Hj Hc).
  case_bool_decide as Hd; cbn [negb w_journal w_ticks w_executed w_gated]; cbv iota beta;
    [|by intros Ex; injection Ex as <- <-].
  case_bool_decide as Hst.
  - unfold reading, on_journal. cbn [w_journal]. rewrite Hstop. unfold terminal.
    destruct (move c "cancelled" (just reason) _) as [w2 [c2|e]] eqn:Em.
    + destruct (Hmove _ _ eq_refl) as (M1 & M2 & M3); [by rewrite Hst|].
      destruct (M3 c2 eq_refl) as [Hs2 Hr2]. destruct fuel; simpl; rewrite Hs2; simpl;
        intros [= <- <-]; split_and!; try done; intros c' [= <-]; by right.
    + destruct (Hmove _ _ eq_refl) as (M1 & M2 & M3); [by rewrite Hst|]. by intros [= <- <-].
  - unfold ret.
    destruct fuel as [|fuel]; simpl; (case_bool_decide; [intros [= <- <-]; split_and!; try done;
      intros c' [= <-]; by left|]); (case_bool_decide as Hs; cbn [negb]; [|by intros [= <- <-]]);
      [done|].
    unfold attempt_round, stop_or_budget, bind, reading, on_journal. cbn [w_journal]. rewrite Hid, Hstop.
    unfold terminal. destruct (move c "cancelled" (just reason) _) as [w2 [c2|e]] eqn:Em.
    + destruct (Hmove _ _ eq_refl) as (M1 & M2 & M3).
      { by apply startable_moves; [|repeat constructor]. }
      simpl. intros [= <- <-]. split_and!; try done. intros c' [= <-]. right. by apply M3.
    + destruct (Hmove _ _ eq_refl) as (M1 & M2 & M3).
      { by apply startable_moves; [|repeat constructor]. }
      by intros [= <- <-].
Qed.

End Engine.

(** ** Concrete runs *)

#[local] Existing Instance Checksum.crypto.

Definition instant_at (y : Z) : datetime :=
  {| year := y; month := 1; day := 2; hour := 3; minute := 4; second := 5; microsecond := 0;
     utcoffset := Some 0 |}.
Definition digest_of (s : string) : string := sha256_hex s.
Definition example_definition : LoopDefinition :=
  {| loop_id := "wiki-check"; version := "1"; objective_digest := digest_of "objective";
     gate_digest := digest_of "gate"; profile := "docs"; side_effect_mode := "no-effect";
     deterministic := true; executable := true;
     budget := {| max_attempts := 3; max_iterations := 2; deadline := instant_at 2030;
                  max_tokens := 100; max_cost_microusd := 90; max_storage_bytes := 80;
                  reserve_tokens_per_attempt := 30; reserve_cost_microusd_per_attempt := 20;
                  reserve_storage_bytes_per_attempt := 10 |};
     retry := {| allowed_reason_codes := {["ECO_TRANSIENT"]}; max_stagnant_iterations := 2 |};
     state_outline := ["ready"; "running"; "gating"; "succeeded"] |}.
Definition example_executor (n : nat) (c : LoopCheckpoint) : list control * called AttemptResult :=
  ([], Returned {| ar_outcome := match n with O => "retryable-error" | _ => "candidate" end;
                   ar_reason_code := "ECO_TRANSIENT"; ar_candidate_digest := digest_of "c";
                   ar_evidence_digest := digest_of "e" |}).
Definition example_gate (n : nat) (c : LoopCheckpoint) (a : AttemptResult)
  : list control * called GateOutcome :=
  ([], Returned {| go_outcome := "pass"; go_reason_code := "ECO_GATE_PASSED";
                   go_progress_digest := digest_of "p"; go_evidence_digest := digest_of "g" |}).
Definition example_clock (n : nat) : datetime := instant_at 2026.
Definition memory_world : world InMemory.journal :=
  {| w_journal := InMemory.empty; w_ticks := 0; w_executed := 0; w_gated := 0 |}.
Definition sqlite_world : world SQLite.database :=
  {| w_journal := SQLite.fresh; w_ticks := 0; w_executed := 0; w_gated := 0 |}.

Lemma memory_resumable : resumable example_definition "run-1" memory_world.
Proof. split; [apply empty_inv|]. intros c Hc. by vm_compute in Hc. Qed.
Lemma sqlite_resumable : resumable example_definition "run-1" sqlite_world.
Proof.
  split; [exists InMemory.empty; split; [apply empty_inv|apply fresh_refines]|].
  intros c Hc. by vm_compute in Hc.
Qed.
Lemma example_budget_ok : LoopBudget_post_init (budget example_definition) = Ok tt.
Proof. vm_compute. reflexivity. Qed.

Definition run_example {J} `{LoopJournal J} (w : world J) : option (world J * result LoopCheckpoint) :=
  run example_definition example_clock example_executor example_gate
      (enough_fuel example_definition) false "run-1" w.
Definition final {J} `{LoopJournal J} (w : world J) : world J * result LoopCheckpoint :=
  match run_example w with Some x => x | None => (w, Err AssertionError) end.

Lemma run_terminates_witness :
  ∃ w' r, ∀ fuel, (enough_fuel example_definition ≤ fuel)%nat →
    run example_definition example_clock example_executor example_gate fuel false "run-1"
        sqlite_world = Some (w', r).
Proof. apply run_terminates; [apply example_budget_ok|apply sqlite_resumable]. Defined.

Lemma run_within_budget_witness :
  Z.of_nat (w_executed (final memory_world).1) ≤ 3.
Proof.
  destruct (run_within_budget example_definition example_clock example_executor example_gate false
              "run-1" memory_world (enough_fuel example_definition)
              (final memory_world).1 (final memory_world).2) as [_ Hb].
  - apply example_budget_ok.
  - apply memory_resumable.
  - reflexivity.
  - vm_compute. reflexivity.
  - vm_compute. vm_compute in Hb. exact Hb.
Defined.

Definition final_checkpoint {J} `{LoopJournal J} (w : world J) : LoopCheckpoint :=
  match (final w).2 with Ok c => c | Err _ => initial_checkpoint "run-1" example_definition end.


(** A run that is ready, and then killed. *)
Definition ready_journal : InMemory.journal :=
  (performs InMemory.empty
     [OpCreate "run-1" example_definition;
      OpTransition (initial_checkpoint "run-1" example_definition) "ready" (just "ECO_LOOP_READY")]).1.
Definition ready_checkpoint : LoopCheckpoint :=
  next_checkpoint (initial_checkpoint "run-1" example_definition) "ready" (just "ECO_LOOP_READY").
Definition killed_world : world InMemory.journal :=
  {| w_journal := set_kill_switch ready_journal true; w_ticks := 0; w_executed := 0; w_gated := 0 |}.

Lemma stop_prevents_work_witness :
  w_executed (final killed_world).1 = w_executed killed_world.
Proof.
  destruct (stop_prevents_work example_definition example_clock example_executor example_gate false
              "run-1" killed_world (enough_fuel example_definition) ready_checkpoint
              "ECO_LOOP_KILL_SWITCH" (final killed_world).1 (final killed_world).2) as [He _].
  - apply kill_inv, performs_inv, empty_inv.
  - vm_compute. reflexivity.
  - vm_compute. reflexivity.
  - vm_compute. reflexivity.
  - exact He.
Defined.


Definition example_requests : list journal_op :=
  [OpCreate "run-1" example_definition; OpStop "run-1";
   OpTransition (initial_checkpoint "run-1" example_definition) "ready" (just "ECO_LOOP_READY");
   OpCancel "run-1"; OpStop "run-1"; OpLoad "run-1"; OpEvents "run-1"; OpLoad "run-2";
   OpTransition ready_checkpoint "cancelled" (just "ECO_LOOP_CANCELLED");
   OpTransition ready_checkpoint "running" (just "ECO_LOOP_ATTEMPT_RESERVED")].

Lemma sqlite_refines_memory_witness :
  (performs SQLite.fresh example_requests).2
  = map normal (performs InMemory.empty example_requests).2.
Proof. apply sqlite_refines_memory. vm_compute. reflexivity. Defined.

Definition cancelled_checkpoint : LoopCheckpoint :=
  next_checkpoint ready_checkpoint "cancelled" (just "ECO_LOOP_CANCELLED").
Definition cancelled_events : list json :=
  [JObj (transition_event (initial_checkpoint "run-1" example_definition) "ready"
           (just "ECO_LOOP_READY"));
   JObj (transition_event ready_checkpoint "cancelled" (just "ECO_LOOP_CANCELLED"))].

Lemma journal_append_only_witness :
  load (performs (performs InMemory.empty example_requests).1 example_requests).1 "run-1"
  = Ok cancelled_checkpoint.
Proof.
  destruct (journal_append_only example_requests example_requests "run-1" cancelled_checkpoint
              cancelled_events) as (c & es & Hc & _ & _ & _ & _ & Ht);
    [vm_compute; reflexivity|vm_compute; reflexivity|].
  destruct Ht as [-> _]; [by apply (bool_decide_eq_true_1 _)|exact Hc].
Defined.

Lemma journal_records_histories_witness : history cancelled_checkpoint cancelled_events.
Proof.
  destruct (journal_records_histories example_requests "run-1" cancelled_checkpoint)
    as (es & He & Hh & _); [vm_compute; reflexivity|].
  assert (es = cancelled_events) as ->; [|exact Hh].
  assert (events (performs InMemory.empty example_requests).1 "run-1" = Ok cancelled_events) as E
    by (vm_compute; reflexivity).
  rewrite E in He. by injection He as <-.
Defined.

Lemma sqlite_verifies_own_writes_witness :
  load (performs SQLite.fresh example_requests).1 "run-3"
  = Err (LoopEngineError "ECO_LOOP_RUN_UNKNOWN").
Proof.
  pose proof (sqlite_verifies_own_writes example_requests "run-3") as Hv. cbv zeta in Hv.
  assert (SQLite.loop_runs (performs SQLite.fresh example_requests).1 !! "run-3" = None) as E
    by (vm_compute; reflexivity).
  rewrite E in Hv. apply Hv. vm_compute. reflexivity.
Defined.

Lemma sqlite_unsafe_reason_bricks_run_witness :
  load (transition (performs SQLite.fresh (firstn 3 example_requests)).1 ready_checkpoint
          "cancelled" (just "ECO_bad")).1 (run_id ready_checkpoint)
  = Err (LoopContractError "ECO_LOOP_CHECKPOINT_INVALID").
Proof.
  destruct (sqlite_unsafe_reason_bricks_run (firstn 3 example_requests) ready_checkpoint "cancelled"
              "ECO_bad") as (_ & Hl & _).
  - vm_compute. reflexivity.
  - vm_compute. reflexivity.
  - vm_compute. reflexivity.
  - by apply (bool_decide_eq_true_1 _).
  - vm_compute. reflexivity.
  - vm_compute. reflexivity.
  - vm_compute. reflexivity.
  - exact Hl.
Defined.
