(* ===== verification/RouteRecords.v ===== *)
(** * Routing records, src/eco_routing/contracts.py and its schemas

    A routing record is a JSON document of one of six kinds.  It is validated by
    the JSON Schema of its kind and then by [_semantic_errors], whose first check
    is that [metadata.recordDigest] is the digest of the rest of the record.
    Each kind has its schema, a Rocq record of the fields the code reads, and a
    reader [as_...] from the document to that record; on a document that passed
    its schema the reader always succeeds ([RouteRecordFacts]).  Of a list of
    errors only its emptiness matters to the callers, so the checks are booleans. *)

From S2P Require Import Prelude Json Digest PyTime PyClock Schema.
From Stdlib Require Import Ascii.

Definition ROUTING_API_VERSION := "routing.ai.ecosystem/v1alpha1".
Definition ROUTING_CONTRACT_PROFILE := "model-routing-contracts-v1alpha1".
Definition ROUTING_RECORD_DOMAIN := "eco-model-routing-record-v1alpha1".
Definition CANONICAL_MODEL_ROLES : list string :=
  ["eco-orchestrator"; "eco-worker"; "eco-grader"; "eco-researcher"; "eco-coder"].

(** ** schemas/common.schema.json *)

Section Schemas.
Context `{FromIso}.

Definition route_id : schema := SStr (search_pattern is_identifier).
Definition digest_schema : schema := SStr (search_pattern is_digest).
Definition timestamp_schema : schema := SStr is_date_time.
Definition route_metadata_schema : schema :=
  SObj ["id"; "createdAt"; "recordDigest"]
       [("id", route_id); ("createdAt", timestamp_schema); ("revision", SInt 1);
        ("recordDigest", digest_schema)].
Definition role_schema : schema := SEnum CANONICAL_MODEL_ROLES.
Definition action_classes : list string := ["A0"; "A1"; "A2"; "A3"; "A4"].
Definition data_classes : list string := ["D0"; "D1"; "D2"; "D3"; "D4"].
Definition zones : list string := ["Z0"; "Z1"; "Z2"; "Z3"; "Z4"].
Definition retentions : list string := ["no-retention"; "local-runtime-dependent"; "contractual"].
(** [^[a-z][a-z0-9._-]{1,127}$] and [^[a-z][a-z0-9-]{1,63}$] *)
Definition is_capability (s : string) : bool :=
  re_ident is_lower (fun c => is_lower c || is_digit c || (c == "."%char) || (c == "_"%char)
                              || (c == "-"%char)) 127 s && (2 <=? String.length s)%nat.
Definition is_reason (s : string) : bool :=
  re_ident is_lower (fun c => is_lower c || is_digit c || (c == "-"%char)) 63 s
  && (2 <=? String.length s)%nat.
Definition enum_strs (n : nat) (l : list string) : schema := SStrs n (fun s => s in? l).
Definition capabilities_schema : schema := SStrs 0 (search_pattern is_capability).
Definition digest_or_null : schema := SOneOf SNull digest_schema.

(** A record of kind [kind] with the given [spec]. *)
Definition record_schema (kind : string) (spec : schema) : schema :=
  SObj ["apiVersion"; "kind"; "metadata"; "spec"]
       [("apiVersion", SEnum [ROUTING_API_VERSION]); ("kind", SEnum [kind]);
        ("metadata", route_metadata_schema); ("spec", spec)].

(** ** schemas/model-routing-policy.schema.json *)

Definition policy_role_schema : schema :=
  SObj ["role"; "requiredCapabilities"; "allowedActionClasses"; "allowedDataClasses";
        "allowedZones"; "allowedRetentions"; "candidateIds"; "maximumCostMicrousd"; "fallback"]
       [("role", role_schema); ("requiredCapabilities", capabilities_schema);
        ("allowedActionClasses", enum_strs 1 action_classes);
        ("allowedDataClasses", enum_strs 1 data_classes); ("allowedZones", enum_strs 1 zones);
        ("allowedRetentions", enum_strs 1 retentions);
        ("candidateIds", SStrs 0 (search_pattern is_identifier));
        ("maximumCostMicrousd", SInt 0);
        ("fallback",
          SObj ["maxRouteAttempts"; "retryableFailureClasses"]
               [("maxRouteAttempts", SRange 1 2);
                ("retryableFailureClasses", enum_strs 0 ["capacity"; "transport-retryable"])])].
Definition policy_schema : schema :=
  record_schema "ModelRoutingPolicy"
    (SObj ["defaultDecision"; "decisionTtlSeconds"; "roles"]
          [("defaultDecision", SEnum ["deny"]); ("decisionTtlSeconds", SRange 1 3600);
           ("roles", SArr 5 5 policy_role_schema)]).

(** ** schemas/observed-model-capabilities.schema.json *)

Definition observation_schema : schema :=
  record_schema "ObservedModelCapabilities"
    (SObj ["authority"; "deploymentId"; "deploymentIdentityDigest"; "capabilities";
           "contextWindowTokens"; "latencyP95Millis"; "observedAt"; "validUntil";
           "evidenceEnvelopeDigest"; "suiteDigest"]
          [("authority", SEnum ["trusted-observation"]); ("deploymentId", route_id);
           ("deploymentIdentityDigest", digest_schema); ("capabilities", capabilities_schema);
           ("contextWindowTokens", SInt 1); ("latencyP95Millis", SRange 1 3600000);
           ("observedAt", timestamp_schema); ("validUntil", timestamp_schema);
           ("evidenceEnvelopeDigest", digest_schema); ("suiteDigest", digest_schema)]).

(** ** schemas/trusted-price-catalog.schema.json *)

Definition price_entry_schema : schema :=
  SObj ["deploymentId"; "deploymentIdentityDigest"; "inputMicrousdPerMillionTokens";
        "outputMicrousdPerMillionTokens"; "fixedRequestMicrousd"]
       [("deploymentId", route_id); ("deploymentIdentityDigest", digest_schema);
        ("inputMicrousdPerMillionTokens", SInt 0); ("outputMicrousdPerMillionTokens", SInt 0);
        ("fixedRequestMicrousd", SInt 0)].
Definition price_catalog_schema : schema :=
  record_schema "TrustedPriceCatalog"
    (SObj ["authority"; "currency"; "validFrom"; "validUntil"; "sourceProvenanceDigest"; "entries"]
          [("authority", SEnum ["operator"]); ("currency", SEnum ["microUSD"]);
           ("validFrom", timestamp_schema); ("validUntil", timestamp_schema);
           ("sourceProvenanceDigest", digest_schema); ("entries", SList 1 price_entry_schema)]).

(** ** schemas/model-route-request.schema.json *)

Definition aggregate_budget_schema : schema :=
  SObj ["maximumCalls"; "inputTokenCeiling"; "outputTokenCeiling"; "maximumCostMicrousd"]
       [("maximumCalls", SRange 1 10000); ("inputTokenCeiling", SInt 0);
        ("outputTokenCeiling", SInt 1); ("maximumCostMicrousd", SInt 0)].
Definition request_spec_schema : schema :=
  SObj ["role"; "actionClass"; "dataClass"; "workloadClass"; "requiredCapabilities";
        "requiredContextTokens"; "inputTokenCeiling"; "outputTokenCeiling"; "allowedZones";
        "allowedRetentions"; "allowCloud"; "maximumCostMicrousd"; "deadlineAt";
        "executionProfile"; "policyDigest"; "contextDigest"]
       [("role", role_schema); ("actionClass", SEnum action_classes);
        ("dataClass", SEnum data_classes);
        ("workloadClass", SEnum ["interactive"; "batch"; "review"; "research"; "coding"]);
        ("requiredCapabilities", capabilities_schema); ("requiredContextTokens", SInt 1);
        ("inputTokenCeiling", SInt 0); ("outputTokenCeiling", SInt 1);
        ("allowedZones", enum_strs 1 zones); ("allowedRetentions", enum_strs 1 retentions);
        ("allowCloud", SBool); ("maximumCostMicrousd", SInt 0); ("deadlineAt", timestamp_schema);
        ("executionProfile", SEnum ["m6.1-local-zero-cost"; "standard"]);
        ("policyDigest", digest_schema); ("contextDigest", digest_schema);
        ("executionPlanDigest", digest_schema); ("aggregateBudget", aggregate_budget_schema)].
Definition request_schema : schema := record_schema "ModelRouteRequest" request_spec_schema.

(** ** schemas/model-route-decision.schema.json *)

Definition reservation_schema : schema :=
  SObj ["maximumCalls"; "inputTokenCeiling"; "outputTokenCeiling"; "reservedCostMicrousd"]
       [("maximumCalls", SRange 1 10000); ("inputTokenCeiling", SInt 0);
        ("outputTokenCeiling", SInt 1); ("reservedCostMicrousd", SInt 0)].
Definition selected_schema : schema :=
  SObj ["deploymentId"; "deploymentDigest"; "deploymentIdentityDigest"; "observedEvidenceDigest";
        "candidateDigest"; "reservedCostMicrousd"; "estimatedLatencyP95Millis"]
       [("deploymentId", route_id); ("deploymentDigest", digest_schema);
        ("deploymentIdentityDigest", digest_schema); ("observedEvidenceDigest", digest_schema);
        ("candidateDigest", digest_schema); ("reservedCostMicrousd", SInt 0);
        ("estimatedLatencyP95Millis", SInt 1); ("aggregateReservation", reservation_schema)].
Definition decision_reasons : list string :=
  ["eligible"; "policy-binding-mismatch"; "request-policy-denied"; "price-catalog-stale";
   "fallback-not-authorized"; "fallback-identity-drift"; "fallback-exhausted";
   "no-eligible-candidate"].
Definition decision_spec_schema : schema :=
  SObj ["requestDigest"; "policyDigest"; "priceCatalogDigest"; "decision"; "reasonCode";
        "routeAttempt"; "selected"; "validUntil"; "fallbackFromDigest"; "explainDigest"]
       [("requestDigest", digest_schema); ("policyDigest", digest_schema);
        ("priceCatalogDigest", digest_schema); ("decision", SEnum ["allowed"; "denied"]);
        ("reasonCode", SEnum decision_reasons); ("routeAttempt", SRange 1 2);
        ("selected", SOneOf SNull selected_schema); ("validUntil", timestamp_schema);
        ("fallbackFromDigest", digest_or_null); ("explainDigest", digest_schema);
        ("executionPlanDigest", digest_schema)].
Definition decision_schema : schema := record_schema "ModelRouteDecision" decision_spec_schema.

(** ** schemas/routing-explain.schema.json *)

Definition explain_candidate_schema : schema :=
  SObj ["candidateDigest"; "outcome"; "reasonCodes"; "rankDigest"]
       [("candidateDigest", digest_schema);
        ("outcome", SEnum ["eligible"; "rejected"; "excluded"]);
        ("reasonCodes", SStrs 0 (search_pattern is_reason)); ("rankDigest", digest_or_null)].
Definition explain_spec_schema : schema :=
  SObj ["requestDigest"; "policyDigest"; "priceCatalogDigest"; "decision"; "reasonCode";
        "selectedCandidateDigest"; "candidates"]
       [("requestDigest", digest_schema); ("policyDigest", digest_schema);
        ("priceCatalogDigest", digest_schema); ("decision", SEnum ["allowed"; "denied"]);
        ("reasonCode", SStr (search_pattern is_reason)); ("selectedCandidateDigest", digest_or_null);
        ("executionPlanDigest", digest_schema); ("candidates", SList 0 explain_candidate_schema)].
Definition explain_schema : schema := record_schema "RoutingExplain" explain_spec_schema.

Definition ROUTING_SCHEMA_BY_KIND : list (string * schema) :=
  [("ModelRoutingPolicy", policy_schema); ("ObservedModelCapabilities", observation_schema);
   ("TrustedPriceCatalog", price_catalog_schema); ("ModelRouteRequest", request_schema);
   ("ModelRouteDecision", decision_schema); ("RoutingExplain", explain_schema)].
End Schemas.

(** ** Reading a document *)

Definition str_at (k : string) (o : list (string * json)) : option string :=
  match jassoc k o with Some (JStr s) => Some s | _ => None end.
Definition int_at (k : string) (o : list (string * json)) : option Z :=
  match jassoc k o with Some (JInt z) => Some z | _ => None end.
Definition bool_at (k : string) (o : list (string * json)) : option bool :=
  match jassoc k o with Some (JBool b) => Some b | _ => None end.
Definition obj_at (k : string) (o : list (string * json)) : option (list (string * json)) :=
  match jassoc k o with Some (JObj v) => Some v | _ => None end.
Definition strs_at (k : string) (o : list (string * json)) : option (list string) :=
  jassoc k o ≫= as_strs.
Definition objs_at (k : string) (o : list (string * json)) : option (list (list (string * json))) :=
  match jassoc k o with
  | Some (JArr l) => mapM (fun x => match x with JObj v => Some v | _ => None end) l
  | _ => None
  end.
(** [d.get(k)] of a property that is absent, null or an object read by [f]. *)
Definition opt_obj_at {A} (f : list (string * json) → option A)
    (k : string) (o : list (string * json)) : option (option A) :=
  match jassoc k o with
  | None | Some JNull => Some None
  | Some (JObj v) => Some <$> f v
  | Some _ => None
  end.

Record RouteMeta : Type := {
  rm_id : string; rm_created_at : string; rm_revision : option Z; rm_digest : string;
}.
Definition as_meta (o : list (string * json)) : option RouteMeta :=
  m ← obj_at "metadata" o;
  i ← str_at "id" m; c ← str_at "createdAt" m; d ← str_at "recordDigest" m;
  Some {| rm_id := i; rm_created_at := c; rm_revision := int_at "revision" m; rm_digest := d |}.

Record RolePolicy : Type := {
  rp_role : string; rp_required_capabilities : list string; rp_allowed_action_classes : list string;
  rp_allowed_data_classes : list string; rp_allowed_zones : list string;
  rp_allowed_retentions : list string; rp_candidate_ids : list string;
  rp_maximum_cost : Z; rp_max_route_attempts : Z; rp_retryable : list string;
}.
Definition as_role (o : list (string * json)) : option RolePolicy :=
  r ← str_at "role" o; cs ← strs_at "requiredCapabilities" o;
  acs ← strs_at "allowedActionClasses" o; dcs ← strs_at "allowedDataClasses" o;
  zs ← strs_at "allowedZones" o; rs ← strs_at "allowedRetentions" o;
  ids ← strs_at "candidateIds" o; mx ← int_at "maximumCostMicrousd" o;
  fb ← obj_at "fallback" o; at_ ← int_at "maxRouteAttempts" fb;
  rt ← strs_at "retryableFailureClasses" fb;
  Some {| rp_role := r; rp_required_capabilities := cs; rp_allowed_action_classes := acs;
          rp_allowed_data_classes := dcs; rp_allowed_zones := zs; rp_allowed_retentions := rs;
          rp_candidate_ids := ids; rp_maximum_cost := mx; rp_max_route_attempts := at_;
          rp_retryable := rt |}.

Record RoutingPolicy : Type := {
  pl_meta : RouteMeta; pl_ttl_seconds : Z; pl_roles : list RolePolicy;
}.
Definition as_policy (doc : json) : option RoutingPolicy :=
  match doc with
  | JObj o =>
      m ← as_meta o; sp ← obj_at "spec" o;
      ttl ← int_at "decisionTtlSeconds" sp; rs ← objs_at "roles" sp; roles ← mapM as_role rs;
      Some {| pl_meta := m; pl_ttl_seconds := ttl; pl_roles := roles |}
  | _ => None
  end.

Record Observation : Type := {
  ob_meta : RouteMeta; ob_deployment_id : string; ob_identity_digest : string;
  ob_capabilities : list string; ob_context_window : Z; ob_latency : Z;
  ob_observed_at : string; ob_valid_until : string;
}.
Definition as_observation (doc : json) : option Observation :=
  match doc with
  | JObj o =>
      m ← as_meta o; sp ← obj_at "spec" o;
      d ← str_at "deploymentId" sp; i ← str_at "deploymentIdentityDigest" sp;
      cs ← strs_at "capabilities" sp; w ← int_at "contextWindowTokens" sp;
      l ← int_at "latencyP95Millis" sp; f ← str_at "observedAt" sp; u ← str_at "validUntil" sp;
      Some {| ob_meta := m; ob_deployment_id := d; ob_identity_digest := i; ob_capabilities := cs;
              ob_context_window := w; ob_latency := l; ob_observed_at := f; ob_valid_until := u |}
  | _ => None
  end.

Record PriceEntry : Type := {
  pe_deployment_id : string; pe_identity_digest : string;
  pe_input_price : Z; pe_output_price : Z; pe_fixed_price : Z;
}.
Definition as_price_entry (o : list (string * json)) : option PriceEntry :=
  d ← str_at "deploymentId" o; i ← str_at "deploymentIdentityDigest" o;
  a ← int_at "inputMicrousdPerMillionTokens" o; b ← int_at "outputMicrousdPerMillionTokens" o;
  f ← int_at "fixedRequestMicrousd" o;
  Some {| pe_deployment_id := d; pe_identity_digest := i; pe_input_price := a;
          pe_output_price := b; pe_fixed_price := f |}.
Record PriceCatalog : Type := {
  pc_meta : RouteMeta; pc_valid_from : string; pc_valid_until : string;
  pc_entries : list PriceEntry;
}.
Definition as_price_catalog (doc : json) : option PriceCatalog :=
  match doc with
  | JObj o =>
      m ← as_meta o; sp ← obj_at "spec" o;
      f ← str_at "validFrom" sp; u ← str_at "validUntil" sp;
      es ← objs_at "entries" sp; entries ← mapM as_price_entry es;
      Some {| pc_meta := m; pc_valid_from := f; pc_valid_until := u; pc_entries := entries |}
  | _ => None
  end.

(** The aggregate budget of a request and the reservation of a decision. *)
Record Aggregate : Type := {
  ag_maximum_calls : Z; ag_input_ceiling : Z; ag_output_ceiling : Z; ag_cost : Z;
}.
Definition as_aggregate (cost_key : string) (o : list (string * json)) : option Aggregate :=
  c ← int_at "maximumCalls" o; i ← int_at "inputTokenCeiling" o;
  u ← int_at "outputTokenCeiling" o; m ← int_at cost_key o;
  Some {| ag_maximum_calls := c; ag_input_ceiling := i; ag_output_ceiling := u; ag_cost := m |}.

Record RouteRequest : Type := {
  rq_meta : RouteMeta; rq_role : string; rq_action_class : string; rq_data_class : string;
  rq_required_capabilities : list string; rq_required_context : Z;
  rq_input_ceiling : Z; rq_output_ceiling : Z; rq_allowed_zones : list string;
  rq_allowed_retentions : list string; rq_allow_cloud : bool; rq_maximum_cost : Z;
  rq_deadline_at : string; rq_execution_profile : string; rq_policy_digest : string;
  rq_execution_plan : option string; rq_aggregate : option Aggregate;
  rq_aggregate_json : json;                    (* the aggregateBudget value itself *)
}.
Definition as_request (doc : json) : option RouteRequest :=
  match doc with
  | JObj o =>
      m ← as_meta o; sp ← obj_at "spec" o;
      ro ← str_at "role" sp; ac ← str_at "actionClass" sp; dc ← str_at "dataClass" sp;
      cs ← strs_at "requiredCapabilities" sp; ctx ← int_at "requiredContextTokens" sp;
      i ← int_at "inputTokenCeiling" sp; u ← int_at "outputTokenCeiling" sp;
      zs ← strs_at "allowedZones" sp; rs ← strs_at "allowedRetentions" sp;
      cl ← bool_at "allowCloud" sp; mx ← int_at "maximumCostMicrousd" sp;
      dl ← str_at "deadlineAt" sp; ep ← str_at "executionProfile" sp;
      pd ← str_at "policyDigest" sp;
      ag ← opt_obj_at (as_aggregate "maximumCostMicrousd") "aggregateBudget" sp;
      Some {| rq_meta := m; rq_role := ro; rq_action_class := ac; rq_data_class := dc;
              rq_required_capabilities := cs; rq_required_context := ctx; rq_input_ceiling := i;
              rq_output_ceiling := u; rq_allowed_zones := zs; rq_allowed_retentions := rs;
              rq_allow_cloud := cl; rq_maximum_cost := mx; rq_deadline_at := dl;
              rq_execution_profile := ep; rq_policy_digest := pd;
              rq_execution_plan := str_at "executionPlanDigest" sp; rq_aggregate := ag;
              rq_aggregate_json := jget "aggregateBudget" sp |}
  | _ => None
  end.

Record Selected : Type := {
  se_deployment_id : string; se_deployment_digest : string; se_identity_digest : string;
  se_evidence_digest : string; se_candidate_digest : string; se_reserved_cost : Z;
  se_latency : Z; se_reservation : option Aggregate;
}.
Definition as_selected (o : list (string * json)) : option Selected :=
  d ← str_at "deploymentId" o; dd ← str_at "deploymentDigest" o;
  i ← str_at "deploymentIdentityDigest" o; e ← str_at "observedEvidenceDigest" o;
  c ← str_at "candidateDigest" o; rc ← int_at "reservedCostMicrousd" o;
  l ← int_at "estimatedLatencyP95Millis" o;
  r ← opt_obj_at (as_aggregate "reservedCostMicrousd") "aggregateReservation" o;
  Some {| se_deployment_id := d; se_deployment_digest := dd; se_identity_digest := i;
          se_evidence_digest := e; se_candidate_digest := c; se_reserved_cost := rc;
          se_latency := l; se_reservation := r |}.

Record RouteDecision : Type := {
  dc_meta : RouteMeta; dc_request_digest : string; dc_policy_digest : string;
  dc_price_digest : string; dc_decision : string; dc_reason : string; dc_attempt : Z;
  dc_selected : option Selected; dc_valid_until : string; dc_fallback_from : option string;
  dc_explain_digest : string; dc_execution_plan : option string;
}.
Definition as_decision (doc : json) : option RouteDecision :=
  match doc with
  | JObj o =>
      m ← as_meta o; sp ← obj_at "spec" o;
      rd ← str_at "requestDigest" sp; pd ← str_at "policyDigest" sp;
      pr ← str_at "priceCatalogDigest" sp; d ← str_at "decision" sp;
      re ← str_at "reasonCode" sp; a ← int_at "routeAttempt" sp;
      se ← opt_obj_at as_selected "selected" sp; u ← str_at "validUntil" sp;
      ex ← str_at "explainDigest" sp;
      Some {| dc_meta := m; dc_request_digest := rd; dc_policy_digest := pd; dc_price_digest := pr;
              dc_decision := d; dc_reason := re; dc_attempt := a; dc_selected := se;
              dc_valid_until := u; dc_fallback_from := str_at "fallbackFromDigest" sp;
              dc_explain_digest := ex; dc_execution_plan := str_at "executionPlanDigest" sp |}
  | _ => None
  end.

Record ExplainCandidate : Type := {
  xc_digest : string; xc_outcome : string; xc_reasons : list string; xc_rank : option string;
}.
Definition as_explain_candidate (o : list (string * json)) : option ExplainCandidate :=
  d ← str_at "candidateDigest" o; u ← str_at "outcome" o; rs ← strs_at "reasonCodes" o;
  Some {| xc_digest := d; xc_outcome := u; xc_reasons := rs; xc_rank := str_at "rankDigest" o |}.
Record Explain : Type := {
  ex_meta : RouteMeta; ex_request_digest : string; ex_policy_digest : string;
  ex_price_digest : string; ex_decision : string; ex_reason : string;
  ex_selected : option string; ex_candidates : list ExplainCandidate;
  ex_execution_plan : option string;
}.
Definition as_explain (doc : json) : option Explain :=
  match doc with
  | JObj o =>
      m ← as_meta o; sp ← obj_at "spec" o;
      rd ← str_at "requestDigest" sp; pd ← str_at "policyDigest" sp;
      pr ← str_at "priceCatalogDigest" sp; d ← str_at "decision" sp;
      re ← str_at "reasonCode" sp; cs ← objs_at "candidates" sp;
      cands ← mapM as_explain_candidate cs;
      Some {| ex_meta := m; ex_request_digest := rd; ex_policy_digest := pd; ex_price_digest := pr;
              ex_decision := d; ex_reason := re;
              ex_selected := str_at "selectedCandidateDigest" sp; ex_candidates := cands;
              ex_execution_plan := str_at "executionPlanDigest" sp |}
  | _ => None
  end.

(** ** Digests and validation *)

(** [x is not None] *)
Definition is_some {A} (o : option A) : bool := match o with Some _ => true | None => false end.

Definition dict_del {V} (k : string) (o : list (string * V)) : list (string * V) :=
  filter (fun kv => kv.1 ≠ k) o.

(** A value the code reads without a check: absent or of another type is an
    exception of Python's. *)
Definition some_or {A} (e : py_error) (o : option A) : result A :=
  match o with Some a => Ok a | None => Err e end.

(** [sorted(l) == l], and without repetition. *)
Definition is_sorted (l : list string) : bool := l == sorted_strs l.

(** A copy of a record without [metadata["recordDigest"]]. *)
Definition undigested (record : list (string * json)) : list (string * json) :=
  match jassoc "metadata" record with
  | Some (JObj metadata) => dict_set "metadata" (JObj (dict_del "recordDigest" metadata)) record
  | _ => record
  end.
Definition pair_leb (a b : string * string) : bool :=
  if a.1 == b.1 then String.leb a.2 b.2 else String.leb a.1 b.1.

Section Validation.
Context `{FromIso} `{Crypto} `{Jsonschema}.

Definition routing_record_digest (record : list (string * json)) : string :=
  let projected := undigested record in
  semantic_digest
    (JObj [("domain", JStr ROUTING_RECORD_DOMAIN); ("profile", JStr ROUTING_CONTRACT_PROFILE);
           ("record", JObj projected)]).

Definition seal_routing_record (record : list (string * json)) : result json :=
  let digest := JStr (routing_record_digest record) in
  match jassoc "metadata" record with
  | Some (JObj metadata) =>
      Ok (JObj (dict_set "metadata" (JObj (dict_set "recordDigest" digest metadata)) record))
  | None => Ok (JObj (dict_set "metadata" (JObj [("recordDigest", digest)]) record))
  | Some _ => Err TypeError
  end.

(** [_parse_time(a) <= _parse_time(b)] *)
Definition time_le (a b : string) : result bool :=
  let! ta := some_or ValueError (read_time a) in
  let! tb := some_or ValueError (read_time b) in
  Ok (ta <=? tb).

Definition role_ok (r : RolePolicy) : bool :=
  is_sorted (rp_required_capabilities r) && is_sorted (rp_allowed_action_classes r)
  && is_sorted (rp_allowed_data_classes r) && is_sorted (rp_allowed_zones r)
  && is_sorted (rp_allowed_retentions r) && is_sorted (rp_retryable r).
Definition policy_ok (p : RoutingPolicy) : bool :=
  is_some (rm_revision (pl_meta p))
  && (map rp_role (pl_roles p) == CANONICAL_MODEL_ROLES) && forallb role_ok (pl_roles p).

Definition observation_ok (ob : Observation) : result bool :=
  let! stale := time_le (ob_valid_until ob) (ob_observed_at ob) in
  Ok (is_sorted (ob_capabilities ob) && negb stale).

Definition identities (pc : PriceCatalog) : list (string * string) :=
  map (fun e => (pe_deployment_id e, pe_identity_digest e)) (pc_entries pc).
Definition price_catalog_ok (pc : PriceCatalog) : result bool :=
  let! stale := time_le (pc_valid_until pc) (pc_valid_from pc) in
  Ok (is_some (rm_revision (pc_meta pc)) && negb stale
      && (identities pc == py_sorted pair_leb (identities pc))
      && bool_decide (NoDup (identities pc))).

Definition request_ok (rq : RouteRequest) : result bool :=
  let! late := time_le (rq_deadline_at rq) (rm_created_at (rq_meta rq)) in
  Ok (is_sorted (rq_required_capabilities rq) && is_sorted (rq_allowed_zones rq)
      && is_sorted (rq_allowed_retentions rq) && negb late
      && Bool.eqb (is_some (rq_execution_plan rq)) (is_some (rq_aggregate rq))
      && match rq_aggregate rq with
         | Some ag =>
             (rq_input_ceiling rq <=? ag_input_ceiling ag)
             && (rq_output_ceiling rq <=? ag_output_ceiling ag)
             && (ag_cost ag =? rq_maximum_cost rq)
         | None => true
         end).

Definition decision_ok (d : RouteDecision) : result bool :=
  let allowed := dc_decision d == "allowed" in
  let! late := time_le (dc_valid_until d) (rm_created_at (dc_meta d)) in
  let reservation := dc_selected d ≫= se_reservation in
  Ok (Bool.eqb allowed (is_some (dc_selected d))
      && Bool.eqb allowed (dc_reason d == "eligible") && negb late
      && Bool.eqb (dc_attempt d =? 1) (negb (is_some (dc_fallback_from d)))
      && match dc_execution_plan d with
         | None => negb (is_some reservation)
         | Some _ => negb allowed || is_some reservation
         end
      && match reservation, dc_selected d with
         | Some r, Some se => ag_cost r =? se_reserved_cost se
         | _, _ => true
         end).

Definition explain_ok (x : Explain) : bool :=
  is_sorted (map xc_digest (ex_candidates x))
  && forallb (fun c => is_sorted (xc_reasons c)) (ex_candidates x)
  && Bool.eqb (ex_decision x == "allowed") (is_some (ex_selected x)).

(** [_semantic_errors(kind, document) == []] *)
Definition kind_ok (kind : string) (doc : json) : result bool :=
  if kind == "ModelRoutingPolicy" then
    let! p := some_or KeyError (as_policy doc) in Ok (policy_ok p)
  else if kind == "ObservedModelCapabilities" then
    let! o := some_or KeyError (as_observation doc) in observation_ok o
  else if kind == "TrustedPriceCatalog" then
    let! c := some_or KeyError (as_price_catalog doc) in price_catalog_ok c
  else if kind == "ModelRouteRequest" then
    let! r := some_or KeyError (as_request doc) in request_ok r
  else if kind == "ModelRouteDecision" then
    let! d := some_or KeyError (as_decision doc) in decision_ok d
  else
    let! x := some_or KeyError (as_explain doc) in Ok (explain_ok x).
Definition semantic_ok (kind : string) (o : list (string * json)) : result bool :=
  let! m := some_or KeyError (as_meta o) in
  let! ok := kind_ok kind (JObj o) in
  Ok ((rm_digest m == routing_record_digest o) && ok).

(** [routing_contract_errors(document) == []] *)
Definition routing_contract_ok (doc : json) : result bool :=
  match doc with
  | JObj o =>
      match jget "kind" o with
      | JStr kind =>
          match snd <$> list_find (fun ks => ks.1 = kind) ROUTING_SCHEMA_BY_KIND with
          | Some (_, s) => if is_valid s doc then semantic_ok kind o else Ok false
          | None => Ok false
          end
      | JArr _ | JObj _ => Err TypeError                     (* unhashable *)
      | _ => Ok false
      end
  | _ => Ok false
  end.

Definition validate_routing_record (doc : json) : result json :=
  let! ok := routing_contract_ok doc in
  raise ContractValidationError when (negb ok) else Ok doc.

(** [document["kind"]] *)
Definition kind_of (doc : json) : string :=
  match doc with JObj o => match jget "kind" o with JStr k => k | _ => EmptyString end | _ => EmptyString end.
End Validation.
