(* ===== verification/Router.v ===== *)
(** * The deterministic model router, src/eco_routing/router.py

    [DeploymentCandidate] projects a canonical deployment; [Router] is the object
    [DeterministicModelRouter] holds after its constructor validated the policy
    and the price catalog; [route] and [fallback] are its two entry points.  A
    [datetime] that was converted to UTC is its instant in microseconds. *)

From S2P Require Import Prelude Json Digest PyTime PyClock Schema RouteRecords.

Definition NON_FALLBACK_FAILURES : list string :=
  ["policy"; "privacy"; "authority"; "schema"; "ambiguous"; "provider-identity-drift";
   "deadline"; "budget"].
Definition RETRYABLE_FAILURES : list string := ["capacity"; "transport-retryable"].

(** A value that can be put into a Python set. *)
Definition hashable (j : json) : bool := match j with JArr _ | JObj _ => false | _ => true end.
(** [len(l) == len(set(l))], a [TypeError] on an unhashable element. *)
Fixpoint all_distinct (l : list json) : bool :=
  match l with [] => true | x :: l' => negb (existsb (py_eq x) l') && all_distinct l' end.
Definition set_is_exact (l : list json) : result bool :=
  if forallb hashable l then Ok (all_distinct l) else Err TypeError.
(** [value in {...}] for a set of strings. *)
Definition in_str_set (j : json) (l : list string) : result bool :=
  match j with
  | JStr s => Ok (s in? l)
  | _ => if hashable j then Ok false else Err TypeError
  end.

Record DeploymentCandidate : Type := {
  deployment_id : json; deployment_digest : string; identity_digest : string;
  candidate_digest : string; provider_class : string; zone : string; retention : string;
  allowed_data_classes : list string; enabled : bool;
}.
(** [candidate.deployment_id == s] *)
Definition id_is (c : DeploymentCandidate) (s : string) : bool :=
  json_is_optstr (deployment_id c) (Some s).

Record RoutingOutcome : Type := { out_decision : json; out_explain : json }.

Record CandidateEvaluation : Type := {
  ev_candidate : DeploymentCandidate; ev_reasons : list string; ev_cost : option Z;
  ev_latency : option Z; ev_evidence_digest : option string;
  ev_evidence_valid_until : option Z; ev_preference : nat;
}.
Definition eligible (e : CandidateEvaluation) : bool :=
  match ev_reasons e with [] => true | _ => false end.

(** The tuple evaluations are ordered by, and Python's [<=] on it. *)
Definition rank_key : Type := Z * Z * nat * string.
Definition rank (e : CandidateEvaluation) : result rank_key :=
  match ev_cost e, ev_latency e with
  | Some c, Some l => Ok (c, l, ev_preference e, candidate_digest (ev_candidate e))
  | _, _ => Err AssertionError
  end.
Definition rank_leb (a b : rank_key) : bool :=
  let '(c1, l1, p1, d1) := a in
  let '(c2, l2, p2, d2) := b in
  if c1 =? c2 then
    if l1 =? l2 then
      if (p1 =? p2)%nat then String.leb d1 d2 else (p1 <=? p2)%nat
    else l1 <=? l2
  else c1 <=? c2.

(** [l.index(x)], or [len(l)] when the candidate is not listed. *)
Fixpoint preference_of (c : DeploymentCandidate) (l : list string) : nat :=
  match l with [] => 0 | s :: l' => if id_is c s then 0 else S (preference_of c l') end.

(** [tuple(sorted(set(l)))] *)
Definition sorted_set (l : list string) : list string := sorted_strs (remove_dups l).
(** [{r} if b else set()] *)
Definition because (b : bool) (r : string) : list string := if b then [r] else [].

Section Router.
Context `{FromIso} `{Crypto} `{Jsonschema}.

Definition from_canonical_deployment (value : list (string * json)) : result DeploymentCandidate :=
  let invalid := RoutingError "ECO_ROUTING_DEPLOYMENT_INVALID" in
  match deployment_identity_digest value with
  | Err (RuntimePolicyError _) => Err (RoutingError "ECO_ROUTING_IDENTITY_INVALID")
  | Err e => Err e
  | Ok identity =>
      raise invalid when
        (negb (has_keys ["id"; "provider"; "zone"; "retention"; "allowedDataClasses"; "enabled"]
                        value)) else
      let! zone_ok := in_str_set (jget "zone" value) zones in
      raise invalid when (negb zone_ok) else
      let! retention_ok := in_str_set (jget "retention" value) retentions in
      raise invalid when (negb retention_ok) else
      match jget "allowedDataClasses" value with
      | JArr [] => Err invalid
      | JArr classes =>
          let! distinct := set_is_exact classes in
          raise invalid when (negb distinct) else
          match as_strs (JArr classes) with
          | Some names =>
              raise invalid when (negb (forallb (fun n => n in? data_classes) names)) else
              match jget "enabled" value, jget "zone" value, jget "retention" value with
              | JBool on, JStr z, JStr r =>
                  let digest := semantic_digest (JObj value) in
                  Ok {| deployment_id := jget "id" value; deployment_digest := digest;
                        identity_digest := identity;
                        candidate_digest :=
                          semantic_digest
                            (JObj [("domain", JStr "eco-model-routing-candidate-v1alpha1");
                                   ("deploymentId", jget "id" value);
                                   ("deploymentDigest", JStr digest);
                                   ("deploymentIdentityDigest", JStr identity)]);
                        provider_class :=
                          if json_is_optstr (jget "provider" value) (Some "local")
                          then "local" else "cloud";
                        zone := z; retention := r;
                        allowed_data_classes := sorted_strs names; enabled := on |}
              | _, _, _ => Err invalid
              end
          | None => Err invalid
          end
      | _ => Err invalid
      end
  end.

Definition candidates_from_deployment_catalog (value : list (string * json))
  : result (list DeploymentCandidate) :=
  let invalid := RoutingError "ECO_ROUTING_DEPLOYMENT_INVALID" in
  match json_is_optstr (jget "kind" value) (Some "DeploymentCatalog"), jget "deployments" value with
  | true, JArr deployments =>
      let on item :=
        match item with
        | JObj o => match jget "enabled" o with JBool true => Some o | _ => None end
        | _ => None
        end in
      let! candidates := map_result from_canonical_deployment (omap on deployments) in
      let! distinct := set_is_exact (map deployment_id candidates) in
      raise invalid when (negb distinct) else Ok candidates
  | _, _ => Err invalid
  end.

(** [_safe_validate(record, kind)] *)
Definition safe_validate (doc : json) (kind : string) : result json :=
  let invalid := RoutingError "ECO_ROUTING_CONTRACT_INVALID" in
  match validate_routing_record doc with
  | Ok validated => raise invalid when (kind_of validated != kind) else Ok validated
  | Err ContractValidationError | Err TypeError | Err ValueError => Err invalid
  | Err e => Err e
  end.

(** [_parse_time(value)] *)
Definition parse_time (s : string) : result Z :=
  some_or (RoutingError "ECO_ROUTING_TIME_INVALID") (read_time s).
(** [now.astimezone(timezone.utc)], refusing a naive clock. *)
Definition routing_clock (now : datetime) : result Z :=
  match astimezone_utc now with
  | Some r => r
  | None => Err (RoutingError "ECO_ROUTING_CLOCK_INVALID")
  end.

(** ** DeterministicModelRouter *)

Record Router : Type := { ro_policy : RoutingPolicy; ro_prices : PriceCatalog }.
Definition policy_digest (r : Router) : string := rm_digest (pl_meta (ro_policy r)).
Definition price_digest (r : Router) : string := rm_digest (pc_meta (ro_prices r)).

Definition new_router (policy price_catalog : json) : result Router :=
  let! policy := safe_validate policy "ModelRoutingPolicy" in
  let! catalog := safe_validate price_catalog "TrustedPriceCatalog" in
  let! p := some_or KeyError (as_policy policy) in
  let! c := some_or KeyError (as_price_catalog catalog) in
  Ok {| ro_policy := p; ro_prices := c |}.

(** [self._roles[role]]; a repeated role would keep the last entry. *)
Definition role_of (r : Router) (role : string) : result RolePolicy :=
  some_or KeyError
    (foldl (fun acc x => if rp_role x == role then Some x else acc) None (pl_roles (ro_policy r))).

Definition observation_map (docs : list json) : result (gmap (string * string) Observation) :=
  foldl
    (fun acc raw =>
       let! m := acc in
       let! doc := safe_validate raw "ObservedModelCapabilities" in
       let! o := some_or KeyError (as_observation doc) in
       let key := (ob_deployment_id o, ob_identity_digest o) in
       raise (RoutingError "ECO_ROUTING_EVIDENCE_CONFLICT") when (is_some (m !! key)) else
       Ok (<[key := o]> m))
    (Ok ∅) docs.

Definition price_map (r : Router) : gmap (string * string) PriceEntry :=
  foldl (fun m e => <[(pe_deployment_id e, pe_identity_digest e) := e]> m) ∅
        (pc_entries (ro_prices r)).

(** The router's [_reservation]: the whole cost in micro-USD, rounded up. *)
Definition reservation (price : PriceEntry) (rq : RouteRequest) : Z :=
  let maximum_calls := match rq_aggregate rq with Some a => ag_maximum_calls a | None => 1 end in
  let input_ceiling :=
    match rq_aggregate rq with Some a => ag_input_ceiling a | None => rq_input_ceiling rq end in
  let output_ceiling :=
    match rq_aggregate rq with Some a => ag_output_ceiling a | None => rq_output_ceiling rq end in
  let variable := input_ceiling * pe_input_price price + output_ceiling * pe_output_price price in
  maximum_calls * pe_fixed_price price + (variable + 999999) / 1000000.

(** [d.get((candidate.deployment_id, candidate.identity_digest))] and the
    emptiness of the entries of the same deployment. *)
Definition get_binding {V} (m : gmap (string * string) V) (c : DeploymentCandidate) : option V :=
  match deployment_id c with JStr i => m !! (i, identity_digest c) | _ => None end.
Definition has_same_id {V} (m : gmap (string * string) V) (c : DeploymentCandidate) : bool :=
  existsb (fun kv => id_is c kv.1.1) (map_to_list m).

Definition local_profile (rq : RouteRequest) : bool :=
  rq_execution_profile rq == "m6.1-local-zero-cost".

(** The reasons that come from the candidate, the role and the request alone. *)
Definition static_reasons (c : DeploymentCandidate) (rq : RouteRequest) (role : RolePolicy)
    (excluded : list string) : list string :=
  because (candidate_digest c in? excluded) "fallback-candidate-excluded"
  ++ because (negb (enabled c)) "deployment-disabled"
  ++ because (negb (existsb (id_is c) (rp_candidate_ids role))) "policy-candidate-denied"
  ++ because (negb (zone c in? rp_allowed_zones role) || negb (zone c in? rq_allowed_zones rq))
             "zone-denied"
  ++ because (negb (rq_data_class rq in? rp_allowed_data_classes role)
              || negb (rq_data_class rq in? allowed_data_classes c)) "data-class-denied"
  ++ because (negb (retention c in? rp_allowed_retentions role)
              || negb (retention c in? rq_allowed_retentions rq)) "retention-denied"
  ++ because (negb (rq_allow_cloud rq) && (provider_class c == "cloud")) "cloud-denied"
  ++ because (local_profile rq && (provider_class c != "local")) "local-profile-denied".

(** The reasons an observation gives. *)
Definition evidence_reasons (o : Observation) (rq : RouteRequest) (role : RolePolicy) (now : Z)
  : result (list string * Z) :=
  let! observed_at := parse_time (ob_observed_at o) in
  let! expiry := parse_time (ob_valid_until o) in
  let! finish := plus_micros now (ob_latency o * 1000) in
  let! deadline := parse_time (rq_deadline_at rq) in
  let required := rp_required_capabilities role ++ rq_required_capabilities rq in
  let token_requirement :=
    Z.max (rq_required_context rq) (rq_input_ceiling rq + rq_output_ceiling rq) in
  Ok (because ((now <? observed_at) || (expiry <=? now)) "capability-evidence-stale"
      ++ because (negb (forallb (fun x => x in? ob_capabilities o) required)) "capability-missing"
      ++ because (ob_context_window o <? token_requirement) "context-window-insufficient"
      ++ because (deadline <? finish) "deadline-insufficient",
      expiry).

(** The reasons a price gives. *)
Definition price_reasons (cost : Z) (rq : RouteRequest) (role : RolePolicy) : list string :=
  because (Z.min (rq_maximum_cost rq) (rp_maximum_cost role) <? cost) "cost-denied"
  ++ because (local_profile rq && negb (cost =? 0)) "local-profile-cost-denied".

Definition candidate_evaluation (rq : RouteRequest) (role : RolePolicy)
    (observations : gmap (string * string) Observation)
    (prices : gmap (string * string) PriceEntry) (now : Z) (excluded : list string)
    (c : DeploymentCandidate) : result CandidateEvaluation :=
  let! evidence :=
    match get_binding observations c with
    | None =>
        Ok ([if has_same_id observations c then "provider-identity-drift"
             else "capability-evidence-missing"], None, None)
    | Some o =>
        let! re := evidence_reasons o rq role now in
        Ok (re.1, Some o, Some re.2)
    end in
  let pricing :=
    match get_binding prices c with
    | None =>
        ([if has_same_id prices c then "provider-identity-drift" else "price-missing"], None)
    | Some p =>
        let cost := reservation p rq in (price_reasons cost rq role, Some cost)
    end in
  Ok {| ev_candidate := c;
        ev_reasons :=
          sorted_set (static_reasons c rq role excluded ++ evidence.1.1 ++ pricing.1);
        ev_cost := pricing.2;
        ev_latency := ob_latency <$> evidence.1.2;
        ev_evidence_digest := (fun o => rm_digest (ob_meta o)) <$> evidence.1.2;
        ev_evidence_valid_until := evidence.2;
        ev_preference := preference_of c (rp_candidate_ids role) |}.

(** ** The outcome records *)

Definition rank_digest (k : rank_key) : string :=
  let '(c, l, p, d) := k in
  semantic_digest
    (JObj [("domain", JStr "eco-routing-rank-v1alpha1");
           ("rank", JArr [JInt c; JInt l; JInt (Z.of_nat p); JStr d])]).

Definition explain_candidate (e : CandidateEvaluation) : result json :=
  let excluded := "fallback-candidate-excluded" in? ev_reasons e in
  let! digest :=
    (if eligible e then let! k := rank e in Ok (JStr (rank_digest k)) else Ok JNull) in
  Ok (JObj [("candidateDigest", JStr (candidate_digest (ev_candidate e)));
            ("outcome", JStr (if excluded then "excluded"
                              else if eligible e then "eligible" else "rejected"));
            ("reasonCodes", JArr (map JStr (ev_reasons e)));
            ("rankDigest", digest)]).

(** [if d is not None: spec[k] = d] *)
Definition opt_item (k : string) (d : option string) : list (string * json) :=
  match d with Some v => [(k, JStr v)] | None => [] end.

(** The [selected] record; incomplete inputs are an [AssertionError]. *)
Definition selected_record (rq : RouteRequest) (e : CandidateEvaluation) : result json :=
  match ev_cost e, ev_latency e, ev_evidence_digest e with
  | Some cost, Some latency, Some evidence =>
      let c := ev_candidate e in
      Ok (JObj
        ([("deploymentId", deployment_id c); ("deploymentDigest", JStr (deployment_digest c));
          ("deploymentIdentityDigest", JStr (identity_digest c));
          ("observedEvidenceDigest", JStr evidence);
          ("candidateDigest", JStr (candidate_digest c));
          ("reservedCostMicrousd", JInt cost); ("estimatedLatencyP95Millis", JInt latency)]
         ++ match rq_aggregate rq with
            | Some a =>
                [("aggregateReservation",
                  JObj [("maximumCalls", JInt (ag_maximum_calls a));
                        ("inputTokenCeiling", JInt (ag_input_ceiling a));
                        ("outputTokenCeiling", JInt (ag_output_ceiling a));
                        ("reservedCostMicrousd", JInt cost)])]
            | None => []
            end))
  | _, _, _ => Err AssertionError
  end.

Definition routing_record (kind id : string) (now : Z) (spec : list (string * json))
  : list (string * json) :=
  [("apiVersion", JStr ROUTING_API_VERSION); ("kind", JStr kind);
   ("metadata", JObj [("id", JStr id); ("createdAt", JStr (timestamp now))]);
   ("spec", JObj spec)].

(** [explain["metadata"]["recordDigest"]] *)
Definition record_digest (doc : json) : result string :=
  match doc with
  | JObj o => let! m := some_or KeyError (as_meta o) in Ok (rm_digest m)
  | _ => Err KeyError
  end.

(** What a call of [_outcome] is given besides the router and the request. *)
Record OutcomeArgs : Type := {
  oa_decision_id : string; oa_explain_id : string; oa_now : Z; oa_reason : string;
  oa_evaluations : list CandidateEvaluation; oa_selected : option CandidateEvaluation;
  oa_attempt : Z; oa_fallback_from : option string; oa_validity_limit : Z;
}.

Definition explain_spec (r : Router) (rq : RouteRequest) (a : OutcomeArgs) (candidates : list json)
  : list (string * json) :=
  [("requestDigest", JStr (rm_digest (rq_meta rq))); ("policyDigest", JStr (policy_digest r));
   ("priceCatalogDigest", JStr (price_digest r));
   ("decision", JStr (if is_some (oa_selected a) then "allowed" else "denied"));
   ("reasonCode", JStr (oa_reason a));
   ("selectedCandidateDigest",
     json_of_optstr ((fun e => candidate_digest (ev_candidate e)) <$> oa_selected a));
   ("candidates", JArr candidates)]
  ++ opt_item "executionPlanDigest" (rq_execution_plan rq).

Definition decision_spec (r : Router) (rq : RouteRequest) (a : OutcomeArgs) (selected : json)
    (safe_until : Z) (explain_digest : string) : list (string * json) :=
  [("requestDigest", JStr (rm_digest (rq_meta rq))); ("policyDigest", JStr (policy_digest r));
   ("priceCatalogDigest", JStr (price_digest r));
   ("decision", JStr (if is_some (oa_selected a) then "allowed" else "denied"));
   ("reasonCode", JStr (oa_reason a)); ("routeAttempt", JInt (oa_attempt a));
   ("selected", selected); ("validUntil", JStr (timestamp safe_until));
   ("fallbackFromDigest", json_of_optstr (oa_fallback_from a));
   ("explainDigest", JStr explain_digest)]
  ++ opt_item "executionPlanDigest" (rq_execution_plan rq).

Definition outcome (r : Router) (rq : RouteRequest) (a : OutcomeArgs) : result RoutingOutcome :=
  let! candidates :=
    map_result explain_candidate
      (py_sorted (fun x y => String.leb (candidate_digest (ev_candidate x))
                                        (candidate_digest (ev_candidate y)))
                 (oa_evaluations a)) in
  let! explain :=
    seal_routing_record
      (routing_record "RoutingExplain" (oa_explain_id a) (oa_now a) (explain_spec r rq a candidates)) in
  let! _ := validate_routing_record explain in
  let! soonest := plus_micros (oa_now a) 1 in
  let safe_until := Z.max soonest (oa_validity_limit a) in
  let! selected :=
    match oa_selected a with Some e => selected_record rq e | None => Ok JNull end in
  let! explain_digest := record_digest explain in
  let! decision :=
    seal_routing_record
      (routing_record "ModelRouteDecision" (oa_decision_id a) (oa_now a)
         (decision_spec r rq a selected safe_until explain_digest)) in
  let! _ := validate_routing_record decision in
  Ok {| out_decision := decision; out_explain := explain |}.

(** ** Routing *)

(** The private keyword arguments of [route]. *)
Record Attempt : Type := {
  at_excluded : list string; at_number : Z; at_fallback_from : option string;
}.
Definition first_attempt : Attempt :=
  {| at_excluded := []; at_number := 1; at_fallback_from := None |}.

(** The first precondition of the request that fails. *)
Definition precondition_reason (r : Router) (rq : RouteRequest) (role : RolePolicy)
    (current deadline valid_from price_valid_until : Z) : option string :=
  if rq_policy_digest rq != policy_digest r then Some "policy-binding-mismatch"
  else if negb (rq_action_class rq in? rp_allowed_action_classes role)
       || negb (rq_data_class rq in? rp_allowed_data_classes role)
       || (deadline <=? current)
       || (local_profile rq && (rq_allow_cloud rq || negb (rq_maximum_cost rq =? 0)))
       then Some "request-policy-denied"
  else if negb ((valid_from <=? current) && (current <? price_valid_until))
       then Some "price-catalog-stale"
  else None.

(** [sorted(..., key=rank)[0]], [None] of an empty sequence. *)
Definition select (evaluations : list CandidateEvaluation) : result (option CandidateEvaluation) :=
  let! keyed :=
    map_result (fun e => let! k := rank e in Ok (k, e)) (List.filter eligible evaluations) in
  Ok (snd <$> head (py_sorted (fun x y => rank_leb x.1 y.1) keyed)).

Definition route (r : Router) (request : json) (candidates : list DeploymentCandidate)
    (observations : list json) (now : datetime) (decision_id explain_id : string) (att : Attempt)
  : result RoutingOutcome :=
  let! current := routing_clock now in
  let! doc := safe_validate request "ModelRouteRequest" in
  let! rq := some_or KeyError (as_request doc) in
  let! role := role_of r (rq_role rq) in
  let! deadline := parse_time (rq_deadline_at rq) in
  let! expires := plus_micros current (pl_ttl_seconds (ro_policy r) * 1000000) in
  let! valid_from := parse_time (pc_valid_from (ro_prices r)) in
  let! price_valid_until := parse_time (pc_valid_until (ro_prices r)) in
  let base := Z.min (Z.min expires deadline) price_valid_until in
  let finish reason evaluations selected limit :=
    outcome r rq
      {| oa_decision_id := decision_id; oa_explain_id := explain_id; oa_now := current;
         oa_reason := reason; oa_evaluations := evaluations; oa_selected := selected;
         oa_attempt := at_number att; oa_fallback_from := at_fallback_from att;
         oa_validity_limit := limit |} in
  match precondition_reason r rq role current deadline valid_from price_valid_until with
  | Some reason => finish reason [] None base
  | None =>
      let! distinct := set_is_exact (map deployment_id candidates) in
      raise (RoutingError "ECO_ROUTING_CANDIDATE_CONFLICT") when (negb distinct) else
      let! seen := observation_map observations in
      let! evaluations :=
        map_result (candidate_evaluation rq role seen (price_map r) current (at_excluded att))
                   candidates in
      let! selected := select evaluations in
      let limit :=
        match selected ≫= ev_evidence_valid_until with
        | Some until => Z.min base until
        | None => base
        end in
      finish (if is_some selected then "eligible" else "no-eligible-candidate")
             evaluations selected limit
  end.

(** Why a fallback from [previous] is refused, if it is. *)
Definition fallback_refusal (r : Router) (rq : RouteRequest) (role : RolePolicy)
    (previous : RouteDecision) (valid_until current : Z) (failure_class : string)
    (candidates : list DeploymentCandidate) : option string :=
  match dc_selected previous with
  | None => Some "fallback-not-authorized"
  | Some selected =>
      if (dc_decision previous != "allowed")
         || (dc_request_digest previous != rm_digest (rq_meta rq))
         || (dc_policy_digest previous != policy_digest r)
         || (dc_price_digest previous != price_digest r)
         || (dc_execution_plan previous != rq_execution_plan rq)
         || (valid_until <=? current)
      then Some "fallback-not-authorized"
      else if rp_max_route_attempts role <=? dc_attempt previous then Some "fallback-exhausted"
      else if (failure_class in? NON_FALLBACK_FAILURES)
              || negb (failure_class in? RETRYABLE_FAILURES)
              || negb (failure_class in? rp_retryable role)
      then Some "fallback-not-authorized"
      else
        match List.find (fun c => id_is c (se_deployment_id selected)) candidates with
        | Some c =>
            if identity_digest c == se_identity_digest selected then None
            else Some "fallback-identity-drift"
        | None => Some "fallback-identity-drift"
        end
  end.

Definition fallback (r : Router) (request previous_decision : json) (failure_class : string)
    (candidates : list DeploymentCandidate) (observations : list json) (now : datetime)
    (decision_id explain_id : string) : result RoutingOutcome :=
  let! current := routing_clock now in
  let! doc := safe_validate request "ModelRouteRequest" in
  let! rq := some_or KeyError (as_request doc) in
  let! pdoc := safe_validate previous_decision "ModelRouteDecision" in
  let! previous := some_or KeyError (as_decision pdoc) in
  let! role := role_of r (rq_role rq) in
  let previous_digest := rm_digest (dc_meta previous) in
  let! valid_until := parse_time (dc_valid_until previous) in
  match fallback_refusal r rq role previous valid_until current failure_class candidates,
        dc_selected previous with
  | Some reason, _ =>
      let! limit := plus_micros current 1 in
      outcome r rq
        {| oa_decision_id := decision_id; oa_explain_id := explain_id; oa_now := current;
           oa_reason := reason; oa_evaluations := []; oa_selected := None; oa_attempt := 2;
           oa_fallback_from := Some previous_digest; oa_validity_limit := limit |}
  | None, Some selected =>
      route r doc candidates observations now decision_id explain_id
        {| at_excluded := [se_candidate_digest selected]; at_number := 2;
           at_fallback_from := Some previous_digest |}
  | None, None => Err AssertionError             (* a refusal covers this case *)
  end.
End Router.
