(* ===== verification/RouteRecordFacts.v ===== *)
(** * What a validated routing record holds

    On a document that passed its schema every reader of [RouteRecords]
    succeeds, and the fields have the form the schema promises.  The last part
    is the converse used for the records the router writes. *)

From S2P Require Import Prelude Json Digest PyTime PyClock Schema RouteRecords.
From Stdlib Require Import Ascii.

(** ** One property at a time *)

Section Getters.
Context (req : list string) (ps : list (string * schema)) (o : list (string * json)).
Context (Ho : conforms (SObj req ps) (JObj o) = true).

Lemma str_at_ok k p :
  k ∈ req → prop_schema k ps = Some (SStr p) → ∃ s, str_at k o = Some s ∧ p s = true.
Proof using Ho.
  intros Hk Hp. destruct (conforms_required _ _ _ _ _ Ho Hk Hp) as (v & Hv & Hc).
  unfold str_at. rewrite Hv. destruct v; try discriminate. by exists s.
Qed.
Lemma enum_at_ok k l :
  k ∈ req → prop_schema k ps = Some (SEnum l) → ∃ s, str_at k o = Some s ∧ s ∈ l.
Proof using Ho.
  intros Hk Hp. destruct (conforms_required _ _ _ _ _ Ho Hk Hp) as (v & Hv & Hc).
  unfold str_at. rewrite Hv. destruct v; try discriminate. exists s. split; [done|].
  cbn [conforms] in Hc. by breflect.
Qed.
Lemma int_at_ok k lo :
  k ∈ req → prop_schema k ps = Some (SInt lo) → ∃ z, int_at k o = Some z ∧ lo ≤ z.
Proof using Ho.
  intros Hk Hp. destruct (conforms_required _ _ _ _ _ Ho Hk Hp) as (v & Hv & Hc).
  unfold int_at. rewrite Hv. destruct v; try discriminate. exists z. split; [done|].
  cbn [conforms] in Hc. by breflect.
Qed.
Lemma range_at_ok k lo hi :
  k ∈ req → prop_schema k ps = Some (SRange lo hi) → ∃ z, int_at k o = Some z ∧ lo ≤ z ≤ hi.
Proof using Ho.
  intros Hk Hp. destruct (conforms_required _ _ _ _ _ Ho Hk Hp) as (v & Hv & Hc).
  unfold int_at. rewrite Hv. destruct v; try discriminate. exists z. split; [done|].
  cbn [conforms] in Hc. by breflect.
Qed.
Lemma bool_at_ok k : k ∈ req → prop_schema k ps = Some SBool → ∃ b, bool_at k o = Some b.
Proof using Ho.
  intros Hk Hp. destruct (conforms_required _ _ _ _ _ Ho Hk Hp) as (v & Hv & Hc).
  unfold bool_at. rewrite Hv. destruct v; try discriminate. by eexists.
Qed.
Lemma strs_at_ok k n p :
  k ∈ req → prop_schema k ps = Some (SStrs n p) →
  ∃ l, strs_at k o = Some l ∧ NoDup l ∧ Forall (fun s => p s = true) l.
Proof using Ho.
  intros Hk Hp. destruct (conforms_required _ _ _ _ _ Ho Hk Hp) as (v & Hv & Hc).
  unfold strs_at. rewrite Hv. destruct v; try discriminate. cbn [conforms] in Hc.
  cbn [mbind option_bind].
  destruct (as_strs (JArr l)) as [vs|]; [|discriminate]. exists vs. breflect.
  split_and!; [done..|]. by apply List.Forall_forall, forallb_forall.
Qed.
Lemma obj_at_ok k req' ps' :
  k ∈ req → prop_schema k ps = Some (SObj req' ps') →
  ∃ v, obj_at k o = Some v ∧ conforms (SObj req' ps') (JObj v) = true.
Proof using Ho.
  intros Hk Hp. destruct (conforms_required _ _ _ _ _ Ho Hk Hp) as (v & Hv & Hc).
  unfold obj_at. rewrite Hv. destruct v; try discriminate. by eexists.
Qed.
Lemma objs_at_ok k lo req' ps' :
  k ∈ req → (prop_schema k ps = Some (SList lo (SObj req' ps')) ∨
             ∃ hi, prop_schema k ps = Some (SArr lo hi (SObj req' ps'))) →
  ∃ l, objs_at k o = Some l ∧ Forall (fun v => conforms (SObj req' ps') (JObj v) = true) l.
Proof using Ho.
  intros Hk Hp.
  assert (∃ l, jassoc k o = Some (JArr l) ∧ forallb (conforms (SObj req' ps')) l = true)
    as (l & Hl & Hc).
  { destruct Hp as [Hp|[hi Hp]]; destruct (conforms_required _ _ _ _ _ Ho Hk Hp) as (v & Hv & Hc);
      destruct v; try discriminate; exists l; (split; [done|]);
      cbn [conforms] in Hc; breflect; done. }
  unfold objs_at. rewrite Hl. clear Hl. induction l as [|x l IH]; [by exists []|].
  cbn [forallb] in Hc. apply andb_true_iff in Hc as [Hx Hl]. destruct (IH Hl) as (vs & Evs & Hvs).
  destruct x; try discriminate. exists (o0 :: vs). cbn [mapM mbind option_bind].
  rewrite Evs. split; [done|]. by constructor.
Qed.
(** An optional string, and an optional or nullable object. *)
Lemma str_at_opt k p :
  prop_schema k ps = Some (SStr p) ∨ prop_schema k ps = Some (SOneOf SNull (SStr p)) →
  ∀ s, str_at k o = Some s → p s = true.
Proof using Ho.
  intros Hp s Hs. unfold str_at in Hs. destruct (jassoc k o) as [[]|] eqn:E; try discriminate.
  injection Hs as <-. apply conforms_obj in Ho as (_ & _ & Hall).
  destruct (Hall _ _ (jassoc_elem _ _ _ E)) as (sc & Esc & Hc).
  destruct Hp as [Hp|Hp]; rewrite Hp in Esc; injection Esc as <-; [done|].
  cbn [conforms] in Hc. by rewrite xorb_false_l in Hc.
Qed.
Lemma opt_obj_at_ok {A} (f : list (string * json) → option A) (P : A → Prop) k req' ps' :
  (prop_schema k ps = Some (SObj req' ps') ∨ prop_schema k ps = Some (SOneOf SNull (SObj req' ps'))) →
  (∀ v, conforms (SObj req' ps') (JObj v) = true → ∃ a, f v = Some a ∧ P a) →
  ∃ r, opt_obj_at f k o = Some r ∧ (∀ a, r = Some a → P a).
Proof using Ho.
  intros Hp Hf. unfold opt_obj_at. destruct (jassoc k o) as [j|] eqn:E; [|by exists None].
  apply conforms_obj in Ho as (_ & _ & Hall).
  destruct (Hall _ _ (jassoc_elem _ _ _ E)) as (sc & Esc & Hc).
  assert (j = JNull ∨ ∃ v, j = JObj v ∧ conforms (SObj req' ps') (JObj v) = true) as [->|(v & -> & Hv)].
  { destruct Hp as [Hp|Hp]; rewrite Hp in Esc; injection Esc as <-.
    - destruct j; try discriminate. right. by eexists.
    - change (xorb (conforms SNull j) (conforms (SObj req' ps') j) = true) in Hc.
      destruct j; try discriminate; [by left|]. right. eexists. split; [done|].
      by rewrite xorb_false_l in Hc. }
  - by exists None.
  - destruct (Hf v Hv) as (a & -> & Ha). exists (Some a). split; [done|]. by intros ? [= <-].
Qed.
End Getters.

(** [member]: a concrete key of a concrete list. *)
Ltac member := apply (bool_decide_eq_true_1 _); vm_compute; reflexivity.

(** [ask H (L k) as x Hx]: the property [k] of the object [H] is about, by the
    getter lemma [L]; the reader's equation is rewritten in the goal. *)
Tactic Notation "ask" constr(H) uconstr(L) constr(k) "as" simple_intropattern(x)
    simple_intropattern(Hx) :=
  let E := fresh "E" in
  edestruct (L _ _ _ H k) as (x & E & Hx); [member|reflexivity|];
  rewrite E; cbn [mbind option_bind].

Section Facts.
Context `{FromIso}.

(** Texts the schemas accept as digests, identifiers and times. *)
Definition digest_text (s : string) : Prop := search_pattern is_digest s = true.
Definition id_text (s : string) : Prop := search_pattern is_identifier s = true.
Definition time_text (s : string) : Prop := is_date_time s = true.

Lemma time_text_read s : time_text s → ∃ t, read_time s = Some t.
Proof. unfold time_text, is_date_time. intros Ht. breflect. destruct H1 as [t Ht]. by exists t. Qed.

Record meta_wf (m : RouteMeta) : Prop := {
  mw_id : id_text (rm_id m); mw_created : time_text (rm_created_at m);
  mw_digest : digest_text (rm_digest m);
}.
Lemma as_meta_ok o m :
  obj_at "metadata" o = Some m → conforms route_metadata_schema (JObj m) = true →
  ∃ r, as_meta o = Some r ∧ meta_wf r.
Proof.
  intros Em Hm. unfold as_meta. rewrite Em. cbn [mbind option_bind].
  ask Hm str_at_ok "id" as i Hi. ask Hm str_at_ok "createdAt" as c Hc.
  ask Hm str_at_ok "recordDigest" as d Hd. eexists. split; [done|]. by constructor.
Qed.

(** A record of a known kind: its metadata and its spec. *)
Lemma record_ok kind req ps doc :
  conforms (record_schema kind (SObj req ps)) doc = true →
  ∃ o m sp, doc = JObj o ∧ jget "kind" o = JStr kind ∧ as_meta o = Some m ∧ meta_wf m ∧
    obj_at "spec" o = Some sp ∧ conforms (SObj req ps) (JObj sp) = true.
Proof.
  intros Hd. destruct doc as [| | | | |o]; try discriminate.
  unfold record_schema in Hd.
  edestruct (enum_at_ok _ _ _ Hd "kind") as (k & Ek & Hk); [member|reflexivity|].
  apply list_elem_of_singleton in Hk as ->.
  edestruct (obj_at_ok _ _ _ Hd "metadata") as (m & Em & Hm); [member|reflexivity|].
  destruct (as_meta_ok _ _ Em Hm) as (r & Er & Hr).
  edestruct (obj_at_ok _ _ _ Hd "spec") as (sp & Es & Hs); [member|reflexivity|].
  exists o, r, sp. split_and!; try done.
  unfold str_at in Ek. unfold jget. destruct (jassoc "kind" o) as [[]|]; try discriminate.
  by injection Ek as ->.
Qed.

(** ** The kinds *)

Record role_wf (r : RolePolicy) : Prop := {
  rw_ids : Forall id_text (rp_candidate_ids r); rw_cost : 0 ≤ rp_maximum_cost r;
  rw_attempts : 1 ≤ rp_max_route_attempts r ≤ 2;
}.
Lemma as_role_ok o :
  conforms policy_role_schema (JObj o) = true → ∃ r, as_role o = Some r ∧ role_wf r.
Proof.
  intros Ho. unfold as_role.
  ask Ho enum_at_ok "role" as r _. ask Ho strs_at_ok "requiredCapabilities" as cs _.
  ask Ho strs_at_ok "allowedActionClasses" as acs _.
  ask Ho strs_at_ok "allowedDataClasses" as dcs _. ask Ho strs_at_ok "allowedZones" as zs _.
  ask Ho strs_at_ok "allowedRetentions" as rs _. ask Ho strs_at_ok "candidateIds" as ids [_ Hids].
  ask Ho int_at_ok "maximumCostMicrousd" as mx Hmx. ask Ho obj_at_ok "fallback" as fb Hfb.
  ask Hfb range_at_ok "maxRouteAttempts" as att Hatt.
  ask Hfb strs_at_ok "retryableFailureClasses" as rt _.
  eexists. split; [done|]. by constructor.
Qed.

Lemma mapM_ok {A B} (f : A → option B) (P : A → Prop) (Q : B → Prop) l :
  (∀ x, P x → ∃ y, f x = Some y ∧ Q y) → Forall P l → ∃ ys, mapM f l = Some ys ∧ Forall Q ys.
Proof.
  intros Hf. induction 1 as [|x l Hx _ (ys & Eys & Hys)]; [by exists []|].
  destruct (Hf x Hx) as (y & Ey & Hy). exists (y :: ys). cbn [mapM mbind option_bind].
  rewrite Ey. cbn [mbind option_bind]. rewrite Eys. split; [done|by constructor].
Qed.

Record policy_wf (p : RoutingPolicy) : Prop := {
  pw_meta : meta_wf (pl_meta p); pw_ttl : 1 ≤ pl_ttl_seconds p ≤ 3600;
  pw_roles : Forall role_wf (pl_roles p);
}.
Lemma as_policy_ok doc :
  conforms policy_schema doc = true → ∃ p, as_policy doc = Some p ∧ policy_wf p.
Proof.
  intros (o & m & sp & -> & _ & Em & Hm & Es & Hs)%record_ok.
  unfold as_policy. rewrite Em. cbn [mbind option_bind]. rewrite Es. cbn [mbind option_bind].
  ask Hs range_at_ok "decisionTtlSeconds" as ttl Httl.
  destruct (objs_at_ok _ _ _ Hs "roles" 5 _ _ ltac:(member)
              (or_intror (ex_intro _ 5%nat eq_refl))) as (rs & Ers & Hrs).
  rewrite Ers. cbn [mbind option_bind].
  destruct (mapM_ok _ _ _ _ as_role_ok Hrs) as (roles & Er & Hr). rewrite Er.
  eexists. split; [done|]. by constructor.
Qed.

Record observation_wf (ob : Observation) : Prop := {
  ow_meta : meta_wf (ob_meta ob); ow_latency : 1 ≤ ob_latency ob ≤ 3600000;
  ow_window : 1 ≤ ob_context_window ob; ow_from : time_text (ob_observed_at ob);
  ow_until : time_text (ob_valid_until ob);
}.
Lemma as_observation_ok doc :
  conforms observation_schema doc = true → ∃ ob, as_observation doc = Some ob ∧ observation_wf ob.
Proof.
  intros (o & m & sp & -> & _ & Em & Hm & Es & Hs)%record_ok.
  unfold as_observation. rewrite Em. cbn [mbind option_bind]. rewrite Es. cbn [mbind option_bind].
  ask Hs str_at_ok "deploymentId" as d Hd. ask Hs str_at_ok "deploymentIdentityDigest" as i Hi.
  ask Hs strs_at_ok "capabilities" as cs Hcs. ask Hs int_at_ok "contextWindowTokens" as w Hw.
  ask Hs range_at_ok "latencyP95Millis" as l Hl. ask Hs str_at_ok "observedAt" as f Hf.
  ask Hs str_at_ok "validUntil" as u Hu. eexists. split; [done|]. by constructor.
Qed.

Record price_wf (e : PriceEntry) : Prop := {
  prw_input : 0 ≤ pe_input_price e; prw_output : 0 ≤ pe_output_price e;
  prw_fixed : 0 ≤ pe_fixed_price e;
}.
Lemma as_price_entry_ok o :
  conforms price_entry_schema (JObj o) = true → ∃ e, as_price_entry o = Some e ∧ price_wf e.
Proof.
  intros Ho. unfold as_price_entry.
  ask Ho str_at_ok "deploymentId" as d _. ask Ho str_at_ok "deploymentIdentityDigest" as i _.
  ask Ho int_at_ok "inputMicrousdPerMillionTokens" as a Ha.
  ask Ho int_at_ok "outputMicrousdPerMillionTokens" as b Hb.
  ask Ho int_at_ok "fixedRequestMicrousd" as f Hf. eexists. split; [done|]. by constructor.
Qed.

Record price_catalog_wf (pc : PriceCatalog) : Prop := {
  pcw_meta : meta_wf (pc_meta pc); pcw_from : time_text (pc_valid_from pc);
  pcw_until : time_text (pc_valid_until pc); pcw_entries : Forall price_wf (pc_entries pc);
}.
Lemma as_price_catalog_ok doc :
  conforms price_catalog_schema doc = true →
  ∃ pc, as_price_catalog doc = Some pc ∧ price_catalog_wf pc.
Proof.
  intros (o & m & sp & -> & _ & Em & Hm & Es & Hs)%record_ok.
  unfold as_price_catalog. rewrite Em. cbn [mbind option_bind]. rewrite Es. cbn [mbind option_bind].
  ask Hs str_at_ok "validFrom" as f Hf. ask Hs str_at_ok "validUntil" as u Hu.
  destruct (objs_at_ok _ _ _ Hs "entries" 1 _ _ ltac:(member) (or_introl eq_refl))
    as (es & Ees & Hes). rewrite Ees. cbn [mbind option_bind].
  destruct (mapM_ok _ _ _ _ as_price_entry_ok Hes) as (entries & Ee & He). rewrite Ee.
  eexists. split; [done|]. by constructor.
Qed.

Record aggregate_wf (a : Aggregate) : Prop := {
  aw_calls : 1 ≤ ag_maximum_calls a ≤ 10000; aw_input : 0 ≤ ag_input_ceiling a;
  aw_output : 1 ≤ ag_output_ceiling a; aw_cost : 0 ≤ ag_cost a;
}.
Lemma as_budget_ok o :
  conforms aggregate_budget_schema (JObj o) = true →
  ∃ a, as_aggregate "maximumCostMicrousd" o = Some a ∧ aggregate_wf a.
Proof.
  intros Ho. unfold as_aggregate. ask Ho range_at_ok "maximumCalls" as c Hc.
  ask Ho int_at_ok "inputTokenCeiling" as i Hi. ask Ho int_at_ok "outputTokenCeiling" as u Hu.
  ask Ho int_at_ok "maximumCostMicrousd" as m Hm. eexists. split; [done|]. by constructor.
Qed.
Lemma as_reservation_ok o :
  conforms reservation_schema (JObj o) = true →
  ∃ a, as_aggregate "reservedCostMicrousd" o = Some a ∧ aggregate_wf a.
Proof.
  intros Ho. unfold as_aggregate. ask Ho range_at_ok "maximumCalls" as c Hc.
  ask Ho int_at_ok "inputTokenCeiling" as i Hi. ask Ho int_at_ok "outputTokenCeiling" as u Hu.
  ask Ho int_at_ok "reservedCostMicrousd" as m Hm. eexists. split; [done|]. by constructor.
Qed.

Record request_wf (rq : RouteRequest) : Prop := {
  qw_meta : meta_wf (rq_meta rq); qw_role : rq_role rq ∈ CANONICAL_MODEL_ROLES;
  qw_input : 0 ≤ rq_input_ceiling rq; qw_output : 1 ≤ rq_output_ceiling rq;
  qw_cost : 0 ≤ rq_maximum_cost rq; qw_deadline : time_text (rq_deadline_at rq);
  qw_plan : ∀ d, rq_execution_plan rq = Some d → digest_text d;
  qw_aggregate : ∀ a, rq_aggregate rq = Some a → aggregate_wf a;
}.
Lemma as_request_ok doc :
  conforms request_schema doc = true → ∃ rq, as_request doc = Some rq ∧ request_wf rq.
Proof.
  intros (o & m & sp & -> & _ & Em & Hm & Es & Hs)%record_ok.
  unfold as_request. rewrite Em. cbn [mbind option_bind]. rewrite Es. cbn [mbind option_bind].
  ask Hs enum_at_ok "role" as ro Hro. ask Hs enum_at_ok "actionClass" as ac _.
  ask Hs enum_at_ok "dataClass" as dc _. ask Hs strs_at_ok "requiredCapabilities" as cs _.
  ask Hs int_at_ok "requiredContextTokens" as ctx _. ask Hs int_at_ok "inputTokenCeiling" as i Hi.
  ask Hs int_at_ok "outputTokenCeiling" as u Hu. ask Hs strs_at_ok "allowedZones" as zs _.
  ask Hs strs_at_ok "allowedRetentions" as rs _.
  destruct (bool_at_ok _ _ _ Hs "allowCloud" ltac:(member) eq_refl) as (cl & Ecl).
  rewrite Ecl. cbn [mbind option_bind].
  ask Hs int_at_ok "maximumCostMicrousd" as mx Hmx. ask Hs str_at_ok "deadlineAt" as dl Hdl.
  ask Hs enum_at_ok "executionProfile" as ep _. ask Hs str_at_ok "policyDigest" as pd _.
  destruct (opt_obj_at_ok _ _ _ Hs _ _ "aggregateBudget" _ _ (or_introl eq_refl) as_budget_ok)
    as (ag & Eag & Hag). rewrite Eag. cbn [mbind option_bind].
  eexists. split; [done|]. constructor; try done.
  intros d. apply (str_at_opt _ _ _ Hs "executionPlanDigest"). by left.
Qed.

Record selected_wf (se : Selected) : Prop := {
  sw_id : id_text (se_deployment_id se); sw_digest : digest_text (se_deployment_digest se);
  sw_identity : digest_text (se_identity_digest se);
  sw_evidence : digest_text (se_evidence_digest se);
  sw_candidate : digest_text (se_candidate_digest se);
  sw_cost : 0 ≤ se_reserved_cost se; sw_latency : 1 ≤ se_latency se;
  sw_reservation : ∀ a, se_reservation se = Some a → aggregate_wf a;
}.
Lemma as_selected_ok o :
  conforms selected_schema (JObj o) = true → ∃ se, as_selected o = Some se ∧ selected_wf se.
Proof.
  intros Ho. unfold as_selected. ask Ho str_at_ok "deploymentId" as d Hd.
  ask Ho str_at_ok "deploymentDigest" as dd Hdd. ask Ho str_at_ok "deploymentIdentityDigest" as i Hi.
  ask Ho str_at_ok "observedEvidenceDigest" as e He. ask Ho str_at_ok "candidateDigest" as c Hc.
  ask Ho int_at_ok "reservedCostMicrousd" as rc Hrc.
  ask Ho int_at_ok "estimatedLatencyP95Millis" as l Hl.
  destruct (opt_obj_at_ok _ _ _ Ho _ _ "aggregateReservation" _ _ (or_introl eq_refl)
              as_reservation_ok) as (r & Er & Hr). rewrite Er. cbn [mbind option_bind].
  eexists. split; [done|]. by constructor.
Qed.

Record decision_wf (d : RouteDecision) : Prop := {
  dw_meta : meta_wf (dc_meta d); dw_request : digest_text (dc_request_digest d);
  dw_policy : digest_text (dc_policy_digest d); dw_price : digest_text (dc_price_digest d);
  dw_decision : dc_decision d ∈ ["allowed"; "denied"]; dw_reason : dc_reason d ∈ decision_reasons;
  dw_attempt : 1 ≤ dc_attempt d ≤ 2;
  dw_selected : ∀ se, dc_selected d = Some se → selected_wf se;
  dw_until : time_text (dc_valid_until d);
  dw_from : ∀ x, dc_fallback_from d = Some x → digest_text x;
  dw_explain : digest_text (dc_explain_digest d);
  dw_plan : ∀ x, dc_execution_plan d = Some x → digest_text x;
}.
Lemma as_decision_ok doc :
  conforms decision_schema doc = true → ∃ d, as_decision doc = Some d ∧ decision_wf d.
Proof.
  intros (o & m & sp & -> & _ & Em & Hm & Es & Hs)%record_ok.
  unfold as_decision. rewrite Em. cbn [mbind option_bind]. rewrite Es. cbn [mbind option_bind].
  ask Hs str_at_ok "requestDigest" as rd Hrd. ask Hs str_at_ok "policyDigest" as pd Hpd.
  ask Hs str_at_ok "priceCatalogDigest" as pr Hpr. ask Hs enum_at_ok "decision" as d Hd.
  ask Hs enum_at_ok "reasonCode" as re Hre. ask Hs range_at_ok "routeAttempt" as a Ha.
  destruct (opt_obj_at_ok _ _ _ Hs _ _ "selected" _ _ (or_intror eq_refl) as_selected_ok)
    as (se & Ese & Hse). rewrite Ese. cbn [mbind option_bind].
  ask Hs str_at_ok "validUntil" as u Hu. ask Hs str_at_ok "explainDigest" as ex Hex.
  eexists. split; [done|]. constructor; try done.
  - intros x. apply (str_at_opt _ _ _ Hs "fallbackFromDigest"). by right.
  - intros x. apply (str_at_opt _ _ _ Hs "executionPlanDigest"). by left.
Qed.
End Facts.

(** ** Validated documents *)

Section Validated.
Context `{FromIso} `{Crypto} `{Jsonschema}.

(** What [validate_routing_record] established of a document of kind [kind]. *)
Lemma validate_inv doc doc' :
  validate_routing_record doc = Ok doc' →
  doc' = doc ∧ ∃ o kind s,
    doc = JObj o ∧ jget "kind" o = JStr kind ∧ kind_of doc = kind ∧
    snd <$> list_find (fun ks => ks.1 = kind) ROUTING_SCHEMA_BY_KIND = Some (kind, s) ∧
    conforms s doc = true ∧ kind_ok kind doc = Ok true ∧
    (rm_digest <$> as_meta o) = Some (routing_record_digest o).
Proof.
  unfold validate_routing_record, routing_contract_ok. intros Hv.
  destruct doc as [| | | | |o]; try discriminate. destruct (jget "kind" o) as [| | |kind| |] eqn:Ek;
    try discriminate.
  destruct (snd <$> _) as [[k s]|] eqn:Ef; [|discriminate].
  assert (k = kind) as ->.
  { apply fmap_Some in Ef as ([i [k' s']] & Hf & [= -> ->]).
    by apply list_find_Some in Hf as (_ & ? & _). }
  rewrite is_valid_conforms in Hv. destruct (conforms s (JObj o)) eqn:Ec; [|discriminate].
  unfold semantic_ok in Hv. destruct (as_meta o) as [m|] eqn:Em; [|discriminate].
  cbn [some_or] in Hv. destruct (kind_ok kind (JObj o)) as [ok|] eqn:Eok; [|discriminate].
  destruct (rm_digest m == _) eqn:Ed; [|discriminate]. destruct ok; [|discriminate].
  injection Hv as <-. split; [done|]. exists o, kind, s. split_and!; try done.
  - unfold kind_of. by rewrite Ek.
  - apply bool_decide_eq_true in Ed.
    rewrite Em. change (Some (rm_digest m) = Some (routing_record_digest o)). by rewrite Ed.
Qed.

Lemma validate_intro o kind s :
  jget "kind" o = JStr kind →
  snd <$> list_find (fun ks => ks.1 = kind) ROUTING_SCHEMA_BY_KIND = Some (kind, s) →
  conforms s (JObj o) = true → kind_ok kind (JObj o) = Ok true →
  (rm_digest <$> as_meta o) = Some (routing_record_digest o) →
  validate_routing_record (JObj o) = Ok (JObj o).
Proof.
  intros Hk Hf Hc Hok Hm. unfold validate_routing_record, routing_contract_ok.
  rewrite Hk, Hf, is_valid_conforms, Hc. unfold semantic_ok.
  destruct (as_meta o) as [m|]; [|discriminate]. injection Hm as Hm.
  cbn [some_or]. rewrite Hok, Hm. by rewrite bool_decide_true.
Qed.

(** The digest a document states, for any kind. *)
Definition stated_digest (doc : json) : option string :=
  match doc with JObj o => rm_digest <$> as_meta o | _ => None end.

(** A reader passes the metadata on. *)
Ltac same_meta E :=
  cbn [mbind option_bind] in E;
  repeat match type of E with
  | (_ ← ?x; _) = _ => destruct x; cbn [mbind option_bind] in E; [|discriminate]
  end;
  injection E as <-; reflexivity.

Lemma as_policy_meta o p : as_policy (JObj o) = Some p → as_meta o = Some (pl_meta p).
Proof. unfold as_policy. destruct (as_meta o) as [m|]; [|discriminate]. intros E. same_meta E. Qed.
Lemma as_price_catalog_meta o p : as_price_catalog (JObj o) = Some p → as_meta o = Some (pc_meta p).
Proof.
  unfold as_price_catalog. destruct (as_meta o) as [m|]; [|discriminate]. intros E. same_meta E.
Qed.
Lemma as_observation_meta o p : as_observation (JObj o) = Some p → as_meta o = Some (ob_meta p).
Proof.
  unfold as_observation. destruct (as_meta o) as [m|]; [|discriminate]. intros E. same_meta E.
Qed.
Lemma as_request_meta o p : as_request (JObj o) = Some p → as_meta o = Some (rq_meta p).
Proof. unfold as_request. destruct (as_meta o) as [m|]; [|discriminate]. intros E. same_meta E. Qed.
Lemma as_decision_meta o p : as_decision (JObj o) = Some p → as_meta o = Some (dc_meta p).
Proof. unfold as_decision. destruct (as_meta o) as [m|]; [|discriminate]. intros E. same_meta E. Qed.

(** The schema and the semantic check of each kind. *)
Definition has_schema (kind : string) (s : schema) : Prop :=
  snd <$> list_find (fun ks => ks.1 = kind) ROUTING_SCHEMA_BY_KIND = Some (kind, s).
Lemma policy_kind : has_schema "ModelRoutingPolicy" policy_schema. Proof. reflexivity. Qed.
Lemma observation_kind : has_schema "ObservedModelCapabilities" observation_schema.
Proof. reflexivity. Qed.
Lemma price_kind : has_schema "TrustedPriceCatalog" price_catalog_schema. Proof. reflexivity. Qed.
Lemma request_kind : has_schema "ModelRouteRequest" request_schema. Proof. reflexivity. Qed.
Lemma decision_kind : has_schema "ModelRouteDecision" decision_schema. Proof. reflexivity. Qed.
Lemma explain_kind : has_schema "RoutingExplain" explain_schema. Proof. reflexivity. Qed.

Lemma validated_kind doc kind s :
  has_schema kind s → validate_routing_record doc = Ok doc → kind_of doc = kind →
  ∃ o, doc = JObj o ∧ conforms s doc = true ∧ kind_ok kind doc = Ok true ∧
    stated_digest doc = Some (routing_record_digest o).
Proof.
  intros Hs (_ & o & k & s' & -> & _ & Ek & Hf & Hc & Hok & Hm)%validate_inv Hk.
  rewrite Hk in Ek. subst k. unfold has_schema in Hs. rewrite Hs in Hf. injection Hf as <-.
  by exists o.
Qed.

Lemma validated_policy doc :
  validate_routing_record doc = Ok doc → kind_of doc = "ModelRoutingPolicy" →
  ∃ p, as_policy doc = Some p ∧ policy_wf p ∧ policy_ok p = true ∧
    stated_digest doc = Some (rm_digest (pl_meta p)).
Proof.
  intros Hv Hk. destruct (validated_kind _ _ _ policy_kind Hv Hk) as (o & -> & Hc & Hok & Hd).
  destruct (as_policy_ok _ Hc) as (p & Ep & Hp). exists p.
  change (kind_ok "ModelRoutingPolicy" (JObj o))
    with (let! p := some_or KeyError (as_policy (JObj o)) in Ok (policy_ok p)) in Hok.
  rewrite Ep in Hok. injection Hok as Hok. split_and!; try done.
  simpl. by rewrite (as_policy_meta _ _ Ep).
Qed.
Lemma validated_price doc :
  validate_routing_record doc = Ok doc → kind_of doc = "TrustedPriceCatalog" →
  ∃ p, as_price_catalog doc = Some p ∧ price_catalog_wf p ∧ price_catalog_ok p = Ok true ∧
    stated_digest doc = Some (rm_digest (pc_meta p)).
Proof.
  intros Hv Hk. destruct (validated_kind _ _ _ price_kind Hv Hk) as (o & -> & Hc & Hok & Hd).
  destruct (as_price_catalog_ok _ Hc) as (p & Ep & Hp). exists p.
  change (kind_ok "TrustedPriceCatalog" (JObj o))
    with (let! c := some_or KeyError (as_price_catalog (JObj o)) in price_catalog_ok c) in Hok.
  rewrite Ep in Hok. split_and!; try done. simpl. by rewrite (as_price_catalog_meta _ _ Ep).
Qed.
Lemma validated_observation doc :
  validate_routing_record doc = Ok doc → kind_of doc = "ObservedModelCapabilities" →
  ∃ p, as_observation doc = Some p ∧ observation_wf p ∧ observation_ok p = Ok true ∧
    stated_digest doc = Some (rm_digest (ob_meta p)).
Proof.
  intros Hv Hk. destruct (validated_kind _ _ _ observation_kind Hv Hk) as (o & -> & Hc & Hok & Hd).
  destruct (as_observation_ok _ Hc) as (p & Ep & Hp). exists p.
  change (kind_ok "ObservedModelCapabilities" (JObj o))
    with (let! c := some_or KeyError (as_observation (JObj o)) in observation_ok c) in Hok.
  rewrite Ep in Hok. split_and!; try done. simpl. by rewrite (as_observation_meta _ _ Ep).
Qed.
Lemma validated_request doc :
  validate_routing_record doc = Ok doc → kind_of doc = "ModelRouteRequest" →
  ∃ rq, as_request doc = Some rq ∧ request_wf rq ∧ request_ok rq = Ok true ∧
    stated_digest doc = Some (rm_digest (rq_meta rq)).
Proof.
  intros Hv Hk. destruct (validated_kind _ _ _ request_kind Hv Hk) as (o & -> & Hc & Hok & Hd).
  destruct (as_request_ok _ Hc) as (p & Ep & Hp). exists p.
  change (kind_ok "ModelRouteRequest" (JObj o))
    with (let! c := some_or KeyError (as_request (JObj o)) in request_ok c) in Hok.
  rewrite Ep in Hok. split_and!; try done. simpl. by rewrite (as_request_meta _ _ Ep).
Qed.
Lemma validated_decision doc :
  validate_routing_record doc = Ok doc → kind_of doc = "ModelRouteDecision" →
  ∃ d, as_decision doc = Some d ∧ decision_wf d ∧ decision_ok d = Ok true ∧
    stated_digest doc = Some (rm_digest (dc_meta d)).
Proof.
  intros Hv Hk. destruct (validated_kind _ _ _ decision_kind Hv Hk) as (o & -> & Hc & Hok & Hd).
  destruct (as_decision_ok _ Hc) as (p & Ep & Hp). exists p.
  change (kind_ok "ModelRouteDecision" (JObj o))
    with (let! c := some_or KeyError (as_decision (JObj o)) in decision_ok c) in Hok.
  rewrite Ep in Hok. split_and!; try done. simpl. by rewrite (as_decision_meta _ _ Ep).
Qed.
End Validated.
