(* ===== verification/RouterProofs.v ===== *)
(** * Lemmas on the router: the order of ranks, the specification of an admissible
    candidate, and the selection *)

From S2P Require Import Prelude Json Digest PyTime PyClock Schema RouteRecords Router RouteRecordFacts.

(** ** Ranks are totally ordered *)

Lemma rank_leb_total a b : rank_leb a b = false → rank_leb b a = true.
Proof.
  destruct a as [[[c1 l1] p1] d1], b as [[[c2 l2] p2] d2]. unfold rank_leb.
  rewrite (Z.eqb_sym c2), (Z.eqb_sym l2), (Nat.eqb_sym p2).
  destruct (c1 =? c2), (l1 =? l2), (p1 =? p2)%nat; try apply str_leb_total;
    rewrite ?Z.leb_gt, ?Z.leb_le, ?Nat.leb_gt, ?Nat.leb_le; lia.
Qed.
Lemma rank_leb_refl a : rank_leb a a = true.
Proof.
  destruct a as [[[c l] p] d]. unfold rank_leb. rewrite !Z.eqb_refl, Nat.eqb_refl.
  apply str_leb_refl.
Qed.
Lemma rank_leb_trans a b c : rank_leb a b = true → rank_leb b c = true → rank_leb a c = true.
Proof.
  destruct a as [[[c1 l1] p1] d1], b as [[[c2 l2] p2] d2], c as [[[c3 l3] p3] d3]. unfold rank_leb.
  destruct (Z.eqb_spec c1 c2) as [->|], (Z.eqb_spec c2 c3) as [->|]; rewrite ?Z.eqb_refl;
    [|try (destruct (Z.eqb_spec c1 c3)); rewrite ?Z.leb_le; intros; (done || lia)..].
  destruct (Z.eqb_spec l1 l2) as [->|], (Z.eqb_spec l2 l3) as [->|]; rewrite ?Z.eqb_refl;
    [|try (destruct (Z.eqb_spec l1 l3)); rewrite ?Z.leb_le; intros; (done || lia)..].
  destruct (Nat.eqb_spec p1 p2) as [->|], (Nat.eqb_spec p2 p3) as [->|]; rewrite ?Nat.eqb_refl;
    [|try (destruct (Nat.eqb_spec p1 p3)); rewrite ?Nat.leb_le; intros; (done || lia)..].
  apply str_leb_trans.
Qed.
Lemma rank_leb_antisym a b : rank_leb a b = true → rank_leb b a = true → a = b.
Proof.
  destruct a as [[[c1 l1] p1] d1], b as [[[c2 l2] p2] d2]. unfold rank_leb.
  rewrite (Z.eqb_sym c2), (Z.eqb_sym l2), (Nat.eqb_sym p2).
  destruct (Z.eqb_spec c1 c2), (Z.eqb_spec l1 l2), (Nat.eqb_spec p1 p2);
    rewrite ?Z.leb_le, ?Nat.leb_le; intros; subst; try lia.
  f_equal. by apply str_leb_antisym.
Qed.

(** ** Lists of reasons *)

Lemma because_nil b r : because b r = [] ↔ b = false.
Proof. by destruct b. Qed.
Lemma sorted_set_nil l : sorted_set l = [] ↔ l = [].
Proof.
  unfold sorted_set, sorted_strs. split; [|by intros ->]. intros Hn.
  apply elem_of_nil_inv. intros x Hx. apply elem_of_remove_dups in Hx.
  rewrite <- elem_of_py_sorted, Hn in Hx. by apply elem_of_nil in Hx.
Qed.
Lemma existsb_id c l : existsb (id_is c) l = true ↔ ∃ i, deployment_id c = JStr i ∧ i ∈ l.
Proof.
  rewrite existsb_exists. unfold id_is, json_is_optstr. split.
  - intros (x & Hx & Hi). destruct (deployment_id c); try discriminate. breflect. subst.
    exists x. split; [done|]. by apply list_elem_of_In.
  - intros (i & -> & Hi). exists i. split; [by apply list_elem_of_In|]. by apply bool_decide_eq_true.
Qed.

Section Evaluation.
Context `{FromIso} `{Crypto} `{Jsonschema}.
Context (rq : RouteRequest) (role : RolePolicy).
Context (seen : gmap (string * string) Observation) (prices : gmap (string * string) PriceEntry).
Context (now : Z) (excluded : list string).

(** ** The specification of an admissible candidate *)

Record fresh_and_capable (o : Observation) : Prop := {
  fc_time : ∃ from until, read_time (ob_observed_at o) = Some from ∧
              read_time (ob_valid_until o) = Some until ∧ from ≤ now < until;
  fc_capable : ∀ x, x ∈ rp_required_capabilities role ++ rq_required_capabilities rq →
                 x ∈ ob_capabilities o;
  fc_window : rq_required_context rq ≤ ob_context_window o ∧
              rq_input_ceiling rq + rq_output_ceiling rq ≤ ob_context_window o;
  fc_deadline : ∃ deadline, read_time (rq_deadline_at rq) = Some deadline ∧
                  now + ob_latency o * 1000 ≤ deadline;
}.
Record affordable (cost : Z) : Prop := {
  af_request : cost ≤ rq_maximum_cost rq; af_role : cost ≤ rp_maximum_cost role;
  af_local : local_profile rq = true → cost = 0;
}.
Record admissible (c : DeploymentCandidate) (i : string) (o : Observation) (p : PriceEntry) : Prop := {
  ad_id : deployment_id c = JStr i; ad_listed : i ∈ rp_candidate_ids role;
  ad_not_excluded : candidate_digest c ∉ excluded; ad_enabled : enabled c = true;
  ad_zone : zone c ∈ rp_allowed_zones role ∧ zone c ∈ rq_allowed_zones rq;
  ad_data : rq_data_class rq ∈ rp_allowed_data_classes role ∧
            rq_data_class rq ∈ allowed_data_classes c;
  ad_retention : retention c ∈ rp_allowed_retentions role ∧ retention c ∈ rq_allowed_retentions rq;
  ad_cloud : provider_class c = "cloud" → rq_allow_cloud rq = true;
  ad_local : local_profile rq = true → provider_class c = "local";
  ad_observation : seen !! (i, identity_digest c) = Some o; ad_fresh : fresh_and_capable o;
  ad_price : prices !! (i, identity_digest c) = Some p; ad_cost : affordable (reservation p rq);
}.

Lemma static_reasons_nil c :
  static_reasons c rq role excluded = [] ↔
  candidate_digest c ∉ excluded ∧ enabled c = true ∧
  (∃ i, deployment_id c = JStr i ∧ i ∈ rp_candidate_ids role) ∧
  (zone c ∈ rp_allowed_zones role ∧ zone c ∈ rq_allowed_zones rq) ∧
  (rq_data_class rq ∈ rp_allowed_data_classes role ∧ rq_data_class rq ∈ allowed_data_classes c) ∧
  (retention c ∈ rp_allowed_retentions role ∧ retention c ∈ rq_allowed_retentions rq) ∧
  (provider_class c = "cloud" → rq_allow_cloud rq = true) ∧
  (local_profile rq = true → provider_class c = "local").
Proof.
  unfold static_reasons. rewrite !app_nil, !because_nil, !orb_false_iff, !negb_false_iff.
  rewrite !bool_decide_eq_true, bool_decide_eq_false, existsb_id, !andb_false_iff, !negb_false_iff.
  rewrite bool_decide_eq_false, bool_decide_eq_true.
  destruct (rq_allow_cloud rq), (local_profile rq); intuition congruence.
Qed.

Lemma evidence_reasons_nil o rs expiry :
  evidence_reasons o rq role now = Ok (rs, expiry) →
  (rs = [] ↔ fresh_and_capable o) ∧ read_time (ob_valid_until o) = Some expiry.
Proof.
  unfold evidence_reasons, parse_time, plus_micros, utc_of. intros He.
  destruct (read_time (ob_observed_at o)) as [from|] eqn:Ef; [|discriminate].
  destruct (read_time (ob_valid_until o)) as [until|] eqn:Eu; [|discriminate].
  cbn [some_or] in He. destruct (in_range _); [|discriminate].
  destruct (read_time (rq_deadline_at rq)) as [dl|] eqn:Ed; [|discriminate].
  injection He as <- <-. split; [|done].
  rewrite !app_nil, !because_nil, orb_false_iff, negb_false_iff, !Z.ltb_ge, Z.leb_gt.
  rewrite forallb_forall. split.
  - intros ((? & ?) & Hc & Hw & Hd). constructor.
    + exists from, until. split_and!; [done..|lia|lia].
    + intros x Hx. apply list_elem_of_In in Hx. by apply Hc, bool_decide_eq_true in Hx.
    + lia.
    + exists dl. by split.
  - intros [(f & u & Ef' & Eu' & Ht) Hc Hw (d & Ed' & Hd)].
    rewrite Ef' in Ef. rewrite Eu' in Eu. rewrite Ed' in Ed. simplify_eq. split_and!; try lia.
    intros x Hx. apply bool_decide_eq_true, Hc. by apply list_elem_of_In.
Qed.

Lemma price_reasons_nil cost : price_reasons cost rq role = [] ↔ affordable cost.
Proof.
  unfold price_reasons. rewrite !app_nil, !because_nil, Z.ltb_ge, andb_false_iff, negb_false_iff.
  rewrite Z.eqb_eq. split.
  - intros [Hm Hl]. constructor; [lia..|]. intros E. destruct Hl; [congruence|done].
  - intros [? ? Hl]. split; [lia|]. destruct (local_profile rq); [right; by apply Hl|by left].
Qed.

Lemma eligible_nil e : eligible e = true ↔ ev_reasons e = [].
Proof. unfold eligible. by destruct (ev_reasons e). Qed.

(** [blocked Hev]: an evaluation with a reason that does not depend on more. *)
Ltac blocked Hev :=
  injection Hev as <-; split_and!; [done| |by intros ? ? ? []; congruence];
  rewrite eligible_nil; cbn [ev_reasons fst snd]; rewrite sorted_set_nil, !app_nil;
  split; [intros Hn; decompose [and] Hn; discriminate|by intros (? & ? & ? & []); congruence].

(** The evaluation of a candidate is eligible exactly when it is admissible, and
    then carries the candidate's cost, latency and evidence. *)
Lemma evaluation_admissible c e :
  candidate_evaluation rq role seen prices now excluded c = Ok e →
  ev_candidate e = c ∧
  (eligible e = true ↔ ∃ i o p, admissible c i o p) ∧
  (∀ i o p, admissible c i o p →
     rank e = Ok (reservation p rq, ob_latency o, preference_of c (rp_candidate_ids role),
                  candidate_digest c) ∧
     ev_cost e = Some (reservation p rq) ∧ ev_latency e = Some (ob_latency o) ∧
     ev_evidence_digest e = Some (rm_digest (ob_meta o)) ∧
     ev_evidence_valid_until e = read_time (ob_valid_until o)).
Proof.
  unfold candidate_evaluation, get_binding. intros Hev.
  destruct (deployment_id c) as [| | |i| |] eqn:Ei; try (blocked Hev).
  destruct (seen !! (i, identity_digest c)) as [o|] eqn:Eo; [|blocked Hev].
  destruct (evidence_reasons o rq role now) as [[rs expiry]|] eqn:Ee; [|discriminate].
  destruct (evidence_reasons_nil _ _ _ Ee) as [Hrs Hex].
  destruct (prices !! (i, identity_digest c)) as [p|] eqn:Ep; [|blocked Hev].
  injection Hev as <-. split_and!; [done| |].
  - rewrite eligible_nil. cbn [ev_reasons fst snd]. rewrite sorted_set_nil, !app_nil, Hrs, price_reasons_nil,
      static_reasons_nil. split.
    + intros ((? & ? & (i' & ? & ?) & ? & ? & ? & ? & ?) & ? & ?). exists i, o, p.
      constructor; try done; congruence.
    + intros (i' & o' & p' & []). assert (i' = i) as -> by congruence. simplify_eq.
      destruct_and?. split_and!; try done. by exists i.
  - intros i' o' p' []. assert (i' = i) as -> by congruence. simplify_eq. by rewrite Hex.
Qed.
End Evaluation.

(** ** The first element of a sorted sequence *)

Lemma head_sorted {A} (le : A → A → bool) l :
  (∀ x y, le x y = false → le y x = true) →
  (∀ x y z, le x y = true → le y z = true → le x z = true) → (∀ x, le x x = true) →
  match head (py_sorted le l) with
  | Some x => x ∈ l ∧ ∀ y, y ∈ l → le x y = true
  | None => l = []
  end.
Proof.
  intros Htot Htr Hrefl. pose proof (py_sorted_sorted le Htot Htr l) as Hs.
  pose proof (py_sorted_perm le l) as Hp. destruct (py_sorted le l) as [|x l']; simpl.
  { by apply Permutation_nil_l in Hp. }
  split; [rewrite <- Hp; left|]. intros y Hy. rewrite <- Hp in Hy.
  apply StronglySorted_inv in Hs as [_ Hx]. rewrite Forall_forall in Hx.
  apply elem_of_cons in Hy as [->|Hy]; [apply Hrefl|by apply Hx].
Qed.

(** [select] picks an eligible evaluation of least rank, or none is eligible. *)
Lemma select_spec evs sel :
  select evs = Ok sel →
  match sel with
  | Some e => e ∈ evs ∧ eligible e = true ∧ ∃ k, rank e = Ok k ∧
      ∀ e', e' ∈ evs → eligible e' = true → ∃ k', rank e' = Ok k' ∧ rank_leb k k' = true
  | None => ∀ e, e ∈ evs → eligible e = false
  end.
Proof.
  unfold select. intros Hsel.
  destruct (map_result _ _) as [keyed|] eqn:Ek; [|discriminate]. apply map_result_Forall2 in Ek.
  assert (∀ e, e ∈ evs → eligible e = true → ∃ k, rank e = Ok k ∧ (k, e) ∈ keyed) as Hkeyed.
  { intros e He1 He2. assert (e ∈ List.filter eligible evs) as Hin.
    { apply list_elem_of_In, filter_In. split; [by apply list_elem_of_In|done]. }
    apply list_elem_of_lookup in Hin as [i Hi].
    destruct (Forall2_lookup_l _ _ _ _ _ Ek Hi) as ([k e0] & Hk & Hr).
    destruct (rank e) as [k0|]; [|discriminate]. injection Hr as <- <-.
    exists k0. split; [done|]. by eapply list_elem_of_lookup_2. }
  pose proof (head_sorted (fun x y => rank_leb x.1 y.1) keyed) as Hh.
  specialize (Hh (fun x y => rank_leb_total x.1 y.1) (fun x y z => rank_leb_trans x.1 y.1 z.1)
                 (fun x => rank_leb_refl x.1)).
  injection Hsel as <-. destruct (head _) as [[k e]|]; simpl.
  - destruct Hh as [Hin Hmin]. apply list_elem_of_lookup in Hin as [i Hi].
    destruct (Forall2_lookup_r _ _ _ _ _ Ek Hi) as (e0 & He0 & Hr).
    destruct (rank e0) as [k0|] eqn:Er; [|discriminate]. injection Hr as -> ->.
    apply list_elem_of_lookup_2, list_elem_of_In, filter_In in He0 as [He1 He2].
    split_and!; [by apply list_elem_of_In|done|]. exists k. split; [done|].
    intros e' He'1 He'2. destruct (Hkeyed e' He'1 He'2) as (k' & Hk' & Hin').
    exists k'. split; [done|]. by apply (Hmin (k', e')).
  - intros e He. destruct (eligible e) eqn:E; [|done].
    destruct (Hkeyed e He E) as (k & _ & Hk). rewrite Hh in Hk. by apply elem_of_nil in Hk.
Qed.
