(* ===== verification/RouterOutput.v ===== *)
(** * The records the router writes

    A sealed record states the digest of its own content; the decision and the
    explanation of an outcome read back as the values they were built from, and
    both pass their own validation. *)

From S2P Require Import Prelude Json Digest PyTime PyClock Schema RouteRecords Router RouteRecordFacts RouterProofs.
From Stdlib Require Import Ascii.

(** ** Sealing *)

Lemma dict_del_set {V} k (v : V) o : dict_del k (dict_set k v o) = dict_del k o.
Proof.
  unfold dict_del. induction o as [|[k' v'] o IH]; simpl.
  { by rewrite filter_cons_False by (simpl; tauto). }
  case_bool_decide as Hk; [subst; by rewrite !filter_cons_False by (simpl; tauto)|].
  rewrite !(filter_cons _ (k', v')), IH. done.
Qed.
Lemma dict_set_set {V} k (a b : V) o : dict_set k a (dict_set k b o) = dict_set k a o.
Proof.
  induction o as [|[k' v'] o IH]; simpl; [by rewrite bool_decide_true|].
  case_bool_decide as Hk; simpl; [by rewrite bool_decide_true|].
  rewrite bool_decide_false by done. by rewrite IH.
Qed.
Lemma jassoc_set k v o : jassoc k (dict_set k v o) = Some v.
Proof.
  induction o as [|[k' v'] o IH]; simpl; [by rewrite bool_decide_true|].
  case_bool_decide as Hk; simpl; [by rewrite bool_decide_true|]. by rewrite bool_decide_false.
Qed.

Section Output.
Context `{FromIso} `{Crypto} `{Jsonschema}.

(** Sealing does not change what the digest covers, and states that digest. *)
Lemma seal_digest record metadata :
  jassoc "metadata" record = Some (JObj metadata) →
  ∃ sealed, seal_routing_record record = Ok (JObj sealed) ∧
    routing_record_digest sealed = routing_record_digest record ∧
    jassoc "metadata" sealed
    = Some (JObj (dict_set "recordDigest" (JStr (routing_record_digest record)) metadata)).
Proof.
  intros Hm. unfold seal_routing_record. rewrite Hm. eexists. split; [done|].
  rewrite jassoc_set. split; [|done].
  unfold routing_record_digest at 1, undigested. rewrite jassoc_set, dict_set_set, dict_del_set.
  unfold routing_record_digest, undigested. by rewrite Hm.
Qed.

(** The sealed form of a record the router builds. *)
Definition sealed_record (kind id : string) (now : Z) (spec : list (string * json))
  : list (string * json) :=
  [("apiVersion", JStr ROUTING_API_VERSION); ("kind", JStr kind);
   ("metadata",
     JObj [("id", JStr id); ("createdAt", JStr (timestamp now));
           ("recordDigest", JStr (routing_record_digest (routing_record kind id now spec)))]);
   ("spec", JObj spec)].
Definition sealed_meta (kind id : string) (now : Z) (spec : list (string * json)) : RouteMeta :=
  {| rm_id := id; rm_created_at := timestamp now; rm_revision := None;
     rm_digest := routing_record_digest (routing_record kind id now spec) |}.

Lemma seal_record kind id now spec :
  seal_routing_record (routing_record kind id now spec) = Ok (JObj (sealed_record kind id now spec)).
Proof. reflexivity. Qed.
Lemma sealed_record_digest kind id now spec :
  routing_record_digest (sealed_record kind id now spec)
  = routing_record_digest (routing_record kind id now spec).
Proof.
  destruct (seal_digest (routing_record kind id now spec)
              [("id", JStr id); ("createdAt", JStr (timestamp now))]) as (s & Es & Ed & _);
    [reflexivity|].
  rewrite seal_record in Es. injection Es as <-. done.
Qed.
Lemma sealed_record_meta kind id now spec :
  as_meta (sealed_record kind id now spec) = Some (sealed_meta kind id now spec).
Proof. reflexivity. Qed.

(** ** Reading the outcome back *)

Definition decision_value (r : Router) (rq : RouteRequest) (a : OutcomeArgs)
    (selected : option Selected) (safe_until : Z) (xd : string) (m : RouteMeta) : RouteDecision :=
  {| dc_meta := m; dc_request_digest := rm_digest (rq_meta rq); dc_policy_digest := policy_digest r;
     dc_price_digest := price_digest r;
     dc_decision := if is_some (oa_selected a) then "allowed" else "denied";
     dc_reason := oa_reason a; dc_attempt := oa_attempt a; dc_selected := selected;
     dc_valid_until := timestamp safe_until; dc_fallback_from := oa_fallback_from a;
     dc_explain_digest := xd; dc_execution_plan := rq_execution_plan rq |}.

Lemma as_decision_sealed r rq a selected until xd id now :
  let spec := decision_spec r rq a selected until xd in
  as_decision (JObj (sealed_record "ModelRouteDecision" id now spec))
  = match selected with
    | JNull => Some (decision_value r rq a None until xd
                       (sealed_meta "ModelRouteDecision" id now spec))
    | JObj v => s ← as_selected v;
                Some (decision_value r rq a (Some s) until xd
                        (sealed_meta "ModelRouteDecision" id now spec))
    | _ => None
    end.
Proof.
  intros spec. subst spec. unfold as_decision. rewrite sealed_record_meta.
  generalize (sealed_meta "ModelRouteDecision" id now (decision_spec r rq a selected until xd)).
  intros m. cbn [mbind option_bind].
  change (obj_at "spec" (sealed_record "ModelRouteDecision" id now
            (decision_spec r rq a selected until xd)))
    with (Some (decision_spec r rq a selected until xd)). cbn [mbind option_bind].
  unfold decision_value, decision_spec.
  destruct (oa_fallback_from a), (rq_execution_plan rq), selected; try reflexivity.
  all: unfold opt_obj_at; simpl; by destruct (as_selected o).
Qed.

(** The [selected] value of the record written for candidate [c]. *)
Definition selected_value (rq : RouteRequest) (c : DeploymentCandidate) (i : string)
    (cost latency : Z) (evidence : string) : Selected :=
  {| se_deployment_id := i; se_deployment_digest := deployment_digest c;
     se_identity_digest := identity_digest c; se_evidence_digest := evidence;
     se_candidate_digest := candidate_digest c; se_reserved_cost := cost; se_latency := latency;
     se_reservation :=
       (fun a => {| ag_maximum_calls := ag_maximum_calls a; ag_input_ceiling := ag_input_ceiling a;
                    ag_output_ceiling := ag_output_ceiling a; ag_cost := cost |})
       <$> rq_aggregate rq |}.
Lemma as_selected_record rq e i cost latency evidence :
  ev_cost e = Some cost → ev_latency e = Some latency → ev_evidence_digest e = Some evidence →
  deployment_id (ev_candidate e) = JStr i →
  ∃ v, selected_record rq e = Ok (JObj v) ∧
    as_selected v = Some (selected_value rq (ev_candidate e) i cost latency evidence).
Proof.
  intros Hc Hl Hv Hi. unfold selected_record. rewrite Hc, Hl, Hv, Hi. eexists. split; [done|].
  unfold selected_value. by destruct (rq_aggregate rq).
Qed.
End Output.

(** ** Conformance of written records *)

Lemma conforms_obj_intro req ps o :
  NoDup o.*1 → Forall (fun k => k ∈ o.*1) req →
  Forall (fun kv => ∃ s, prop_schema kv.1 ps = Some s ∧ conforms s kv.2 = true) o →
  conforms (SObj req ps) (JObj o) = true.
Proof.
  intros Hnd Hreq Hall. cbn [conforms]. rewrite bool_decide_true by done.
  apply andb_true_iff. split; [simpl|].
  - apply forallb_forall. intros k Hk. rewrite List.Forall_forall in Hreq.
    apply bool_decide_eq_true. by apply Hreq.
  - apply forallb_forall. intros [k v] Hkv. rewrite List.Forall_forall in Hall.
    destruct (Hall _ Hkv) as (sc & Hs & Hc). simpl in *. clear -Hs Hc.
    induction ps as [|[k' s'] ps IH]; simpl in *; [done|].
    case_bool_decide; [by simplify_eq|by apply IH].
Qed.

(** [written]: an object with known keys conforms, up to its values. *)
Ltac written :=
  apply conforms_obj_intro;
  [cbn [fmap list_fmap fst app]; member
  |cbn [fmap list_fmap fst app]; repeat (apply List.Forall_cons; [member|]); apply List.Forall_nil
  |cbn [app]; repeat (apply List.Forall_cons; [eexists; split; [reflexivity|]|]); try apply List.Forall_nil].

Lemma conforms_strs n p l :
  (n ≤ length l)%nat → NoDup l → Forall (fun s => p s = true) l →
  conforms (SStrs n p) (JArr (map JStr l)) = true.
Proof.
  intros Hn Hnd Hp. cbn [conforms].
  assert (as_strs (JArr (map JStr l)) = Some l) as ->.
  { cbn [as_strs]. clear. induction l as [|x l IH]; [done|]. cbn [map mapM mbind option_bind].
    by rewrite IH. }
  rewrite bool_decide_true by done. apply andb_true_iff. split.
  - rewrite andb_true_r. by apply Nat.leb_le.
  - apply forallb_forall. by apply List.Forall_forall.
Qed.

Section Written.
Context `{FromIso} `{Crypto} `{Jsonschema}.

Lemma search_intro p s : p s = true → search_pattern p s = true.
Proof. unfold search_pattern. by intros ->. Qed.
Lemma digest_of j : digest_text (semantic_digest j).
Proof. apply search_intro, semantic_digest_is_digest. Qed.

Lemma sealed_conforms kind id now req ps spec :
  id_text id → in_range now = true → conforms (SObj req ps) (JObj spec) = true →
  conforms (record_schema kind (SObj req ps)) (JObj (sealed_record kind id now spec)) = true.
Proof.
  intros Hid Hnow Hs. unfold record_schema, sealed_record. written.
  - done.
  - cbn [conforms]. apply bool_decide_eq_true. left.
  - unfold route_metadata_schema. written; [exact Hid| |].
    + by apply timestamp_date_time.
    + apply digest_of.
  - exact Hs.
Qed.

Lemma conforms_in l x : x ∈ l → conforms (SEnum l) (JStr x) = true.
Proof. intros Hx. cbn [conforms]. by apply bool_decide_eq_true. Qed.
Lemma written_digest_or_null d :
  (∀ x, d = Some x → digest_text x) → conforms digest_or_null (json_of_optstr d) = true.
Proof. intros Hd. destruct d as [x|]; [|done]. exact (Hd x eq_refl). Qed.
Lemma conforms_range lo hi z : lo ≤ z ≤ hi → conforms (SRange lo hi) (JInt z) = true.
Proof. intros Hz. cbn [conforms]. apply andb_true_iff. split; apply Z.leb_le; lia. Qed.
Lemma written_int lo z : lo ≤ z → conforms (SInt lo) (JInt z) = true.
Proof. intros Hz. by apply Z.leb_le. Qed.

(** What the trusted inputs contribute to every record of an outcome. *)
Record inputs_wf (r : Router) (rq : RouteRequest) : Prop := {
  iw_request : digest_text (rm_digest (rq_meta rq)); iw_policy : digest_text (policy_digest r);
  iw_price : digest_text (price_digest r);
  iw_plan : ∀ d, rq_execution_plan rq = Some d → digest_text d;
}.

Lemma decision_spec_conforms r rq a selected until xd :
  inputs_wf r rq → oa_reason a ∈ decision_reasons → 1 ≤ oa_attempt a ≤ 2 →
  conforms (SOneOf SNull selected_schema) selected = true → in_range until = true →
  (∀ x, oa_fallback_from a = Some x → digest_text x) → digest_text xd →
  conforms decision_spec_schema (JObj (decision_spec r rq a selected until xd)) = true.
Proof.
  intros [Hrq Hpl Hpr Hplan] Hre Hat Hse Hu Hfb Hxd.
  assert (conforms (SEnum ["allowed"; "denied"])
            (JStr (if is_some (oa_selected a) then "allowed" else "denied")) = true) as Hde
    by (by destruct (oa_selected a)).
  unfold decision_spec_schema, decision_spec.
  destruct (rq_execution_plan rq) as [d|] eqn:Ed; cbn [opt_item app].
  all: written; try done; try (by apply conforms_in); try (by apply written_digest_or_null);
    try (by apply conforms_range); try (by apply timestamp_date_time).
  by apply Hplan.
Qed.

Lemma selected_conforms rq c i cost latency evidence e :
  id_text i → digest_text (deployment_digest c) → digest_text (identity_digest c) →
  digest_text (candidate_digest c) → digest_text evidence → 0 ≤ cost → 1 ≤ latency →
  (∀ a, rq_aggregate rq = Some a → aggregate_wf a) →
  ev_candidate e = c → deployment_id c = JStr i → ev_cost e = Some cost →
  ev_latency e = Some latency → ev_evidence_digest e = Some evidence →
  ∃ v, selected_record rq e = Ok (JObj v) ∧ conforms (SOneOf SNull selected_schema) (JObj v) = true ∧
    as_selected v = Some (selected_value rq c i cost latency evidence).
Proof.
  intros Hi Hdd Hid Hcd Hev Hc Hl Hag <- Ei Ec El Ee.
  destruct (as_selected_record rq e i cost latency evidence Ec El Ee Ei) as (v & Ev & Hv).
  exists v. split_and!; [done| |done].
  change (xorb false (conforms selected_schema (JObj v)) = true). rewrite xorb_false_l.
  unfold selected_record in Ev. rewrite Ec, El, Ee, Ei in Ev. injection Ev as <-.
  unfold selected_schema. destruct (rq_aggregate rq) as [a|]; cbn [app].
  all: written; try done; try (by apply written_int).
  unfold reservation_schema. destruct (Hag a eq_refl) as [? ? ? ?].
  written; try (by apply conforms_range); try (by apply written_int).
Qed.

(** ** The explanation *)

Lemma explain_spec_conforms r rq a cands :
  inputs_wf r rq → search_pattern is_reason (oa_reason a) = true →
  (∀ e, oa_selected a = Some e → digest_text (candidate_digest (ev_candidate e))) →
  Forall (fun j => conforms explain_candidate_schema j = true) cands →
  conforms explain_spec_schema (JObj (explain_spec r rq a cands)) = true.
Proof.
  intros [Hrq Hpl Hpr Hplan] Hre Hse Hc.
  assert (conforms (SEnum ["allowed"; "denied"])
            (JStr (if is_some (oa_selected a) then "allowed" else "denied")) = true) as Hde
    by (by destruct (oa_selected a)).
  assert (conforms digest_or_null
            (json_of_optstr ((fun e => candidate_digest (ev_candidate e)) <$> oa_selected a)) = true)
    as Hsel.
  { apply written_digest_or_null. intros x (e & He & ->)%fmap_Some. by apply Hse. }
  assert (conforms (SList 0 explain_candidate_schema) (JArr cands) = true) as Hl.
  { cbn [conforms]. simpl. apply forallb_forall. by apply List.Forall_forall. }
  unfold explain_spec_schema, explain_spec.
  destruct (rq_execution_plan rq) as [d|] eqn:Ed; cbn [opt_item app].
  all: written; try done. by apply Hplan.
Qed.

(** Every reason a candidate can be given. *)
Definition reason_codes : list string :=
  ["fallback-candidate-excluded"; "deployment-disabled"; "policy-candidate-denied"; "zone-denied";
   "data-class-denied"; "retention-denied"; "cloud-denied"; "local-profile-denied";
   "provider-identity-drift"; "capability-evidence-missing"; "capability-evidence-stale";
   "capability-missing"; "context-window-insufficient"; "deadline-insufficient"; "price-missing";
   "cost-denied"; "local-profile-cost-denied"].
Lemma because_in b r : r ∈ reason_codes → Forall (fun x => x ∈ reason_codes) (because b r).
Proof. intros Hr. destruct b; [by constructor|constructor]. Qed.

Lemma evaluation_reasons rq role seen prices now excluded c e :
  candidate_evaluation rq role seen prices now excluded c = Ok e →
  NoDup (ev_reasons e) ∧ Forall (fun x => x ∈ reason_codes) (ev_reasons e) ∧
  is_sorted (ev_reasons e) = true.
Proof.
  unfold candidate_evaluation. intros He.
  assert (∃ l, ev_reasons e = sorted_set l ∧ Forall (fun x => x ∈ reason_codes) l) as (l & -> & Hl).
  { destruct (match get_binding seen c with None => _ | Some _ => _ end) as [ev|] eqn:E;
      [|discriminate].
    injection He as <-. eexists. split; [done|]. apply Forall_app_2; [|apply Forall_app_2].
    - unfold static_reasons. repeat (apply Forall_app_2; [apply because_in; member|]).
      apply because_in. member.
    - destruct (get_binding seen c) as [o|].
      + unfold evidence_reasons in E. destruct (parse_time _) as [t1|]; [|discriminate].
        destruct (parse_time (ob_valid_until o)) as [t2|]; [|discriminate].
        destruct (plus_micros _ _) as [t3|]; [|discriminate].
        destruct (parse_time (rq_deadline_at rq)) as [t4|]; [|discriminate].
        injection E as <-. cbn [fst].
        repeat (apply Forall_app_2; [apply because_in; member|]). apply because_in. member.
      + injection E as <-. cbn [fst]. constructor; [|constructor].
        destruct (has_same_id seen c); member.
    - destruct (get_binding prices c) as [p|]; cbn [fst].
      + unfold price_reasons. apply Forall_app_2; apply because_in; member.
      + constructor; [|constructor]. destruct (has_same_id prices c); member. }
  unfold sorted_set, sorted_strs. split_and!.
  - rewrite py_sorted_perm. apply NoDup_remove_dups.
  - rewrite Forall_forall in *. intros x Hx. apply Hl.
    by rewrite elem_of_py_sorted, elem_of_remove_dups in Hx.
  - unfold is_sorted, sorted_strs. apply bool_decide_eq_true. symmetry.
    apply py_sorted_id, py_sorted_sorted; eauto with eco.
Qed.
End Written.

(** * The router never refuses its own records

    [outcome_total]: an outcome built from well-formed inputs is always returned,
    and its decision reads back as the value it was built from. *)

Section Total.
Context `{FromIso} `{Crypto} `{Jsonschema}.

Record candidate_wf (c : DeploymentCandidate) : Prop := {
  cw_deployment : digest_text (deployment_digest c); cw_identity : digest_text (identity_digest c);
  cw_candidate : digest_text (candidate_digest c);
}.

(** ** The explanation *)

Record evaluation_wf (e : CandidateEvaluation) : Prop := {
  ew_candidate : digest_text (candidate_digest (ev_candidate e));
  ew_nodup : NoDup (ev_reasons e); ew_codes : Forall (fun x => x ∈ reason_codes) (ev_reasons e);
  ew_sorted : is_sorted (ev_reasons e) = true;
  ew_rank : eligible e = true → ∃ k, rank e = Ok k;
}.

Lemma reason_code_text x : x ∈ reason_codes → search_pattern is_reason x = true.
Proof.
  assert (Forall (fun x => search_pattern is_reason x = true) reason_codes) as Hall
    by (repeat (apply List.Forall_cons; [vm_compute; reflexivity|]); apply List.Forall_nil).
  rewrite Forall_forall in Hall. apply Hall.
Qed.

Lemma explain_candidate_ok e :
  evaluation_wf e →
  ∃ o xc, explain_candidate e = Ok (JObj o) ∧ conforms explain_candidate_schema (JObj o) = true ∧
    as_explain_candidate o = Some xc ∧ xc_digest xc = candidate_digest (ev_candidate e) ∧
    xc_reasons xc = ev_reasons e.
Proof.
  intros [Hc Hnd Hcodes Hs Hr]. unfold explain_candidate.
  assert (∃ d, (if eligible e then let! k := rank e in Ok (JStr (rank_digest k)) else Ok JNull)
               = Ok (json_of_optstr d) ∧ ∀ x, d = Some x → digest_text x) as (d & -> & Hd).
  { destruct (eligible e); [|by exists None]. destruct (Hr eq_refl) as (k & ->).
    exists (Some (rank_digest k)). split; [done|]. intros x [= <-].
    destruct k as [[[? ?] ?] ?]. apply digest_of. }
  set (u := if _ in? _ then _ else _). assert (u ∈ ["eligible"; "rejected"; "excluded"]) as Hu.
  { unfold u. case_bool_decide; [|destruct (eligible e)]; member. }
  clearbody u. do 2 eexists. split_and!; [done| |..].
  - unfold explain_candidate_schema. written; [exact Hc|by apply conforms_in| |].
    + apply conforms_strs; [lia|done|]. eapply Forall_impl; [exact Hcodes|]. apply reason_code_text.
    + by apply written_digest_or_null.
  - assert (as_strs (JArr (map JStr (ev_reasons e))) = Some (ev_reasons e)) as Hrs.
    { cbn [as_strs]. generalize (ev_reasons e). intros l. induction l as [|x l IH]; [done|].
      cbn [map mapM mbind option_bind]. by rewrite IH. }
    unfold as_explain_candidate, strs_at.
    change (jassoc "reasonCodes" _) with (Some (JArr (map JStr (ev_reasons e)))).
    cbn [mbind option_bind]. rewrite Hrs. reflexivity.
  - done.
  - done.
Qed.

Lemma explain_candidates_ok evs :
  Forall evaluation_wf evs →
  ∃ os xcs, map_result explain_candidate evs = Ok (map JObj os) ∧
    Forall (fun j => conforms explain_candidate_schema j = true) (map JObj os) ∧
    mapM as_explain_candidate os = Some xcs ∧
    map xc_digest xcs = map (fun e => candidate_digest (ev_candidate e)) evs ∧
    map xc_reasons xcs = map ev_reasons evs.
Proof.
  induction 1 as [|e evs He _ (os & xcs & E1 & E2 & E3 & E4 & E5)]; [by exists [], []|].
  destruct (explain_candidate_ok e He) as (o & xc & F1 & F2 & F3 & F4 & F5).
  exists (o :: os), (xc :: xcs). simpl. rewrite F1, E1, F3. cbn [mbind option_bind].
  change (mapM as_explain_candidate os) with (mapM as_explain_candidate os) in E3.
  rewrite E3, F4, E4, F5, E5. split_and!; try done. by constructor.
Qed.

Definition explain_value (r : Router) (rq : RouteRequest) (a : OutcomeArgs)
    (cands : list ExplainCandidate) (m : RouteMeta) : Explain :=
  {| ex_meta := m; ex_request_digest := rm_digest (rq_meta rq); ex_policy_digest := policy_digest r;
     ex_price_digest := price_digest r;
     ex_decision := if is_some (oa_selected a) then "allowed" else "denied";
     ex_reason := oa_reason a;
     ex_selected := (fun e => candidate_digest (ev_candidate e)) <$> oa_selected a;
     ex_candidates := cands; ex_execution_plan := rq_execution_plan rq |}.

Lemma as_explain_sealed r rq a os xcs id now :
  mapM as_explain_candidate os = Some xcs →
  let spec := explain_spec r rq a (map JObj os) in
  as_explain (JObj (sealed_record "RoutingExplain" id now spec))
  = Some (explain_value r rq a xcs (sealed_meta "RoutingExplain" id now spec)).
Proof.
  intros Hx spec. subst spec. unfold as_explain. rewrite sealed_record_meta.
  generalize (sealed_meta "RoutingExplain" id now (explain_spec r rq a (map JObj os))).
  intros m. cbn [mbind option_bind].
  change (obj_at "spec" (sealed_record "RoutingExplain" id now (explain_spec r rq a (map JObj os))))
    with (Some (explain_spec r rq a (map JObj os))). cbn [mbind option_bind].
  assert (objs_at "candidates" (explain_spec r rq a (map JObj os)) = Some os) as Hos.
  { unfold objs_at. change (jassoc "candidates" _) with (Some (JArr (map JObj os))).
    clear. induction os as [|o os IH]; [done|]. cbn [map mapM mbind option_bind]. by rewrite IH. }
  rewrite Hos. cbn [mbind option_bind]. unfold explain_value, explain_spec in *.
  destruct (oa_selected a), (rq_execution_plan rq); cbn; by rewrite Hx.
Qed.

Lemma sorted_by_digest evs :
  is_sorted (map (fun e => candidate_digest (ev_candidate e))
    (py_sorted (fun x y => String.leb (candidate_digest (ev_candidate x))
                                      (candidate_digest (ev_candidate y))) evs)) = true.
Proof.
  unfold is_sorted, sorted_strs. apply bool_decide_eq_true. symmetry. apply py_sorted_id.
  set (l := py_sorted _ evs).
  assert (StronglySorted (fun x y => String.leb (candidate_digest (ev_candidate x))
            (candidate_digest (ev_candidate y)) = true) l) as Hl
    by (apply py_sorted_sorted; eauto with eco).
  clearbody l. induction Hl as [|x l _ IH Hx]; simpl; constructor; [done|].
  by apply Forall_map.
Qed.

(** ** The outcome *)

(** A selected evaluation: complete, and of a well-formed candidate. *)
Record selection_wf (e : CandidateEvaluation) (i : string) (cost latency : Z) (evidence : string)
  : Prop := {
  lw_candidate : candidate_wf (ev_candidate e); lw_id : deployment_id (ev_candidate e) = JStr i;
  lw_text : id_text i; lw_cost : ev_cost e = Some cost; lw_cost_pos : 0 ≤ cost;
  lw_latency : ev_latency e = Some latency; lw_latency_pos : 1 ≤ latency;
  lw_evidence : ev_evidence_digest e = Some evidence; lw_evidence_text : digest_text evidence;
}.

Record outcome_args_wf (a : OutcomeArgs) : Prop := {
  uw_now : in_range (oa_now a) = true; uw_next : in_range (oa_now a + 1) = true;
  uw_limit : in_range (Z.max (oa_now a + 1) (oa_validity_limit a)) = true;
  uw_decision_id : id_text (oa_decision_id a); uw_explain_id : id_text (oa_explain_id a);
  uw_reason : oa_reason a ∈ decision_reasons;
  uw_selected_reason : is_some (oa_selected a) = (oa_reason a == "eligible");
  uw_attempt : 1 ≤ oa_attempt a ≤ 2;
  uw_first : (oa_attempt a =? 1) = negb (is_some (oa_fallback_from a));
  uw_from : ∀ x, oa_fallback_from a = Some x → digest_text x;
  uw_evaluations : Forall evaluation_wf (oa_evaluations a);
  uw_selected : ∀ e, oa_selected a = Some e → ∃ i c l v, selection_wf e i c l v;
}.

Lemma decision_reason_text x : x ∈ decision_reasons → search_pattern is_reason x = true.
Proof.
  assert (Forall (fun x => search_pattern is_reason x = true) decision_reasons) as Hall
    by (repeat (apply List.Forall_cons; [vm_compute; reflexivity|]); apply List.Forall_nil).
  rewrite Forall_forall in Hall. apply Hall.
Qed.

Lemma sealed_validates kind id now s spec :
  has_schema kind s → conforms s (JObj (sealed_record kind id now spec)) = true →
  kind_ok kind (JObj (sealed_record kind id now spec)) = Ok true →
  validate_routing_record (JObj (sealed_record kind id now spec))
  = Ok (JObj (sealed_record kind id now spec)).
Proof.
  intros Hs Hc Hok. apply (validate_intro _ kind s); done.
Qed.

Lemma explain_total r rq a :
  inputs_wf r rq → outcome_args_wf a →
  ∃ os, map_result explain_candidate
          (py_sorted (fun x y => String.leb (candidate_digest (ev_candidate x))
                                            (candidate_digest (ev_candidate y)))
                     (oa_evaluations a)) = Ok (map JObj os) ∧
    let doc := JObj (sealed_record "RoutingExplain" (oa_explain_id a) (oa_now a)
                       (explain_spec r rq a (map JObj os))) in
    validate_routing_record doc = Ok doc.
Proof.
  intros Hin [].
  set (evs := py_sorted _ _).
  assert (Forall evaluation_wf evs) as Hevs by (unfold evs; by rewrite py_sorted_perm).
  destruct (explain_candidates_ok evs Hevs) as (os & xcs & E1 & E2 & E3 & E4 & E5).
  exists os. split; [done|]. intros doc. apply (sealed_validates _ _ _ _ _ explain_kind).
  - apply sealed_conforms; [done..|]. apply explain_spec_conforms; try done.
    + by apply decision_reason_text.
    + intros e He. destruct (uw_selected0 e He) as (? & ? & ? & ? & [[]]). done.
  - change (kind_ok "RoutingExplain" ?d)
      with (let! x := some_or KeyError (as_explain d) in Ok (explain_ok x)).
    rewrite (as_explain_sealed _ _ _ _ _ _ _ E3). cbn [some_or]. f_equal. unfold explain_ok.
    cbn [ex_candidates explain_value ex_decision ex_selected]. rewrite E4. unfold evs.
    rewrite sorted_by_digest. cbn [andb]. apply andb_true_iff. split.
    + apply forallb_forall. intros xc Hxc. apply (in_map xc_reasons) in Hxc. rewrite E5 in Hxc.
      apply in_map_iff in Hxc as (e & <- & He). apply list_elem_of_In in He.
      rewrite Forall_forall in Hevs. apply (ew_sorted e). by apply Hevs.
    + by destruct (oa_selected a).
Qed.

(** [_parse_time] of two printed times, compared. *)
Lemma time_le_timestamps a b :
  in_range a = true → in_range b = true → time_le (timestamp a) (timestamp b) = Ok (a <=? b).
Proof. intros Ha Hb. unfold time_le. by rewrite !read_timestamp by done. Qed.

(** What the decision says of the selected evaluation. *)
Definition selection_of (rq : RouteRequest) (e : CandidateEvaluation) : Selected :=
  selected_value rq (ev_candidate e)
    (match deployment_id (ev_candidate e) with JStr i => i | _ => EmptyString end)
    (default 0 (ev_cost e)) (default 0 (ev_latency e)) (default EmptyString (ev_evidence_digest e)).

Lemma selected_json_total rq a :
  (∀ ag, rq_aggregate rq = Some ag → aggregate_wf ag) →
  (∀ e, oa_selected a = Some e → ∃ i c l v, selection_wf e i c l v) →
  ∃ j, match oa_selected a with Some e => selected_record rq e | None => Ok JNull end = Ok j ∧
    conforms (SOneOf SNull selected_schema) j = true ∧
    match j with JNull => Some None | JObj v => Some <$> as_selected v | _ => None end
    = Some (selection_of rq <$> oa_selected a).
Proof.
  intros Hagg Hs. destruct (oa_selected a) as [e|]; [|by exists JNull].
  destruct (Hs e eq_refl) as (i & c & l & v & [[] ? ? ? ? ? ? ? ?]).
  destruct (selected_conforms rq (ev_candidate e) i c l v e) as (o & Eo & Ho & Hv); try done.
  exists (JObj o). split; [done|]. split; [done|]. rewrite Hv. unfold selection_of. cbn.
  by rewrite lw_id0, lw_cost0, lw_latency0, lw_evidence0.
Qed.

Lemma outcome_total r rq a :
  inputs_wf r rq → outcome_args_wf a →
  is_some (rq_execution_plan rq) = is_some (rq_aggregate rq) →
  (∀ ag, rq_aggregate rq = Some ag → aggregate_wf ag) →
  ∃ out xd m,
    outcome r rq a = Ok out ∧
    validate_routing_record (out_decision out) = Ok (out_decision out) ∧
    validate_routing_record (out_explain out) = Ok (out_explain out) ∧
    as_decision (out_decision out)
    = Some (decision_value r rq a
              (selection_of rq <$> oa_selected a)
              (Z.max (oa_now a + 1) (oa_validity_limit a)) xd m).
Proof.
  intros Hin Ha Hplan Hagg. destruct (explain_total r rq a Hin Ha) as (os & Eos & Hx). cbn zeta in Hx.
  destruct Ha. unfold outcome. rewrite Eos, seal_record, Hx. unfold plus_micros, utc_of.
  rewrite uw_next0. set (until := Z.max _ _) in *.
  destruct (selected_json_total rq a Hagg uw_selected0) as (j & Ej & Hj & Hse).
  set (se := selection_of rq <$> oa_selected a) in *.
  rewrite Ej. unfold record_digest. rewrite sealed_record_meta. cbn [some_or].
  set (xd := rm_digest (sealed_meta _ _ _ _)). rewrite seal_record.
  set (spec := decision_spec r rq a j until xd).
  set (m := sealed_meta "ModelRouteDecision" (oa_decision_id a) (oa_now a) spec).
  assert (as_decision (JObj (sealed_record "ModelRouteDecision" (oa_decision_id a) (oa_now a) spec))
          = Some (decision_value r rq a se until xd m)) as Hd.
  { unfold spec. rewrite as_decision_sealed. destruct j; try discriminate; simpl in Hse.
    - by injection Hse as <-.
    - destruct (as_selected o) as [x|]; [|discriminate]. by injection Hse as <-. }
  assert (validate_routing_record
            (JObj (sealed_record "ModelRouteDecision" (oa_decision_id a) (oa_now a) spec))
          = Ok (JObj (sealed_record "ModelRouteDecision" (oa_decision_id a) (oa_now a) spec))) as Hv.
  { apply (sealed_validates _ _ _ _ _ decision_kind).
    - apply sealed_conforms; [done..|]. apply decision_spec_conforms; try done. apply digest_of.
    - change (kind_ok "ModelRouteDecision" ?d)
        with (let! x := some_or KeyError (as_decision d) in decision_ok x).
      rewrite Hd. cbn [some_or]. unfold decision_ok.
      cbn [decision_value dc_valid_until dc_meta dc_decision dc_selected dc_reason dc_attempt
           dc_fallback_from dc_execution_plan rm_created_at sealed_meta m].
      rewrite time_le_timestamps by done. f_equal.
      assert ((until <=? oa_now a) = false) as -> by (apply Z.leb_gt; unfold until; lia).
      rewrite <- uw_selected_reason0, uw_first0. unfold se.
      destruct (oa_selected a) as [e|], (rq_execution_plan rq), (rq_aggregate rq) as [ag|] eqn:Eag,
        (oa_fallback_from a); try discriminate; cbn; rewrite ?Eag; cbn; rewrite ?Z.eqb_refl; done. }
  rewrite Hv. exists {| out_decision := JObj (sealed_record "ModelRouteDecision" (oa_decision_id a) (oa_now a) spec);
    out_explain := JObj (sealed_record "RoutingExplain" (oa_explain_id a) (oa_now a)
                           (explain_spec r rq a (map JObj os))) |}, xd, m.
  split_and!; [done..|]. cbn [out_decision]. by rewrite Hd.
Qed.
End Total.
