(* ===== verification/RouteLemmas.v ===== *)
(** * Routing over validated inputs

    What the constructor of the router, the observation map and the clock
    establish, the evaluation of a candidate as a total function over them, and
    [route] as the outcome of a verdict. *)

From S2P Require Import Prelude Json Digest PyTime PyClock Schema RouteRecords Router RouteRecordFacts RouterProofs RouterOutput.
From Stdlib Require Import Ascii.

Section Routes.
Context `{FromIso} `{Crypto} `{Jsonschema}.

Lemma safe_validate_inv doc kind doc' :
  safe_validate doc kind = Ok doc' →
  doc' = doc ∧ validate_routing_record doc = Ok doc ∧ kind_of doc = kind.
Proof.
  unfold safe_validate. destruct (validate_routing_record doc) as [v|e] eqn:Ev;
    [|destruct e; discriminate].
  assert (v = doc) as -> by (by apply validate_inv in Ev as [-> _]).
  destruct (kind_of doc != kind) eqn:Ek; [discriminate|]. intros [= <-]. by breflect.
Qed.
Lemma safe_validate_intro doc kind :
  validate_routing_record doc = Ok doc → kind_of doc = kind → safe_validate doc kind = Ok doc.
Proof.
  intros Hv Hk. unfold safe_validate. rewrite Hv.
  destruct (kind_of doc != kind) eqn:Ek; [by breflect|done].
Qed.

(** ** The router *)

Record router_wf (r : Router) : Prop := {
  row_policy : policy_wf (ro_policy r); row_prices : price_catalog_wf (ro_prices r);
  row_roles : map rp_role (pl_roles (ro_policy r)) = CANONICAL_MODEL_ROLES;
}.
Lemma new_router_wf policy catalog r : new_router policy catalog = Ok r → router_wf r.
Proof.
  unfold new_router. intros Hr.
  destruct (safe_validate policy _) as [p|] eqn:Ep; [|discriminate].
  destruct (safe_validate catalog _) as [c|] eqn:Ec; [|discriminate].
  apply safe_validate_inv in Ep as (-> & Vp & Kp), Ec as (-> & Vc & Kc).
  destruct (validated_policy _ Vp Kp) as (pl & Epl & Hpl & Okp & _).
  destruct (validated_price _ Vc Kc) as (pc & Epc & Hpc & _).
  rewrite Epl, Epc in Hr. injection Hr as <-. constructor; try done.
  unfold policy_ok in Okp. by breflect.
Qed.

Lemma foldl_role_spec (role : string) l acc :
  (∃ x, acc = Some x ∧ rp_role x = role) ∨ role ∈ map rp_role l →
  ∃ x, foldl (fun acc x => if rp_role x == role then Some x else acc) acc l = Some x ∧
       rp_role x = role ∧ (acc = Some x ∨ x ∈ l).
Proof.
  revert acc. induction l as [|y l IH]; intros acc Hacc; simpl.
  { destruct Hacc as [(x & -> & Hx)|Hin]; [by exists x; auto|by apply elem_of_nil in Hin]. }
  destruct (IH (if rp_role y == role then Some y else acc)) as (x & E & Hx & Hin).
  { case_bool_decide as Hy; [left; by exists y|]. destruct Hacc as [?|Hin]; [by left|].
    right. simpl in Hin. apply elem_of_cons in Hin as [->|?]; [done|done]. }
  exists x. split_and!; [done..|].
  destruct Hin as [Hin|?]; [|right; by right].
  case_bool_decide; [injection Hin as ->; right; left|by left].
Qed.

Lemma role_of_total r role :
  router_wf r → role ∈ CANONICAL_MODEL_ROLES →
  ∃ x, role_of r role = Ok x ∧ role_wf x ∧ rp_role x = role ∧ x ∈ pl_roles (ro_policy r).
Proof.
  intros [[] ? Hr] Hin. destruct (foldl_role_spec role (pl_roles (ro_policy r)) None)
    as (x & E & Hx & [?|Hxin]); [right; by rewrite Hr|done|].
  exists x. unfold role_of. rewrite E. split_and!; try done.
  rewrite Forall_forall in pw_roles. by apply pw_roles.
Qed.

Lemma price_map_wf r k p : router_wf r → price_map r !! k = Some p →
  price_wf p ∧ p ∈ pc_entries (ro_prices r) ∧ k = (pe_deployment_id p, pe_identity_digest p).
Proof.
  intros [_ [_ _ _ Hall] _]. unfold price_map. revert Hall.
  induction (pc_entries (ro_prices r)) as [|e l IH] using rev_ind; [done|].
  rewrite foldl_app, Forall_app. intros [Hl He] Hp. simpl in Hp.
  rewrite Forall_singleton in He.
  apply lookup_insert_Some in Hp as [[<- <-]|[_ Hp]].
  - split_and!; [done| |done]. apply elem_of_app. right. by apply list_elem_of_singleton.
  - destruct (IH Hl Hp) as (? & ? & ?). split_and!; [done| |done]. apply elem_of_app. by left.
Qed.

(** ** The observations *)

Lemma foldl_err {A B} (f : result B → A → result B) e l :
  (∀ x, f (Err e) x = Err e) → foldl f (Err e) l = Err e.
Proof. intros Hf. induction l as [|x l IH]; [done|]. simpl. by rewrite Hf. Qed.

Lemma observation_map_wf docs seen :
  observation_map docs = Ok seen → ∀ k o, seen !! k = Some o →
  observation_wf o ∧ k = (ob_deployment_id o, ob_identity_digest o) ∧
  ∃ doc, doc ∈ docs ∧ validate_routing_record doc = Ok doc ∧ as_observation doc = Some o.
Proof.
  unfold observation_map. revert seen. induction docs as [|d docs IH] using rev_ind; intros seen.
  { intros [= <-] k o Hk. by rewrite lookup_empty in Hk. }
  rewrite foldl_app. simpl. destruct (foldl _ _ docs) as [m|]; [|discriminate].
  destruct (safe_validate d _) as [d'|] eqn:Ed; [|discriminate].
  apply safe_validate_inv in Ed as (-> & Vd & Kd).
  destruct (validated_observation _ Vd Kd) as (ob & Eob & Hob & _). rewrite Eob. cbn [some_or].
  destruct (is_some _); [discriminate|]. intros [= <-] k o Hk.
  apply lookup_insert_Some in Hk as [[<- <-]|[_ Hk]].
  - split_and!; [done..|]. exists d. split_and!; [|done..].
    apply elem_of_app. right. by apply list_elem_of_singleton.
  - destruct (IH m eq_refl k o Hk) as (? & ? & doc & ? & ? & ?). split_and!; [done..|].
    exists doc. split_and!; [|done..]. apply elem_of_app. by left.
Qed.

(** ** Evaluating the candidates *)

(** The clock leaves room for the longest validity and latency, one hour. *)
Definition clock_ok (now : Z) : Prop := in_range now = true ∧ in_range (now + 3600000000) = true.
Lemma clock_ok_plus now d : clock_ok now → 0 ≤ d ≤ 3600000000 → in_range (now + d) = true.
Proof.
  unfold clock_ok, in_range. intros [H3 H4] Hd. breflect. apply andb_true_iff. split.
  - apply Z.leb_le. lia.
  - apply Z.ltb_lt. lia.
Qed.

Section Candidates.
Context (rq : RouteRequest) (role : RolePolicy).
Context (seen : gmap (string * string) Observation) (prices : gmap (string * string) PriceEntry).
Context (now : Z) (excluded : list string).
Context (Hrq : request_wf rq) (Hrole : role_wf role) (Hnow : clock_ok now).
Context (Hseen : ∀ k o, seen !! k = Some o → observation_wf o).
Context (Hprices : ∀ k p, prices !! k = Some p → price_wf p).

Lemma parse_time_total s : time_text s → ∃ t, read_time s = Some t ∧ parse_time s = Ok t.
Proof. intros (t & Ht)%time_text_read. exists t. split; [done|]. unfold parse_time. by rewrite Ht. Qed.

Lemma reservation_nonneg p : price_wf p → 0 ≤ reservation p rq.
Proof using Hrq.
  intros []. destruct Hrq as [_ _ ? ? _ _ _ Hagg]. unfold reservation.
  destruct (rq_aggregate rq) as [a|].
  - destruct (Hagg a eq_refl). assert (0 ≤ ag_maximum_calls a * pe_fixed_price p) by nia.
    assert (0 ≤ ag_input_ceiling a * pe_input_price p + ag_output_ceiling a * pe_output_price p)
      by nia.
    pose proof (Z.div_pos (ag_input_ceiling a * pe_input_price p
      + ag_output_ceiling a * pe_output_price p + 999999) 1000000). lia.
  - assert (0 ≤ rq_input_ceiling rq * pe_input_price p + rq_output_ceiling rq * pe_output_price p)
      by nia.
    pose proof (Z.div_pos (rq_input_ceiling rq * pe_input_price p
      + rq_output_ceiling rq * pe_output_price p + 999999) 1000000). lia.
Qed.

Lemma candidate_evaluation_total c :
  ∃ e, candidate_evaluation rq role seen prices now excluded c = Ok e.
Proof using Hrq Hnow Hseen.
  unfold candidate_evaluation. destruct (get_binding seen c) as [o|] eqn:Eo; [|by eexists].
  assert (observation_wf o) as Ho.
  { unfold get_binding in Eo. destruct (deployment_id c); try discriminate. by eapply Hseen. }
  destruct Ho. unfold evidence_reasons.
  destruct (parse_time_total (ob_observed_at o)) as (t1 & _ & ->); [done|].
  destruct (parse_time_total (ob_valid_until o)) as (t2 & _ & ->); [done|].
  destruct (parse_time_total (rq_deadline_at rq)) as (t3 & _ & ->); [apply Hrq|].
  unfold plus_micros, utc_of. rewrite clock_ok_plus by (done || lia). by eexists.
Qed.

Lemma candidate_evaluation_wf c e :
  candidate_wf c → candidate_evaluation rq role seen prices now excluded c = Ok e →
  evaluation_wf e.
Proof.
  intros [_ _ Hc] He. destruct (evaluation_reasons _ _ _ _ _ _ _ _ He) as (? & ? & ?).
  destruct (evaluation_admissible _ _ _ _ _ _ _ _ He) as (<- & Hel & Hr). constructor; try done.
  intros (i & o & p & Had)%Hel. destruct (Hr _ _ _ Had) as (Hk & _). by eexists.
Qed.

Lemma selection_of_admissible c e i o p :
  candidate_wf c → candidate_evaluation rq role seen prices now excluded c = Ok e →
  admissible rq role seen prices now excluded c i o p →
  selection_wf e i (reservation p rq) (ob_latency o) (rm_digest (ob_meta o)).
Proof using Hrq Hrole Hseen Hprices.
  intros Hc He Had. destruct (evaluation_admissible _ _ _ _ _ _ _ _ He) as (<- & _ & Hr).
  destruct (Hr _ _ _ Had) as (_ & ? & ? & ? & _). destruct Had.
  destruct (Hseen _ _ ad_observation) as [[] ? _ _ _]. constructor; try done.
  - destruct Hrole as [Hids _ _]. rewrite Forall_forall in Hids. by apply Hids.
  - apply reservation_nonneg. by eapply Hprices.
  - lia.
Qed.

(** [sel] is the best admissible candidate, if there is one. *)
Definition chosen (cands : list DeploymentCandidate) (sel : option CandidateEvaluation) : Prop :=
  match sel with
  | Some e => ∃ c i o p, c ∈ cands ∧ ev_candidate e = c ∧
      admissible rq role seen prices now excluded c i o p ∧
      selection_wf e i (reservation p rq) (ob_latency o) (rm_digest (ob_meta o)) ∧
      ev_evidence_valid_until e = read_time (ob_valid_until o) ∧
      ∀ c' i' o' p', c' ∈ cands → admissible rq role seen prices now excluded c' i' o' p' →
        rank_leb (reservation p rq, ob_latency o, preference_of c (rp_candidate_ids role),
                  candidate_digest c)
                 (reservation p' rq, ob_latency o', preference_of c' (rp_candidate_ids role),
                  candidate_digest c') = true
  | None => ∀ c i o p, c ∈ cands → ¬ admissible rq role seen prices now excluded c i o p
  end.

(** All candidates evaluate, and the selection is that of the specification. *)
Lemma evaluations_total cands :
  Forall candidate_wf cands →
  ∃ evs sel, map_result (candidate_evaluation rq role seen prices now excluded) cands = Ok evs ∧
    Forall evaluation_wf evs ∧ select evs = Ok sel ∧
    chosen cands sel.
Proof using Hrq Hrole Hnow Hseen Hprices.
  intros Hc.
  destruct (map_result_total (candidate_evaluation rq role seen prices now excluded) candidate_wf
              (fun _ e => evaluation_wf e) cands) as (evs & Eevs & Hevs); [|done|].
  { intros c Hcw. destruct (candidate_evaluation_total c) as (e & He). exists e.
    split; [done|]. by eapply candidate_evaluation_wf. }
  assert (Forall evaluation_wf evs) as Hwf.
  { rewrite Forall_forall. intros e (i & Hi)%list_elem_of_lookup.
    by destruct (Forall2_lookup_r _ _ _ _ _ Hevs Hi) as (? & _ & _ & ?). }
  assert (∃ sel, select evs = Ok sel) as (sel & Esel).
  { unfold select. destruct (map_result_total (fun e => let! k := rank e in Ok (k, e))
      (fun e => ∃ k, rank e = Ok k) (fun _ _ => True) (List.filter eligible evs))
      as (ks & Ek & _).
    - intros e (k & ->). by eexists.
    - rewrite Forall_forall in *. intros e He. apply list_elem_of_In, filter_In in He as [He Hel].
      apply ew_rank; [|done]. apply Hwf. by apply list_elem_of_In.
    - rewrite Ek. by eexists. }
  exists evs, sel. split_and!; [done..|]. pose proof (select_spec _ _ Esel) as Hs.
  assert (∀ c, c ∈ cands → ∃ e, e ∈ evs ∧
            candidate_evaluation rq role seen prices now excluded c = Ok e) as Hto.
  { intros c (j & Hj)%list_elem_of_lookup.
    destruct (Forall2_lookup_l _ _ _ _ _ Hevs Hj) as (e & He & Ev & _).
    exists e. split; [by eapply list_elem_of_lookup_2|done]. }
  destruct sel as [e|].
  - destruct Hs as (He & Hel & k & Hk & Hmin). apply list_elem_of_lookup in He as (j & Hj).
    destruct (Forall2_lookup_r _ _ _ _ _ Hevs Hj) as (c & Hcj & Hev & _).
    destruct (evaluation_admissible _ _ _ _ _ _ _ _ Hev) as (Ec & Hiff & Hr).
    destruct (proj1 Hiff Hel) as (i & o & p & Had). destruct (Hr _ _ _ Had) as (Hrank & _ & _ & _ & Hv).
    assert (c ∈ cands) as Hin by (by eapply list_elem_of_lookup_2).
    exists c, i, o, p. split_and!; [done..| |done|].
    + eapply selection_of_admissible; try done. rewrite Forall_forall in Hc. by apply Hc.
    + intros c' i' o' p' Hc' Had'. destruct (Hto c' Hc') as (e' & He' & Hev').
      destruct (evaluation_admissible _ _ _ _ _ _ _ _ Hev') as (_ & Hiff' & Hr').
      destruct (Hr' _ _ _ Had') as (Hrank' & _).
      destruct (Hmin e' He') as (k' & Hk' & Hle); [apply Hiff'; by exists i', o', p'|].
      rewrite Hrank in Hk. rewrite Hrank' in Hk'. by simplify_eq.
  - intros c i o p Hin Had. destruct (Hto c Hin) as (e & He & Hev).
    destruct (evaluation_admissible _ _ _ _ _ _ _ _ Hev) as (_ & Hiff & _).
    assert (eligible e = true) by (apply Hiff; by exists i, o, p).
    rewrite (Hs e He) in *. discriminate.
Qed.
End Candidates.

(** ** A call of [route] *)

(** The inputs of a call, validated: the request, its role, the clock, the
    candidates, the observations and the identifiers. *)
Record routable (r : Router) (request : json) (rq : RouteRequest) (role : RolePolicy)
    (now : datetime) (current : Z) (cands : list DeploymentCandidate) (obs : list json)
    (seen : gmap (string * string) Observation) (did eid : string) (att : Attempt) : Prop := {
  ra_router : router_wf r;
  ra_request : safe_validate request "ModelRouteRequest" = Ok request;
  ra_rq : as_request request = Some rq; ra_role : role_of r (rq_role rq) = Ok role;
  ra_clock : routing_clock now = Ok current; ra_room : clock_ok current;
  ra_cands : Forall candidate_wf cands;
  ra_distinct : set_is_exact (map deployment_id cands) = Ok true;
  ra_obs : observation_map obs = Ok seen;
  ra_decision_id : id_text did; ra_explain_id : id_text eid;
  ra_attempt : 1 ≤ at_number att ≤ 2;
  ra_first : (at_number att =? 1) = negb (is_some (at_fallback_from att));
  ra_from : ∀ x, at_fallback_from att = Some x → digest_text x;
}.

(** The verdict on a request that passed the preconditions. *)
Definition verdict (r : Router) (rq : RouteRequest) (role : RolePolicy)
    (seen : gmap (string * string) Observation) (current : Z) (excluded : list string)
    (cands : list DeploymentCandidate) (d : RouteDecision) : Prop :=
  match dc_selected d with
  | Some se =>
      dc_decision d = "allowed" ∧ dc_reason d = "eligible" ∧
      ∃ c i o p, c ∈ cands ∧ admissible rq role seen (price_map r) current excluded c i o p ∧
        se = selected_value rq c i (reservation p rq) (ob_latency o) (rm_digest (ob_meta o)) ∧
        ∀ c' i' o' p', c' ∈ cands →
          admissible rq role seen (price_map r) current excluded c' i' o' p' →
          rank_leb (reservation p rq, ob_latency o, preference_of c (rp_candidate_ids role),
                    candidate_digest c)
                   (reservation p' rq, ob_latency o', preference_of c' (rp_candidate_ids role),
                    candidate_digest c') = true
  | None =>
      dc_decision d = "denied" ∧ dc_reason d = "no-eligible-candidate" ∧
      ∀ c i o p, c ∈ cands → ¬ admissible rq role seen (price_map r) current excluded c i o p
  end.

(** The instant a decision expires: the least of the validity limits. *)
Definition expiry_ok (r : Router) (rq : RouteRequest) (current : Z) (obs : list json)
    (d : RouteDecision) (until : Z) : Prop :=
  dc_valid_until d = timestamp until ∧ current < until ∧
  until ≤ current + pl_ttl_seconds (ro_policy r) * 1000000 ∧
  (is_some (dc_selected d) = true →
     (∀ t, read_time (rq_deadline_at rq) = Some t → until ≤ t) ∧
     (∀ t, read_time (pc_valid_until (ro_prices r)) = Some t → until ≤ t) ∧
     ∃ doc o t se, doc ∈ obs ∧ as_observation doc = Some o ∧ dc_selected d = Some se ∧
       se_evidence_digest se = rm_digest (ob_meta o) ∧ read_time (ob_valid_until o) = Some t ∧
       until ≤ t).

Lemma route_inputs r rq request :
  router_wf r → safe_validate request "ModelRouteRequest" = Ok request →
  as_request request = Some rq →
  request_wf rq ∧ inputs_wf r rq ∧ is_some (rq_execution_plan rq) = is_some (rq_aggregate rq).
Proof.
  intros [[] [] _] (_ & Hv & Hk)%safe_validate_inv Hrq.
  destruct (validated_request _ Hv Hk) as (rq' & E & Hwf & Hok & _). rewrite E in Hrq.
  injection Hrq as ->. split_and!; [done| |].
  - constructor; [apply Hwf|apply pw_meta|apply pcw_meta|apply Hwf].
  - unfold request_ok in Hok. destruct (time_le _ _); [|discriminate]. injection Hok as Hok.
    breflect. by apply Bool.eqb_prop.
Qed.

Lemma precondition_facts r rq role current deadline from until :
  match precondition_reason r rq role current deadline from until with
  | Some reason => reason ∈ decision_reasons ∧ reason ≠ "eligible"
  | None => current < deadline ∧ from ≤ current < until
  end.
Proof.
  unfold precondition_reason. destruct (rq_policy_digest rq != _); [split; [member|done]|].
  destruct (_ || _) eqn:E1; [split; [member|done]|]. destruct (negb (_ && _)) eqn:E2; [split; [member|done]|].
  apply negb_false_iff in E2. breflect. lia.
Qed.

(** A selection read off the decision written for it. *)
Lemma chosen_selection rq role seen prices current excluded cands e :
  chosen rq role seen prices current excluded cands (Some e) →
  ∃ c i o p, c ∈ cands ∧ admissible rq role seen prices current excluded c i o p ∧
    selection_of rq e = selected_value rq c i (reservation p rq) (ob_latency o) (rm_digest (ob_meta o)) ∧
    ev_evidence_valid_until e = read_time (ob_valid_until o) ∧
    ∀ c' i' o' p', c' ∈ cands → admissible rq role seen prices current excluded c' i' o' p' →
      rank_leb (reservation p rq, ob_latency o, preference_of c (rp_candidate_ids role),
                candidate_digest c)
               (reservation p' rq, ob_latency o', preference_of c' (rp_candidate_ids role),
                candidate_digest c') = true.
Proof.
  intros (c & i & o & p & Hc & <- & Had & [] & Hv & Hmin). exists (ev_candidate e), i, o, p.
  split_and!; [done|done| |done|done]. unfold selection_of.
  by rewrite lw_id, lw_cost, lw_latency, lw_evidence.
Qed.

Lemma chosen_verdict r rq role seen current excluded cands sel d :
  chosen rq role seen (price_map r) current excluded cands sel →
  dc_selected d = selection_of rq <$> sel →
  dc_decision d = (if is_some sel then "allowed" else "denied") →
  dc_reason d = (if is_some sel then "eligible" else "no-eligible-candidate") →
  verdict r rq role seen current excluded cands d.
Proof.
  intros Hsel Hs Hd Hr. unfold verdict. rewrite Hs, Hd, Hr. destruct sel as [e|]; [|done].
  destruct (chosen_selection _ _ _ _ _ _ _ _ Hsel) as (c & i & o & p & Hc & Had & E & _ & Hmin).
  cbn. split_and!; [done..|]. by exists c, i, o, p.
Qed.

(** The validity limit [route] computes for a selection. *)
Definition validity_limit (ttl deadline until : Z) (sel : option CandidateEvaluation) : Z :=
  match sel ≫= ev_evidence_valid_until with
  | Some u => Z.min (Z.min (Z.min ttl deadline) until) u
  | None => Z.min (Z.min ttl deadline) until
  end.
Lemma chosen_expiry r rq role seen current excluded cands obs sel deadline until_price d :
  observation_map obs = Ok seen → chosen rq role seen (price_map r) current excluded cands sel →
  read_time (rq_deadline_at rq) = Some deadline →
  read_time (pc_valid_until (ro_prices r)) = Some until_price →
  1 ≤ pl_ttl_seconds (ro_policy r) → current < deadline → current < until_price →
  let limit := validity_limit (current + pl_ttl_seconds (ro_policy r) * 1000000) deadline until_price sel in
  dc_selected d = selection_of rq <$> sel →
  dc_valid_until d = timestamp (Z.max (current + 1) limit) →
  expiry_ok r rq current obs d (Z.max (current + 1) limit).
Proof.
  intros Hobs Hsel Hdl Hup Httl Hd Hu limit Hs Hv. split; [exact Hv|]. unfold limit, validity_limit.
  rewrite Hs. destruct sel as [e|]; [|cbn; split_and!; [lia|lia|done]].
  destruct (chosen_selection _ _ _ _ _ _ _ _ Hsel) as (c & i & o & p & _ & Had & E & Hev & _).
  destruct (observation_map_wf _ _ Hobs _ _ (ad_observation _ _ _ _ _ _ _ _ _ _ Had))
    as (_ & _ & doc & Hdoc & _ & Hob).
  destruct (fc_time _ _ _ _ (ad_fresh _ _ _ _ _ _ _ _ _ _ Had)) as (f & u & _ & Hut & Ht).
  rewrite Hut in Hev. cbn [mbind option_bind fmap option_fmap option_map]. rewrite Hev, E.
  split_and!; [lia|lia|]. intros _. rewrite Hdl, Hup. split_and!; [intros ? [= <-]; lia..|].
  exists doc, o, u. eexists. split_and!; [done..|lia].
Qed.

Lemma route_value r request rq role now current cands obs seen did eid att :
  routable r request rq role now current cands obs seen did eid att →
  ∃ out d deadline from until_price until,
    route r request cands obs now did eid att = Ok out ∧
    validate_routing_record (out_decision out) = Ok (out_decision out) ∧
    validate_routing_record (out_explain out) = Ok (out_explain out) ∧
    as_decision (out_decision out) = Some d ∧
    read_time (rq_deadline_at rq) = Some deadline ∧
    read_time (pc_valid_from (ro_prices r)) = Some from ∧
    read_time (pc_valid_until (ro_prices r)) = Some until_price ∧
    dc_request_digest d = rm_digest (rq_meta rq) ∧ dc_policy_digest d = policy_digest r ∧
    dc_price_digest d = price_digest r ∧ dc_execution_plan d = rq_execution_plan rq ∧
    dc_attempt d = at_number att ∧ dc_fallback_from d = at_fallback_from att ∧
    expiry_ok r rq current obs d until ∧
    match precondition_reason r rq role current deadline from until_price with
    | Some reason => dc_decision d = "denied" ∧ dc_reason d = reason ∧ dc_selected d = None
    | None => verdict r rq role seen current (at_excluded att) cands d
    end.
Proof.
  intros []. destruct (route_inputs _ _ _ ra_router0 ra_request0 ra_rq0) as (Hwf & Hin & Hpl).
  destruct (role_of_total r (rq_role rq) ra_router0 (qw_role _ Hwf)) as (role' & Er & Hrole & _).
  rewrite ra_role0 in Er. injection Er as <-.
  destruct (parse_time_total (rq_deadline_at rq)) as (dl & Hdl & Edl); [apply Hwf|].
  destruct (parse_time_total (pc_valid_from (ro_prices r))) as (from & Hfrom & Efrom);
    [apply ra_router0|].
  destruct (parse_time_total (pc_valid_until (ro_prices r))) as (up & Hup & Eup);
    [apply ra_router0|].
  assert (1 ≤ pl_ttl_seconds (ro_policy r) ≤ 3600) as Httl by (apply ra_router0).
  destruct ra_room0 as [Hr0 Hr1].
  unfold route. rewrite ra_clock0, ra_request0, ra_rq0. cbn [some_or].
  rewrite ra_role0, Edl, Efrom, Eup. unfold plus_micros, utc_of.
  rewrite (clock_ok_plus current) by (done || lia).
  set (ttl := current + pl_ttl_seconds (ro_policy r) * 1000000).
  pose proof (precondition_facts r rq role current dl from up) as Hpre.
  assert (∀ limit, limit ≤ ttl → in_range (Z.max (current + 1) limit) = true) as Hlim.
  { intros limit Hl. unfold ttl in Hl. destruct (Z.max_spec (current + 1) limit) as [[? ->]|[? ->]].
    - replace limit with (current + (limit - current)) by lia. apply clock_ok_plus; [done|lia].
    - apply clock_ok_plus; [done|lia]. }
  destruct (precondition_reason r rq role current dl from up) as [reason|] eqn:Epre.
  - destruct Hpre as [Hre Hne].
    set (a := {| oa_decision_id := did; oa_explain_id := eid; oa_now := current; oa_reason := reason;
                 oa_evaluations := []; oa_selected := None; oa_attempt := at_number att;
                 oa_fallback_from := at_fallback_from att;
                 oa_validity_limit := Z.min (Z.min ttl dl) up |}).
    assert (outcome_args_wf a) as Ha.
    { constructor; try done; cbn [oa_now oa_validity_limit oa_evaluations oa_selected oa_reason a].
      - apply clock_ok_plus; [done|lia].
      - apply Hlim. lia.
      - symmetry. by apply bool_decide_eq_false. }
    destruct (outcome_total r rq a Hin Ha Hpl (qw_aggregate _ Hwf)) as (out & xd & m & Eo & Vd & Vx & Ed).
    eexists out, _, dl, from, up, _. split_and!; [exact Eo|exact Vd|exact Vx|exact Ed|done..| |].
    + split; [reflexivity|]. cbn [a oa_now oa_validity_limit]. split_and!; [lia|lia|done].
    + by rewrite Epre.
  - destruct Hpre as (Hdl1 & Hup1). rewrite ra_distinct0, ra_obs0.
    destruct (evaluations_total rq role seen (price_map r) current (at_excluded att) Hwf Hrole
                (conj Hr0 Hr1)) with (cands := cands) as (evs & sel & Eevs & Hevs & Esel & Hsel);
      [|..|done|].
    { intros k o Hk. by destruct (observation_map_wf _ _ ra_obs0 k o Hk). }
    { intros k p Hk. by destruct (price_map_wf _ _ _ ra_router0 Hk). }
    rewrite Eevs, Esel. cbn [negb].
    change (match sel ≫= ev_evidence_valid_until with Some u => _ | None => _ end)
      with (validity_limit ttl dl up sel).
    set (a := {| oa_decision_id := did; oa_explain_id := eid; oa_now := current;
                 oa_reason := if is_some sel then "eligible" else "no-eligible-candidate";
                 oa_evaluations := evs; oa_selected := sel; oa_attempt := at_number att;
                 oa_fallback_from := at_fallback_from att;
                 oa_validity_limit := validity_limit ttl dl up sel |}).
    assert (outcome_args_wf a) as Ha.
    { constructor; try done;
        cbn [oa_now oa_validity_limit oa_evaluations oa_selected oa_reason a].
      - apply clock_ok_plus; [done|lia].
      - apply Hlim. unfold validity_limit. destruct (sel ≫= _); lia.
      - destruct sel; member.
      - by destruct sel.
      - intros e ->. destruct Hsel as (c & i & o & p & _ & _ & _ & Hs & _). by eexists _, _, _, _. }
    destruct (outcome_total r rq a Hin Ha Hpl (qw_aggregate _ Hwf)) as (out & xd & m & Eo & Vd & Vx & Ed).
    eexists out, _, dl, from, up, _. split_and!; [exact Eo|exact Vd|exact Vx|exact Ed|done..| |].
    + apply (chosen_expiry r rq role seen current (at_excluded att) cands obs sel dl up); try done; lia.
    + rewrite Epre. by apply (chosen_verdict _ _ _ _ _ _ _ sel).
Qed.
End Routes.

(** * The order of the candidates does not matter

    The router is called deterministic: with candidates of distinct digests, the
    two records of an outcome do not depend on the order the candidates come in. *)

(** ** Sorting a permutation *)

Section Unique.
Context {A : Type} (le : A → A → bool).
Context (le_total : ∀ x y, le x y = false → le y x = true).
Context (le_trans : ∀ x y z, le x y = true → le y z = true → le x z = true).

(** On a list whose elements the order tells apart there is one sorted order. *)
Lemma sorted_unique l1 l2 :
  (∀ x y, x ∈ l1 → y ∈ l1 → le x y = true → le y x = true → x = y) → l1 ≡ₚ l2 →
  StronglySorted (fun x y => le x y = true) l1 → StronglySorted (fun x y => le x y = true) l2 →
  l1 = l2.
Proof.
  revert l2. induction l1 as [|x l1 IH]; intros l2 Hanti Hp H1 H2.
  { by apply Permutation_nil_l in Hp. }
  destruct l2 as [|y l2]; [by apply Permutation_nil_r in Hp|].
  apply StronglySorted_inv in H1 as [H1 Hx], H2 as [H2 Hy]. rewrite Forall_forall in Hx, Hy.
  assert (x ∈ y :: l2) as Hx2 by (rewrite <- Hp; left).
  assert (y ∈ x :: l1) as Hy1 by (rewrite Hp; left).
  assert (x = y) as ->.
  { apply elem_of_cons in Hx2 as [->|Hx2]; [done|]. apply elem_of_cons in Hy1 as [->|Hy1']; [done|].
    apply Hanti; [left|by right|by apply Hx|by apply Hy]. }
  f_equal. apply IH; [|by apply (inj (cons y)) in Hp|done..].
  intros a b Ha Hb. apply Hanti; by right.
Qed.

Lemma py_sorted_permute l1 l2 :
  (∀ x y, x ∈ l1 → y ∈ l1 → le x y = true → le y x = true → x = y) → l1 ≡ₚ l2 →
  py_sorted le l1 = py_sorted le l2.
Proof using le_total le_trans.
  intros Hanti Hp. apply sorted_unique; try by apply py_sorted_sorted.
  - intros x y. rewrite !elem_of_py_sorted. apply Hanti.
  - by rewrite !py_sorted_perm.
Qed.
End Unique.

(** ** Distinct identifiers *)

Lemma py_eq_sym x y : hashable x = true → hashable y = true → py_eq x y = py_eq y x.
Proof.
  destruct x, y; intros; try discriminate; try reflexivity; simpl; apply bool_decide_ext;
    try (split; congruence).
  all: destruct b; try destruct b0; split; intros; simplify_eq; try done; congruence.
Qed.

Lemma existsb_permute {A} (f : A → bool) l1 l2 : l1 ≡ₚ l2 → existsb f l1 = existsb f l2.
Proof.
  induction 1 as [|x l1 l2 _ IH|x y l|]; simpl; [done|by rewrite IH| |congruence].
  rewrite !orb_assoc. f_equal. apply orb_comm.
Qed.
Lemma forallb_permute {A} (f : A → bool) l1 l2 : l1 ≡ₚ l2 → forallb f l1 = forallb f l2.
Proof.
  induction 1 as [|x l1 l2 _ IH|x y l|]; simpl; [done|by rewrite IH| |congruence].
  rewrite !andb_assoc. f_equal. apply andb_comm.
Qed.
Lemma all_distinct_permute l1 l2 :
  l1 ≡ₚ l2 → forallb hashable l1 = true → all_distinct l1 = all_distinct l2.
Proof.
  induction 1 as [|x l1 l2 Hp IH|x y l|l1 l2 l3 Hp1 IH1 Hp2 IH2]; simpl; intros Hh; [done|..].
  - breflect. by rewrite IH, (existsb_permute _ _ _ Hp).
  - breflect. rewrite (py_eq_sym y x) by done.
    destruct (py_eq x y), (existsb (py_eq y) l), (existsb (py_eq x) l); reflexivity.
  - rewrite IH1 by done. apply IH2. by rewrite <- (forallb_permute _ _ _ Hp1).
Qed.
Lemma set_is_exact_permute l1 l2 b :
  l1 ≡ₚ l2 → set_is_exact l1 = Ok b → set_is_exact l2 = Ok b.
Proof.
  intros Hp. unfold set_is_exact. destruct (forallb hashable l1) eqn:Hh; [|discriminate].
  rewrite <- (forallb_permute _ _ _ Hp), Hh. by rewrite (all_distinct_permute _ _ Hp Hh).
Qed.

(** ** The selection and the outcome *)

Lemma by_digest_unique {B} (f : B → DeploymentCandidate) (l : list B) x y :
  NoDup (map (fun e => candidate_digest (f e)) l) → x ∈ l → y ∈ l →
  candidate_digest (f x) = candidate_digest (f y) → x = y.
Proof.
  intros Hnd (i & Hi)%list_elem_of_lookup (j & Hj)%list_elem_of_lookup E.
  assert (i = j) as ->; [|congruence].
  eapply (NoDup_lookup (map (fun e => candidate_digest (f e)) l)); [done|..].
  - rewrite list_lookup_fmap, Hi. reflexivity.
  - rewrite list_lookup_fmap, Hj. simpl. by rewrite E.
Qed.

Lemma select_permute evs1 evs2 sel :
  NoDup (map (fun e => candidate_digest (ev_candidate e)) evs1) → evs1 ≡ₚ evs2 →
  select evs1 = Ok sel → select evs2 = Ok sel.
Proof.
  intros Hnd Hp. unfold select.
  destruct (map_result _ (List.filter eligible evs1)) as [k1|] eqn:E1; [|discriminate].
  assert (List.filter eligible evs1 ≡ₚ List.filter eligible evs2) as Hf.
  { clear -Hp. induction Hp as [|x l1 l2 _ IH|x y l|]; simpl; [done| |..|by etrans].
    - destruct (eligible x); [by rewrite IH|done].
    - destruct (eligible x), (eligible y); try done. apply Permutation_swap. }
  destruct (map_result_permute _ _ _ _ Hf E1) as (k2 & -> & Hk). intros [= <-]. f_equal. f_equal. f_equal.
  symmetry. apply py_sorted_permute; [|..|done].
  - intros x y. apply rank_leb_total.
  - intros x y z. apply rank_leb_trans.
  - intros [ka ea] [kb eb] Ha Hb Hab Hba. simpl in *.
    assert (ka = kb) as -> by (by apply rank_leb_antisym).
    apply map_result_Forall2 in E1.
    assert (∀ k e, (k, e) ∈ k1 → e ∈ evs1 ∧ ∃ c l p, k = (c, l, p, candidate_digest (ev_candidate e)))
      as Hkey.
    { intros k e (i & Hi)%list_elem_of_lookup.
      destruct (Forall2_lookup_r _ _ _ _ _ E1 Hi) as (e0 & He & Hr).
      unfold rank in Hr. destruct (ev_cost e0), (ev_latency e0); try discriminate.
      injection Hr as <- <-. split; [|by eexists _, _, _].
      apply list_elem_of_lookup_2, list_elem_of_In, filter_In in He as [He _].
      by apply list_elem_of_In. }
    destruct (Hkey _ _ Ha) as (? & ? & ? & ? & E), (Hkey _ _ Hb) as (? & ? & ? & ? & E').
    f_equal. apply (by_digest_unique ev_candidate evs1); [done..|]. congruence.
Qed.
