(* ===== verification/RouteExamples.v ===== *)
(** * A concrete routing configuration

    A policy, a price catalog, an observation, a request and two deployments,
    sealed with the checksum of [Digest.Checksum]; the properties of the routing
    components are instantiated on them. *)

From S2P Require Import Prelude Json Digest PyTime PyClock Schema RouteRecords Router RouteRecordFacts RouterOutput RouteLemmas.

#[local] Existing Instance Checksum.crypto.
#[local] Existing Instance rfc3339_iso.
#[local] Existing Instance draft202012.

Definition some_digest : string :=
  "aaaaaaaaaaaaaaaaaaaaaaaaaaaaaaaaaaaaaaaaaaaaaaaaaaaaaaaaaaaaaaaa".

Definition sealed (kind id : string) (definition : bool) (spec : list (string * json)) : json :=
  match seal_routing_record
          [("apiVersion", JStr ROUTING_API_VERSION); ("kind", JStr kind);
           ("metadata",
             JObj ([("id", JStr id); ("createdAt", JStr "2026-01-01T00:00:00Z")]
                   ++ if definition then [("revision", JInt 1)] else []));
           ("spec", JObj spec)] with
  | Ok doc => doc
  | Err _ => JNull
  end.

Definition strs (l : list string) : json := JArr (map JStr l).

Definition deployment (name model : string) : list (string * json) :=
  let endpoint := "env:LOCAL_ENDPOINT" in
  [("id", JStr name); ("provider", JStr "local"); ("adapter", JStr "http"); ("model", JStr model);
   ("endpointRef", JStr endpoint); ("zone", JStr "Z0"); ("retention", JStr "no-retention");
   ("allowedDataClasses", strs ["D0"; "D1"]); ("enabled", JBool true);
   ("identity",
     JObj [("adapterVersion", JStr "1"); ("modelRevision", JStr "r1"); ("runtimeEngine", JStr "e");
           ("runtimeVersion", JStr "2"); ("quantization", JStr "none");
           ("endpointReferenceDigest",
             JStr (semantic_digest (JObj [("endpointRef", JStr endpoint)])))])].

Definition candidate_a : DeploymentCandidate :=
  Eval vm_compute in
  match from_canonical_deployment (deployment "local-a" "small") with
  | Ok c => c
  | Err _ => {| deployment_id := JNull; deployment_digest := EmptyString; identity_digest := EmptyString;
                candidate_digest := EmptyString; provider_class := EmptyString; zone := EmptyString;
                retention := EmptyString; allowed_data_classes := []; enabled := false |}
  end.
Definition candidate_b : DeploymentCandidate :=
  Eval vm_compute in
  match from_canonical_deployment (deployment "local-b" "large") with
  | Ok c => c
  | Err _ => candidate_a
  end.

Definition role_doc (name : string) : json :=
  JObj [("role", JStr name); ("requiredCapabilities", strs ["text"]);
        ("allowedActionClasses", strs ["A0"; "A1"]); ("allowedDataClasses", strs ["D0"; "D1"]);
        ("allowedZones", strs ["Z0"]); ("allowedRetentions", strs ["no-retention"]);
        ("candidateIds", strs ["local-a"; "local-b"]); ("maximumCostMicrousd", JInt 1000000);
        ("fallback", JObj [("maxRouteAttempts", JInt 2);
                           ("retryableFailureClasses", strs ["capacity"])])].
Definition policy_doc : json :=
  Eval vm_compute in
  sealed "ModelRoutingPolicy" "policy-1" true
    [("defaultDecision", JStr "deny"); ("decisionTtlSeconds", JInt 60);
     ("roles", JArr (map role_doc CANONICAL_MODEL_ROLES))].

Definition price_doc : json :=
  Eval vm_compute in
  sealed "TrustedPriceCatalog" "prices-1" true
    [("authority", JStr "operator"); ("currency", JStr "microUSD");
     ("validFrom", JStr "2026-01-01T00:00:00Z"); ("validUntil", JStr "2027-01-01T00:00:00Z");
     ("sourceProvenanceDigest", JStr some_digest);
     ("entries",
       JArr (map (fun c => JObj [("deploymentId", deployment_id c);
                                 ("deploymentIdentityDigest", JStr (identity_digest c));
                                 ("inputMicrousdPerMillionTokens", JInt 2000);
                                 ("outputMicrousdPerMillionTokens", JInt 3000);
                                 ("fixedRequestMicrousd", JInt 5)])
                 [candidate_a; candidate_b]))].

Definition observation_doc (c : DeploymentCandidate) (latency : Z) : json :=
  sealed "ObservedModelCapabilities" "observation-1" false
    [("authority", JStr "trusted-observation"); ("deploymentId", deployment_id c);
     ("deploymentIdentityDigest", JStr (identity_digest c)); ("capabilities", strs ["text"]);
     ("contextWindowTokens", JInt 8192); ("latencyP95Millis", JInt latency);
     ("observedAt", JStr "2026-01-01T00:00:00Z"); ("validUntil", JStr "2026-12-01T00:00:00Z");
     ("evidenceEnvelopeDigest", JStr some_digest); ("suiteDigest", JStr some_digest)].
Definition observation_docs : list json :=
  Eval vm_compute in [observation_doc candidate_a 900; observation_doc candidate_b 200].

Definition request_doc : json :=
  Eval vm_compute in
  match as_policy policy_doc with
  | Some p =>
      sealed "ModelRouteRequest" "request-1" false
        [("role", JStr "eco-worker"); ("actionClass", JStr "A0"); ("dataClass", JStr "D0");
         ("workloadClass", JStr "batch"); ("requiredCapabilities", strs ["text"]);
         ("requiredContextTokens", JInt 1000); ("inputTokenCeiling", JInt 1000);
         ("outputTokenCeiling", JInt 500); ("allowedZones", strs ["Z0"]);
         ("allowedRetentions", strs ["no-retention"]); ("allowCloud", JBool false);
         ("maximumCostMicrousd", JInt 100000); ("deadlineAt", JStr "2026-06-02T00:00:00Z");
         ("executionProfile", JStr "standard"); ("policyDigest", JStr (rm_digest (pl_meta p)));
         ("contextDigest", JStr some_digest); ("executionPlanDigest", JStr some_digest);
         ("aggregateBudget",
           JObj [("maximumCalls", JInt 3); ("inputTokenCeiling", JInt 3000);
                 ("outputTokenCeiling", JInt 1500); ("maximumCostMicrousd", JInt 100000)])]
  | None => JNull
  end.

Definition noon : datetime :=
  {| year := 2026; month := 6; day := 1; hour := 12; minute := 0; second := 0; microsecond := 0;
     utcoffset := Some 0 |}.

Definition unrouted : Router :=
  {| ro_policy := {| pl_meta := {| rm_id := EmptyString; rm_created_at := EmptyString;
                                   rm_revision := None; rm_digest := EmptyString |};
                     pl_ttl_seconds := 0; pl_roles := [] |};
     ro_prices := {| pc_meta := {| rm_id := EmptyString; rm_created_at := EmptyString;
                                   rm_revision := None; rm_digest := EmptyString |};
                     pc_valid_from := EmptyString; pc_valid_until := EmptyString;
                     pc_entries := [] |} |}.
Definition example_router : Router :=
  Eval vm_compute in match new_router policy_doc price_doc with Ok r => r | Err _ => unrouted end.
Definition example_outcome : result RoutingOutcome :=
  Eval vm_compute in
  route example_router request_doc [candidate_a; candidate_b] observation_docs noon
        "decision-1" "explain-1" first_attempt.

Definition example_decision : json :=
  Eval vm_compute in match example_outcome with Ok out => out_decision out | Err _ => JNull end.
(** The decision after a capacity failure of the selected deployment. *)
Definition example_fallback : json :=
  Eval vm_compute in
  match fallback example_router request_doc example_decision "capacity" [candidate_a; candidate_b]
          observation_docs noon "decision-1" "explain-1" with
  | Ok out => out_decision out
  | Err _ => JNull
  end.

(** The second candidate costs the same and is faster, so it is selected. *)
Example example_selects :
  (let! out := example_outcome in
   Ok ((fun d => (dc_decision d, se_deployment_id <$> dc_selected d, dc_valid_until d))
       <$> as_decision (out_decision out)))
  = Ok (Some ("allowed", Some "local-b", "2026-06-01T12:01:00Z")).
Proof. vm_compute. reflexivity. Qed.

(** ** The example is routable *)

Definition example_request : RouteRequest :=
  Eval vm_compute in
  match as_request request_doc with
  | Some rq => rq
  | None => {| rq_meta := pl_meta (ro_policy unrouted); rq_role := EmptyString;
               rq_action_class := EmptyString; rq_data_class := EmptyString;
               rq_required_capabilities := []; rq_required_context := 0; rq_input_ceiling := 0;
               rq_output_ceiling := 0; rq_allowed_zones := []; rq_allowed_retentions := [];
               rq_allow_cloud := false; rq_maximum_cost := 0; rq_deadline_at := EmptyString;
               rq_execution_profile := EmptyString; rq_policy_digest := EmptyString;
               rq_execution_plan := None; rq_aggregate := None; rq_aggregate_json := JNull |}
  end.
Definition example_role : RolePolicy :=
  Eval vm_compute in
  match pl_roles (ro_policy example_router) with
  | _ :: r :: _ => r
  | _ => {| rp_role := EmptyString; rp_required_capabilities := []; rp_allowed_action_classes := [];
            rp_allowed_data_classes := []; rp_allowed_zones := []; rp_allowed_retentions := [];
            rp_candidate_ids := []; rp_maximum_cost := 0; rp_max_route_attempts := 0;
            rp_retryable := [] |}
  end.
Definition example_seen : gmap (string * string) Observation :=
  match observation_map observation_docs with Ok m => m | Err _ => ∅ end.
Definition example_now : Z := Eval vm_compute in instant noon.
Definition example_candidates : list DeploymentCandidate := [candidate_a; candidate_b].

Lemma example_router_ok : new_router policy_doc price_doc = Ok example_router.
Proof. vm_compute. reflexivity. Qed.

Lemma example_seen_ok : observation_map observation_docs = Ok example_seen.
Proof.
  assert (is_ok (observation_map observation_docs) = true) as Hok by (vm_compute; reflexivity).
  unfold example_seen. destruct (observation_map observation_docs); [reflexivity|discriminate Hok].
Qed.

Lemma example_candidates_wf : Forall candidate_wf example_candidates.
Proof.
  repeat apply List.Forall_cons; try apply List.Forall_nil; constructor; vm_compute; reflexivity.
Qed.

Lemma example_routable :
  routable example_router request_doc example_request example_role noon example_now
    example_candidates observation_docs example_seen "decision-1" "explain-1" first_attempt.
Proof.
  constructor.
  - apply (new_router_wf _ _ _ example_router_ok).
  - vm_compute. reflexivity.
  - vm_compute. reflexivity.
  - vm_compute. reflexivity.
  - vm_compute. reflexivity.
  - split; vm_compute; reflexivity.
  - apply example_candidates_wf.
  - vm_compute. reflexivity.
  - apply example_seen_ok.
  - vm_compute. reflexivity.
  - vm_compute. reflexivity.
  - vm_compute. split; discriminate.
  - reflexivity.
  - intros x. discriminate.
Qed.
