(* ===== verification/RouteProps.v ===== *)
(** * Properties of the model router *)

From S2P Require Import Prelude Json Digest PyTime PyClock Schema RouteRecords Router RouteRecordFacts RouterProofs RouterOutput RouteLemmas RouteExamples.

Section Claims.
Context `{FromIso} `{Crypto} `{Jsonschema}.

(** [C3] The router always decides, and decides right.  On validated inputs
    [route] returns an outcome whose two records pass their own validation; the
    decision is bound to the request, the policy and the price catalog.  If a
    precondition of the request fails, the decision is a denial for that reason.
    Otherwise, if it selects a deployment, that deployment is admissible and no
    admissible candidate has a smaller (cost, latency, preference, digest); if it
    selects none, no candidate is admissible. *)
Theorem route_decides r request rq role now current cands obs seen did eid att :
  routable r request rq role now current cands obs seen did eid att →
  ∃ out d deadline from until,
    route r request cands obs now did eid att = Ok out ∧
    validate_routing_record (out_decision out) = Ok (out_decision out) ∧
    validate_routing_record (out_explain out) = Ok (out_explain out) ∧
    as_decision (out_decision out) = Some d ∧
    dc_request_digest d = rm_digest (rq_meta rq) ∧ dc_policy_digest d = policy_digest r ∧
    dc_price_digest d = price_digest r ∧
    read_time (rq_deadline_at rq) = Some deadline ∧
    read_time (pc_valid_from (ro_prices r)) = Some from ∧
    read_time (pc_valid_until (ro_prices r)) = Some until ∧
    match precondition_reason r rq role current deadline from until with
    | Some reason => dc_decision d = "denied" ∧ dc_reason d = reason ∧ dc_selected d = None
    | None => verdict r rq role seen current (at_excluded att) cands d
    end.
Proof.
  intros Hr. destruct (route_value _ _ _ _ _ _ _ _ _ _ _ _ Hr)
    as (out & d & dl & from & up & until & ? & ? & ? & ? & ? & ? & ? & ? & ? & ? & ? & ? & ? & ? & ?).
  by exists out, d, dl, from, up.
Qed.

(** A decision never outlives what it rests on: it expires after it was
    made and within the policy's lifetime for decisions, and an allowed decision
    no later than the request's deadline, the price catalog and the evidence of
    the deployment it selects. *)
Theorem decision_never_outlives_inputs r request rq role now current cands obs seen did eid att :
  routable r request rq role now current cands obs seen did eid att →
  ∃ out d until, route r request cands obs now did eid att = Ok out ∧
    as_decision (out_decision out) = Some d ∧ expiry_ok r rq current obs d until.
Proof.
  intros Hr. destruct (route_value _ _ _ _ _ _ _ _ _ _ _ _ Hr)
    as (out & d & dl & from & up & until & ? & ? & ? & ? & ? & ? & ? & ? & ? & ? & ? & ? & ? & ? & ?).
  by exists out, d, until.
Qed.

(** Routing is deterministic: when the candidates have distinct digests,
    the records returned do not depend on the order they are offered in. *)
Theorem route_order_irrelevant r request cands1 cands2 obs now did eid att out :
  cands1 ≡ₚ cands2 → NoDup (map candidate_digest cands1) →
  route r request cands1 obs now did eid att = Ok out →
  route r request cands2 obs now did eid att = Ok out.
Proof.
  intros Hp Hnd. unfold route.
  destruct (routing_clock now) as [current|]; [|done].
  destruct (safe_validate request _) as [doc|]; [|done].
  destruct (some_or _ (as_request doc)) as [rq|]; [|done].
  destruct (role_of r _) as [role|]; [|done]. destruct (parse_time _) as [dl|]; [|done].
  destruct (plus_micros _ _) as [ttl|]; [|done]. destruct (parse_time _) as [from|]; [|done].
  destruct (parse_time _) as [up|]; [|done]. destruct (precondition_reason _ _ _ _ _ _ _); [done|].
  destruct (set_is_exact (map deployment_id cands1)) as [b|] eqn:Eb; [|done].
  rewrite (set_is_exact_permute _ (map deployment_id cands2) b) by (by rewrite <- ?Hp).
  destruct b; [|done]. cbn [negb]. destruct (observation_map obs) as [seen|]; [|done].
  destruct (map_result _ cands1) as [evs1|] eqn:E1; [|done].
  destruct (map_result_permute _ _ _ _ Hp E1) as (evs2 & -> & Hevs).
  assert (NoDup (map (fun e => candidate_digest (ev_candidate e)) evs1)) as Hnd'.
  { replace (map (fun e => candidate_digest (ev_candidate e)) evs1) with (map candidate_digest cands1);
      [done|]. apply map_result_Forall2 in E1. clear -E1.
    induction E1 as [|c e cs es He _ IH]; [done|]. simpl.
    destruct (evaluation_admissible _ _ _ _ _ _ _ _ He) as (<- & _). by rewrite IH. }
  destruct (select evs1) as [sel|] eqn:Es; [|done]. rewrite (select_permute _ _ _ Hnd' Hevs Es).
  unfold outcome. cbn [oa_evaluations].
  rewrite (py_sorted_permute _) with (l1 := evs1) (l2 := evs2); [done|..|done].
  - eauto with eco.
  - eauto with eco.
  - intros x y Hx Hy Hxy Hyx. apply (by_digest_unique ev_candidate evs1); [done..|].
    by apply str_leb_antisym.
Qed.

(** The reserved cost covers every use the request allows, and is the
    least whole number of micro-USD that covers the largest: for any number of
    calls and tokens within the ceilings the exact price, in millionths, is at
    most the reservation. *)
Theorem reservation_covers_usage rq p calls input output :
  price_wf p →
  let max_calls := match rq_aggregate rq with Some a => ag_maximum_calls a | None => 1 end in
  let max_input := match rq_aggregate rq with Some a => ag_input_ceiling a | None => rq_input_ceiling rq end in
  let max_output := match rq_aggregate rq with Some a => ag_output_ceiling a | None => rq_output_ceiling rq end in
  let price calls input output :=
    calls * pe_fixed_price p * 1000000 + input * pe_input_price p + output * pe_output_price p in
  (0 ≤ calls ≤ max_calls → 0 ≤ input ≤ max_input → 0 ≤ output ≤ max_output →
     price calls input output ≤ reservation p rq * 1000000) ∧
  (reservation p rq - 1) * 1000000 < price max_calls max_input max_output.
Proof.
  intros [] max_calls max_input max_output price. unfold reservation.
  fold max_calls max_input max_output. unfold price.
  set (v := max_input * pe_input_price p + max_output * pe_output_price p).
  pose proof (Z.div_mod (v + 999999) 1000000 ltac:(lia)) as Hd.
  pose proof (Z.mod_pos_bound (v + 999999) 1000000 ltac:(lia)).
  set (q := (v + 999999) / 1000000) in *. split.
  - intros Hc Hi Ho.
    assert (calls * pe_fixed_price p ≤ max_calls * pe_fixed_price p) by nia.
    assert (input * pe_input_price p ≤ max_input * pe_input_price p) by nia.
    assert (output * pe_output_price p ≤ max_output * pe_output_price p) by nia.
    unfold v in *. lia.
  - unfold v in *. lia.
Qed.


(** ** Fallback *)

Lemma fallback_attempt_routable r request rq role now current cands obs seen did eid x e :
  routable r request rq role now current cands obs seen did eid first_attempt → digest_text x →
  routable r request rq role now current cands obs seen did eid
    {| at_excluded := e; at_number := 2; at_fallback_from := Some x |}.
Proof.
  intros [] Hx. constructor; try done.
  by intros ? [= <-].
Qed.

Lemma fallback_refusal_reason r rq role pd vu current failure cands reason :
  fallback_refusal r rq role pd vu current failure cands = Some reason →
  reason ∈ decision_reasons ∧ reason ≠ "eligible".
Proof.
  unfold fallback_refusal. destruct (dc_selected pd); [|intros [= <-]; split; [member|done]].
  repeat case_match; intros Hx; try discriminate Hx; injection Hx as <-; (split; [member|done]).
Qed.

(** Fallback is bounded.  From a validated decision, [fallback] returns a
    second attempt that names that decision as its predecessor; it selects a
    deployment only when the predecessor was an allowed, unexpired first attempt
    for the same request and the failure is one the role retries, and then never
    the candidate that failed, but the best of the others.  In particular there
    is no fallback from a fallback. *)
Theorem fallback_is_bounded r request rq role now current cands obs seen did eid prev pd failure :
  routable r request rq role now current cands obs seen did eid first_attempt →
  safe_validate prev "ModelRouteDecision" = Ok prev → as_decision prev = Some pd →
  ∃ out d, fallback r request prev failure cands obs now did eid = Ok out ∧
    validate_routing_record (out_decision out) = Ok (out_decision out) ∧
    as_decision (out_decision out) = Some d ∧
    dc_attempt d = 2 ∧ dc_fallback_from d = Some (rm_digest (dc_meta pd)) ∧
    dc_request_digest d = rm_digest (rq_meta rq) ∧
    match dc_selected d with
    | None => dc_decision d = "denied"
    | Some se => ∃ prev_se until, dc_selected pd = Some prev_se ∧
        dc_decision pd = "allowed" ∧ dc_attempt pd = 1 ∧
        dc_request_digest pd = rm_digest (rq_meta rq) ∧
        read_time (dc_valid_until pd) = Some until ∧ current < until ∧
        failure ∈ rp_retryable role ∧ failure ∈ RETRYABLE_FAILURES ∧
        se_candidate_digest se ≠ se_candidate_digest prev_se ∧
        verdict r rq role seen current [se_candidate_digest prev_se] cands d
    end.
Proof.
  intros Hr Hprev Hpd. pose proof Hr as [].
  destruct (safe_validate_inv _ _ _ Hprev) as (_ & Vp & Kp).
  destruct (validated_decision _ Vp Kp) as (pd' & E & Hpdw & _). rewrite Hpd in E. injection E as <-.
  destruct (parse_time_total (dc_valid_until pd)) as (vu & Hvu & Evu); [apply Hpdw|].
  destruct (route_inputs _ _ _ ra_router ra_request ra_rq) as (Hwf & Hin & Hpl).
  destruct (role_of_total r (rq_role rq) ra_router (qw_role _ Hwf)) as (role' & Er & Hrole & _).
  rewrite ra_role in Er. injection Er as <-.
  unfold fallback. rewrite ra_clock, ra_request, ra_rq. cbn [some_or].
  rewrite Hprev, Hpd. cbn [some_or]. rewrite ra_role, Evu.
  destruct (fallback_refusal _ _ _ _ _ _ _ _) as [reason|] eqn:Ef.
  - destruct (fallback_refusal_reason _ _ _ _ _ _ _ _ _ Ef) as [Hre Hne].
    unfold plus_micros, utc_of. rewrite (clock_ok_plus current) by (done || lia).
    edestruct (outcome_total r rq) as (out & xd & m & Eo & Vd & Vx & Ed);
      [done| |done|apply Hwf|eexists out, _; split_and!; [exact Eo|exact Vd|exact Ed|done..]].
    constructor; try done; cbn [oa_now oa_validity_limit oa_selected oa_reason oa_attempt
      oa_fallback_from oa_evaluations].
    + apply ra_room.
    + apply clock_ok_plus; [done|lia].
    + rewrite Z.max_id. apply clock_ok_plus; [done|lia].
    + symmetry. by apply bool_decide_eq_false.
    + intros ? [= <-]. apply Hpdw.
  - unfold fallback_refusal in Ef. destruct (dc_selected pd) as [pse|] eqn:Eps; [|discriminate].
    destruct (_ || _) eqn:E1 in Ef; [discriminate|]. destruct (_ <=? _) eqn:E2 in Ef; [discriminate|].
    destruct (_ || _) eqn:E3 in Ef; [discriminate|]. clear Ef. breflect.
    destruct Hrole as [_ _ Hatt]. destruct (dw_attempt _ Hpdw).
    destruct (route_value _ _ _ _ _ _ _ _ _ _ _ _
      (fallback_attempt_routable _ _ _ _ _ _ _ _ _ _ _ (rm_digest (dc_meta pd))
        [se_candidate_digest pse] Hr (mw_digest _ (dw_meta _ Hpdw))))
      as (out & d & dl & from & up & until & Ho & Hv & _ & Hd & _ & _ & _ & Hq & _ & _ & _ & Ha & Hf & _ & Hm).
    exists out, d. split_and!; [done..|]. destruct (dc_selected d) as [se|] eqn:Ese.
    + destruct (precondition_reason _ _ _ _ _ _ _); [by destruct Hm as (_ & _ & ?)|].
      exists pse, vu. split_and!; try done; try lia.
      unfold verdict in Hm. rewrite Ese in Hm. destruct Hm as (_ & _ & c & i & o & p & _ & Had & -> & _).
      apply ad_not_excluded in Had. cbn [se_candidate_digest selected_value].
      intros Heq. apply Had. cbn [at_excluded]. rewrite Heq. left.
    + destruct (precondition_reason _ _ _ _ _ _ _); [by destruct Hm|].
      unfold verdict in Hm. rewrite Ese in Hm. apply Hm.
Qed.
End Claims.

(** ** Witnesses *)

#[local] Existing Instance Checksum.crypto.
#[local] Existing Instance rfc3339_iso.
#[local] Existing Instance draft202012.

Lemma route_decides_witness :
  ∃ out d, route example_router request_doc example_candidates observation_docs noon
             "decision-1" "explain-1" first_attempt = Ok out ∧
    as_decision (out_decision out) = Some d ∧
    verdict example_router example_request example_role example_seen example_now [] example_candidates d.
Proof.
  destruct (route_decides _ _ _ _ _ _ _ _ _ _ _ _ example_routable)
    as (out & d & dl & from & until & Ho & _ & _ & Hd & _ & _ & _ & Hdl & Hf & Hu & Hm).
  exists out, d. split; [exact Ho|]. split; [exact Hd|].
  vm_compute in Hdl, Hf, Hu. injection Hdl as <-. injection Hf as <-. injection Hu as <-.
  exact Hm.
Defined.

Lemma decision_never_outlives_inputs_witness :
  ∃ out d until, route example_router request_doc example_candidates observation_docs noon
             "decision-1" "explain-1" first_attempt = Ok out ∧
    as_decision (out_decision out) = Some d ∧
    expiry_ok example_router example_request example_now observation_docs d until.
Proof. exact (decision_never_outlives_inputs _ _ _ _ _ _ _ _ _ _ _ _ example_routable). Defined.

Lemma route_order_irrelevant_witness :
  route example_router request_doc [candidate_b; candidate_a] observation_docs noon
    "decision-1" "explain-1" first_attempt = example_outcome.
Proof.
  destruct example_outcome as [out|] eqn:E; [|discriminate E].
  apply (route_order_irrelevant _ _ [candidate_a; candidate_b]).
  - apply Permutation_swap.
  - apply (bool_decide_eq_true_1 _). vm_compute. reflexivity.
  - rewrite <- E. vm_compute. reflexivity.
Defined.


Definition example_price : PriceEntry :=
  {| pe_deployment_id := "local-a"; pe_identity_digest := some_digest; pe_input_price := 2000;
     pe_output_price := 3000; pe_fixed_price := 5 |}.
Lemma reservation_covers_usage_witness :
  2 * 5 * 1000000 + 2000 * 2000 + 700 * 3000 ≤ reservation example_price example_request * 1000000.
Proof.
  destruct (reservation_covers_usage example_request example_price 2 2000 700) as [Hc _].
  - constructor; vm_compute; discriminate.
  - apply Hc; vm_compute; split; discriminate.
Defined.

(** A fallback after a capacity failure of the selected deployment. *)
Lemma example_fallback_ok :
  (let! out := fallback example_router request_doc example_decision "capacity" example_candidates
                 observation_docs noon "decision-1" "explain-1" in
   Ok (out_decision out)) = Ok example_fallback.
Proof. vm_compute. reflexivity. Qed.
Lemma fallback_is_bounded_witness :
  ∃ pd out d, as_decision example_decision = Some pd ∧
    fallback example_router request_doc example_decision "capacity" example_candidates
      observation_docs noon "decision-1" "explain-1" = Ok out ∧
    as_decision (out_decision out) = Some d ∧ dc_attempt d = 2 ∧
    dc_fallback_from d = Some (rm_digest (dc_meta pd)) ∧
    (se_deployment_id <$> dc_selected d) = Some "local-a".
Proof.
  destruct (as_decision example_decision) as [pd|] eqn:E; [|vm_compute in E; discriminate E].
  assert (safe_validate example_decision "ModelRouteDecision" = Ok example_decision) as Hv
    by (vm_compute; reflexivity).
  destruct (fallback_is_bounded _ _ _ _ _ _ _ _ _ _ _ _ pd "capacity" example_routable Hv E)
    as (out & d & Ho & _ & Hd & Ha & Hf & _).
  exists pd, out, d. split; [reflexivity|]. split; [exact Ho|]. split; [exact Hd|].
  split; [exact Ha|]. split; [exact Hf|].
  pose proof example_fallback_ok as Hx. rewrite Ho in Hx. injection Hx as Hx. rewrite Hx in Hd.
  vm_compute in Hd. injection Hd as <-. reflexivity.
Defined.
