(* ===== verification/RouteBinding.v ===== *)
(** * Binding a route to a workflow, src/eco_routing/binding.py and the preflight
    checks of src/eco_routing/consumption.py

    An authority verifier is an object the caller supplies; [verifier] is its
    [verify_route_authority] method, whose answers are the attestations it may
    return and the exceptions it may raise. *)

From S2P Require Import Prelude Json Digest PyTime PyClock Schema RouteRecords Router.
From Stdlib Require Import Ascii.

Definition EXECUTION_PLAN_DOMAIN := "eco-route-execution-plan-v1".
Definition ROUTE_CONSUMER_DOMAIN := "eco-route-consumer-binding-v1".
(** [^[a-z0-9][a-z0-9._-]{1,63}$] *)
Definition is_algorithm (s : string) : bool :=
  re_ident (fun c => is_lower c || is_digit c)
           (fun c => is_lower c || is_digit c || (c == "."%char) || (c == "_"%char) || (c == "-"%char))
           63 s
  && (2 <=? String.length s)%nat.

Record VerifiedRouteAuthority : Type := {
  au_issuer_id : string; au_key_id : string; au_algorithm : string; au_evidence_digest : string;
  au_decision_digest : string; au_request_digest : string; au_policy_digest : string;
  au_price_digest : string; au_plan_digest : string; au_valid_until : string;
}.

(** What a call of the verifier's method can do. *)
Inductive verifier_answer : Type :=
| Attests (a : VerifiedRouteAuthority)
| ReturnsOther
| RaisesRouting (code : string)
| RaisesOther.
Inductive verifier : Type :=
| Verifier (verify_route_authority : json → json → datetime → verifier_answer)
| NotAVerifier.                                 (* an object without the method *)

Record RouteAggregateUsage : Type := {
  us_calls : Z; us_input : Z; us_output : Z; us_cost : Z;
}.
#[export] Instance usage_eq_dec : EqDecision RouteAggregateUsage.
Proof. solve_decision. Defined.
Definition no_usage : RouteAggregateUsage :=
  {| us_calls := 0; us_input := 0; us_output := 0; us_cost := 0 |}.

Section Binding.
Context `{FromIso} `{Crypto} `{Jsonschema}.

Definition route_execution_plan_digest (plan : json) : result string :=
  match plan with
  | JObj (_ :: _) =>
      Ok (semantic_digest (JObj [("domain", JStr EXECUTION_PLAN_DOMAIN); ("plan", plan)]))
  | _ => Err (RoutingError "ECO_ROUTE_EXECUTION_PLAN_INVALID")
  end.

(** [now.astimezone(timezone.utc)] of the consumption clock. *)
Definition route_clock (now : datetime) : result Z :=
  match astimezone_utc now with
  | Some r => r
  | None => Err (RoutingError "ECO_ROUTE_CLOCK_INVALID")
  end.

Definition authority_validate (a : VerifiedRouteAuthority) (now : datetime) : result unit :=
  raise (RoutingError "ECO_ROUTE_AUTHORITY_INVALID") when
    (negb (is_identifier (au_issuer_id a) && is_identifier (au_key_id a)
           && is_algorithm (au_algorithm a)
           && forallb is_digest
                [au_evidence_digest a; au_decision_digest a; au_request_digest a;
                 au_policy_digest a; au_price_digest a; au_plan_digest a])) else
  let! current := route_clock now in
  let! stated := some_or (RoutingError "ECO_ROUTE_AUTHORITY_INVALID") (read_time (au_valid_until a)) in
  let! valid_until := utc_of stated in
  raise (RoutingError "ECO_ROUTE_AUTHORITY_EXPIRED") when (valid_until <=? current) else Ok tt.

Definition verify_authenticated_route_authority (v : verifier) (decision request : json)
    (expected_issuer_id expected_key_id expected_algorithm expected_policy_digest
     expected_price_catalog_digest expected_execution_plan_digest : string) (now : datetime)
  : result VerifiedRouteAuthority :=
  match v with
  | NotAVerifier => Err (RoutingError "ECO_ROUTE_AUTHORITY_REQUIRED")
  | Verifier verify_route_authority =>
      match verify_route_authority decision request now with
      | RaisesRouting code => Err (RoutingError code)
      | RaisesOther | ReturnsOther => Err (RoutingError "ECO_ROUTE_AUTHORITY_INVALID")
      | Attests a =>
          let! _ := authority_validate a now in
          let! decision_digest := record_digest decision in
          let! request_digest := record_digest request in
          raise (RoutingError "ECO_ROUTE_AUTHORITY_MISMATCH") when
            ((au_issuer_id a != expected_issuer_id) || (au_key_id a != expected_key_id)
             || (au_algorithm a != expected_algorithm)
             || (au_decision_digest a != decision_digest)
             || (au_request_digest a != request_digest)
             || (au_policy_digest a != expected_policy_digest)
             || (au_price_digest a != expected_price_catalog_digest)
             || (au_plan_digest a != expected_execution_plan_digest)) else Ok a
      end
  end.

(** [validate_routing_record] of both records, any exception a refusal. *)
Definition validate_evidence (decision request : json) : result unit :=
  match validate_routing_record decision, validate_routing_record request with
  | Ok _, Ok _ => Ok tt
  | _, _ => Err (RoutingError "ECO_ROUTE_EVIDENCE_INVALID")
  end.

Definition route_consumer_digest (decision request : json)
    (consumer_kind consumer_id effect_digest : string) : result string :=
  let! _ := validate_evidence decision request in
  raise (RoutingError "ECO_ROUTE_EVIDENCE_INVALID") when
    ((kind_of decision != "ModelRouteDecision") || (kind_of request != "ModelRouteRequest")
     || negb (is_identifier consumer_kind) || negb (is_identifier consumer_id)
     || negb (is_digest effect_digest)) else
  let! d := some_or KeyError (as_decision decision) in
  let! rq := some_or KeyError (as_request request) in
  raise (RoutingError "ECO_ROUTE_NOT_ALLOWED") when
    ((dc_decision d != "allowed") || negb (is_some (dc_selected d))) else
  match rq_execution_plan rq, rq_aggregate rq with
  | Some plan, Some _ =>
      raise (RoutingError "ECO_ROUTE_BINDING_MISMATCH") when
        ((dc_request_digest d != rm_digest (rq_meta rq)) || (dc_execution_plan d != Some plan)) else
      Ok (semantic_digest
            (JObj [("domain", JStr ROUTE_CONSUMER_DOMAIN); ("consumerKind", JStr consumer_kind);
                   ("consumerId", JStr consumer_id); ("effectDigest", JStr effect_digest);
                   ("executionPlanDigest", JStr plan);
                   ("routeRequestDigest", JStr (rm_digest (rq_meta rq)));
                   ("policyDigest", JStr (dc_policy_digest d));
                   ("priceCatalogDigest", JStr (dc_price_digest d));
                   ("aggregateBudget", rq_aggregate_json rq)]))
  | _, _ => Err (RoutingError "ECO_ROUTE_EXACT_BINDING_REQUIRED")
  end.

Definition reserve_route_effect (decision request : json) (current : RouteAggregateUsage)
    (input_tokens output_tokens cost_microusd : Z) : result RouteAggregateUsage :=
  raise (RoutingError "ECO_ROUTE_BUDGET_INVALID") when
    (existsb (fun z => z <? 0)
       [us_calls current; us_input current; us_output current; us_cost current;
        input_tokens; output_tokens; cost_microusd]) else
  let! _ := validate_evidence decision request in
  let! d := some_or KeyError (as_decision decision) in
  (* a record of another kind has no aggregateBudget *)
  let! rq := some_or (RoutingError "ECO_ROUTE_EXACT_BINDING_REQUIRED") (as_request request) in
  match dc_selected d, rq_aggregate rq, rq_execution_plan rq, dc_selected d ≫= se_reservation with
  | Some selected, Some aggregate, Some plan, Some reserved =>
      raise (RoutingError "ECO_ROUTE_EXACT_BINDING_REQUIRED") when
        ((dc_decision d != "allowed") || (dc_execution_plan d != Some plan)
         || (dc_request_digest d != rm_digest (rq_meta rq))) else
      raise (RoutingError "ECO_ROUTE_CALL_BUDGET_EXCEEDED") when
        ((rq_input_ceiling rq <? input_tokens) || (rq_output_ceiling rq <? output_tokens)) else
      let updated := {| us_calls := us_calls current + 1; us_input := us_input current + input_tokens;
                        us_output := us_output current + output_tokens;
                        us_cost := us_cost current + cost_microusd |} in
      raise (RoutingError "ECO_ROUTE_BUDGET_MISMATCH") when
        (negb (ag_maximum_calls reserved =? ag_maximum_calls aggregate)
         || negb (ag_input_ceiling reserved =? ag_input_ceiling aggregate)
         || negb (ag_output_ceiling reserved =? ag_output_ceiling aggregate)
         || negb (ag_cost reserved =? se_reserved_cost selected)
         || (ag_cost aggregate <? ag_cost reserved)) else
      raise (RoutingError "ECO_ROUTE_AGGREGATE_BUDGET_EXCEEDED") when
        ((ag_maximum_calls aggregate <? us_calls updated)
         || (ag_input_ceiling aggregate <? us_input updated)
         || (ag_output_ceiling aggregate <? us_output updated)
         || (ag_cost aggregate <? us_cost updated) || (ag_cost reserved <? us_cost updated)) else
      Ok updated
  | _, _, _, _ => Err (RoutingError "ECO_ROUTE_EXACT_BINDING_REQUIRED")
  end.

(** ** verify_route_binding *)

(** The keyword arguments of [verify_route_binding]. *)
Record BindingArgs : Type := {
  ba_deployment_id : string; ba_identity_digest : string; ba_now : datetime;
  ba_cost : option Z; ba_policy : option string; ba_price : option string; ba_plan : option string;
  ba_verifier : option verifier; ba_issuer : option string; ba_key : option string;
  ba_algorithm : option string;
}.

(** [expected is not None and actual != expected] *)
Definition differs (expected : option string) (actual : option string) : bool :=
  match expected with Some e => actual != Some e | None => false end.

(** The aggregate part, checked when an execution plan is expected. *)
Definition aggregate_binding (rq : RouteRequest) (selected : Selected) : result unit :=
  match rq_aggregate rq, se_reservation selected with
  | Some budget, Some reserved =>
      raise (RoutingError "ECO_ROUTE_BUDGET_MISMATCH") when
        (negb (ag_maximum_calls reserved =? ag_maximum_calls budget)
         || negb (ag_input_ceiling reserved =? ag_input_ceiling budget)
         || negb (ag_output_ceiling reserved =? ag_output_ceiling budget)
         || negb (ag_cost reserved =? se_reserved_cost selected)
         || (ag_cost budget <? se_reserved_cost selected)) else Ok tt
  | _, _ => Err (RoutingError "ECO_ROUTE_EXACT_BINDING_REQUIRED")
  end.

(** The authority part, checked when any of its arguments is given. *)
Definition authority_binding (decision request : json) (a : BindingArgs) : result unit :=
  if is_some (ba_verifier a) || is_some (ba_issuer a) || is_some (ba_key a)
     || is_some (ba_algorithm a) then
    match ba_verifier a, ba_issuer a, ba_key a, ba_algorithm a, ba_policy a, ba_price a, ba_plan a with
    | Some v, Some issuer, Some key, Some algorithm, Some policy, Some price, Some plan =>
        let! _ := verify_authenticated_route_authority v decision request issuer key algorithm
                    policy price plan (ba_now a) in
        Ok tt
    | _, _, _, _, _, _, _ => Err (RoutingError "ECO_ROUTE_AUTHORITY_REQUIRED")
    end
  else Ok tt.

Definition verify_route_binding (decision request : json) (a : BindingArgs)
  : result (RouteDecision * RouteRequest) :=
  let mismatch := RoutingError "ECO_ROUTE_BINDING_MISMATCH" in
  let! current := route_clock (ba_now a) in
  let! _ := validate_evidence decision request in
  raise (RoutingError "ECO_ROUTE_EVIDENCE_INVALID") when
    ((kind_of decision != "ModelRouteDecision") || (kind_of request != "ModelRouteRequest")) else
  let! d := some_or KeyError (as_decision decision) in
  let! rq := some_or KeyError (as_request request) in
  match dc_selected d with
  | None => Err (RoutingError "ECO_ROUTE_NOT_ALLOWED")
  | Some selected =>
      raise (RoutingError "ECO_ROUTE_NOT_ALLOWED") when (dc_decision d != "allowed") else
      raise mismatch when
        ((dc_request_digest d != rm_digest (rq_meta rq))
         || (dc_policy_digest d != rq_policy_digest rq)) else
      raise (RoutingError "ECO_ROUTE_TRUSTED_INPUT_MISMATCH") when
        (differs (ba_policy a) (Some (dc_policy_digest d))
         || differs (ba_policy a) (Some (rq_policy_digest rq))) else
      raise (RoutingError "ECO_ROUTE_TRUSTED_INPUT_MISMATCH") when
        (differs (ba_price a) (Some (dc_price_digest d))) else
      raise (RoutingError "ECO_ROUTE_EXECUTION_PLAN_MISMATCH") when
        (differs (ba_plan a) (rq_execution_plan rq) || differs (ba_plan a) (dc_execution_plan d)) else
      let! valid_until := some_or ValueError (read_time (dc_valid_until d)) in
      let! deadline := some_or ValueError (read_time (rq_deadline_at rq)) in
      raise (RoutingError "ECO_ROUTE_EXPIRED") when
        ((valid_until <=? current) || (deadline <=? current)) else
      raise mismatch when
        ((se_deployment_id selected != ba_deployment_id a)
         || (se_identity_digest selected != ba_identity_digest a)) else
      raise mismatch when (rq_maximum_cost rq <? se_reserved_cost selected) else
      let! _ := if is_some (ba_plan a) then aggregate_binding rq selected else Ok tt in
      raise mismatch when
        (match ba_cost a with Some c => negb (se_reserved_cost selected =? c) | None => false end) else
      let! _ := authority_binding decision request a in
      Ok (d, rq)
  end.

(** [verify_exact_route_binding]: every trusted binding is required. *)
Definition verify_exact_route_binding (decision request : json) (deployment_id identity_digest
    policy price plan : string) (v : verifier) (issuer key algorithm : string) (now : datetime)
    (cost : option Z) : result (RouteDecision * RouteRequest) :=
  verify_route_binding decision request
    {| ba_deployment_id := deployment_id; ba_identity_digest := identity_digest; ba_now := now;
       ba_cost := cost; ba_policy := Some policy; ba_price := Some price; ba_plan := Some plan;
       ba_verifier := Some v; ba_issuer := Some issuer; ba_key := Some key;
       ba_algorithm := Some algorithm |}.
End Binding.
