(* ===== verification/RouteAuthority.v ===== *)
(** * Signed route authority, src/eco_routing/authority.py

    The operator's signer issues an envelope for a decision and a request; the
    verifier built from the envelope and a public key is the authority verifier
    of [RouteBinding].  [Ed25519] is the signature scheme of the [cryptography]
    package: a parameter with the one law its users rely on. *)

From S2P Require Import Prelude Json Digest PyTime PyClock Schema RouteRecords Router RouteBinding.
From Stdlib Require Import Ascii.

Class Ed25519 : Type := {
  ed_public : string → string;                   (* the public key of a private key *)
  ed_sign : string → string → string;            (* private key, message *)
  ed_verify : string → string → string → bool;   (* public key, signature, message *)
  ed_signed : ∀ key m, String.length key = 32%nat → ed_verify (ed_public key) (ed_sign key m) m = true;
}.

(** ** base64 *)

Definition b64_char (n : N) : ascii :=
  (if n <? 26 then ascii_of_N (65 + n)
   else if n <? 52 then ascii_of_N (71 + n)
   else if n <? 62 then ascii_of_N (n - 4)
   else if n =? 62 then "+"%char else "/"%char)%N.
Definition b64_value (c : ascii) : option N :=
  (if is_upper c then Some (N_of_ascii c - 65)
   else if is_lower c then Some (N_of_ascii c - 71)
   else if is_digit c then Some (N_of_ascii c + 4)
   else if c == "+"%char then Some 62 else if c == "/"%char then Some 63 else None)%N.

(** [base64.b64encode] *)
Fixpoint b64encode (s : string) : string :=
  match s with
  | EmptyString => EmptyString
  | String a EmptyString =>
      let n := N_of_ascii a in
      String (b64_char (n / 4)) (String (b64_char (n mod 4 * 16)) "==")
  | String a (String b EmptyString) =>
      let n := (N_of_ascii a * 256 + N_of_ascii b)%N in
      String (b64_char (n / 1024)) (String (b64_char (n / 16 mod 64))
        (String (b64_char (n mod 16 * 4)) "="))
  | String a (String b (String c s')) =>
      let n := (N_of_ascii a * 65536 + N_of_ascii b * 256 + N_of_ascii c)%N in
      String (b64_char (n / 262144)) (String (b64_char (n / 4096 mod 64))
        (String (b64_char (n / 64 mod 64)) (String (b64_char (n mod 64)) (b64encode s'))))
  end.

(** [base64.b64decode(s, validate=True)]; [None] is a [ValueError].  Texts that
    are not what [b64encode] writes are refused by the caller, so how the decoder
    treats stray padding bits does not matter. *)
Fixpoint b64decode (s : string) : option string :=
  match s with
  | EmptyString => Some EmptyString
  | String w (String x (String y (String z s'))) =>
      v ← b64_value w; u ← b64_value x;
      if (y == "="%char) && (z == "="%char) && (s' == EmptyString) then
        Some (String (ascii_of_N (v * 4 + u / 16)) EmptyString)
      else
        t ← b64_value y;
        if (z == "="%char) && (s' == EmptyString) then
          let n := (v * 1024 + u * 16 + t / 4)%N in
          Some (String (ascii_of_N (n / 256)) (String (ascii_of_N (n mod 256)) EmptyString))
        else
          q ← b64_value z;
          let n := (v * 262144 + u * 4096 + t * 64 + q)%N in
          r ← b64decode s';
          Some (String (ascii_of_N (n / 65536)) (String (ascii_of_N (n / 256 mod 256))
                  (String (ascii_of_N (n mod 256)) r)))
  | _ => None
  end.

(** ** Strict UTF-8 *)

Definition byte_in (lo hi : N) (c : ascii) : bool :=
  ((lo <=? N_of_ascii c) && (N_of_ascii c <=? hi))%N.
Fixpoint utf8_ok (s : string) : bool :=
  match s with
  | EmptyString => true
  | String a s1 =>
      (byte_in 0x00 0x7f a && utf8_ok s1)
      || match s1 with
         | EmptyString => false
         | String b s2 =>
             (byte_in 0xc2 0xdf a && byte_in 0x80 0xbf b && utf8_ok s2)
             || match s2 with
                | EmptyString => false
                | String c s3 =>
                    (((byte_in 0xe0 0xe0 a && byte_in 0xa0 0xbf b)
                      || (byte_in 0xe1 0xec a && byte_in 0x80 0xbf b)
                      || (byte_in 0xed 0xed a && byte_in 0x80 0x9f b)
                      || (byte_in 0xee 0xef a && byte_in 0x80 0xbf b))
                     && byte_in 0x80 0xbf c && utf8_ok s3)
                    || match s3 with
                       | EmptyString => false
                       | String d s4 =>
                           ((byte_in 0xf0 0xf0 a && byte_in 0x90 0xbf b)
                            || (byte_in 0xf1 0xf3 a && byte_in 0x80 0xbf b)
                            || (byte_in 0xf4 0xf4 a && byte_in 0x80 0x8f b))
                           && byte_in 0x80 0xbf c && byte_in 0x80 0xbf d && utf8_ok s4
                       end
                end
         end
  end.

(** ** Envelopes *)

Definition ROUTE_AUTHORITY_PROTOCOL := "eco-route-authority-v1".
Definition ROUTE_AUTHORITY_DOMAIN := "eco-route-authority-signature-v1".
Definition MAX_ROUTE_AUTHORITY_BYTES : nat := 262144.
Definition authority_invalid : py_error := RoutingError "ECO_ROUTE_AUTHORITY_INVALID".

Definition binding_names : list string :=
  ["routeDecisionDigest"; "routeRequestDigest"; "policyDigest"; "priceCatalogDigest";
   "executionPlanDigest"].
Definition envelope_names : list string :=
  ["protocol"; "envelopeId"; "issuer"; "issuedAt"; "validUntil"; "bindings"; "signature"].

(** [set(d) == {...}] *)
Definition keys_are (names : list string) (o : list (string * json)) : bool :=
  list_to_set (C := gset string) o.*1 == list_to_set names.

(** [{key: value for key, value in d.items() if key != name}] *)
Definition without (name : string) (o : list (string * json)) : list (string * json) :=
  List.filter (fun kv => kv.1 != name) o.

Record RouteAuthoritySigner : Type := {
  sg_issuer_id : string; sg_key_id : string; sg_private_key : string;
}.
Record RouteAuthorityVerifier : Type := { rav_encoded : string; rav_public_key : string }.

Section Authority.
Context `{FromIso} `{Crypto} `{Jsonschema} `{Ed25519}.

Definition auth_bytes (body : list (string * json)) : string :=
  canonical_json (JObj [("domain", JStr ROUTE_AUTHORITY_DOMAIN); ("payload", JObj body)]).

(** [_parse_time] *)
Definition authority_time (value : json) : result Z :=
  match value with
  | JStr s => let! t := some_or authority_invalid (read_time s) in utc_of t
  | _ => Err authority_invalid
  end.

Definition bindings (decision request : json) : result (list (string * json)) :=
  let! _ := validate_evidence decision request in
  let inexact := RoutingError "ECO_ROUTE_EXACT_BINDING_REQUIRED" in
  raise inexact when
    ((kind_of decision != "ModelRouteDecision") || (kind_of request != "ModelRouteRequest")) else
  let! d := some_or KeyError (as_decision decision) in
  let! rq := some_or KeyError (as_request request) in
  match dc_execution_plan d with
  | None => Err inexact
  | Some plan =>
      raise inexact when
        ((dc_request_digest d != rm_digest (rq_meta rq)) || (rq_execution_plan rq != Some plan)) else
      Ok [("routeDecisionDigest", JStr (rm_digest (dc_meta d)));
          ("routeRequestDigest", JStr (rm_digest (rq_meta rq)));
          ("policyDigest", JStr (dc_policy_digest d));
          ("priceCatalogDigest", JStr (dc_price_digest d)); ("executionPlanDigest", JStr plan)]
  end.

Definition new_signer (issuer_id key_id private_key : string) : result RouteAuthoritySigner :=
  raise ValueError when
    (negb (is_identifier issuer_id) || negb (is_identifier key_id)
     || negb (String.length private_key =? 32)%nat) else
  Ok {| sg_issuer_id := issuer_id; sg_key_id := key_id; sg_private_key := private_key |}.

(** The signed part of an envelope. *)
Definition envelope_body (s : RouteAuthoritySigner) (envelope_id : string) (issued expiry : Z)
    (bound : list (string * json)) : list (string * json) :=
  [("protocol", JStr ROUTE_AUTHORITY_PROTOCOL); ("envelopeId", JStr envelope_id);
   ("issuer", JObj [("id", JStr (sg_issuer_id s)); ("keyId", JStr (sg_key_id s))]);
   ("issuedAt", JStr (timestamp issued)); ("validUntil", JStr (timestamp expiry));
   ("bindings", JObj bound)].
Definition signature_item (value : string) : string * json :=
  ("signature", JObj [("algorithm", JStr "Ed25519"); ("value", JStr value)]).

(** The bytes of an envelope signed with the signer's key. *)
Definition signed_envelope (s : RouteAuthoritySigner) (envelope_id : string) (issued expiry : Z)
    (bound : list (string * json)) : string :=
  let body := envelope_body s envelope_id issued expiry bound in
  let signature := ed_sign (sg_private_key s) (auth_bytes body) in
  canonical_json (JObj (body ++ [signature_item (b64encode signature)])).

Definition sign_route (s : RouteAuthoritySigner) (decision request : json) (envelope_id : string)
    (issued_at expires_at : datetime) : result string :=
  raise ValueError when (negb (is_identifier envelope_id)) else
  let! issued_utc := route_clock issued_at in
  let! issued := authority_time (JStr (timestamp issued_utc)) in
  let! expiry_utc := route_clock expires_at in
  let! expiry := authority_time (JStr (timestamp expiry_utc)) in
  raise authority_invalid when (expiry <=? issued) else
  let! bound := bindings decision request in
  Ok (signed_envelope s envelope_id issued expiry bound).

Definition new_route_verifier (encoded public_key : string) : result RouteAuthorityVerifier :=
  raise authority_invalid when
    ((MAX_ROUTE_AUTHORITY_BYTES <? String.length encoded)%nat
     || negb (String.length public_key =? 32)%nat) else
  Ok {| rav_encoded := encoded; rav_public_key := public_key |}.

(** The envelope read and its shape checked: id and key id of the issuer, the
    bindings and the signature value. *)
Definition read_envelope (encoded : string)
  : result (list (string * json) * string * string * list (string * json) * string) :=
  match (if utf8_ok encoded then json_loads encoded else None) with
  | Some (JObj o) =>
      raise authority_invalid when
        ((canonical_json (JObj o) != encoded) || negb (keys_are envelope_names o)
         || negb (py_eq (jget "protocol" o) (JStr ROUTE_AUTHORITY_PROTOCOL))) else
      match jget "envelopeId" o, jget "issuer" o, jget "bindings" o, jget "signature" o with
      | JStr envelope_id, JObj issuer, JObj bound, JObj signature =>
          match jget "id" issuer, jget "keyId" issuer, jget "value" signature with
          | JStr issuer_id, JStr key_id, JStr value =>
              raise authority_invalid when
                (negb (is_identifier envelope_id) || negb (keys_are ["id"; "keyId"] issuer)
                 || negb (is_identifier issuer_id) || negb (is_identifier key_id)
                 || negb (keys_are binding_names bound)
                 || negb (keys_are ["algorithm"; "value"] signature)
                 || negb (py_eq (jget "algorithm" signature) (JStr "Ed25519"))) else
              Ok (o, issuer_id, key_id, bound, value)
          | _, _, _ => Err authority_invalid
          end
      | _, _, _, _ => Err authority_invalid
      end
  | _ => Err authority_invalid
  end.

(** [base64.b64decode], its inverse check and [Ed25519PublicKey.verify]. *)
Definition signature_ok (public_key value : string) (body : list (string * json)) : bool :=
  match b64decode value with
  | Some raw => (b64encode raw == value) && ed_verify public_key raw (auth_bytes body)
  | None => false
  end.

Definition str_of (j : json) : string := match j with JStr s => s | _ => EmptyString end.

Definition verify_route_authority (v : RouteAuthorityVerifier) (decision request : json)
    (now : datetime) : result VerifiedRouteAuthority :=
  raise (RoutingError "ECO_ROUTE_CLOCK_INVALID") when (negb (is_some (utcoffset now))) else
  let! ' (envelope, issuer_id, key_id, bound, value) := read_envelope (rav_encoded v) in
  let! expected := bindings decision request in
  raise (RoutingError "ECO_ROUTE_AUTHORITY_MISMATCH") when (negb (py_eq (JObj bound) (JObj expected))) else
  raise authority_invalid when
    (negb (signature_ok (rav_public_key v) value (without "signature" envelope))) else
  let! issued := authority_time (jget "issuedAt" envelope) in
  let! valid_until := authority_time (jget "validUntil" envelope) in
  let! current := route_clock now in
  let expired := RoutingError "ECO_ROUTE_AUTHORITY_EXPIRED" in
  raise expired when (valid_until <=? issued) else
  let! limit := plus_micros current (300 * 1000000) in
  raise expired when ((issued >? limit) || (current >=? valid_until)) else
  let a := {| au_issuer_id := issuer_id; au_key_id := key_id; au_algorithm := "ed25519";
              au_evidence_digest := sha256_hex (rav_encoded v);
              au_decision_digest := str_of (jget "routeDecisionDigest" bound);
              au_request_digest := str_of (jget "routeRequestDigest" bound);
              au_policy_digest := str_of (jget "policyDigest" bound);
              au_price_digest := str_of (jget "priceCatalogDigest" bound);
              au_plan_digest := str_of (jget "executionPlanDigest" bound);
              au_valid_until := str_of (jget "validUntil" envelope) |} in
  let! _ := authority_validate a now in
  Ok a.

(** The verifier object the consumption journal is given. *)
Definition authority_verifier (v : RouteAuthorityVerifier) : verifier :=
  Verifier (fun decision request now =>
    match verify_route_authority v decision request now with
    | Ok a => Attests a
    | Err (RoutingError code) => RaisesRouting code
    | Err _ => RaisesOther
    end).
End Authority.
