(* ===== verification/RouteConsumption.v ===== *)
(** * The consumption journal, src/eco_routing/consumption.py

    [DurableRouteConsumptionJournal] keeps its entries in a SQLite file: a
    metadata row with the head of the chain, and one row per consumed route.
    Entries are chained by hash and authenticated, like the metadata, by HMAC.
    [file] is the content of the database; a call runs in one transaction, so a
    call that raises leaves the file as it was.  The file system checks of
    [_prepare_location] are not modelled. *)

From S2P Require Import Prelude Json Digest PyTime PyClock Schema RouteRecords Router RouteBinding.
From Stdlib Require Import Ascii.

(** ** Authenticated chains

    The parts the consumption and the usage journal share. *)

Definition GENESIS_DIGEST : string :=
  "0000000000000000000000000000000000000000000000000000000000000000".

(** SQLite stores an [int] in 64 bits; binding a larger one raises. *)
Definition int64 (z : Z) : bool := (- 2 ^ 63 <=? z) && (z <? 2 ^ 63).

(** [hmac.compare_digest] of two strings: a [TypeError] unless both are ASCII. *)
Definition is_ascii (s : string) : bool := str_all (fun c => (N_of_ascii c <? 128)%N) s.
Definition compare_digest (a b : string) : result bool :=
  if is_ascii a && is_ascii b then Ok (a == b) else Err TypeError.

Record meta_row : Type := {
  me_journal_id : string; me_schema_version : Z; me_key_id : string; me_head_sequence : Z;
  me_head_hash : string; me_hmac : string;
}.
#[export] Instance meta_row_eq_dec : EqDecision meta_row.
Proof. solve_decision. Defined.

(** The columns of an entry that chain it, and the payload its hash covers. *)
Class ChainRow (R : Type) : Type := {
  row_sequence : R → Z; row_previous : R → string; row_hash : R → string;
  row_key_id : R → string; row_hmac : R → string; row_payload : R → json;
}.

(** The key a journal object was opened with, and the object: closed or not. *)
Record journal_key : Type := { jk_hmac_key : string; jk_key_id : string }.
Record journal : Type := { j_key : journal_key; j_closed : bool }.
Definition close (j : journal) : journal := {| j_key := j_key j; j_closed := true |}.

Section Chain.
Context `{Crypto}.

(** [hmac.new(key, canonical_json(payload), sha256).hexdigest()] *)
Definition sign (k : journal_key) (payload : json) : string :=
  hmac_sha256_hex (jk_hmac_key k) (canonical_json payload).
Definition entry_hash (payload : json) : string := sha256_hex (canonical_json payload).

Definition meta_payload (domain : string) (k : journal_key) (journal_id : string)
    (head_sequence : Z) (head_hash : string) : json :=
  JObj [("domain", JStr domain); ("schemaVersion", JInt 1); ("journalId", JStr journal_id);
        ("keyId", JStr (jk_key_id k)); ("headSequence", JInt head_sequence);
        ("headHash", JStr head_hash)].
Definition mk_meta (domain : string) (k : journal_key) (journal_id : string)
    (head_sequence : Z) (head_hash : string) : meta_row :=
  {| me_journal_id := journal_id; me_schema_version := 1; me_key_id := jk_key_id k;
     me_head_sequence := head_sequence; me_head_hash := head_hash;
     me_hmac := sign k (meta_payload domain k journal_id head_sequence head_hash) |}.
(** [UPDATE journal_meta SET head_sequence = ?, head_hash = ?, meta_hmac = ?] *)
Definition move_head (domain : string) (k : journal_key) (journal_id : string)
    (head_sequence : Z) (head_hash : string) (m : meta_row) : meta_row :=
  {| me_journal_id := me_journal_id m; me_schema_version := me_schema_version m;
     me_key_id := me_key_id m; me_head_sequence := head_sequence; me_head_hash := head_hash;
     me_hmac := sign k (meta_payload domain k journal_id head_sequence head_hash) |}.
End Chain.

(** [SELECT ... ORDER BY sequence] *)
Definition by_sequence {R} `{ChainRow R} (rows : list R) : list R :=
  py_sorted (fun a b => row_sequence a <=? row_sequence b) rows.

(** ** The journal *)

Definition ROUTE_JOURNAL_APPLICATION_ID : Z := 0x45435236.
Definition ROUTE_JOURNAL_DOMAIN := "eco-route-consumption-journal-v1".

Record consumed_route : Type := {
  cr_route_digest : string; cr_sequence : Z; cr_request_digest : string; cr_policy_digest : string;
  cr_price_digest : string; cr_deployment_id : string; cr_identity_digest : string;
  cr_reserved_cost : Z; cr_attempt : Z; cr_fallback_from : option string;
  cr_consumer_kind : string; cr_consumer_id : string; cr_consumer_digest : string;
  cr_consumed_at : string; cr_previous_hash : string;
}.
#[export] Instance consumed_route_eq_dec : EqDecision consumed_route.
Proof. solve_decision. Defined.
Record consumed_row : Type := {
  cw_entry : consumed_route; cw_hash : string; cw_key_id : string; cw_hmac : string;
}.
#[export] Instance consumed_row_eq_dec : EqDecision consumed_row.
Proof. solve_decision. Defined.

(** The database file: [fi_tables] tells whether the tables were created. *)
Record file (R : Type) : Type := {
  fi_application_id : Z; fi_user_version : Z; fi_tables : bool;
  fi_meta : option meta_row; fi_rows : list R;
}.
Arguments fi_application_id {R}. Arguments fi_user_version {R}. Arguments fi_tables {R}.
Arguments fi_meta {R}. Arguments fi_rows {R}.
Definition empty_file (R : Type) : file R :=
  {| fi_application_id := 0; fi_user_version := 0; fi_tables := false; fi_meta := None; fi_rows := [] |}.

Record verified : Type := { ve_journal_id : string; ve_entries : Z; ve_head : string }.

(** [consume]'s answer. *)
Record receipt : Type := { re_route_digest : string; re_replayed : bool; re_consumed_at : string }.

Definition entry_payload (e : consumed_route) : json :=
  JObj [("domain", JStr ROUTE_JOURNAL_DOMAIN); ("entry", JStr "consumed-route");
        ("routeDigest", JStr (cr_route_digest e)); ("sequence", JInt (cr_sequence e));
        ("requestDigest", JStr (cr_request_digest e)); ("policyDigest", JStr (cr_policy_digest e));
        ("priceCatalogDigest", JStr (cr_price_digest e));
        ("deploymentId", JStr (cr_deployment_id e));
        ("deploymentIdentityDigest", JStr (cr_identity_digest e));
        ("reservedCostMicrousd", JInt (cr_reserved_cost e)); ("routeAttempt", JInt (cr_attempt e));
        ("fallbackFromDigest", json_of_optstr (cr_fallback_from e));
        ("consumerKind", JStr (cr_consumer_kind e)); ("consumerId", JStr (cr_consumer_id e));
        ("consumerDigest", JStr (cr_consumer_digest e)); ("consumedAt", JStr (cr_consumed_at e));
        ("previousHash", JStr (cr_previous_hash e))].
#[export] Instance consumed_chain : ChainRow consumed_row := {
  row_sequence w := cr_sequence (cw_entry w); row_previous w := cr_previous_hash (cw_entry w);
  row_hash := cw_hash; row_key_id := cw_key_id; row_hmac := cw_hmac;
  row_payload w := entry_payload (cw_entry w);
}.

Section Journal.
Context `{FromIso} `{Crypto} `{Jsonschema}.

Definition tampered : py_error := RoutingError "ECO_ROUTE_JOURNAL_TAMPERED".

(** [_meta_row]; [SELECT * FROM journal_meta] on a file without tables fails. *)
Definition meta_row_of (k : journal_key) (f : file consumed_row) : result meta_row :=
  raise (RoutingError "ECO_ROUTE_JOURNAL_UNAVAILABLE") when (negb (fi_tables f)) else
  match fi_meta f with
  | None => Err tampered
  | Some m =>
      raise tampered when (me_key_id m != jk_key_id k) else
      let! same := compare_digest (me_hmac m)
                     (sign k (meta_payload ROUTE_JOURNAL_DOMAIN k (me_journal_id m)
                                (me_head_sequence m) (me_head_hash m))) in
      raise tampered when (negb same) else Ok m
  end.

(** The loop of [_verify_locked]. *)
Fixpoint verify_rows (k : journal_key) (count : Z) (previous : string) (rows : list consumed_row)
  : result (Z * string) :=
  match rows with
  | [] => Ok (count, previous)
  | row :: rows' =>
      raise tampered when
        (negb (row_sequence row =? count + 1) || (row_previous row != previous)) else
      let payload := row_payload row in
      raise tampered when
        ((row_hash row != entry_hash payload) || (row_key_id row != jk_key_id k)) else
      let! same := compare_digest (row_hmac row) (sign k payload) in
      raise tampered when (negb same) else
      verify_rows k (count + 1) (entry_hash payload) rows'
  end.

Definition verify_locked (k : journal_key) (f : file consumed_row) : result verified :=
  let! meta := meta_row_of k f in
  let! ' (count, previous) := verify_rows k 0 GENESIS_DIGEST (by_sequence (fi_rows f)) in
  raise tampered when
    (negb (me_head_sequence meta =? count) || (me_head_hash meta != previous)) else
  Ok {| ve_journal_id := me_journal_id meta; ve_entries := count; ve_head := previous |}.

(** The constructor's part that works on the file. *)
Definition initialize_or_verify (k : journal_key) (token : string) (f : file consumed_row)
  : file consumed_row * result unit :=
  if (fi_application_id f =? 0) && (fi_user_version f =? 0) then
    if fi_tables f then (f, Err (RoutingError "ECO_ROUTE_JOURNAL_UNAVAILABLE"))
    else
      ({| fi_application_id := ROUTE_JOURNAL_APPLICATION_ID; fi_user_version := 1; fi_tables := true;
          fi_meta := Some (mk_meta ROUTE_JOURNAL_DOMAIN k token 0 GENESIS_DIGEST); fi_rows := [] |},
       Ok tt)
  else if negb (fi_application_id f =? ROUTE_JOURNAL_APPLICATION_ID) || negb (fi_user_version f =? 1)
  then (f, Err (RoutingError "ECO_ROUTE_JOURNAL_PROFILE_MISMATCH"))
  else (f, let! _ := verify_locked k f in Ok tt).

(** [DurableRouteConsumptionJournal(path, hmac_key=..., key_id=...)]; [token] is
    [secrets.token_hex(16)]. *)
Definition open_journal (hmac_key key_id token : string) (f : file consumed_row)
  : file consumed_row * result journal :=
  if (String.length hmac_key <? 32)%nat || negb (is_identifier key_id) then (f, Err ValueError)
  else
    let k := {| jk_hmac_key := hmac_key; jk_key_id := key_id |} in
    let x := initialize_or_verify k token f in
    (x.1, let! _ := x.2 in Ok {| j_key := k; j_closed := false |}).

(** [with self._transaction()]: a closed journal refuses. *)
Definition transaction {A} (j : journal) (body : journal_key → result A) : result A :=
  raise (RoutingError "ECO_ROUTE_JOURNAL_CLOSED") when (j_closed j) else body (j_key j).

(** [SELECT * FROM consumed_routes WHERE route_digest = ?] *)
Definition find_route (digest : string) (rows : list consumed_row) : option consumed_route :=
  cw_entry <$> List.find (fun w => cr_route_digest (cw_entry w) == digest) rows.

Definition verify (j : journal) (f : file consumed_row) : result verified :=
  transaction j (fun k => verify_locked k f).

(** [status(route_digest)] *)
Definition status (j : journal) (f : file consumed_row) (route_digest : string)
  : result (option consumed_route) :=
  raise (RoutingError "ECO_ROUTE_EVIDENCE_INVALID") when (negb (is_digest route_digest)) else
  transaction j (fun k =>
    let! _ := verify_locked k f in Ok (find_route route_digest (fi_rows f))).

(** ** Consuming a route *)

Record consumer : Type := { co_kind : string; co_id : string; co_digest : string }.
#[export] Instance consumer_eq_dec : EqDecision consumer.
Proof. solve_decision. Defined.
Definition consumer_of (e : consumed_route) : consumer :=
  {| co_kind := cr_consumer_kind e; co_id := cr_consumer_id e; co_digest := cr_consumer_digest e |}.

(** The row found for [fallbackFromDigest] continues the same workflow on
    another deployment. *)
Definition predecessor_ok (p : consumed_route) (d : RouteDecision) (rq : RouteRequest)
    (selected : Selected) (c : consumer) : bool :=
  (cr_attempt p =? 1) && negb (is_some (cr_fallback_from p))
  && (cr_request_digest p == rm_digest (rq_meta rq)) && (cr_policy_digest p == dc_policy_digest d)
  && (cr_price_digest p == dc_price_digest d) && (consumer_of p == c)
  && negb ((cr_deployment_id p == se_deployment_id selected)
           && (cr_identity_digest p == se_identity_digest selected)).

Definition check_predecessor (rows : list consumed_row) (d : RouteDecision) (rq : RouteRequest)
    (selected : Selected) (c : consumer) : result unit :=
  if dc_attempt d =? 2 then
    match dc_fallback_from d ≫= fun x => find_route x rows with
    | None => Err (RoutingError "ECO_ROUTE_FALLBACK_PREDECESSOR_MISSING")
    | Some p =>
        raise (RoutingError "ECO_ROUTE_FALLBACK_PREDECESSOR_MISMATCH") when
          (negb (predecessor_ok p d rq selected c)) else Ok tt
    end
  else Ok tt.

Definition new_entry (d : RouteDecision) (rq : RouteRequest) (selected : Selected) (c : consumer)
    (sequence : Z) (current head : string) : consumed_route :=
  {| cr_route_digest := rm_digest (dc_meta d); cr_sequence := sequence;
     cr_request_digest := rm_digest (rq_meta rq); cr_policy_digest := dc_policy_digest d;
     cr_price_digest := dc_price_digest d; cr_deployment_id := se_deployment_id selected;
     cr_identity_digest := se_identity_digest selected;
     cr_reserved_cost := se_reserved_cost selected; cr_attempt := dc_attempt d;
     cr_fallback_from := dc_fallback_from d; cr_consumer_kind := co_kind c;
     cr_consumer_id := co_id c; cr_consumer_digest := co_digest c; cr_consumed_at := current;
     cr_previous_hash := head |}.

Definition row_of (k : journal_key) (e : consumed_route) : consumed_row :=
  {| cw_entry := e; cw_hash := entry_hash (entry_payload e); cw_key_id := jk_key_id k;
     cw_hmac := sign k (entry_payload e) |}.

(** The transaction of [consume]. *)
Definition consume_locked (k : journal_key) (f : file consumed_row) (d : RouteDecision)
    (rq : RouteRequest) (selected : Selected) (c : consumer) (current : string)
  : result (file consumed_row * receipt) :=
  let route_digest := rm_digest (dc_meta d) in
  let! state := verify_locked k f in
  match find_route route_digest (fi_rows f) with
  | Some existing =>
      raise (RoutingError "ECO_ROUTE_ALREADY_CONSUMED") when (consumer_of existing != c) else
      Ok (f, {| re_route_digest := route_digest; re_replayed := true;
                re_consumed_at := cr_consumed_at existing |})
  | None =>
      let! _ := check_predecessor (fi_rows f) d rq selected c in
      let e := new_entry d rq selected c (ve_entries state + 1) current (ve_head state) in
      raise OverflowError when (negb (int64 (cr_sequence e) && int64 (cr_reserved_cost e))) else
      Ok ({| fi_application_id := fi_application_id f; fi_user_version := fi_user_version f;
             fi_tables := fi_tables f;
             fi_meta := move_head ROUTE_JOURNAL_DOMAIN k (ve_journal_id state) (cr_sequence e)
                          (entry_hash (entry_payload e)) <$> fi_meta f;
             fi_rows := fi_rows f ++ [row_of k e] |},
          {| re_route_digest := route_digest; re_replayed := false; re_consumed_at := current |})
  end.

Definition consume (j : journal) (f : file consumed_row) (decision request : json)
    (a : BindingArgs) (c : consumer) : file consumed_row * result receipt :=
  let step : result (file consumed_row * receipt) :=
    raise (RoutingError "ECO_ROUTE_EVIDENCE_INVALID") when
      (negb (is_slug (co_kind c) && is_identifier (co_id c) && is_digest (co_digest c))) else
    let! current := route_clock (ba_now a) in
    let! ' (d, rq) := verify_route_binding decision request a in
    match dc_selected d with
    | Some selected =>
        transaction j (fun k => consume_locked k f d rq selected c (timestamp current))
    | None => Err TypeError                      (* refused by verify_route_binding *)
    end in
  match step with
  | Ok (f', r) => (f', Ok r)
  | Err e => (f, Err e)
  end.

Definition consume_exact (j : journal) (f : file consumed_row) (decision request : json)
    (deployment_id identity_digest policy price plan : string) (v : verifier)
    (issuer key algorithm consumer_kind consumer_id effect_digest : string) (now : datetime)
    (cost : option Z) : file consumed_row * result receipt :=
  match route_consumer_digest decision request consumer_kind consumer_id effect_digest with
  | Err e => (f, Err e)
  | Ok consumer_digest =>
      consume j f decision request
        {| ba_deployment_id := deployment_id; ba_identity_digest := identity_digest; ba_now := now;
           ba_cost := cost; ba_policy := Some policy; ba_price := Some price; ba_plan := Some plan;
           ba_verifier := Some v; ba_issuer := Some issuer; ba_key := Some key;
           ba_algorithm := Some algorithm |}
        {| co_kind := consumer_kind; co_id := consumer_id; co_digest := consumer_digest |}
  end.
End Journal.
