(* ===== verification/ConsumptionProofs.v ===== *)
(** * Lemmas on the consumption journal

    The invariant of a file a journal has written: its rows are the chain of its
    entries, its metadata names the head, no route occurs twice, and a fallback
    follows its predecessor.  [consume] keeps it and verification accepts it. *)

From S2P Require Import Prelude Json Digest PyTime PyClock Schema RouteRecords Router RouteRecordFacts RouteBinding RouteConsumption.
From Stdlib Require Import Ascii.

(** ** Digests compare *)

Lemma str_all_impl (p q : ascii → bool) s :
  (∀ c, p c = true → q c = true) → str_all p s = true → str_all q s = true.
Proof.
  intros Hpq. induction s as [|c s IH]; [done|]. simpl. intros Hs. breflect.
  rewrite Hpq by done. by apply IH.
Qed.
Lemma digest_ascii s : is_digest s = true → is_ascii s = true.
Proof.
  unfold is_digest, is_ascii. intros Hd. breflect. revert H.
  apply str_all_impl. intros c. unfold is_hex, is_digit, char_between. intros Hc.
  apply N.ltb_lt. apply orb_true_iff in Hc as [Hc|Hc]; apply andb_true_iff in Hc as [_ Hc];
    apply N.leb_le in Hc; simpl in Hc; lia.
Qed.
Lemma compare_digest_refl s : is_digest s = true → compare_digest s s = Ok true.
Proof.
  intros Hd. unfold compare_digest. rewrite digest_ascii by done. simpl. by rewrite bool_decide_true.
Qed.
Lemma compare_digest_eq a b : compare_digest a b = Ok true → a = b.
Proof. unfold compare_digest. case_match; [|done]. intros [= ?]. by breflect. Qed.

Section Chains.
Context `{Crypto}.
Lemma sign_digest k p : is_digest (sign k p) = true.
Proof. apply hmac_sha256_hex_digest. Qed.

(** ** The chain of entries *)

Fixpoint chained (n : Z) (prev : string) (es : list consumed_route) : Prop :=
  match es with
  | [] => True
  | e :: es' =>
      cr_sequence e = n + 1 ∧ cr_previous_hash e = prev ∧
      chained (n + 1) (entry_hash (entry_payload e)) es'
  end.
Definition head_of (prev : string) (es : list consumed_route) : string :=
  foldl (fun _ e => entry_hash (entry_payload e)) prev es.

Lemma chained_snoc n prev es e :
  chained n prev (es ++ [e]) ↔
  chained n prev es ∧ cr_sequence e = n + Z.of_nat (length es) + 1 ∧
  cr_previous_hash e = head_of prev es.
Proof.
  revert n prev. induction es as [|x es IH]; intros n prev; cbn [app chained length head_of foldl].
  { rewrite Z.add_0_r. tauto. }
  rewrite IH. replace (n + Z.of_nat (S (length es)) + 1) with (n + 1 + Z.of_nat (length es) + 1) by lia.
  tauto.
Qed.
Lemma head_of_snoc prev es e : head_of prev (es ++ [e]) = entry_hash (entry_payload e).
Proof. unfold head_of. by rewrite foldl_app. Qed.

Lemma chained_sequences n prev es :
  chained n prev es →
  StronglySorted (fun a b => cr_sequence a <=? cr_sequence b = true) es ∧
  Forall (fun e => n < cr_sequence e) es.
Proof.
  revert n prev. induction es as [|e es IH]; intros n prev Hc; [by repeat constructor|].
  destruct Hc as (Hs & _ & Hc). destruct (IH _ _ Hc) as [Hsort Hlo]. split.
  - constructor; [done|]. eapply Forall_impl; [exact Hlo|]. intros x Hx. apply Z.leb_le.
    simpl in Hx. lia.
  - constructor; [lia|]. eapply Forall_impl; [exact Hlo|]. simpl. lia.
Qed.

Lemma by_sequence_chained k n prev es :
  chained n prev es → by_sequence (map (row_of k) es) = map (row_of k) es.
Proof.
  intros Hc. unfold by_sequence. apply py_sorted_id.
  destruct (chained_sequences _ _ _ Hc) as [Hs _]. clear Hc.
  induction Hs as [|e es _ IH He]; simpl; constructor; [done|]. by apply Forall_map.
Qed.

Lemma verify_rows_chained k n prev es :
  chained n prev es →
  verify_rows k n prev (map (row_of k) es) = Ok (n + Z.of_nat (length es), head_of prev es).
Proof.
  revert n prev. induction es as [|e es IH]; intros n prev Hc; cbn [map verify_rows].
  { cbn. do 2 f_equal. lia. }
  destruct Hc as (Hs & Hp & Hc).
  cbn [row_sequence row_previous row_hash row_key_id row_hmac row_payload consumed_chain row_of
       cw_entry cw_hash cw_key_id cw_hmac].
  rewrite Hs, Hp, Z.eqb_refl, !bool_decide_true by done. cbn [negb orb].
  rewrite compare_digest_refl by apply sign_digest. cbn [negb]. rewrite IH by done.
  cbn [length head_of foldl]. do 2 f_equal. lia.
Qed.

(** ** The invariant of a file *)

Definition fallback_follows (es : list consumed_route) : Prop :=
  ∀ i e, es !! i = Some e → cr_attempt e = 2 →
  ∃ j p, (j < i)%nat ∧ es !! j = Some p ∧ cr_fallback_from e = Some (cr_route_digest p) ∧
    cr_attempt p = 1 ∧ cr_request_digest p = cr_request_digest e ∧ consumer_of p = consumer_of e ∧
    (cr_deployment_id p ≠ cr_deployment_id e ∨ cr_identity_digest p ≠ cr_identity_digest e).

Record file_inv (k : journal_key) (f : file consumed_row) (jid : string)
    (es : list consumed_route) : Prop := {
  fv_application : fi_application_id f = ROUTE_JOURNAL_APPLICATION_ID;
  fv_version : fi_user_version f = 1;
  fv_tables : fi_tables f = true;
  fv_meta : fi_meta f = Some (mk_meta ROUTE_JOURNAL_DOMAIN k jid (Z.of_nat (length es))
                                (head_of GENESIS_DIGEST es));
  fv_rows : fi_rows f = map (row_of k) es;
  fv_chained : chained 0 GENESIS_DIGEST es;
  fv_once : NoDup (map cr_route_digest es);
  fv_fallback : fallback_follows es;
}.

Lemma verify_locked_inv k f jid es :
  file_inv k f jid es →
  verify_locked k f = Ok {| ve_journal_id := jid; ve_entries := Z.of_nat (length es);
                            ve_head := head_of GENESIS_DIGEST es |}.
Proof.
  intros []. unfold verify_locked, meta_row_of. rewrite fv_tables0, fv_meta0. cbn [negb].
  cbn [mk_meta me_key_id me_hmac me_journal_id me_head_sequence me_head_hash].
  rewrite bool_decide_true by done. cbn [negb]. rewrite compare_digest_refl by apply sign_digest.
  cbn [negb]. rewrite fv_rows0, (by_sequence_chained k 0 GENESIS_DIGEST) by done.
  rewrite verify_rows_chained by done. cbn [Z.add]. rewrite Z.eqb_refl, bool_decide_true by done.
  done.
Qed.

Lemma find_route_spec k es digest :
  match find_route digest (map (row_of k) es) with
  | Some e => e ∈ es ∧ cr_route_digest e = digest
  | None => digest ∉ map cr_route_digest es
  end.
Proof.
  unfold find_route. induction es as [|e es IH]; simpl; [by apply not_elem_of_nil|].
  case_bool_decide as Hd; simpl; [split; [left|done]|].
  destruct (List.find _ _) as [w|]; simpl in *.
  - destruct IH as [? ?]. split; [by right|done].
  - rewrite not_elem_of_cons. split; [congruence|done].
Qed.
Lemma find_route_known k es e :
  NoDup (map cr_route_digest es) → e ∈ es →
  find_route (cr_route_digest e) (map (row_of k) es) = Some e.
Proof.
  intros Hnd He. pose proof (find_route_spec k es (cr_route_digest e)) as Hf.
  destruct (find_route _ _) as [e'|].
  - destruct Hf as [Hin Heq]. f_equal.
    apply list_elem_of_lookup in Hin as [i Hi], He as [j Hj].
    assert (i = j) as ->; [|congruence].
    eapply (NoDup_lookup (map cr_route_digest es)); [done|..].
    + rewrite list_lookup_fmap, Hi. simpl. by rewrite Heq.
    + by rewrite list_lookup_fmap, Hj.
  - exfalso. apply Hf. by apply list_elem_of_fmap_2.
Qed.

Lemma check_predecessor_spec k es d rq se c :
  check_predecessor (map (row_of k) es) d rq se c = Ok tt → dc_attempt d = 2 →
  ∃ p, p ∈ es ∧ dc_fallback_from d = Some (cr_route_digest p) ∧ cr_attempt p = 1 ∧
    cr_request_digest p = rm_digest (rq_meta rq) ∧ consumer_of p = c ∧
    (cr_deployment_id p ≠ se_deployment_id se ∨ cr_identity_digest p ≠ se_identity_digest se).
Proof.
  unfold check_predecessor. intros Hc Ha. rewrite Ha in Hc. simpl in Hc.
  destruct (dc_fallback_from d) as [x|]; simpl in Hc; [|discriminate].
  pose proof (find_route_spec k es x) as Hf. destruct (find_route x _) as [p|]; [|discriminate].
  destruct Hf as [Hin <-]. destruct (predecessor_ok p d rq se c) eqn:Ep; [|discriminate].
  unfold predecessor_ok in Ep. exists p.
  apply andb_true_iff in Ep as [Ep Hdep]. breflect. split_and!; try done.
  apply andb_false_iff in Hdep as [Hd|Hd]; breflect; auto.
Qed.

(** ** The transaction keeps the invariant *)

Lemma inv_extends k f jid es e f' :
  file_inv k f jid es →
  cr_sequence e = Z.of_nat (length es) + 1 → cr_previous_hash e = head_of GENESIS_DIGEST es →
  cr_route_digest e ∉ map cr_route_digest es → fallback_follows (es ++ [e]) →
  f' = {| fi_application_id := fi_application_id f; fi_user_version := fi_user_version f;
          fi_tables := fi_tables f;
          fi_meta := move_head ROUTE_JOURNAL_DOMAIN k jid (cr_sequence e)
                       (entry_hash (entry_payload e)) <$> fi_meta f;
          fi_rows := fi_rows f ++ [row_of k e] |} →
  file_inv k f' jid (es ++ [e]).
Proof.
  intros [] Hs Hp Hn Hf ->. constructor; cbn [fi_application_id fi_user_version fi_tables fi_meta fi_rows]; try done.
  - rewrite fv_meta0. cbn. rewrite head_of_snoc, length_app, Nat2Z.inj_add. cbn [length Z.of_nat].
    unfold mk_meta. rewrite Hs. done.
  - by rewrite fv_rows0, map_app.
  - apply chained_snoc. split_and!; [done|lia|done].
  - rewrite map_app. apply NoDup_app. split_and!; [done| |apply NoDup_singleton].
    intros x Hx Hx2. apply list_elem_of_singleton in Hx2 as ->. done.
Qed.

Lemma fallback_follows_snoc es e :
  fallback_follows es →
  (cr_attempt e = 2 → ∃ p, p ∈ es ∧ cr_fallback_from e = Some (cr_route_digest p) ∧
     cr_attempt p = 1 ∧ cr_request_digest p = cr_request_digest e ∧ consumer_of p = consumer_of e ∧
     (cr_deployment_id p ≠ cr_deployment_id e ∨ cr_identity_digest p ≠ cr_identity_digest e)) →
  fallback_follows (es ++ [e]).
Proof.
  intros Hf He i x Hi Ha. apply lookup_app_Some in Hi as [Hi|[Hlen Hi]].
  - destruct (Hf i x Hi Ha) as (j & p & Hj & Hp & ? & ? & ? & ? & ?). exists j, p.
    split_and!; try done. apply lookup_app_Some. by left.
  - apply list_lookup_singleton_Some in Hi as [Hi <-].
    destruct (He Ha) as (p & Hp & ? & ? & ? & ? & ?). apply list_elem_of_lookup in Hp as [j Hj].
    exists j, p. split_and!; try done.
    + apply lookup_lt_Some in Hj. lia.
    + apply lookup_app_Some. by left.
Qed.

Lemma consume_locked_inv k f jid es d rq se c current f' rc :
  file_inv k f jid es → consume_locked k f d rq se c current = Ok (f', rc) →
  re_route_digest rc = rm_digest (dc_meta d) ∧
  ((f' = f ∧ re_replayed rc = true ∧ ∃ e, e ∈ es ∧ cr_route_digest e = rm_digest (dc_meta d) ∧
      consumer_of e = c ∧ cr_consumed_at e = re_consumed_at rc) ∨
   (re_replayed rc = false ∧ re_consumed_at rc = current ∧
    let e := new_entry d rq se c (Z.of_nat (length es) + 1) current (head_of GENESIS_DIGEST es) in
    rm_digest (dc_meta d) ∉ map cr_route_digest es ∧ file_inv k f' jid (es ++ [e]))).
Proof.
  intros Hinv. unfold consume_locked. rewrite (verify_locked_inv _ _ _ _ Hinv).
  rewrite (fv_rows _ _ _ _ Hinv). pose proof (find_route_spec k es (rm_digest (dc_meta d))) as Hf.
  destruct (find_route _ _) as [e|].
  - destruct Hf as [He Hd]. case_bool_decide as Hc; [|done]. simpl. intros [= <- <-].
    split; [done|]. left. split_and!; [done..|]. by exists e.
  - destruct (check_predecessor _ d rq se c) as [[]|] eqn:Ec; [|discriminate].
    cbn [ve_entries ve_head ve_journal_id].
    destruct (negb (int64 _ && int64 _)); [discriminate|]. intros [= <- <-].
    split; [done|]. right. split_and!; [done..|]. eapply inv_extends; try done.
    + apply fallback_follows_snoc; [apply Hinv|]. cbn. intros Ha.
      destruct (check_predecessor_spec _ _ _ _ _ _ Ec Ha) as (p & ? & ? & ? & ? & Hco & ?).
      exists p. split_and!; try done. by destruct c.
    + by rewrite (fv_rows _ _ _ _ Hinv).
Qed.

(** ** What verification accepts *)

Lemma compare_digest_ok a b x : compare_digest a b = Ok x → x = (a == b).
Proof. unfold compare_digest. case_match; [|done]. by intros [= <-]. Qed.

Lemma verify_rows_sound k n prev rows m h :
  verify_rows k n prev rows = Ok (m, h) →
  rows = map (row_of k) (map cw_entry rows) ∧ chained n prev (map cw_entry rows) ∧
  m = n + Z.of_nat (length rows) ∧ h = head_of prev (map cw_entry rows).
Proof.
  revert n prev. induction rows as [|w rows IH]; intros n prev; cbn [verify_rows].
  { intros [= <- <-]. cbn. split_and!; [done..|lia|done]. }
  cbv zeta. destruct (negb (row_sequence w =? n + 1) || _) eqn:E1; [done|]. destruct ((row_hash w != _) || _) eqn:E2; [done|].
  destruct (compare_digest _ _) as [same|] eqn:E3; [|done]. apply compare_digest_ok in E3.
  destruct same; [|done]. cbn [negb]. intros Hv.
  destruct (IH _ _ Hv) as (Hr & Hc & -> & ->). symmetry in E3. breflect. split_and!.
  - cbn [map]. f_equal; [|done]. destruct w as [e h ki hm]. unfold row_of.
    cbn [cw_entry row_payload row_hash row_key_id row_hmac consumed_chain cw_hash cw_key_id cw_hmac] in *.
    f_equal; done.
  - cbn [map chained]. done.
  - cbn [length]. lia.
  - done.
Qed.

Lemma verify_locked_sound k f v :
  verify_locked k f = Ok v →
  ∃ es, by_sequence (fi_rows f) = map (row_of k) es ∧ chained 0 GENESIS_DIGEST es ∧
    fi_tables f = true ∧ ve_entries v = Z.of_nat (length es) ∧
    ve_head v = head_of GENESIS_DIGEST es ∧
    ∃ version, fi_meta f = Some
      {| me_journal_id := ve_journal_id v; me_schema_version := version; me_key_id := jk_key_id k;
         me_head_sequence := ve_entries v; me_head_hash := ve_head v;
         me_hmac := sign k (meta_payload ROUTE_JOURNAL_DOMAIN k (ve_journal_id v) (ve_entries v)
                              (ve_head v)) |}.
Proof.
  unfold verify_locked, meta_row_of. destruct (fi_tables f) eqn:Et; [|done]. cbn [negb].
  destruct (fi_meta f) as [m|]; [|done]. destruct (_ != _) eqn:Ek; [done|].
  destruct (compare_digest _ _) as [same|] eqn:E3; [|done]. apply compare_digest_ok in E3.
  destruct same; [|done]. cbn [negb]. destruct (verify_rows _ _ _ _) as [[n h]|] eqn:Ev; [|done].
  destruct (_ || _) eqn:Eh; [done|]. intros [= <-].
  destruct (verify_rows_sound _ _ _ _ _ _ Ev) as (Hr & Hc & -> & ->). symmetry in E3. breflect.
  exists (map cw_entry (by_sequence (fi_rows f))). cbn [ve_entries ve_head ve_journal_id].
  rewrite length_map. split_and!; try done. exists (me_schema_version m). destruct m. cbn in *.
  by subst.
Qed.
End Chains.
