(* ===== verification/ConsumptionProps.v ===== *)
(** * Properties of the consumption journal *)

From S2P Require Import Prelude Json Digest PyTime PyClock Schema RouteRecords Router RouteRecordFacts RouteExamples RouteBinding RouteConsumption ConsumptionProofs.

(** One call of [consume]: its evidence, its expectations and its consumer. *)
Record call : Type := {
  ca_decision : json; ca_request : json; ca_args : BindingArgs; ca_consumer : consumer;
}.

Section Claims.
Context `{FromIso} `{Crypto} `{Jsonschema}.

(** The calls made on one journal, in order: the file after them and what each
    returned or raised. *)
Definition consume_all (j : journal) (f : file consumed_row) (cs : list call)
  : file consumed_row * list (result receipt) :=
  foldl (fun acc c =>
    let x := consume j acc.1 (ca_decision c) (ca_request c) (ca_args c) (ca_consumer c) in
    (x.1, acc.2 ++ [x.2])) (f, []) cs.

Definition fresh (r : result receipt) : Prop :=
  match r with Ok rc => re_replayed rc = false | Err _ => False end.
#[export] Instance fresh_dec r : Decision (fresh r).
Proof. destruct r; simpl; apply _. Defined.

(** ** What a sequence of calls leaves behind *)

(** Entry [e] is what call [c] with answer [r] is about. *)
Definition entry_for (e : consumed_route) (c : call) (r : receipt) : Prop :=
  cr_route_digest e = re_route_digest r ∧ consumer_of e = ca_consumer c ∧
  cr_consumed_at e = re_consumed_at r.

Record trace_ok (es : list consumed_route) (cs : list call) (rs : list (result receipt)) : Prop := {
  tr_length : length rs = length cs;
  tr_fresh : length es = length (filter fresh rs);
  tr_recorded : ∀ i c r, cs !! i = Some c → rs !! i = Some (Ok r) →
    ∃ e, e ∈ es ∧ entry_for e c r;
  tr_origin : ∀ e, e ∈ es → ∃ i c r, cs !! i = Some c ∧ rs !! i = Some (Ok r) ∧
    re_replayed r = false ∧ entry_for e c r;
  tr_replayed : ∀ i c r, cs !! i = Some c → rs !! i = Some (Ok r) →
    (re_replayed r = true ↔
     ∃ i' r', (i' < i)%nat ∧ rs !! i' = Some (Ok r') ∧ re_route_digest r' = re_route_digest r);
}.

Lemma trace_ok_nil : trace_ok [] [] [].
Proof. constructor; try done. by intros e ?%elem_of_nil. Qed.

Lemma lookup_snoc_cases {A} (l : list A) x i y :
  (l ++ [x]) !! i = Some y → (l !! i = Some y ∧ (i < length l)%nat) ∨ (i = length l ∧ x = y).
Proof.
  intros Hi. apply lookup_snoc_Some in Hi as [[? ?]|[? ?]]; auto.
Qed.
Lemma lookup_snoc_left {A} (l : list A) x i y : l !! i = Some y → (l ++ [x]) !! i = Some y.
Proof. intros Hi. by apply lookup_app_l_Some. Qed.
Lemma lookup_snoc_here {A} (l : list A) x : (l ++ [x]) !! length l = Some x.
Proof. by apply lookup_snoc_Some; right. Qed.

(** The three ways a call extends a trace: it raises, it replays an entry, or
    it records a new one. *)
Lemma trace_ok_snoc es es' cs rs c (x : result receipt) :
  trace_ok es cs rs →
  match x with
  | Err _ => es' = es
  | Ok r =>
      (re_replayed r = true ∧ es' = es ∧ ∃ e, e ∈ es ∧ entry_for e c r) ∨
      (re_replayed r = false ∧ re_route_digest r ∉ map cr_route_digest es ∧
       ∃ e, es' = es ++ [e] ∧ entry_for e c r)
  end →
  trace_ok es' (cs ++ [c]) (rs ++ [x]).
Proof.
  intros [Hlen Hfr Hrec Hor Hrep] Hx.
  assert (∀ e, e ∈ es → ∃ i c' r, (cs ++ [c]) !! i = Some c' ∧ (rs ++ [x]) !! i = Some (Ok r) ∧
            re_replayed r = false ∧ entry_for e c' r) as Hor'.
  { intros e He. destruct (Hor e He) as (i & c' & r & ? & ? & ?). exists i, c', r.
    split; [by apply lookup_snoc_left|]. split; [by apply lookup_snoc_left|done]. }
  assert (∀ i r, (rs ++ [x]) !! i = Some (Ok r) → (i < length rs)%nat → rs !! i = Some (Ok r)) as Hold.
  { intros i r Hi Hlt. by rewrite lookup_app_l in Hi. }
  constructor.
  - rewrite !length_app. simpl. lia.
  - rewrite filter_app, length_app. destruct x as [r|]; simpl.
    + destruct Hx as [(Hr & -> & _)|(Hr & _ & e & -> & _)].
      * rewrite filter_cons_False by (simpl; by rewrite Hr). simpl. lia.
      * rewrite filter_cons_True by done. rewrite length_app. simpl. lia.
    + subst. lia.
  - intros i c' r Hc Hr. apply lookup_snoc_cases in Hc as [[Hc Hlt]|[-> <-]].
    + destruct (Hrec i c' r Hc) as (e & He & Hf); [apply Hold; [done|lia]|]. exists e. split; [|done].
      destruct x as [r0|]; [|by subst].
      destruct Hx as [(_ & -> & _)|(_ & _ & e0 & -> & _)]; [done|]. apply elem_of_app. by left.
    + rewrite <- Hlen in Hr. rewrite lookup_snoc_here in Hr. injection Hr as ->.
      destruct Hx as [(_ & -> & e & He & Hf)|(_ & _ & e & -> & Hf)]; exists e; (split; [|done]); [done|].
      apply elem_of_app. right. by apply list_elem_of_singleton.
  - destruct x as [r|]; [|by subst]. destruct Hx as [(_ & -> & _)|(Hr & _ & e0 & -> & Hf)]; [done|].
    intros e He. apply elem_of_app in He as [He|He]; [by apply Hor'|].
    apply list_elem_of_singleton in He as ->. exists (length rs), c, r.
    split; [rewrite Hlen; apply lookup_snoc_here|]. split; [by rewrite lookup_snoc_here|done].
  - intros i c' r Hc Hr. apply lookup_snoc_cases in Hc as [[Hc Hlt]|[-> <-]].
    + rewrite (Hrep i c' r Hc) by (apply Hold; [done|lia]).
      split; intros (i' & r' & Hi & Hr' & Hd); exists i', r'; (split_and!; [done| |done]).
      * by apply lookup_snoc_left.
      * apply Hold; [done|lia].
    + rewrite <- Hlen in Hr. rewrite lookup_snoc_here in Hr. injection Hr as ->. rewrite <- Hlen.
      destruct Hx as [(Ht & -> & e & He & Hf)|(Ht & Hn & e & -> & Hf)]; rewrite Ht.
      * split; [|done]. intros _. destruct (Hor e He) as (i' & c' & r' & Hc & Hr & _ & Hf').
        exists i', r'. split_and!; [by eapply lookup_lt_Some|by apply lookup_snoc_left|].
        destruct Hf, Hf'. congruence.
      * split; [done|]. intros (i' & r' & Hi & Hr & Hd). exfalso. apply Hn.
        apply Hold in Hr; [|done]. assert (is_Some (cs !! i')) as [c' Hc]
          by (apply lookup_lt_is_Some; lia).
        destruct (Hrec i' c' r' Hc Hr) as (e' & He' & Hf' & _). rewrite <- Hd, <- Hf'.
        by apply list_elem_of_fmap_2.
Qed.

Lemma consume_step k f jid es j decision request a c f' x :
  file_inv k f jid es → j = {| j_key := k; j_closed := false |} →
  consume j f decision request a c = (f', x) →
  ∃ es', file_inv k f' jid es' ∧
    match x with
    | Err _ => es' = es ∧ f' = f
    | Ok r =>
        (re_replayed r = true ∧ es' = es ∧ f' = f ∧
         ∃ e, e ∈ es ∧ cr_route_digest e = re_route_digest r ∧ consumer_of e = c ∧
           cr_consumed_at e = re_consumed_at r) ∨
        (re_replayed r = false ∧ re_route_digest r ∉ map cr_route_digest es ∧
         ∃ e, es' = es ++ [e] ∧ cr_route_digest e = re_route_digest r ∧ consumer_of e = c ∧
           cr_consumed_at e = re_consumed_at r)
    end.
Proof.
  intros Hinv ->. unfold consume.
  destruct (negb _); [intros [= <- <-]; by exists es|].
  destruct (route_clock _) as [current|]; [|intros [= <- <-]; by exists es].
  destruct (verify_route_binding _ _ _) as [[d rq]|]; [|intros [= <- <-]; by exists es].
  destruct (dc_selected d) as [se|]; [|intros [= <- <-]; by exists es].
  unfold transaction. cbn [j_closed j_key].
  destruct (consume_locked _ _ _ _ _ _ _) as [[g r]|] eqn:El; [|intros [= <- <-]; by exists es].
  intros [= <- <-].
  destruct (consume_locked_inv _ _ _ _ _ _ _ _ _ _ _ Hinv El)
    as (Hd & [(-> & Hr & e & He & Hed & Hc & Hat)|(Hr & Hat & Hn & Hi)]).
  - exists es. split; [done|]. left. split_and!; try done. exists e. split_and!; congruence.
  - eexists. split; [exact Hi|]. right. rewrite Hd. split_and!; [done..|]. eexists. split; [done|].
    split; [reflexivity|]. split; [by destruct c|symmetry; exact Hat].
Qed.

Lemma consume_all_inv k jid f0 j cs f rs :
  file_inv k f0 jid [] → j = {| j_key := k; j_closed := false |} →
  consume_all j f0 cs = (f, rs) → ∃ es, file_inv k f jid es ∧ trace_ok es cs rs.
Proof.
  intros Hf0 Hj. revert f rs. induction cs as [|c cs IH] using rev_ind; intros f rs.
  { intros [= <- <-]. exists []. split; [done|apply trace_ok_nil]. }
  unfold consume_all. rewrite foldl_app. cbn [foldl].
  destruct (foldl _ _ cs) as [f1 rs1] eqn:E1. cbn [fst snd].
  destruct (IH f1 rs1 E1) as (es & Hi & Ht).
  destruct (consume _ _ _ _ _ _) as [f2 x] eqn:E2. cbn [fst snd]. intros [= <- <-].
  destruct (consume_step _ _ _ _ _ _ _ _ _ _ _ Hi Hj E2) as (es' & Hi' & Hx).
  exists es'. split; [done|]. apply (trace_ok_snoc es); [done|]. unfold entry_for.
  destruct x as [r|]; [|by destruct Hx]. destruct Hx as [(? & ? & _ & ?)|?]; [by left|by right].
Qed.

Lemma open_empty key kid token f j :
  open_journal key kid token (empty_file consumed_row) = (f, Ok j) →
  ∃ k, j = {| j_key := k; j_closed := false |} ∧ k = {| jk_hmac_key := key; jk_key_id := kid |} ∧
    file_inv k f token [].
Proof.
  unfold open_journal. destruct (_ || _); [done|]. cbn. intros [= <- <-]. eexists. split_and!; [done..|].
  constructor; try done; try by constructor.
Qed.

(** The file reopens with the same key. *)
Lemma open_again k f jid es key kid token :
  file_inv k f jid es → k = {| jk_hmac_key := key; jk_key_id := kid |} →
  (String.length key <? 32)%nat || negb (is_identifier kid) = false →
  open_journal key kid token f = (f, Ok {| j_key := k; j_closed := false |}).
Proof.
  intros Hinv -> Hk. unfold open_journal. rewrite Hk. unfold initialize_or_verify.
  pose proof (fv_application _ _ _ _ Hinv) as Ha. pose proof (fv_version _ _ _ _ Hinv) as Hv.
  rewrite Ha, Hv. cbn [Z.eqb andb]. change (ROUTE_JOURNAL_APPLICATION_ID =? 0) with false.
  rewrite Z.eqb_refl. cbn [negb orb andb Z.eqb Pos.eqb]. by rewrite (verify_locked_inv _ _ _ _ Hinv).
Qed.

(** ** Exact bindings *)

(** What [verify_exact_route_binding] establishes of a decision and a request. *)
Record exactly_bound (decision request : json) (deployment_id identity_digest policy price plan : string)
    (v : verifier) (issuer key algorithm : string) (now : datetime) (cost : option Z)
    (d : RouteDecision) (rq : RouteRequest) (se : Selected) : Prop := {
  eb_valid : validate_routing_record decision = Ok decision ∧ validate_routing_record request = Ok request;
  eb_kinds : kind_of decision = "ModelRouteDecision" ∧ kind_of request = "ModelRouteRequest";
  eb_read : as_decision decision = Some d ∧ as_request request = Some rq;
  eb_allowed : dc_decision d = "allowed" ∧ dc_selected d = Some se;
  eb_request : dc_request_digest d = rm_digest (rq_meta rq);
  eb_policy : dc_policy_digest d = policy ∧ rq_policy_digest rq = policy;
  eb_price : dc_price_digest d = price;
  eb_plan : dc_execution_plan d = Some plan ∧ rq_execution_plan rq = Some plan;
  eb_deployment : se_deployment_id se = deployment_id ∧ se_identity_digest se = identity_digest;
  eb_cost : se_reserved_cost se ≤ rq_maximum_cost rq ∧ (∀ x, cost = Some x → se_reserved_cost se = x);
  eb_budget : ∃ budget reserved, rq_aggregate rq = Some budget ∧ se_reservation se = Some reserved ∧
    ag_maximum_calls reserved = ag_maximum_calls budget ∧
    ag_input_ceiling reserved = ag_input_ceiling budget ∧
    ag_output_ceiling reserved = ag_output_ceiling budget ∧
    ag_cost reserved = se_reserved_cost se ∧ se_reserved_cost se ≤ ag_cost budget;
  eb_unexpired : ∃ current until deadline, route_clock now = Ok current ∧
    read_time (dc_valid_until d) = Some until ∧ read_time (rq_deadline_at rq) = Some deadline ∧
    current < until ∧ current < deadline;
  eb_attested : ∃ ask a until current, v = Verifier ask ∧ ask decision request now = Attests a ∧
    au_issuer_id a = issuer ∧ au_key_id a = key ∧ au_algorithm a = algorithm ∧
    record_digest decision = Ok (au_decision_digest a) ∧
    record_digest request = Ok (au_request_digest a) ∧
    au_policy_digest a = policy ∧ au_price_digest a = price ∧ au_plan_digest a = plan ∧
    read_time (au_valid_until a) = Some until ∧ route_clock now = Ok current ∧ current < until;
}.

Lemma authority_sound v decision request issuer key algorithm policy price plan now a :
  verify_authenticated_route_authority v decision request issuer key algorithm policy price plan now
    = Ok a →
  ∃ ask until current, v = Verifier ask ∧ ask decision request now = Attests a ∧
    au_issuer_id a = issuer ∧ au_key_id a = key ∧ au_algorithm a = algorithm ∧
    record_digest decision = Ok (au_decision_digest a) ∧
    record_digest request = Ok (au_request_digest a) ∧
    au_policy_digest a = policy ∧ au_price_digest a = price ∧ au_plan_digest a = plan ∧
    read_time (au_valid_until a) = Some until ∧ route_clock now = Ok current ∧ current < until.
Proof.
  unfold verify_authenticated_route_authority. destruct v as [ask|]; [|done].
  destruct (ask _ _ _) as [a'| | |] eqn:Ea; try done. unfold authority_validate.
  destruct (negb _); [done|]. destruct (route_clock now) as [current|] eqn:Ec; [|done].
  destruct (read_time (au_valid_until a')) as [until|] eqn:Er; [|done]. cbn [some_or].
  unfold utc_of. destruct (in_range until); [|done]. destruct (until <=? current) eqn:Eu; [done|].
  destruct (record_digest decision) as [dd|]; [|done]. destruct (record_digest request) as [rd|]; [|done].
  destruct (_ || _) eqn:Em; [done|]. intros [= <-]. breflect. subst.
  exists ask, until, current. by split_and!.
Qed.

Lemma binding_sound decision request a d rq :
  verify_route_binding decision request a = Ok (d, rq) → ∀ policy price plan v issuer key algorithm,
  ba_policy a = Some policy → ba_price a = Some price → ba_plan a = Some plan →
  ba_verifier a = Some v → ba_issuer a = Some issuer → ba_key a = Some key →
  ba_algorithm a = Some algorithm →
  ∃ se, exactly_bound decision request (ba_deployment_id a) (ba_identity_digest a) policy price plan
          v issuer key algorithm (ba_now a) (ba_cost a) d rq se.
Proof.
  unfold verify_route_binding. intros Hb * Hp Hpr Hpl Hv Hi Hk Ha.
  destruct (route_clock _) as [current|] eqn:Ec; [|done]. unfold validate_evidence in Hb.
  destruct (validate_routing_record decision) as [dd|] eqn:Ed; [|done].
  destruct (validate_routing_record request) as [rr|] eqn:Er; [|done].
  destruct (validate_inv _ _ Ed) as [-> _]. destruct (validate_inv _ _ Er) as [-> _].
  guard Hb as Ek.
  destruct (as_decision decision) as [d'|] eqn:Edd; [|done].
  destruct (as_request request) as [rq'|] eqn:Err; [|done]. cbn [some_or] in Hb.
  destruct (dc_selected d') as [se|] eqn:Es; [|done].
  guard Hb as Eall. guard Hb as Ereq.
  rewrite Hp, Hpr, Hpl in Hb. cbn [differs is_some] in Hb.
  guard Hb as Epo. guard Hb as Epr.
  guard Hb as Epl.
  destruct (read_time (dc_valid_until d')) as [until|] eqn:Eu; [|done].
  destruct (read_time (rq_deadline_at rq')) as [dl|] eqn:Edl; [|done]. cbn [some_or] in Hb.
  guard Hb as Eex. guard Hb as Ede.
  guard Hb as Eco.
  destruct (aggregate_binding rq' se) as [[]|] eqn:Eag; [|done].
  guard Hb as Ecs.
  unfold authority_binding in Hb. rewrite Hp, Hpr, Hpl, Hv, Hi, Hk, Ha in Hb. cbn [is_some orb] in Hb.
  destruct (verify_authenticated_route_authority _ _ _ _ _ _ _ _ _ _) as [at_|] eqn:Eau; [|done].
  injection Hb as -> ->. exists se. breflect. simplify_eq.
  constructor; try done.
  - split; [done|]. intros x Hx. rewrite Hx in Ecs. by breflect.
  - unfold aggregate_binding in Eag. destruct (rq_aggregate rq) as [b|]; [|done].
    destruct (se_reservation se) as [r|]; [|done]. guard Eag as Eb. breflect.
    exists b, r. split_and!; try done; lia.
  - by exists current, until, dl.
  - destruct (authority_sound _ _ _ _ _ _ _ _ _ _ _ Eau) as (ask & u & cur & Hx).
    exists ask, at_, u, cur. exact Hx.
Qed.

(** ** The claims *)

(** [C13] A route is consumed once.  Among the calls made on a journal, the
    first that succeeds for a route records it; every later success for that
    route is a replay of the same consumer with the time recorded first, and
    any other consumer is refused. *)
Theorem route_consumed_once key kid token f0 j cs f rs i i' c c' r r' :
  open_journal key kid token (empty_file consumed_row) = (f0, Ok j) →
  consume_all j f0 cs = (f, rs) →
  cs !! i = Some c → rs !! i = Some (Ok r) → cs !! i' = Some c' → rs !! i' = Some (Ok r') →
  re_route_digest r = re_route_digest r' → (i < i')%nat →
  re_replayed r' = true ∧ ca_consumer c' = ca_consumer c ∧ re_consumed_at r' = re_consumed_at r.
Proof.
  intros Ho Ha Hc Hr Hc' Hr' Hd Hlt. destruct (open_empty _ _ _ _ _ Ho) as (k & Hj & _ & Hinv).
  destruct (consume_all_inv _ _ _ _ _ _ _ Hinv Hj Ha) as (es & Hi & []).
  split; [apply (tr_replayed0 i' c' r' Hc' Hr'); by exists i, r|].
  destruct (tr_recorded0 _ _ _ Hc Hr) as (e & He & Hd1 & Hc1 & Ht1).
  destruct (tr_recorded0 _ _ _ Hc' Hr') as (e' & He' & Hd2 & Hc2 & Ht2).
  assert (e = e') as <-; [|split; congruence].
  apply (inj Some). rewrite <- (find_route_known k es e), <- (find_route_known k es e') by (done || apply Hi).
  by rewrite Hd1, Hd2, Hd.
Qed.

(** The journal accepts its own writing: whatever calls were made on it,
    verification counts the routes recorded, and the file reopens unchanged
    under the same key. *)
Theorem journal_verifies_its_writes key kid token token' f0 j cs f rs :
  open_journal key kid token (empty_file consumed_row) = (f0, Ok j) →
  consume_all j f0 cs = (f, rs) →
  (∃ v, verify j f = Ok v ∧ ve_journal_id v = token ∧
        ve_entries v = Z.of_nat (length (filter fresh rs))) ∧
  open_journal key kid token' f = (f, Ok j).
Proof.
  intros Ho Ha. destruct (open_empty _ _ _ _ _ Ho) as (k & Hj & Hk & Hinv).
  destruct (consume_all_inv _ _ _ _ _ _ _ Hinv Hj Ha) as (es & Hi & Ht). split.
  - eexists. subst j. unfold verify, transaction. cbn [j_closed j_key].
    rewrite (verify_locked_inv _ _ _ _ Hi). split_and!; [done..|]. cbn [ve_entries].
    by rewrite (tr_fresh _ _ _ Ht).
  - subst j. eapply open_again; [done..|]. unfold open_journal in Ho. by destruct (_ || _).
Qed.

(** A fallback is consumed only after the route it falls back from: of
    the recorded entries, a second attempt has before it the first attempt it
    names, of the same request and consumer and on another deployment. *)
Theorem fallback_after_predecessor key kid token f0 j cs f rs i w :
  open_journal key kid token (empty_file consumed_row) = (f0, Ok j) →
  consume_all j f0 cs = (f, rs) →
  fi_rows f !! i = Some w → cr_attempt (cw_entry w) = 2 →
  ∃ i' w', (i' < i)%nat ∧ fi_rows f !! i' = Some w' ∧
    let e := cw_entry w in let p := cw_entry w' in
    cr_fallback_from e = Some (cr_route_digest p) ∧ cr_attempt p = 1 ∧
    cr_request_digest p = cr_request_digest e ∧ consumer_of p = consumer_of e ∧
    (cr_deployment_id p ≠ cr_deployment_id e ∨ cr_identity_digest p ≠ cr_identity_digest e).
Proof.
  intros Ho Ha Hw Hat. destruct (open_empty _ _ _ _ _ Ho) as (k & Hj & Hk & Hinv).
  destruct (consume_all_inv _ _ _ _ _ _ _ Hinv Hj Ha) as (es & Hi & Ht).
  rewrite (fv_rows _ _ _ _ Hi) in Hw |- *. rewrite list_lookup_fmap in Hw.
  apply fmap_Some in Hw as (e & He & ->).
  destruct (fv_fallback _ _ _ _ Hi i e He Hat) as (j' & p & Hlt & Hp & Hrest).
  exists j', (row_of k p). split; [done|]. split; [by rewrite list_lookup_fmap, Hp|exact Hrest].
Qed.

(** [C26] Only an exactly bound route is consumed: when [consume_exact]
    answers, decision and request are valid records bound to each other, the
    decision is allowed and unexpired and selects the expected deployment within
    its budgets under the expected policy, prices and plan, and the verifier
    attested this very pair of records. *)
Theorem consumption_is_authorised j f decision request deployment_id identity_digest policy price plan
    v issuer key algorithm kind id effect now cost f' r :
  consume_exact j f decision request deployment_id identity_digest policy price plan v issuer key
    algorithm kind id effect now cost = (f', Ok r) →
  ∃ d rq se consumer_digest,
    exactly_bound decision request deployment_id identity_digest policy price plan v issuer key
      algorithm now cost d rq se ∧
    re_route_digest r = rm_digest (dc_meta d) ∧
    route_consumer_digest decision request kind id effect = Ok consumer_digest.
Proof.
  unfold consume_exact.
  destruct (route_consumer_digest _ _ _ _ _) as [cd|] eqn:Ed; [|done]. unfold consume.
  destruct (negb _); [done|]. cbn [ba_now]. destruct (route_clock _) as [current|]; [|done].
  destruct (verify_route_binding _ _ _) as [[d rq]|] eqn:Eb; [|done].
  destruct (binding_sound _ _ _ _ _ Eb _ _ _ _ _ _ _ eq_refl eq_refl eq_refl eq_refl eq_refl eq_refl
              eq_refl) as (se & Hb).
  cbn [ba_deployment_id ba_identity_digest ba_now ba_cost] in Hb.
  destruct (dc_selected d) as [se'|]; [|done]. unfold transaction. destruct (j_closed j); [done|].
  destruct (consume_locked _ _ _ _ _ _ _) as [[g rc]|] eqn:El; [|done]. intros [= <- <-].
  exists d, rq, se, cd. split_and!; [done| |done]. revert El. unfold consume_locked.
  destruct (verify_locked _ _); [|done]. destruct (find_route _ _).
  - destruct (_ != _); [done|]. by intros [= _ <-].
  - destruct (check_predecessor _ _ _ _ _); [|done]. destruct (negb _); [done|]. by intros [= _ <-].
Qed.

(** A stored HMAC that is not ASCII is not reported as tampering: the comparison
    itself raises. *)
Lemma non_ascii_hmac_raises_type_error k f m :
  fi_tables f = true → fi_meta f = Some m → me_key_id m = jk_key_id k → is_ascii (me_hmac m) = false →
  verify {| j_key := k; j_closed := false |} f = Err TypeError.
Proof.
  intros Ht Hm Hk Ha. unfold verify, transaction, verify_locked, meta_row_of. cbn [j_closed j_key].
  rewrite Ht, Hm, Hk, bool_decide_true by done. cbn [negb]. unfold compare_digest. by rewrite Ha.
Qed.
End Claims.

(** ** Witnesses *)

#[local] Existing Instance Checksum.crypto.
#[local] Existing Instance rfc3339_iso.
#[local] Existing Instance draft202012.

Definition example_key : string := "0123456789abcdef0123456789abcdef".
Definition example_consumer (id : string) : consumer :=
  {| co_kind := "worker"; co_id := id; co_digest := some_digest |}.
Definition example_args (c : DeploymentCandidate) : BindingArgs :=
  {| ba_deployment_id := match deployment_id c with JStr s => s | _ => EmptyString end;
     ba_identity_digest := identity_digest c; ba_now := noon; ba_cost := None; ba_policy := None;
     ba_price := None; ba_plan := None; ba_verifier := None; ba_issuer := None; ba_key := None;
     ba_algorithm := None |}.
Definition example_call (decision : json) (c : DeploymentCandidate) (id : string) : call :=
  {| ca_decision := decision; ca_request := request_doc; ca_args := example_args c;
     ca_consumer := example_consumer id |}.
(** A route, the same again, the same by another consumer, and the fallback. *)
Definition example_calls : list call :=
  [example_call example_decision candidate_b "run-1"; example_call example_decision candidate_b "run-1";
   example_call example_decision candidate_b "run-2"; example_call example_fallback candidate_a "run-1"].
Definition example_opened : file consumed_row * result journal :=
  Eval vm_compute in open_journal example_key "key-1" "token" (empty_file consumed_row).
Definition example_journal : journal :=
  {| j_key := {| jk_hmac_key := example_key; jk_key_id := "key-1" |}; j_closed := false |}.
Definition example_run : file consumed_row * list (result receipt) :=
  Eval vm_compute in consume_all example_journal example_opened.1 example_calls.

Example example_answers :
  map (fun r => let! x := r in Ok (re_replayed x)) example_run.2
  = [Ok false; Ok true; Err (RoutingError "ECO_ROUTE_ALREADY_CONSUMED"); Ok false].
Proof. vm_compute. reflexivity. Qed.

Lemma example_opened_ok :
  open_journal example_key "key-1" "token" (empty_file consumed_row)
  = (example_opened.1, Ok example_journal).
Proof. vm_compute. reflexivity. Qed.
Lemma example_run_ok :
  consume_all example_journal example_opened.1 example_calls = (example_run.1, example_run.2).
Proof. vm_compute. reflexivity. Qed.

Lemma route_consumed_once_witness :
  ∃ c c' r r', example_calls !! 0%nat = Some c ∧ example_calls !! 1%nat = Some c' ∧
    example_run.2 !! 0%nat = Some (Ok r) ∧ example_run.2 !! 1%nat = Some (Ok r') ∧
    re_replayed r' = true ∧ ca_consumer c' = ca_consumer c ∧ re_consumed_at r' = re_consumed_at r.
Proof.
  destruct (example_run.2 !! 0%nat) as [[r|]|] eqn:E0; try (vm_compute in E0; discriminate E0).
  destruct (example_run.2 !! 1%nat) as [[r'|]|] eqn:E1; try (vm_compute in E1; discriminate E1).
  do 2 eexists. exists r, r'. do 2 (split; [reflexivity|]). do 2 (split; [reflexivity|]).
  eapply (route_consumed_once _ _ _ _ _ _ _ _ 0 1 _ _ r r' example_opened_ok example_run_ok).
  - reflexivity.
  - exact E0.
  - reflexivity.
  - exact E1.
  - vm_compute in E0, E1. injection E0 as <-. injection E1 as <-. reflexivity.
  - lia.
Defined.

Lemma journal_verifies_its_writes_witness :
  ∃ v, verify example_journal example_run.1 = Ok v ∧ ve_journal_id v = "token" ∧ ve_entries v = 2.
Proof.
  destruct (journal_verifies_its_writes _ _ _ "other" _ _ _ _ _ example_opened_ok example_run_ok)
    as [(v & Hv & Hid & Hn) _].
  exists v. split; [exact Hv|]. split; [exact Hid|]. rewrite Hn. vm_compute. reflexivity.
Defined.

Lemma fallback_after_predecessor_witness :
  ∃ w w', fi_rows example_run.1 !! 1%nat = Some w ∧ fi_rows example_run.1 !! 0%nat = Some w' ∧
    cr_fallback_from (cw_entry w) = Some (cr_route_digest (cw_entry w')).
Proof.
  destruct (fi_rows example_run.1 !! 1%nat) as [w|] eqn:E1; [|vm_compute in E1; discriminate E1].
  destruct (fallback_after_predecessor _ _ _ _ _ _ _ _ 1 w example_opened_ok example_run_ok E1)
    as (i & w' & Hi & Hw & Hf & _).
  - vm_compute in E1. injection E1 as <-. reflexivity.
  - assert (i = 0%nat) as -> by lia. exists w, w'. split; [reflexivity|]. split; [exact Hw|exact Hf].
Defined.

(** A verifier that attests the example pair. *)
Definition example_plan : string := some_digest.
Definition example_attestation : VerifiedRouteAuthority :=
  Eval vm_compute in
  {| au_issuer_id := "operator"; au_key_id := "key-7"; au_algorithm := "ed25519";
     au_evidence_digest := some_digest;
     au_decision_digest := match record_digest example_decision with Ok x => x | Err _ => EmptyString end;
     au_request_digest := match record_digest request_doc with Ok x => x | Err _ => EmptyString end;
     au_policy_digest := policy_digest example_router; au_price_digest := price_digest example_router;
     au_plan_digest := example_plan; au_valid_until := "2026-06-01T12:00:30Z" |}.
Definition example_verifier : verifier := Verifier (fun _ _ _ => Attests example_attestation).

Definition example_consumed : file consumed_row * result receipt :=
  Eval vm_compute in
  consume_exact example_journal example_opened.1 example_decision request_doc "local-b"
    (identity_digest candidate_b) (policy_digest example_router) (price_digest example_router)
    example_plan example_verifier "operator" "key-7" "ed25519" "worker" "run-1" some_digest noon None.
Lemma example_consumed_ok :
  consume_exact example_journal example_opened.1 example_decision request_doc "local-b"
    (identity_digest candidate_b) (policy_digest example_router) (price_digest example_router)
    example_plan example_verifier "operator" "key-7" "ed25519" "worker" "run-1" some_digest noon None
  = (example_consumed.1, example_consumed.2).
Proof. vm_compute. reflexivity. Qed.

Lemma consumption_is_authorised_witness :
  ∃ r d rq se, example_consumed.2 = Ok r ∧
    exactly_bound example_decision request_doc "local-b" (identity_digest candidate_b)
      (policy_digest example_router) (price_digest example_router) example_plan example_verifier
      "operator" "key-7" "ed25519" noon None d rq se.
Proof.
  pose proof example_consumed_ok as E.
  destruct (example_consumed.2) as [r|] eqn:Er; [|discriminate Er].
  destruct (consumption_is_authorised _ _ _ _ _ _ _ _ _ _ _ _ _ _ _ _ _ _ _ _ E)
    as (d & rq & se & cd & Hb & _).
  exists r, d, rq, se. split; [reflexivity|exact Hb].
Defined.
