(* ===== verification/RouteUsage.v ===== *)
(** * The aggregate usage journal, src/eco_routing/usage.py

    [DurableRouteUsageJournal] reserves every provider effect before it is made.
    Its SQLite file holds the chain of reserved effects and, per consumer, the
    projection of its usage; [_verify_locked] replays the chain and compares.
    Columns hold values of their declared types; the file system checks of
    [_prepare_location] are not modelled. *)

From S2P Require Import Prelude Json Digest PyTime PyClock Schema RouteRecords Router RouteBinding RouteConsumption.

Definition ROUTE_USAGE_APPLICATION_ID : Z := 0x45435536.
Definition ROUTE_USAGE_DOMAIN := "eco-route-aggregate-usage-journal-v1".
Definition usage_tampered : py_error := RoutingError "ECO_ROUTE_USAGE_TAMPERED".

(** The columns that bind a consumer's usage. *)
Record usage_binding : Type := {
  ub_request : string; ub_plan : string; ub_policy : string; ub_price : string;
  ub_kind : string; ub_id : string;
}.
#[export] Instance usage_binding_eq_dec : EqDecision usage_binding.
Proof. solve_decision. Defined.

(** What is accounted for a consumer: a value of [states], a row of
    [aggregate_usage]. *)
Record usage_state : Type := {
  st_binding : usage_binding; st_usage : RouteAggregateUsage; st_updated : Z;
}.
#[export] Instance usage_state_eq_dec : EqDecision usage_state.
Proof. solve_decision. Defined.
Record state_row : Type := {
  sr_consumer : string; sr_state : usage_state; sr_key_id : string; sr_hmac : string;
}.

(** A row of [reserved_effects]. *)
Record effect : Type := {
  ef_consumer : string; ef_id : string; ef_sequence : Z; ef_binding : usage_binding;
  ef_route : string; ef_deployment_id : string; ef_identity_digest : string; ef_digest : string;
  ef_input : Z; ef_output : Z; ef_cost : Z; ef_before : RouteAggregateUsage;
  ef_after : RouteAggregateUsage; ef_reserved_at : string; ef_previous : string;
}.
Record effect_row : Type := {
  er_entry : effect; er_hash : string; er_key_id : string; er_hmac : string;
}.

Record usage_file : Type := {
  uf_file : file effect_row; uf_states : list state_row; uf_triggers : list string;
}.
Definition empty_usage_file : usage_file :=
  {| uf_file := empty_file effect_row; uf_states := []; uf_triggers := [] |}.

Definition usage_triggers : list string :=
  ["reserved_effects_immutable_update"; "reserved_effects_immutable_delete";
   "aggregate_usage_immutable_delete"].

Record usage_verified : Type := {
  uv_journal_id : string; uv_entries : Z; uv_head : string; uv_states : gmap string usage_state;
}.

(** [reserve]'s keyword arguments and answer. *)
Record ReserveArgs : Type := {
  ra_kind : string; ra_id : string; ra_workflow_effect : string; ra_effect_id : string;
  ra_effect_digest : string; ra_input : Z; ra_output : Z; ra_cost : Z; ra_now : datetime;
}.
Record reserved : Type := {
  rv_consumer : string; rv_effect_id : string; rv_route : string; rv_sequence : Z;
  rv_entry_hash : string; rv_replayed : bool; rv_reserved_at : string; rv_usage : RouteAggregateUsage;
}.

(** [_entry_payload], [_state_payload] *)
Definition effect_payload (e : effect) : json :=
  let b := ef_binding e in
  JObj [("domain", JStr ROUTE_USAGE_DOMAIN); ("record", JStr "reserved-effect");
        ("sequence", JInt (ef_sequence e)); ("consumerDigest", JStr (ef_consumer e));
        ("requestDigest", JStr (ub_request b)); ("executionPlanDigest", JStr (ub_plan b));
        ("policyDigest", JStr (ub_policy b)); ("priceCatalogDigest", JStr (ub_price b));
        ("routeDigest", JStr (ef_route e)); ("deploymentId", JStr (ef_deployment_id e));
        ("deploymentIdentityDigest", JStr (ef_identity_digest e));
        ("consumerKind", JStr (ub_kind b)); ("consumerId", JStr (ub_id b));
        ("effectId", JStr (ef_id e)); ("effectDigest", JStr (ef_digest e));
        ("inputTokens", JInt (ef_input e)); ("outputTokens", JInt (ef_output e));
        ("costMicrousd", JInt (ef_cost e));
        ("beforeCalls", JInt (us_calls (ef_before e)));
        ("beforeInputTokens", JInt (us_input (ef_before e)));
        ("beforeOutputTokens", JInt (us_output (ef_before e)));
        ("beforeCostMicrousd", JInt (us_cost (ef_before e)));
        ("afterCalls", JInt (us_calls (ef_after e)));
        ("afterInputTokens", JInt (us_input (ef_after e)));
        ("afterOutputTokens", JInt (us_output (ef_after e)));
        ("afterCostMicrousd", JInt (us_cost (ef_after e)));
        ("reservedAt", JStr (ef_reserved_at e)); ("previousHash", JStr (ef_previous e))].
Definition state_payload (consumer_digest : string) (s : usage_state) : json :=
  let b := st_binding s in let u := st_usage s in
  JObj [("domain", JStr ROUTE_USAGE_DOMAIN); ("record", JStr "aggregate-state");
        ("consumerDigest", JStr consumer_digest); ("requestDigest", JStr (ub_request b));
        ("executionPlanDigest", JStr (ub_plan b)); ("policyDigest", JStr (ub_policy b));
        ("priceCatalogDigest", JStr (ub_price b)); ("consumerKind", JStr (ub_kind b));
        ("consumerId", JStr (ub_id b)); ("calls", JInt (us_calls u));
        ("inputTokens", JInt (us_input u)); ("outputTokens", JInt (us_output u));
        ("costMicrousd", JInt (us_cost u)); ("updatedSequence", JInt (st_updated s))].

#[export] Instance effect_chain : ChainRow effect_row := {
  row_sequence w := ef_sequence (er_entry w); row_previous w := ef_previous (er_entry w);
  row_hash := er_hash; row_key_id := er_key_id; row_hmac := er_hmac;
  row_payload w := effect_payload (er_entry w);
}.

(** [RouteAggregateUsage] after one more effect. *)
Definition used (u : RouteAggregateUsage) (input output cost : Z) : RouteAggregateUsage :=
  {| us_calls := us_calls u + 1; us_input := us_input u + input; us_output := us_output u + output;
     us_cost := us_cost u + cost |}.

Section Journal.
Context `{FromIso} `{Crypto} `{Jsonschema}.

(** [_authenticated]: any exception of the comparison counts as a mismatch. *)
Definition authenticated (k : journal_key) (actual : string) (payload : json) : bool :=
  match compare_digest actual (sign k payload) with Ok same => same | Err _ => false end.

(** [_meta_row] *)
Definition usage_meta_row (k : journal_key) (f : usage_file) : result meta_row :=
  raise (RoutingError "ECO_ROUTE_USAGE_UNAVAILABLE") when (negb (fi_tables (uf_file f))) else
  match fi_meta (uf_file f) with
  | None => Err usage_tampered
  | Some m =>
      raise usage_tampered when
        (negb (me_schema_version m =? 1) || (me_key_id m != jk_key_id k)
         || negb (authenticated k (me_hmac m)
                    (meta_payload ROUTE_USAGE_DOMAIN k (me_journal_id m) (me_head_sequence m)
                       (me_head_hash m)))) else Ok m
  end.

(** The loop of [_verify_locked] over the effects. *)
Fixpoint replay_effects (k : journal_key) (count : Z) (previous : string)
    (states : gmap string usage_state) (rows : list effect_row)
  : result (Z * string * gmap string usage_state) :=
  match rows with
  | [] => Ok (count, previous, states)
  | row :: rows' =>
      let e := er_entry row in
      raise usage_tampered when
        (negb (row_sequence row =? count + 1) || (row_previous row != previous)) else
      let payload := row_payload row in
      raise usage_tampered when
        ((row_hash row != entry_hash payload) || (row_key_id row != jk_key_id k)
         || negb (authenticated k (row_hmac row) payload)) else
      let current :=
        match states !! ef_consumer e with
        | Some s => s
        | None => {| st_binding := ef_binding e; st_usage := no_usage; st_updated := 0 |}
        end in
      raise usage_tampered when (st_binding current != ef_binding e) else
      raise usage_tampered when (st_usage current != ef_before e) else
      raise usage_tampered when
        (ef_after e != used (st_usage current) (ef_input e) (ef_output e) (ef_cost e)) else
      replay_effects k (count + 1) (entry_hash payload)
        (<[ef_consumer e := {| st_binding := st_binding current; st_usage := ef_after e;
                               st_updated := ef_sequence e |}]> states) rows'
  end.

(** A stored projection is the replayed one and is authenticated. *)
Definition state_row_ok (k : journal_key) (states : gmap string usage_state) (row : state_row) : bool :=
  (sr_key_id row == jk_key_id k)
  && authenticated k (sr_hmac row) (state_payload (sr_consumer row) (sr_state row))
  && bool_decide (states !! sr_consumer row = Some (sr_state row)).

(** [_verify_locked] *)
Definition usage_verify_locked (k : journal_key) (f : usage_file) : result usage_verified :=
  let! meta := usage_meta_row k f in
  raise usage_tampered when (negb (forallb (fun t => t in? uf_triggers f) usage_triggers)) else
  let! ' (count, previous, states) :=
    replay_effects k 0 GENESIS_DIGEST ∅ (by_sequence (fi_rows (uf_file f))) in
  raise usage_tampered when
    (negb (me_head_sequence meta =? count) || (me_head_hash meta != previous)) else
  raise usage_tampered when
    (list_to_set (C := gset string) (map sr_consumer (uf_states f)) != dom states) else
  raise usage_tampered when (negb (forallb (state_row_ok k states) (uf_states f))) else
  Ok {| uv_journal_id := me_journal_id meta; uv_entries := count; uv_head := previous;
        uv_states := states |}.

Definition usage_initialize_or_verify (k : journal_key) (token : string) (f : usage_file)
  : usage_file * result unit :=
  let d := uf_file f in
  if (fi_application_id d =? 0) && (fi_user_version d =? 0) then
    if fi_tables d then (f, Err (RoutingError "ECO_ROUTE_USAGE_UNAVAILABLE"))
    else
      ({| uf_file :=
            {| fi_application_id := ROUTE_USAGE_APPLICATION_ID; fi_user_version := 1;
               fi_tables := true; fi_meta := Some (mk_meta ROUTE_USAGE_DOMAIN k token 0 GENESIS_DIGEST);
               fi_rows := [] |};
          uf_states := []; uf_triggers := uf_triggers f ++ usage_triggers |}, Ok tt)
  else if negb (fi_application_id d =? ROUTE_USAGE_APPLICATION_ID) || negb (fi_user_version d =? 1)
  then (f, Err (RoutingError "ECO_ROUTE_USAGE_PROFILE_MISMATCH"))
  else (f, let! _ := usage_verify_locked k f in Ok tt).

(** [DurableRouteUsageJournal(path, hmac_key=..., key_id=...)] *)
Definition open_usage (hmac_key key_id token : string) (f : usage_file)
  : usage_file * result journal :=
  if (String.length hmac_key <? 32)%nat || negb (is_identifier key_id) then (f, Err ValueError)
  else
    let k := {| jk_hmac_key := hmac_key; jk_key_id := key_id |} in
    let x := usage_initialize_or_verify k token f in
    (x.1, let! _ := x.2 in Ok {| j_key := k; j_closed := false |}).

Definition usage_transaction {A} (j : journal) (body : journal_key → result A) : result A :=
  raise (RoutingError "ECO_ROUTE_USAGE_CLOSED") when (j_closed j) else body (j_key j).

(** [verify()]: journal id, entries, consumers and head. *)
Definition usage_verify (j : journal) (f : usage_file) : result (string * Z * nat * string) :=
  let! v := usage_transaction j (fun k => usage_verify_locked k f) in
  Ok (uv_journal_id v, uv_entries v, size (uv_states v), uv_head v).

(** [status(consumer_digest)]: the usage and the sequence that updated it. *)
Definition usage_status (j : journal) (f : usage_file) (consumer_digest : string)
  : result (option (RouteAggregateUsage * Z)) :=
  raise (RoutingError "ECO_ROUTE_EVIDENCE_INVALID") when (negb (is_digest consumer_digest)) else
  usage_transaction j (fun k =>
    let! _ := usage_verify_locked k f in
    Ok ((fun row => (st_usage (sr_state row), st_updated (sr_state row)))
        <$> List.find (fun row => sr_consumer row == consumer_digest) (uf_states f))).

(** ** Reserving an effect *)

(** The columns of [bindings] the row of an effect must repeat on replay. *)
Definition same_effect (a b : effect) : bool :=
  (ef_binding a == ef_binding b) && (ef_route a == ef_route b)
  && (ef_deployment_id a == ef_deployment_id b) && (ef_identity_digest a == ef_identity_digest b)
  && (ef_digest a == ef_digest b) && (ef_input a =? ef_input b) && (ef_output a =? ef_output b)
  && (ef_cost a =? ef_cost b).

(** [SELECT * FROM reserved_effects WHERE consumer_digest = ? AND effect_id = ?] *)
Definition find_effect (consumer_digest effect_id : string) (rows : list effect_row)
  : option effect_row :=
  List.find (fun w => (ef_consumer (er_entry w) == consumer_digest)
                      && (ef_id (er_entry w) == effect_id)) rows.

(** [INSERT INTO aggregate_usage ... ON CONFLICT DO UPDATE]: an existing row
    keeps its binding. *)
Fixpoint upsert_state (row : state_row) (rows : list state_row) : list state_row :=
  match rows with
  | [] => [row]
  | r :: rows' =>
      if sr_consumer r == sr_consumer row then
        {| sr_consumer := sr_consumer r;
           sr_state := {| st_binding := st_binding (sr_state r); st_usage := st_usage (sr_state row);
                          st_updated := st_updated (sr_state row) |};
           sr_key_id := sr_key_id row; sr_hmac := sr_hmac row |} :: rows'
      else r :: upsert_state row rows'
  end.

Definition effect_row_of (k : journal_key) (e : effect) : effect_row :=
  {| er_entry := e; er_hash := entry_hash (effect_payload e); er_key_id := jk_key_id k;
     er_hmac := sign k (effect_payload e) |}.
Definition state_row_of (k : journal_key) (consumer_digest : string) (s : usage_state) : state_row :=
  {| sr_consumer := consumer_digest; sr_state := s; sr_key_id := jk_key_id k;
     sr_hmac := sign k (state_payload consumer_digest s) |}.

Definition effect_int64 (e : effect) : bool :=
  forallb int64
    [ef_sequence e; ef_input e; ef_output e; ef_cost e; us_calls (ef_after e); us_input (ef_after e);
     us_output (ef_after e); us_cost (ef_after e)].

(** What [reserve] knows of the effect before it opens the transaction. *)
Definition proposed_effect (d : RouteDecision) (rq : RouteRequest) (selected : Selected)
    (plan consumer_digest : string) (a : ReserveArgs) (reserved_at : string) : effect :=
  {| ef_consumer := consumer_digest; ef_id := ra_effect_id a; ef_sequence := 0;
     ef_binding := {| ub_request := rm_digest (rq_meta rq); ub_plan := plan;
                      ub_policy := dc_policy_digest d; ub_price := dc_price_digest d;
                      ub_kind := ra_kind a; ub_id := ra_id a |};
     ef_route := rm_digest (dc_meta d); ef_deployment_id := se_deployment_id selected;
     ef_identity_digest := se_identity_digest selected; ef_digest := ra_effect_digest a;
     ef_input := ra_input a; ef_output := ra_output a; ef_cost := ra_cost a;
     ef_before := no_usage; ef_after := no_usage; ef_reserved_at := reserved_at;
     ef_previous := EmptyString |}.
Definition placed_effect (e : effect) (sequence : Z) (before after : RouteAggregateUsage)
    (previous : string) : effect :=
  {| ef_consumer := ef_consumer e; ef_id := ef_id e; ef_sequence := sequence;
     ef_binding := ef_binding e; ef_route := ef_route e; ef_deployment_id := ef_deployment_id e;
     ef_identity_digest := ef_identity_digest e; ef_digest := ef_digest e; ef_input := ef_input e;
     ef_output := ef_output e; ef_cost := ef_cost e; ef_before := before; ef_after := after;
     ef_reserved_at := ef_reserved_at e; ef_previous := previous |}.

Definition answer_of (row : effect_row) (replayed : bool) : reserved :=
  let e := er_entry row in
  {| rv_consumer := ef_consumer e; rv_effect_id := ef_id e; rv_route := ef_route e;
     rv_sequence := ef_sequence e; rv_entry_hash := er_hash row; rv_replayed := replayed;
     rv_reserved_at := ef_reserved_at e; rv_usage := ef_after e |}.

(** The transaction of [reserve]; [e] is the proposed effect. *)
Definition reserve_locked (k : journal_key) (f : usage_file) (decision request : json) (e : effect)
  : result (usage_file * reserved) :=
  let! journal := usage_verify_locked k f in
  match find_effect (ef_consumer e) (ef_id e) (fi_rows (uf_file f)) with
  | Some existing =>
      raise (RoutingError "ECO_ROUTE_EFFECT_REPLAY_MISMATCH") when
        (negb (same_effect (er_entry existing) e)) else
      Ok (f, answer_of existing true)
  | None =>
      let current_state := uv_states journal !! ef_consumer e in
      let current := match current_state with Some s => st_usage s | None => no_usage end in
      raise (RoutingError "ECO_ROUTE_USAGE_BINDING_MISMATCH") when
        (match current_state with Some s => st_binding s != ef_binding e | None => false end) else
      let! updated := reserve_route_effect decision request current (ef_input e) (ef_output e)
                        (ef_cost e) in
      let sequence := uv_entries journal + 1 in
      let row := placed_effect e sequence current updated (uv_head journal) in
      raise OverflowError when (negb (effect_int64 row)) else
      let state := {| st_binding := ef_binding e; st_usage := updated; st_updated := sequence |} in
      Ok ({| uf_file :=
               {| fi_application_id := fi_application_id (uf_file f);
                  fi_user_version := fi_user_version (uf_file f); fi_tables := fi_tables (uf_file f);
                  fi_meta := move_head ROUTE_USAGE_DOMAIN k (uv_journal_id journal) sequence
                               (entry_hash (effect_payload row)) <$> fi_meta (uf_file f);
                  fi_rows := fi_rows (uf_file f) ++ [effect_row_of k row] |};
             uf_states := upsert_state (state_row_of k (ef_consumer e) state) (uf_states f);
             uf_triggers := uf_triggers f |},
          answer_of (effect_row_of k row) false)
  end.

(** The part of [reserve] before the transaction. *)
Definition reserve_checks (decision request : json) (a : ReserveArgs) : result effect :=
  raise (RoutingError "ECO_ROUTE_EVIDENCE_INVALID") when
    (negb (is_slug (ra_kind a) && is_identifier (ra_id a) && is_identifier (ra_effect_id a)
           && is_digest (ra_effect_digest a))
     || existsb (fun z => z <? 0) [ra_input a; ra_output a; ra_cost a]) else
  let! current := route_clock (ra_now a) in
  let! consumer_digest :=
    route_consumer_digest decision request (ra_kind a) (ra_id a) (ra_workflow_effect a) in
  let! d := some_or KeyError (as_decision decision) in
  let! rq := some_or KeyError (as_request request) in
  match dc_selected d with
  | None => Err (RoutingError "ECO_ROUTE_NOT_ALLOWED")
  | Some selected =>
      match rq_execution_plan rq with
      | None => Err KeyError
      | Some plan =>
          let! _ :=
            verify_route_binding decision request
              {| ba_deployment_id := se_deployment_id selected;
                 ba_identity_digest := se_identity_digest selected; ba_now := ra_now a;
                 ba_cost := None; ba_policy := Some (dc_policy_digest d);
                 ba_price := Some (dc_price_digest d); ba_plan := Some plan; ba_verifier := None;
                 ba_issuer := None; ba_key := None; ba_algorithm := None |} in
          Ok (proposed_effect d rq selected plan consumer_digest a (timestamp current))
      end
  end.

Definition reserve (j : journal) (f : usage_file) (decision request : json) (a : ReserveArgs)
  : usage_file * result reserved :=
  match
    (let! e := reserve_checks decision request a in
     usage_transaction j (fun k => reserve_locked k f decision request e))
  with
  | Ok (f', r) => (f', Ok r)
  | Err e => (f, Err e)
  end.
End Journal.
