(* ===== verification/UsageProofs.v ===== *)
(** * Lemmas on the usage journal

    [tally] is the accounting the journal promises: per consumer, its binding and
    the sum of its effects.  The invariant of a file is that its rows are a chain
    of effects whose counters follow the tally, and that its projections are the
    tally's values. *)

From S2P Require Import Prelude Json Digest PyTime PyClock Schema RouteRecords Router RouteRecordFacts RouteBinding RouteConsumption ConsumptionProofs RouteUsage.

(** ** The accounting *)

Definition account (states : gmap string usage_state) (e : effect) : usage_state :=
  match states !! ef_consumer e with
  | Some s => s
  | None => {| st_binding := ef_binding e; st_usage := no_usage; st_updated := 0 |}
  end.
Definition credit (states : gmap string usage_state) (e : effect) : gmap string usage_state :=
  <[ef_consumer e := {| st_binding := st_binding (account states e); st_usage := ef_after e;
                        st_updated := ef_sequence e |}]> states.
Definition tally (states : gmap string usage_state) (es : list effect) : gmap string usage_state :=
  foldl credit states es.

(** The effects of a consumer, summed. *)
Definition total (c : string) (es : list effect) : RouteAggregateUsage :=
  foldl (fun u e => if ef_consumer e == c then used u (ef_input e) (ef_output e) (ef_cost e) else u)
        no_usage es.

Section Accounts.
Context `{Crypto}.

Definition last_hash (prev : string) (es : list effect) : string :=
  foldl (fun _ e => entry_hash (effect_payload e)) prev es.

Fixpoint accounted (n : Z) (prev : string) (states : gmap string usage_state) (es : list effect) : Prop :=
  match es with
  | [] => True
  | e :: es' =>
      (ef_sequence e = n + 1 ∧ ef_previous e = prev ∧
       st_binding (account states e) = ef_binding e ∧ st_usage (account states e) = ef_before e ∧
       ef_after e = used (ef_before e) (ef_input e) (ef_output e) (ef_cost e)) ∧
      accounted (n + 1) (entry_hash (effect_payload e)) (credit states e) es'
  end.

Lemma accounted_snoc n prev states es e :
  accounted n prev states (es ++ [e]) ↔
  accounted n prev states es ∧
  (ef_sequence e = n + Z.of_nat (length es) + 1 ∧ ef_previous e = last_hash prev es ∧
   st_binding (account (tally states es) e) = ef_binding e ∧
   st_usage (account (tally states es) e) = ef_before e ∧
   ef_after e = used (ef_before e) (ef_input e) (ef_output e) (ef_cost e)).
Proof.
  revert n prev states. induction es as [|x es IH]; intros n prev states;
    cbn [app accounted length last_hash tally foldl].
  { rewrite Z.add_0_r. tauto. }
  rewrite IH. replace (n + Z.of_nat (S (length es)) + 1) with (n + 1 + Z.of_nat (length es) + 1) by lia.
  unfold last_hash, tally. tauto.
Qed.
Lemma tally_snoc states es e : tally states (es ++ [e]) = credit (tally states es) e.
Proof. unfold tally. by rewrite foldl_app. Qed.
Lemma last_hash_snoc prev es e : last_hash prev (es ++ [e]) = entry_hash (effect_payload e).
Proof. unfold last_hash. by rewrite foldl_app. Qed.
Lemma total_snoc c es e :
  total c (es ++ [e]) = if ef_consumer e == c
    then used (total c es) (ef_input e) (ef_output e) (ef_cost e) else total c es.
Proof. unfold total. by rewrite foldl_app. Qed.

(** The tally of a consumer is the sum of its effects. *)
Lemma tally_total n prev es c :
  accounted n prev ∅ es →
  match tally ∅ es !! c with
  | Some s => st_usage s = total c es
  | None => total c es = no_usage
  end.
Proof.
  induction es as [|e es IH] using rev_ind; intros Ha; [done|].
  apply accounted_snoc in Ha as (Ha & Hs & Hp & Hb & Hbe & Haf). specialize (IH Ha).
  rewrite tally_snoc, total_snoc. unfold credit. case_bool_decide as Hc.
  - subst c. rewrite lookup_insert_eq. cbn [st_usage]. rewrite Haf. f_equal. rewrite <- Hbe.
    unfold account. destruct (tally ∅ es !! ef_consumer e); [done|]. by rewrite IH.
  - rewrite lookup_insert_ne by done. done.
Qed.

Lemma accounted_sequences n prev states es :
  accounted n prev states es →
  StronglySorted (fun a b => ef_sequence a <=? ef_sequence b = true) es ∧
  Forall (fun e => n < ef_sequence e) es.
Proof.
  revert n prev states. induction es as [|e es IH]; intros n prev states Hc; [by repeat constructor|].
  destruct Hc as ((Hs & _) & Hc). destruct (IH _ _ _ Hc) as [Hsort Hlo]. split.
  - constructor; [done|]. eapply Forall_impl; [exact Hlo|]. intros x Hx. apply Z.leb_le.
    simpl in Hx. lia.
  - constructor; [lia|]. eapply Forall_impl; [exact Hlo|]. simpl. lia.
Qed.

Lemma by_sequence_accounted k n prev states es :
  accounted n prev states es → by_sequence (map (effect_row_of k) es) = map (effect_row_of k) es.
Proof.
  intros Hc. unfold by_sequence. apply py_sorted_id.
  destruct (accounted_sequences _ _ _ _ Hc) as [Hs _]. clear Hc.
  induction Hs as [|e es _ IH He]; simpl; constructor; [done|]. by apply Forall_map.
Qed.

Lemma authenticated_sign k p : authenticated k (sign k p) p = true.
Proof. unfold authenticated. by rewrite compare_digest_refl by apply sign_digest. Qed.

Lemma replay_accounted k n prev states es :
  accounted n prev states es →
  replay_effects k n prev states (map (effect_row_of k) es)
  = Ok (n + Z.of_nat (length es), last_hash prev es, tally states es).
Proof.
  revert n prev states. induction es as [|e es IH]; intros n prev states Hc; cbn [map replay_effects].
  { cbn. do 3 f_equal. lia. }
  destruct Hc as ((Hs & Hp & Hb & Hbe & Haf) & Hc). cbv zeta.
  cbn [row_sequence row_previous row_hash row_key_id row_hmac row_payload effect_chain effect_row_of
       er_entry er_hash er_key_id er_hmac].
  fold (account states e). rewrite Hs, Hp, Z.eqb_refl, !bool_decide_true by (done || congruence).
  cbn [negb orb]. rewrite authenticated_sign. cbn [negb].
  rewrite <- Hs. fold (credit states e). rewrite Hs, IH by done.
  cbn [length last_hash tally foldl]. do 3 f_equal. lia.
Qed.

(** ** The projections *)

Definition state_rows (k : journal_key) (l : list (string * usage_state)) : list state_row :=
  map (fun x => state_row_of k x.1 x.2) l.

Lemma upsert_state_rows k l c s :
  NoDup l.*1 →
  (∀ s0, (list_to_map l : gmap _ _) !! c = Some s0 → st_binding s0 = st_binding s) →
  ∃ l', upsert_state (state_row_of k c s) (state_rows k l) = state_rows k l' ∧ NoDup l'.*1 ∧
    (∀ x, x ∈ l'.*1 ↔ x = c ∨ x ∈ l.*1) ∧
    (list_to_map l' : gmap _ _) = <[c := s]> (list_to_map l).
Proof.
  induction l as [|[c0 s0] l IH]; intros Hnd Hb; cbn [state_rows map upsert_state].
  { exists [(c, s)]. cbn. split_and!; [done|by apply NoDup_singleton| |done].
    intros x. by rewrite list_elem_of_singleton, elem_of_nil; tauto. }
  cbn [fmap list_fmap] in Hnd. apply NoDup_cons in Hnd as [Hn Hnd].
  cbn [fst snd state_row_of sr_consumer sr_state]. case_bool_decide as Hc.
  - subst c0. cbn [list_to_map foldr curry] in Hb. exists ((c, s) :: l).
    cbn [state_rows map fmap list_fmap fst snd]. split_and!.
    + f_equal. unfold state_row_of. f_equal. destruct s. cbn. f_equal.
      apply (Hb s0). cbn. by rewrite lookup_insert_eq.
    + by apply NoDup_cons.
    + intros x. rewrite !elem_of_cons. tauto.
    + cbn. by rewrite insert_insert_eq.
  - destruct IH as (l' & Hu & Hnd' & Hx & Hm); [done| |].
    { intros s1 Hs1. apply Hb. cbn. by rewrite lookup_insert_ne by congruence. }
    exists ((c0, s0) :: l'). cbn [state_rows map fmap list_fmap fst snd]. split_and!.
    + f_equal. exact Hu.
    + apply NoDup_cons. split; [|done]. rewrite Hx. intros [?|?]; [congruence|done].
    + intros x. rewrite !elem_of_cons, Hx. tauto.
    + cbn. rewrite Hm. by rewrite insert_insert_ne by congruence.
Qed.

(** ** The invariant of a file *)

Record usage_inv (k : journal_key) (f : usage_file) (jid : string) (es : list effect)
    (l : list (string * usage_state)) : Prop := {
  ui_application : fi_application_id (uf_file f) = ROUTE_USAGE_APPLICATION_ID;
  ui_version : fi_user_version (uf_file f) = 1;
  ui_tables : fi_tables (uf_file f) = true;
  ui_triggers : forallb (fun t => t in? uf_triggers f) usage_triggers = true;
  ui_meta : fi_meta (uf_file f) = Some (mk_meta ROUTE_USAGE_DOMAIN k jid (Z.of_nat (length es))
                                          (last_hash GENESIS_DIGEST es));
  ui_rows : fi_rows (uf_file f) = map (effect_row_of k) es;
  ui_accounted : accounted 0 GENESIS_DIGEST ∅ es;
  ui_states : uf_states f = state_rows k l;
  ui_consumers : NoDup l.*1;
  ui_tally : list_to_map l = tally ∅ es;
  ui_once : NoDup (map (fun e => (ef_consumer e, ef_id e)) es);
}.

Lemma state_rows_ok k l (m : gmap string usage_state) :
  NoDup l.*1 → list_to_map l = m → forallb (state_row_ok k m) (state_rows k l) = true.
Proof.
  intros Hnd <-. apply forallb_forall. intros w Hw. apply list_elem_of_In in Hw.
  apply list_elem_of_fmap in Hw as ([c s] & -> & Hin).
  unfold state_row_ok. cbn [sr_key_id sr_hmac sr_consumer sr_state state_row_of fst snd].
  rewrite authenticated_sign, !bool_decide_true; [done| |done]. by apply elem_of_list_to_map.
Qed.
Lemma state_rows_dom k l (m : gmap string usage_state) :
  list_to_map l = m → list_to_set (C := gset string) (map sr_consumer (state_rows k l)) = dom m.
Proof.
  intros <-. unfold state_rows. rewrite map_map. cbn [sr_consumer state_row_of].
  by rewrite dom_list_to_map_L.
Qed.

Lemma usage_verify_inv k f jid es l :
  usage_inv k f jid es l →
  usage_verify_locked k f = Ok {| uv_journal_id := jid; uv_entries := Z.of_nat (length es);
                                  uv_head := last_hash GENESIS_DIGEST es; uv_states := tally ∅ es |}.
Proof.
  intros []. unfold usage_verify_locked, usage_meta_row.
  rewrite ui_tables0, ui_meta0, ui_triggers0. cbn [negb].
  cbn [mk_meta me_key_id me_hmac me_journal_id me_head_sequence me_head_hash me_schema_version].
  rewrite Z.eqb_refl, bool_decide_true by done. cbn [negb orb]. rewrite authenticated_sign. cbn [negb].
  rewrite ui_rows0, (by_sequence_accounted k 0 GENESIS_DIGEST ∅) by done.
  rewrite replay_accounted by done. cbn [Z.add]. rewrite Z.eqb_refl, bool_decide_true by done.
  cbn [negb orb]. rewrite ui_states0, (state_rows_dom k l _ ui_tally0), bool_decide_true by done.
  cbn [negb]. by rewrite state_rows_ok.
Qed.

Lemma find_effect_spec k es c id :
  match find_effect c id (map (effect_row_of k) es) with
  | Some w => ∃ e, w = effect_row_of k e ∧ e ∈ es ∧ ef_consumer e = c ∧ ef_id e = id
  | None => (c, id) ∉ map (fun e => (ef_consumer e, ef_id e)) es
  end.
Proof.
  unfold find_effect. induction es as [|e es IH]; simpl; [by apply not_elem_of_nil|].
  destruct (_ && _) eqn:Hd.
  - breflect. exists e. split_and!; [done|left|done..].
  - destruct (List.find _ _) as [w|]; simpl in *.
    + destruct IH as (e' & ? & ? & ? & ?). exists e'. split_and!; [done|by right|done..].
    + rewrite not_elem_of_cons. split; [|done]. intros [= -> ->].
      by rewrite !bool_decide_true in Hd.
Qed.

Lemma effect_unique es e e' :
  NoDup (map (fun e => (ef_consumer e, ef_id e)) es) → e ∈ es → e' ∈ es →
  ef_consumer e = ef_consumer e' → ef_id e = ef_id e' → e = e'.
Proof.
  intros Hnd Hi Hj Hc Hd. apply list_elem_of_lookup in Hi as [i Hi], Hj as [j Hj].
  assert (i = j) as ->; [|congruence].
  eapply (NoDup_lookup (map (fun e => (ef_consumer e, ef_id e)) es)); [done|..].
  - by rewrite list_lookup_fmap, Hi.
  - rewrite list_lookup_fmap, Hj. simpl. by rewrite Hc, Hd.
Qed.

End Accounts.

(** ** Reserving keeps the invariant *)

Section Reserve.
Context `{FromIso} `{Crypto} `{Jsonschema}.

(** The usage stays within the aggregate budget of the request and within the
    cost the decision reserved. *)
Definition within_budget (decision request : json) (u : RouteAggregateUsage) : Prop :=
  ∃ d rq se budget reservation,
    as_decision decision = Some d ∧ as_request request = Some rq ∧ dc_selected d = Some se ∧
    dc_decision d = "allowed" ∧ dc_request_digest d = rm_digest (rq_meta rq) ∧
    rq_aggregate rq = Some budget ∧ se_reservation se = Some reservation ∧
    us_calls u ≤ ag_maximum_calls budget ∧ us_input u ≤ ag_input_ceiling budget ∧
    us_output u ≤ ag_output_ceiling budget ∧ us_cost u ≤ ag_cost budget ∧
    us_cost u ≤ ag_cost reservation ∧ ag_cost reservation = se_reserved_cost se.

Lemma reserve_route_effect_spec decision request u input output cost u' :
  reserve_route_effect decision request u input output cost = Ok u' →
  u' = used u input output cost ∧ within_budget decision request u' ∧
  0 ≤ input ∧ 0 ≤ output ∧ 0 ≤ cost.
Proof.
  unfold reserve_route_effect. intros Hr. guard Hr as Eneg.
  destruct (validate_evidence _ _); [|done].
  destruct (as_decision decision) as [d|] eqn:Ed; [|done].
  destruct (as_request request) as [rq|] eqn:Erq; [|done]. cbn [some_or] in Hr.
  destruct (dc_selected d) as [se|] eqn:Es; [|done]. cbn [mbind option_bind] in Hr.
  destruct (rq_aggregate rq) as [budget|] eqn:Eb; [|done].
  destruct (rq_execution_plan rq) as [plan|]; [|done].
  destruct (se_reservation se) as [res|] eqn:Eres; [|done].
  guard Hr as E1. guard Hr as E2. cbv zeta in Hr. guard Hr as E3. guard Hr as E4.
  injection Hr as <-. split; [done|]. cbn [existsb] in Eneg. breflect.
  cbn [us_calls us_input us_output us_cost] in *. split; [|lia].
  exists d, rq, se, budget, res. split_and!; try done; cbn [us_calls us_input us_output us_cost]; lia.
Qed.

(** The file after the rows of effect [e] were written. *)
Definition extended (k : journal_key) (f : usage_file) (jid : string) (e : effect) : usage_file :=
  {| uf_file :=
       {| fi_application_id := fi_application_id (uf_file f);
          fi_user_version := fi_user_version (uf_file f); fi_tables := fi_tables (uf_file f);
          fi_meta := move_head ROUTE_USAGE_DOMAIN k jid (ef_sequence e) (entry_hash (effect_payload e))
                       <$> fi_meta (uf_file f);
          fi_rows := fi_rows (uf_file f) ++ [effect_row_of k e] |};
     uf_states :=
       upsert_state (state_row_of k (ef_consumer e)
         {| st_binding := ef_binding e; st_usage := ef_after e; st_updated := ef_sequence e |})
         (uf_states f);
     uf_triggers := uf_triggers f |}.

Lemma reserve_extends k f jid es l e u :
  usage_inv k f jid es l → accounted 0 GENESIS_DIGEST ∅ (es ++ [e]) → u = ef_after e →
  (ef_consumer e, ef_id e) ∉ map (fun e => (ef_consumer e, ef_id e)) es →
  (∀ s, tally ∅ es !! ef_consumer e = Some s → st_binding s = ef_binding e) →
  ∃ l', usage_inv k (extended k f jid e) jid (es ++ [e]) l'.
Proof.
  intros Hinv Hacc -> Hn Hbind.
  pose proof Hacc as (_ & Hs & _ & Hb & _)%accounted_snoc.
  destruct (upsert_state_rows k l (ef_consumer e)
    {| st_binding := ef_binding e; st_usage := ef_after e; st_updated := ef_sequence e |})
    as (l' & Hup & Hnd & _ & Hm); [apply Hinv| |].
  { intros s0 Hs0. rewrite (ui_tally _ _ _ _ _ Hinv) in Hs0. by apply Hbind. }
  exists l'. destruct Hinv. constructor; cbn [uf_file uf_states uf_triggers fi_application_id
    fi_user_version fi_tables fi_meta fi_rows extended]; try done.
  - rewrite ui_meta0. cbn. rewrite last_hash_snoc, length_app, Nat2Z.inj_add, Hs. done.
  - by rewrite ui_rows0, map_app.
  - by rewrite ui_states0, Hup.
  - rewrite Hm, tally_snoc, ui_tally0. unfold credit. by rewrite Hb.
  - rewrite map_app. apply NoDup_app. split_and!; [done| |apply NoDup_singleton].
    intros x Hx Hx2. apply list_elem_of_singleton in Hx2 as ->. done.
Qed.

Lemma reserve_locked_inv k f jid es l decision request e f' r :
  usage_inv k f jid es l → reserve_locked k f decision request e = Ok (f', r) →
  rv_consumer r = ef_consumer e ∧ rv_effect_id r = ef_id e ∧
  ((f' = f ∧ rv_replayed r = true ∧
    ∃ e', e' ∈ es ∧ same_effect e' e = true ∧ ef_consumer e' = ef_consumer e ∧ ef_id e' = ef_id e ∧
      r = answer_of (effect_row_of k e') true) ∨
   (rv_replayed r = false ∧ (ef_consumer e, ef_id e) ∉ map (fun e => (ef_consumer e, ef_id e)) es ∧
    ∃ e' l', usage_inv k f' jid (es ++ [e']) l' ∧ same_effect e' e = true ∧
      ef_consumer e' = ef_consumer e ∧ ef_id e' = ef_id e ∧
      r = answer_of (effect_row_of k e') false ∧
      within_budget decision request (ef_after e') ∧ ef_after e' = total (ef_consumer e) (es ++ [e']))).
Proof.
  intros Hinv Hr. unfold reserve_locked in Hr. rewrite (usage_verify_inv _ _ _ _ _ Hinv) in Hr.
  cbn [uv_states uv_entries uv_head uv_journal_id] in Hr. cbv zeta in Hr.
  rewrite (ui_rows _ _ _ _ _ Hinv) in Hr.
  pose proof (find_effect_spec k es (ef_consumer e) (ef_id e)) as Hf.
  destruct (find_effect _ _ _) as [w|].
  - destruct Hf as (e' & -> & He & Hc & Hi). guard Hr as Es. injection Hr as <- <-.
    split; [exact Hc|]. split; [exact Hi|]. left. split; [done|]. split; [done|].
    exists e'. breflect. split_and!; done.
  - guard Hr as Eb. destruct (reserve_route_effect _ _ _ _ _ _) as [u|] eqn:Eu; [|done].
    guard Hr as E64. injection Hr as <- <-. split; [done|]. split; [done|]. right.
    split; [done|]. split; [exact Hf|].
    destruct (reserve_route_effect_spec _ _ _ _ _ _ _ Eu) as (Hu & Hw & _).
    set (cur := match tally ∅ es !! ef_consumer e with Some s => st_usage s | None => no_usage end) in *.
    set (e' := placed_effect e (Z.of_nat (length es) + 1) cur u (last_hash GENESIS_DIGEST es)).
    assert (account (tally ∅ es) e' = match tally ∅ es !! ef_consumer e with Some s => s
              | None => {| st_binding := ef_binding e; st_usage := no_usage; st_updated := 0 |} end)
      as Hac by done.
    assert (st_binding (account (tally ∅ es) e') = ef_binding e) as Hbind.
    { rewrite Hac. destruct (tally ∅ es !! ef_consumer e) as [s|]; [|done]. by breflect. }
    assert (accounted 0 GENESIS_DIGEST ∅ (es ++ [e'])) as Hacc.
    { apply accounted_snoc. split; [apply Hinv|]. split_and!; [done|done|done| |].
      - rewrite Hac. unfold e', cur. cbn [ef_before placed_effect].
        by destruct (tally ∅ es !! ef_consumer e).
      - cbn. exact Hu. }
    assert (ef_after e' = total (ef_consumer e) (es ++ [e'])) as Htot.
    { pose proof (tally_total _ _ _ (ef_consumer e) Hacc) as Ht. rewrite tally_snoc in Ht.
      unfold credit in Ht. change (ef_consumer e') with (ef_consumer e) in Ht.
      by rewrite lookup_insert_eq in Ht. }
    destruct (reserve_extends k f jid es l e' (ef_after e')) as (l' & Hinv'); [done..| |].
    { intros s Hs. change (ef_consumer e') with (ef_consumer e) in Hs. rewrite Hs in Eb. by breflect. }
    exists e', l'. split_and!; [|by unfold same_effect; cbn; rewrite !bool_decide_true, !Z.eqb_refl|done..].
    rewrite <- (ui_rows _ _ _ _ _ Hinv). exact Hinv'.
Qed.
End Reserve.
