(* ===== verification/UsageProps.v ===== *)
(** * Properties of the usage journal *)

From S2P Require Import Prelude Json Digest PyTime PyClock Schema RouteRecords Router RouteRecordFacts RouteExamples RouteBinding RouteConsumption ConsumptionProofs RouteUsage UsageProofs.

(** One call of [reserve]. *)
Record request_call : Type := { rc_decision : json; rc_request : json; rc_args : ReserveArgs }.

Section Claims.
Context `{FromIso} `{Crypto} `{Jsonschema}.

(** The calls made on one journal, in order: the file after them and what each
    returned or raised. *)
Definition reserve_all (j : journal) (f : usage_file) (cs : list request_call)
  : usage_file * list (result reserved) :=
  foldl (fun acc c =>
    let x := reserve j acc.1 (rc_decision c) (rc_request c) (rc_args c) in
    (x.1, acc.2 ++ [x.2])) (f, []) cs.

(** What the calls reserved for a consumer, from their arguments and answers. *)
Definition spent (c : string) (calls : list (request_call * result reserved)) : RouteAggregateUsage :=
  foldl (fun u x =>
    match x.2 with
    | Ok r => if negb (rv_replayed r) && (rv_consumer r == c)
              then used u (ra_input (rc_args x.1)) (ra_output (rc_args x.1)) (ra_cost (rc_args x.1))
              else u
    | Err _ => u
    end) no_usage calls.

Definition reserved_anew (r : result reserved) : Prop :=
  match r with Ok x => rv_replayed x = false | Err _ => False end.
#[export] Instance reserved_anew_dec r : Decision (reserved_anew r).
Proof. destruct r; simpl; apply _. Defined.

(** ** What a sequence of calls leaves behind *)

(** The effect a call with answer [r] is about. *)
Definition effect_for (k : journal_key) (e : effect) (c : request_call) (r : reserved) : Prop :=
  r = answer_of (effect_row_of k e) (rv_replayed r) ∧ ef_id e = ra_effect_id (rc_args c) ∧
  ef_digest e = ra_effect_digest (rc_args c) ∧ ef_input e = ra_input (rc_args c) ∧
  ef_output e = ra_output (rc_args c) ∧ ef_cost e = ra_cost (rc_args c).

Record usage_trace (k : journal_key) (es : list effect) (cs : list request_call)
    (rs : list (result reserved)) : Prop := {
  ut_length : length rs = length cs;
  ut_anew : length es = length (filter reserved_anew rs);
  ut_recorded : ∀ i c r, cs !! i = Some c → rs !! i = Some (Ok r) → ∃ e, e ∈ es ∧ effect_for k e c r;
  ut_spent : ∀ c, total c es = spent c (zip cs rs);
}.

Lemma usage_trace_nil k : usage_trace k [] [] [].
Proof. constructor; done. Qed.

Lemma zip_snoc {A B} (la : list A) (lb : list B) a b :
  length lb = length la → zip (la ++ [a]) (lb ++ [b]) = zip la lb ++ [(a, b)].
Proof. intros Hl. by rewrite zip_with_app by done. Qed.

Lemma usage_trace_snoc k es es' cs rs c (x : result reserved) :
  usage_trace k es cs rs →
  match x with
  | Err _ => es' = es
  | Ok r =>
      (rv_replayed r = true ∧ es' = es ∧ ∃ e, e ∈ es ∧ effect_for k e c r) ∨
      (rv_replayed r = false ∧ ∃ e, es' = es ++ [e] ∧ effect_for k e c r)
  end →
  usage_trace k es' (cs ++ [c]) (rs ++ [x]).
Proof.
  intros [Hlen Hnew Hrec Hsp] Hx.
  assert (∀ e, e ∈ es → e ∈ es') as Hmono.
  { intros e He. destruct x as [r|]; [|by subst].
    destruct Hx as [(_ & -> & _)|(_ & e0 & -> & _)]; [done|]. apply elem_of_app. by left. }
  constructor.
  - rewrite !length_app. simpl. lia.
  - rewrite filter_app, length_app. destruct x as [r|]; simpl.
    + destruct Hx as [(Hr & -> & _)|(Hr & e & -> & _)].
      * rewrite filter_cons_False by (simpl; by rewrite Hr). simpl. lia.
      * rewrite filter_cons_True by done. rewrite length_app. simpl. lia.
    + subst. lia.
  - intros i c' r Hc Hr. apply lookup_snoc_Some in Hc as [[Hlt Hc]|[-> <-]].
    + rewrite lookup_app_l in Hr by lia. destruct (Hrec i c' r Hc Hr) as (e & He & Hf). eauto.
    + rewrite <- Hlen, list_lookup_middle in Hr by done. injection Hr as ->.
      destruct Hx as [(_ & -> & e & He & Hf)|(_ & e & -> & Hf)]; exists e; (split; [|done]); [done|].
      apply elem_of_app. right. by apply list_elem_of_singleton.
  - intros c0. rewrite zip_snoc by done. unfold spent. rewrite foldl_app. cbn [foldl fst snd].
    fold (spent c0 (zip cs rs)). rewrite <- Hsp. destruct x as [r|]; [|by subst].
    destruct Hx as [(Hr & -> & _)|(Hr & e & -> & (Ha & _ & _ & Hi & Ho & Hco))]; rewrite Hr; [done|].
    cbn [negb andb]. rewrite total_snoc, Ha, Hi, Ho, Hco. done.
Qed.

Lemma same_effect_fields e' e :
  same_effect e' e = true →
  ef_digest e' = ef_digest e ∧ ef_input e' = ef_input e ∧ ef_output e' = ef_output e ∧
  ef_cost e' = ef_cost e.
Proof. unfold same_effect. intros Hs. breflect. by split_and!. Qed.

(** The arguments [reserve] puts in the effect it proposes. *)
Lemma reserve_checks_args decision request a e :
  reserve_checks decision request a = Ok e →
  ef_id e = ra_effect_id a ∧ ef_digest e = ra_effect_digest a ∧ ef_input e = ra_input a ∧
  ef_output e = ra_output a ∧ ef_cost e = ra_cost a ∧
  route_consumer_digest decision request (ra_kind a) (ra_id a) (ra_workflow_effect a)
    = Ok (ef_consumer e).
Proof.
  unfold reserve_checks. intros Hr. guard Hr as E0. destruct (route_clock _) as [now|]; [|done].
  destruct (route_consumer_digest _ _ _ _ _) as [cd|]; [|done].
  destruct (some_or _ (as_decision decision)) as [d|]; [|done].
  destruct (some_or _ (as_request request)) as [rq|]; [|done].
  destruct (dc_selected d) as [se|]; [|done]. destruct (rq_execution_plan rq) as [plan|]; [|done].
  destruct (verify_route_binding _ _ _); [|done]. by injection Hr as <-.
Qed.

Lemma reserve_step k f jid es l j c f' x :
  usage_inv k f jid es l → j = {| j_key := k; j_closed := false |} →
  reserve j f (rc_decision c) (rc_request c) (rc_args c) = (f', x) →
  ∃ es' l', usage_inv k f' jid es' l' ∧
    match x with
    | Err _ => es' = es ∧ f' = f
    | Ok r =>
        (rv_replayed r = true ∧ es' = es ∧ f' = f ∧ ∃ e, e ∈ es ∧ effect_for k e c r) ∨
        (rv_replayed r = false ∧ (∀ e, e ∈ es → ef_consumer e = rv_consumer r →
                                  ef_id e ≠ rv_effect_id r) ∧
         ∃ e, es' = es ++ [e] ∧ effect_for k e c r ∧
           within_budget (rc_decision c) (rc_request c) (rv_usage r) ∧
           rv_usage r = total (rv_consumer r) es')
    end.
Proof.
  intros Hinv ->. unfold reserve. cbv zeta.
  destruct (reserve_checks _ _ _) as [e|] eqn:Ec; [|intros [= <- <-]; by exists es, l].
  destruct (reserve_checks_args _ _ _ _ Ec) as (Ai & Ad & Ain & Ao & Aco & _).
  unfold usage_transaction. cbn [j_closed j_key].
  destruct (reserve_locked _ _ _ _ _) as [[g r]|] eqn:El; [|intros [= <- <-]; by exists es, l].
  intros [= <- <-].
  destruct (reserve_locked_inv _ _ _ _ _ _ _ _ _ _ Hinv El)
    as (Hc & Hi & [(-> & Hr & e' & He & Hs & Hce & Hie & Ha)
                  |(Hr & Hn & e' & l' & Hinv' & Hs & Hce & Hie & Ha & Hw & Ht)]);
    destruct (same_effect_fields _ _ Hs) as (Hd & Hin & Ho & Hco).
  - exists es, l. split; [done|]. left. split_and!; [done..|]. exists e'. split; [done|].
    split; [by rewrite Hr|]. by rewrite Hie, Hd, Hin, Ho, Hco.
  - exists (es ++ [e']), l'. split; [done|]. right. split; [done|]. split.
    + intros e0 He0 Hc0 Hi0. apply Hn. rewrite <- Hc, <- Hi, <- Hc0, <- Hi0.
      by apply (list_elem_of_fmap_2 (fun e => (ef_consumer e, ef_id e))).
    + exists e'. split; [done|]. split.
      * split; [by rewrite Hr|]. by rewrite Hie, Hd, Hin, Ho, Hco.
      * rewrite Hc. rewrite Ha. cbn [rv_usage answer_of effect_row_of er_entry]. done.
Qed.

Lemma reserve_all_inv k jid f0 j cs f rs :
  usage_inv k f0 jid [] [] → j = {| j_key := k; j_closed := false |} →
  reserve_all j f0 cs = (f, rs) → ∃ es l, usage_inv k f jid es l ∧ usage_trace k es cs rs.
Proof.
  intros Hf0 Hj. revert f rs. induction cs as [|c cs IH] using rev_ind; intros f rs.
  { intros [= <- <-]. exists [], []. split; [done|apply usage_trace_nil]. }
  unfold reserve_all. rewrite foldl_app. cbn [foldl].
  destruct (foldl _ _ cs) as [f1 rs1] eqn:E1. cbn [fst snd].
  destruct (IH f1 rs1 E1) as (es & l & Hi & Ht).
  destruct (reserve _ _ _ _ _) as [f2 x] eqn:E2. cbn [fst snd]. intros [= <- <-].
  destruct (reserve_step _ _ _ _ _ _ _ _ _ Hi Hj E2) as (es' & l' & Hi' & Hx).
  exists es', l'. split; [done|]. apply (usage_trace_snoc k es); [done|].
  destruct x as [r|]; [|by destruct Hx].
  destruct Hx as [(? & ? & _ & ?)|(? & _ & e & ? & ? & _)]; [by left|]. right. split; [done|]. by exists e.
Qed.

Lemma open_usage_empty key kid token f j :
  open_usage key kid token empty_usage_file = (f, Ok j) →
  ∃ k, j = {| j_key := k; j_closed := false |} ∧ k = {| jk_hmac_key := key; jk_key_id := kid |} ∧
    usage_inv k f token [] [].
Proof.
  unfold open_usage. destruct (_ || _); [done|]. cbn. intros [= <- <-]. eexists. split_and!; [done..|].
  constructor; try done; try by constructor.
Qed.

Lemma open_usage_again k f jid es l key kid token :
  usage_inv k f jid es l → k = {| jk_hmac_key := key; jk_key_id := kid |} →
  (String.length key <? 32)%nat || negb (is_identifier kid) = false →
  open_usage key kid token f = (f, Ok {| j_key := k; j_closed := false |}).
Proof.
  intros Hinv -> Hk. unfold open_usage. rewrite Hk. unfold usage_initialize_or_verify. cbv zeta.
  rewrite (ui_application _ _ _ _ _ Hinv), (ui_version _ _ _ _ _ Hinv). cbn [Z.eqb andb].
  change (ROUTE_USAGE_APPLICATION_ID =? 0) with false. rewrite Z.eqb_refl.
  cbn [negb orb andb Z.eqb Pos.eqb]. by rewrite (usage_verify_inv _ _ _ _ _ Hinv).
Qed.

Lemma status_lookup k l c :
  NoDup l.*1 →
  (fun row => (st_usage (sr_state row), st_updated (sr_state row)))
    <$> List.find (fun row => sr_consumer row == c) (state_rows k l)
  = (fun s => (st_usage s, st_updated s)) <$> (list_to_map l : gmap string usage_state) !! c.
Proof.
  induction l as [|[c0 s0] l IH]; intros Hnd; [done|].
  cbn [fmap list_fmap fst] in Hnd. apply NoDup_cons in Hnd as [Hn Hnd].
  cbn [state_rows map List.find sr_consumer state_row_of fst snd list_to_map foldr].
  case_bool_decide as Hc; cbn.
  - subst. by rewrite lookup_insert_eq.
  - rewrite lookup_insert_ne by congruence. by apply IH.
Qed.

(** An answer for an effect an earlier call was answered for is a replay. *)
Lemma later_replayed k jid f0 j cs f rs i i' c c' r r' :
  usage_inv k f0 jid [] [] → j = {| j_key := k; j_closed := false |} →
  reserve_all j f0 cs = (f, rs) →
  cs !! i = Some c → rs !! i = Some (Ok r) → cs !! i' = Some c' → rs !! i' = Some (Ok r') →
  rv_consumer r = rv_consumer r' → rv_effect_id r = rv_effect_id r' → (i < i')%nat →
  rv_replayed r' = true.
Proof.
  intros Hf0 Hj. revert f rs. induction cs as [|c0 cs IH] using rev_ind; intros f rs; [done|].
  unfold reserve_all. rewrite foldl_app. cbn [foldl].
  destruct (foldl _ _ cs) as [f1 rs1] eqn:E1. cbn [fst snd].
  destruct (reserve_all_inv _ _ _ _ _ _ _ Hf0 Hj E1) as (es & l & Hi & Ht).
  destruct (reserve _ _ _ _ _) as [f2 x] eqn:E2. cbn [fst snd]. intros [= <- <-] Hc Hr Hc' Hr' Hd Hid Hlt.
  pose proof (ut_length _ _ _ _ Ht) as Hlen.
  apply lookup_snoc_Some in Hc' as [[Hlt' Hc']|[-> <-]].
  - rewrite lookup_app_l in Hc by lia. rewrite lookup_app_l in Hr, Hr' by lia. by eapply IH.
  - rewrite lookup_app_l in Hc by lia. rewrite lookup_app_l in Hr by lia.
    rewrite <- Hlen, list_lookup_middle in Hr' by done. injection Hr' as ->.
    destruct (reserve_step _ _ _ _ _ _ _ _ _ Hi Hj E2) as (es' & l' & _ & [(Hx & _)|(_ & Hx & _)]); [done|].
    destruct (ut_recorded _ _ _ _ Ht _ _ _ Hc Hr) as (e & He & Ha & _).
    rewrite Ha in Hd, Hid. cbn in Hd, Hid. exfalso. by apply (Hx e He).
Qed.

(** ** The claims *)

(** [C12] Aggregate usage stays within budget.  When a call reserves an effect,
    the answered usage is the sum of every effect reserved for this consumer by
    the calls so far and this one, and it is within the aggregate budget of the
    request and within the cost the decision reserved. *)
Theorem usage_within_budget key kid token f0 j cs f rs c f' r :
  open_usage key kid token empty_usage_file = (f0, Ok j) → reserve_all j f0 cs = (f, rs) →
  reserve j f (rc_decision c) (rc_request c) (rc_args c) = (f', Ok r) → rv_replayed r = false →
  rv_usage r = used (spent (rv_consumer r) (zip cs rs)) (ra_input (rc_args c)) (ra_output (rc_args c))
                    (ra_cost (rc_args c)) ∧
  within_budget (rc_decision c) (rc_request c) (rv_usage r).
Proof.
  intros Ho Ha Hr Hn. destruct (open_usage_empty _ _ _ _ _ Ho) as (k & Hj & _ & Hinv).
  destruct (reserve_all_inv _ _ _ _ _ _ _ Hinv Hj Ha) as (es & l & Hi & Ht).
  destruct (reserve_step _ _ _ _ _ _ _ _ _ Hi Hj Hr) as (es' & l' & Hi' & [(Hx & _)|Hx]); [congruence|].
  destruct Hx as (_ & _ & e & -> & He & Hw & Hu). split; [|done]. rewrite Hu at 1.
  destruct He as (Hans & _ & _ & Hin & Hou & Hco). rewrite total_snoc.
  rewrite bool_decide_true by (rewrite Hans; done).
  by rewrite (ut_spent _ _ _ _ Ht), Hin, Hou, Hco.
Qed.

(** The journal accepts its own writing: whatever calls were made on it,
    verification counts the effects reserved, the status of a consumer is the sum
    of its effects, and the file reopens unchanged under the same key. *)
Theorem usage_journal_is_consistent key kid token token' f0 j cs f rs :
  open_usage key kid token empty_usage_file = (f0, Ok j) → reserve_all j f0 cs = (f, rs) →
  (∃ consumers head, usage_verify j f
     = Ok (token, Z.of_nat (length (filter reserved_anew rs)), consumers, head)) ∧
  (∀ c, is_digest c = true → ∃ st, usage_status j f c = Ok st ∧
     default no_usage (fst <$> st) = spent c (zip cs rs)) ∧
  open_usage key kid token' f = (f, Ok j).
Proof.
  intros Ho Ha. destruct (open_usage_empty _ _ _ _ _ Ho) as (k & Hj & Hk & Hinv).
  destruct (reserve_all_inv _ _ _ _ _ _ _ Hinv Hj Ha) as (es & l & Hi & Ht). subst j. split_and!.
  - unfold usage_verify, usage_transaction. cbn [j_closed j_key].
    rewrite (usage_verify_inv _ _ _ _ _ Hi). cbn [uv_entries uv_journal_id].
    rewrite (ut_anew _ _ _ _ Ht). eauto.
  - intros c Hc. unfold usage_status, usage_transaction. rewrite Hc. cbn [negb j_closed j_key].
    rewrite (usage_verify_inv _ _ _ _ _ Hi). eexists. split; [done|].
    rewrite (ui_states _ _ _ _ _ Hi), <- (ut_spent _ _ _ _ Ht).
    pose proof (tally_total _ _ _ c (ui_accounted _ _ _ _ _ Hi)) as Htot.
    rewrite <- (ui_tally _ _ _ _ _ Hi) in Htot. rewrite status_lookup by apply Hi.
    destruct (_ !! c); simpl; by rewrite Htot.
  - eapply open_usage_again; [done..|]. unfold open_usage in Ho. by destruct (_ || _).
Qed.

(** An effect is reserved once: of two successful calls for the same
    consumer and effect, the later is a replay that returns what the first
    recorded, and it repeats the first one's effect digest and amounts. *)
Theorem effect_reserved_once key kid token f0 j cs f rs i i' c c' r r' :
  open_usage key kid token empty_usage_file = (f0, Ok j) → reserve_all j f0 cs = (f, rs) →
  cs !! i = Some c → rs !! i = Some (Ok r) → cs !! i' = Some c' → rs !! i' = Some (Ok r') →
  rv_consumer r = rv_consumer r' → rv_effect_id r = rv_effect_id r' → (i < i')%nat →
  rv_replayed r' = true ∧ rv_sequence r' = rv_sequence r ∧ rv_entry_hash r' = rv_entry_hash r ∧
  rv_usage r' = rv_usage r ∧ rv_reserved_at r' = rv_reserved_at r ∧ rv_route r' = rv_route r ∧
  ra_effect_digest (rc_args c') = ra_effect_digest (rc_args c) ∧
  ra_input (rc_args c') = ra_input (rc_args c) ∧ ra_output (rc_args c') = ra_output (rc_args c) ∧
  ra_cost (rc_args c') = ra_cost (rc_args c).
Proof.
  intros Ho Ha Hc Hr Hc' Hr' Hd Hid Hlt. destruct (open_usage_empty _ _ _ _ _ Ho) as (k & Hj & _ & Hinv).
  split.
  - by apply (later_replayed k token f0 j cs f rs i i' c c' r r').
  - destruct (reserve_all_inv _ _ _ _ _ _ _ Hinv Hj Ha) as (es & l & Hi & []).
    destruct (ut_recorded0 _ _ _ Hc Hr) as (e & He & E1 & E2 & E3 & E4 & E5 & E6).
    destruct (ut_recorded0 _ _ _ Hc' Hr') as (e' & He' & F1 & F2 & F3 & F4 & F5 & F6).
    assert (e = e') as <-.
    { apply (effect_unique es); [apply Hi|done..| |]; [rewrite E1, F1 in Hd|rewrite E1, F1 in Hid]; done. }
    rewrite E1, F1. cbn. split_and!; congruence.
Qed.
End Claims.

(** ** Witnesses *)

#[local] Existing Instance Checksum.crypto.
#[local] Existing Instance rfc3339_iso.
#[local] Existing Instance draft202012.

Definition usage_key : string := "0123456789abcdef0123456789abcdef".
Definition usage_example_journal : journal :=
  {| j_key := {| jk_hmac_key := usage_key; jk_key_id := "key-1" |}; j_closed := false |}.
Definition usage_opened : usage_file :=
  Eval vm_compute in (open_usage usage_key "key-1" "token" empty_usage_file).1.
Definition example_reserve (effect_id : string) (input cost : Z) : request_call :=
  {| rc_decision := example_decision; rc_request := request_doc;
     rc_args := {| ra_kind := "worker"; ra_id := "run-1"; ra_workflow_effect := some_digest;
                   ra_effect_id := effect_id; ra_effect_digest := some_digest; ra_input := input;
                   ra_output := 50; ra_cost := cost; ra_now := noon |} |}.
(** Two effects, the first again, one over the reservation. *)
Definition usage_calls : list request_call :=
  [example_reserve "call-1" 100 6; example_reserve "call-2" 200 7; example_reserve "call-1" 100 6;
   example_reserve "call-3" 100 100000].
Definition usage_run : usage_file * list (result reserved) :=
  Eval vm_compute in reserve_all usage_example_journal usage_opened usage_calls.
Definition usage_file_after : usage_file := usage_run.1.
Definition usage_answers : list (result reserved) := usage_run.2.

Example usage_example_answers :
  map (fun r => let! x := r in Ok (rv_replayed x, us_cost (rv_usage x))) usage_answers
  = [Ok (false, 6); Ok (false, 13); Ok (true, 6);
     Err (RoutingError "ECO_ROUTE_AGGREGATE_BUDGET_EXCEEDED")].
Proof. vm_compute. reflexivity. Qed.

Lemma usage_opened_ok :
  open_usage usage_key "key-1" "token" empty_usage_file = (usage_opened, Ok usage_example_journal).
Proof. vm_compute. reflexivity. Qed.
Lemma usage_run_ok :
  reserve_all usage_example_journal usage_opened usage_calls = (usage_file_after, usage_answers).
Proof. vm_compute. reflexivity. Qed.

Definition usage_last : usage_file * result reserved :=
  Eval vm_compute in reserve usage_example_journal usage_file_after example_decision request_doc
                       (rc_args (example_reserve "call-4" 10 1)).
Lemma usage_last_ok :
  reserve usage_example_journal usage_file_after example_decision request_doc
    (rc_args (example_reserve "call-4" 10 1)) = (usage_last.1, usage_last.2).
Proof. vm_compute. reflexivity. Qed.
Lemma usage_within_budget_witness :
  ∃ r, (reserve usage_example_journal usage_file_after example_decision request_doc
          (rc_args (example_reserve "call-4" 10 1))).2 = Ok r ∧
    us_calls (rv_usage r) = 3 ∧ us_input (rv_usage r) = 310 ∧ us_cost (rv_usage r) = 14 ∧
    within_budget example_decision request_doc (rv_usage r).
Proof.
  rewrite usage_last_ok. destruct (usage_last.2) as [r|] eqn:Er; [|discriminate Er].
  assert (reserve usage_example_journal usage_file_after example_decision request_doc
            (rc_args (example_reserve "call-4" 10 1)) = (usage_last.1, Ok r)) as E
    by (rewrite <- Er; exact usage_last_ok).
  assert (rv_replayed r = false) as Hn by (injection Er as <-; reflexivity).
  destruct (usage_within_budget _ _ _ _ _ _ _ _ (example_reserve "call-4" 10 1) _ r
              usage_opened_ok usage_run_ok E Hn) as [_ Hw].
  exists r. split; [reflexivity|]. clear E. injection Er as <-.
  split; [reflexivity|]. split; [reflexivity|]. split; [reflexivity|exact Hw].
Defined.

Lemma usage_journal_is_consistent_witness :
  ∃ consumers head, usage_verify usage_example_journal usage_file_after = Ok ("token", 2, consumers, head).
Proof.
  destruct (usage_journal_is_consistent _ _ _ "other" _ _ _ _ _ usage_opened_ok usage_run_ok)
    as [(consumers & head & Hv) _].
  exists consumers, head. rewrite Hv. vm_compute. reflexivity.
Defined.

Lemma effect_reserved_once_witness :
  ∃ r r', usage_answers !! 0%nat = Some (Ok r) ∧ usage_answers !! 2%nat = Some (Ok r') ∧
    rv_replayed r' = true ∧ rv_usage r' = rv_usage r.
Proof.
  destruct (usage_answers !! 0%nat) as [[r|]|] eqn:E0; try (vm_compute in E0; discriminate E0).
  destruct (usage_answers !! 2%nat) as [[r'|]|] eqn:E1; try (vm_compute in E1; discriminate E1).
  exists r, r'. split; [reflexivity|]. split; [reflexivity|].
  destruct (effect_reserved_once _ _ _ _ _ _ _ _ 0 2 (example_reserve "call-1" 100 6)
              (example_reserve "call-1" 100 6) r r' usage_opened_ok usage_run_ok) as (Hr & _ & _ & Hu & _).
  - reflexivity.
  - exact E0.
  - reflexivity.
  - exact E1.
  - vm_compute in E0, E1. injection E0 as <-. injection E1 as <-. reflexivity.
  - vm_compute in E0, E1. injection E0 as <-. injection E1 as <-. reflexivity.
  - lia.
  - split; [exact Hr|exact Hu].
Defined.
