(* ===== verification/AuthorityProofs.v ===== *)
(** * Lemmas on signed route authority

    What [b64decode] and [read_envelope] make of what the signer wrote. *)

From S2P Require Import Prelude Json Digest PyTime PyClock Schema RouteRecords Router RouteRecordFacts RouteBinding RouteConsumption ConsumptionProofs RouteAuthority.
From Stdlib Require Import Ascii.

(** ** base64 reads back *)

Lemma b64_char_value n : (n < 64)%N → b64_value (b64_char n) = Some n.
Proof.
  intros Hn. assert (n ∈ (N.of_nat <$> seq 0 64)) as Hin.
  { apply list_elem_of_fmap. exists (N.to_nat n). split; [lia|]. apply elem_of_seq. lia. }
  assert (Forall (fun n => b64_value (b64_char n) = Some n) (N.of_nat <$> seq 0 64)) as Hall.
  { apply (bool_decide_eq_true_1 _). vm_compute. reflexivity. }
  rewrite Forall_forall in Hall. by apply Hall.
Qed.
Lemma b64_char_not_pad n : (n < 64)%N → b64_char n == "="%char = false.
Proof.
  intros Hn. apply bool_decide_eq_false. intros E. pose proof (b64_char_value n Hn) as Hv.
  rewrite E in Hv. done.
Qed.
Lemma byte_bound c : (N_of_ascii c < 256)%N.
Proof. apply N_ascii_bounded. Qed.
Lemma byte_back c n : n = N_of_ascii c → ascii_of_N n = c.
Proof. intros ->. apply ascii_N_embedding. Qed.

#[local] Ltac Zify.zify_post_hook ::= Z.to_euclidean_division_equations.

Lemma string_ind3 (P : string → Prop) :
  P EmptyString → (∀ a, P (String a EmptyString)) → (∀ a b, P (String a (String b EmptyString))) →
  (∀ a b c s, P s → P (String a (String b (String c s)))) → ∀ s, P s.
Proof.
  intros H0 H1 H2 H3. fix IH 1. intros [|a [|b [|c s]]]; [exact H0|apply H1|apply H2|].
  apply H3, IH.
Qed.

Lemma b64_roundtrip s : b64decode (b64encode s) = Some s.
Proof.
  induction s as [|a|a b|a b c s IH] using string_ind3; [done|..]; cbn [b64encode b64decode].
  - pose proof (byte_bound a). set (n := N_of_ascii a) in *.
    rewrite !b64_char_value by lia. cbn [mbind option_bind].
    rewrite !bool_decide_true by done. cbn [andb]. do 2 f_equal. apply byte_back. fold n. lia.
  - pose proof (byte_bound a). pose proof (byte_bound b).
    set (x := N_of_ascii a) in *. set (y := N_of_ascii b) in *. cbv zeta.
    rewrite !b64_char_value by lia. cbn [mbind option_bind].
    rewrite b64_char_not_pad by lia. rewrite !bool_decide_true by done. cbn [andb].
    f_equal. f_equal; [|f_equal]; apply byte_back; [fold x|fold y]; lia.
  - pose proof (byte_bound a). pose proof (byte_bound b). pose proof (byte_bound c).
    set (x := N_of_ascii a) in *. set (y := N_of_ascii b) in *. set (z := N_of_ascii c) in *. cbv zeta.
    rewrite !b64_char_value by lia. cbn [mbind option_bind].
    rewrite !b64_char_not_pad by lia. cbn [andb]. rewrite IH. cbn [mbind option_bind].
    f_equal. f_equal; [|f_equal; [|f_equal]]; try (apply byte_back; [fold x || fold y || fold z]; lia).
Qed.

(** ** What the signer writes is ASCII *)

Lemma ascii_app a b : is_ascii (a +:+ b) = is_ascii a && is_ascii b.
Proof. apply str_all_app. Qed.
Lemma ascii_utf8 s : is_ascii s = true → utf8_ok s = true.
Proof.
  unfold is_ascii. induction s as [|c s IH]; [done|]. cbn [str_all]. intros Hs. breflect.
  cbn [utf8_ok]. rewrite IH by done. unfold byte_in. apply N.ltb_lt in H.
  replace (0 <=? N_of_ascii c)%N with true by (symmetry; apply N.leb_le; lia).
  replace (N_of_ascii c <=? 127)%N with true by (symmetry; apply N.leb_le; lia). done.
Qed.
Lemma escape_ascii s : is_ascii s = true → is_ascii (escape s) = true.
Proof.
  unfold is_ascii. induction s as [|c s IH]; [done|]. cbn [str_all escape]. intros Hs. breflect.
  rewrite str_all_app, IH by done. rewrite andb_true_r. revert H. clear.
  by destruct c as [[] [] [] [] [] [] [] []].
Qed.
Lemma dumps_str_ascii s : is_ascii s = true → is_ascii (dumps_str s) = true.
Proof.
  intros Hs. unfold dumps_str. change (String QUOTE (escape s +:+ String QUOTE EmptyString))
    with ((String QUOTE EmptyString) +:+ (escape s +:+ String QUOTE EmptyString)).
  by rewrite !ascii_app, escape_ascii.
Qed.

(** Every string of the value is ASCII. *)
Fixpoint json_ascii (j : json) : bool :=
  match j with
  | JStr s => is_ascii s
  | JArr l => forallb json_ascii l
  | JObj o => forallb (fun kv => is_ascii kv.1 && json_ascii kv.2) o
  | _ => true
  end.

Lemma digits_ascii s : str_all is_digit s = true → is_ascii s = true.
Proof.
  apply str_all_impl. intros c. unfold is_digit, char_between. intros Hc.
  apply andb_true_iff in Hc as [_ Hc]. apply N.leb_le in Hc. apply N.ltb_lt. simpl in Hc. lia.
Qed.
Lemma tail_ascii l :
  Forall (fun j => json_ascii j = true → is_ascii (dumps_raw j) = true) l →
  forallb json_ascii l = true → is_ascii (dumps_tail l) = true.
Proof.
  induction 1 as [|y l Hy _ IH]; [done|]. cbn [forallb dumps_tail]. intros Hl. breflect.
  rewrite !ascii_app, Hy, IH by done. done.
Qed.
Lemma items_ascii o :
  Forall (fun kv => json_ascii kv.2 = true → is_ascii (dumps_raw kv.2) = true) o →
  forallb (fun kv => is_ascii kv.1 && json_ascii kv.2) o = true → is_ascii (dumps_items o) = true.
Proof.
  induction 1 as [|kv o Hy _ IH]; [done|]. cbn [forallb dumps_items]. intros Hl. breflect.
  rewrite !ascii_app, dumps_str_ascii, Hy, IH by done. done.
Qed.
Lemma dumps_ascii j : json_ascii j = true → is_ascii (dumps_raw j) = true.
Proof.
  induction j as [|[]|z|s|l IH|o IH] using json_nested_ind; intros Hj; try done.
  - destruct (dumps_int_shape z) as (c & s & E & Hs & Hc). cbn [dumps_raw]. rewrite E.
    unfold is_ascii. cbn [str_all]. apply andb_true_iff. split; [|by apply digits_ascii].
    destruct Hc as [Hc| ->]; [|done].
    pose proof (digits_ascii (String c EmptyString)) as Hd. unfold is_ascii in Hd. simpl in Hd.
    rewrite Hc in Hd. specialize (Hd eq_refl). by breflect.
  - by apply dumps_str_ascii.
  - destruct IH as [|x l Hx IH]; [done|]. rewrite dumps_raw_arr, !ascii_app.
    cbn [json_ascii forallb] in Hj. breflect. rewrite Hx, tail_ascii by done. done.
  - destruct IH as [|kv o Hx IH]; [done|]. rewrite dumps_raw_obj, !ascii_app.
    cbn [json_ascii forallb] in Hj. breflect. rewrite dumps_str_ascii, Hx, items_ascii by done. done.
Qed.

Lemma identifier_ascii s : is_identifier s = true → is_ascii s = true.
Proof.
  unfold is_identifier, re_ident. destruct s as [|c s]; [done|]. intros Hs. breflect.
  assert (∀ c, is_ident_char c = true → (N_of_ascii c <? 128)%N = true) as Hc.
  { intros x. by destruct x as [[] [] [] [] [] [] [] []]. }
  unfold is_ascii. cbn [str_all]. rewrite Hc; [|by unfold is_ident_char; rewrite H].
  revert H1. by apply str_all_impl.
Qed.
Lemma pad_ascii n z : is_ascii (pad n z) = true.
Proof. apply digits_ascii, pad_digits. Qed.
Lemma timestamp_ascii t : is_ascii (timestamp t) = true.
Proof.
  unfold timestamp, isoformat_z. rewrite !ascii_app, !pad_ascii.
  destruct (microsecond _ =? 0); [done|]. by rewrite ascii_app, pad_ascii.
Qed.
Lemma b64_char_ascii n : (n < 64)%N → is_ascii (String (b64_char n) EmptyString) = true.
Proof.
  intros Hn. pose proof (b64_char_value n Hn) as Hv. revert Hv.
  by destruct (b64_char n) as [[] [] [] [] [] [] [] []].
Qed.
Lemma b64_ascii s : is_ascii (b64encode s) = true.
Proof.
  assert (∀ n r, (n < 64)%N → is_ascii r = true → is_ascii (String (b64_char n) r) = true) as Hc.
  { intros n r Hn Hr. pose proof (b64_char_ascii n Hn) as Hx. unfold is_ascii in *. cbn [str_all] in *.
    breflect. rewrite H. done. }
  induction s as [|a|a b|a b c s IH] using string_ind3; [done|..]; cbn [b64encode]; cbv zeta;
    [pose proof (byte_bound a)|pose proof (byte_bound a); pose proof (byte_bound b)
    |pose proof (byte_bound a); pose proof (byte_bound b); pose proof (byte_bound c)];
    repeat (apply Hc; [lia|]); done.
Qed.
