(* ===== verification/AuthorityProps.v ===== *)
(** * Properties of signed route authority *)

From S2P Require Import Prelude Json Digest PyTime PyClock Schema RouteRecords Router RouteRecordFacts RouteExamples RouteBinding RouteConsumption ConsumptionProofs RouteAuthority AuthorityProofs.
From Stdlib Require Import Ascii.

Section Claims.
Context `{FromIso} `{Crypto} `{Jsonschema} `{Ed25519}.

(** The bindings of a decision and a request, as the signer writes them. *)
Definition bound_items (decision request policy price plan : string) : list (string * json) :=
  [("routeDecisionDigest", JStr decision); ("routeRequestDigest", JStr request);
   ("policyDigest", JStr policy); ("priceCatalogDigest", JStr price);
   ("executionPlanDigest", JStr plan)].

Lemma bindings_inv decision request bound :
  bindings decision request = Ok bound →
  ∃ d rq plan, as_decision decision = Some d ∧ as_request request = Some rq ∧
    dc_execution_plan d = Some plan ∧
    record_digest decision = Ok (rm_digest (dc_meta d)) ∧
    record_digest request = Ok (rm_digest (rq_meta rq)) ∧
    is_digest (rm_digest (dc_meta d)) = true ∧ is_digest (rm_digest (rq_meta rq)) = true ∧
    bound = bound_items (rm_digest (dc_meta d)) (rm_digest (rq_meta rq)) (dc_policy_digest d)
              (dc_price_digest d) plan.
Proof.
  unfold bindings, validate_evidence. intros Hb.
  destruct (validate_routing_record decision) as [dd|] eqn:Ed; [|done].
  destruct (validate_routing_record request) as [rr|] eqn:Er; [|done].
  guard Hb as Ek. breflect.
  destruct (validate_inv _ _ Ed) as [-> (o & k & s & Ho & _ & _ & _ & _ & _ & Hm)].
  destruct (validate_inv _ _ Er) as [-> (o' & k' & s' & Ho' & _ & _ & _ & _ & _ & Hm')].
  destruct (validated_decision _ Ed H3) as (d & Edd & _ & _ & Hs).
  destruct (validated_request _ Er H4) as (rq & Err & _ & _ & Hs').
  rewrite Edd, Err in Hb. cbn [some_or] in Hb. destruct (dc_execution_plan d) as [plan|] eqn:Ep; [|done].
  guard Hb as E1. injection Hb as <-. exists d, rq, plan. subst decision request.
  unfold stated_digest in Hs, Hs'. rewrite Hm in Hs. rewrite Hm' in Hs'. injection Hs as <-. injection Hs' as <-.
  unfold record_digest. destruct (as_meta o) as [m|]; [|done]. destruct (as_meta o') as [m'|]; [|done].
  cbn [some_or]. cbn in Hm, Hm'. injection Hm as Hm. injection Hm' as Hm'. rewrite Hm, Hm'.
  split_and!; try done; apply semantic_digest_is_digest.
Qed.

(** The bindings and the envelope of a signed route, items sorted by key. *)
Definition sorted_bindings (decision request policy price plan : string) : list (string * json) :=
  [("executionPlanDigest", JStr plan); ("policyDigest", JStr policy);
   ("priceCatalogDigest", JStr price); ("routeDecisionDigest", JStr decision);
   ("routeRequestDigest", JStr request)].
Definition sorted_envelope (s : RouteAuthoritySigner) (eid issued expiry : string)
    (bound : list (string * json)) (value : string) : list (string * json) :=
  [("bindings", JObj bound); ("envelopeId", JStr eid); ("issuedAt", JStr issued);
   ("issuer", JObj [("id", JStr (sg_issuer_id s)); ("keyId", JStr (sg_key_id s))]);
   ("protocol", JStr ROUTE_AUTHORITY_PROTOCOL);
   ("signature", JObj [("algorithm", JStr "Ed25519"); ("value", JStr value)]);
   ("validUntil", JStr expiry)].

Lemma envelope_sorted s eid issued expiry dd rd policy price plan value :
  jnorm (JObj (envelope_body s eid issued expiry (bound_items dd rd policy price plan)
               ++ [signature_item value]))
  = JObj (sorted_envelope s eid (timestamp issued) (timestamp expiry)
            (sorted_bindings dd rd policy price plan) value).
Proof.
  unfold envelope_body. generalize (timestamp issued) (timestamp expiry). intros. reflexivity.
Qed.
Lemma body_sorted s eid issued expiry dd rd policy price plan value :
  jnorm (JObj (without "signature"
    (sorted_envelope s eid (timestamp issued) (timestamp expiry)
       (sorted_bindings dd rd policy price plan) value)))
  = jnorm (JObj (envelope_body s eid issued expiry (bound_items dd rd policy price plan))).
Proof.
  unfold envelope_body. generalize (timestamp issued) (timestamp expiry). intros. reflexivity.
Qed.
Lemma auth_bytes_jnorm o o' : jnorm (JObj o) = jnorm (JObj o') → auth_bytes o = auth_bytes o'.
Proof. intros E. unfold auth_bytes, canonical_json. cbn [jnorm map snd fst]. cbn [jnorm] in E. by rewrite E. Qed.

Lemma envelope_read s eid issued expiry dd rd policy price plan value :
  let E := envelope_body s eid issued expiry (bound_items dd rd policy price plan)
           ++ [signature_item value] in
  is_identifier eid = true → is_identifier (sg_issuer_id s) = true → is_identifier (sg_key_id s) = true →
  forallb is_ascii [dd; rd; policy; price; plan; value] = true →
  read_envelope (canonical_json (JObj E))
  = Ok (sorted_envelope s eid (timestamp issued) (timestamp expiry)
          (sorted_bindings dd rd policy price plan) value,
        sg_issuer_id s, sg_key_id s, sorted_bindings dd rd policy price plan, value).
Proof.
  intros E Hid His Hkey Ha. unfold read_envelope. rewrite ascii_utf8.
  - unfold E. rewrite json_loads_canonical by reflexivity. rewrite envelope_sorted.
    rewrite bool_decide_true by (rewrite <- envelope_sorted; apply canonical_json_jnorm).
    generalize (timestamp issued) (timestamp expiry). intros ti te. cbn [negb orb].
    change (keys_are envelope_names _) with true.
    change (jget "protocol" _) with (JStr ROUTE_AUTHORITY_PROTOCOL).
    change (jget "envelopeId" _) with (JStr eid).
    change (jget "issuer" _) with (JObj [("id", JStr (sg_issuer_id s)); ("keyId", JStr (sg_key_id s))]).
    change (jget "bindings" _) with (JObj (sorted_bindings dd rd policy price plan)).
    change (jget "signature" _) with (JObj [("algorithm", JStr "Ed25519"); ("value", JStr value)]).
    cbv beta iota. change (jget "id" _) with (JStr (sg_issuer_id s)).
    change (jget "keyId" _) with (JStr (sg_key_id s)). change (jget "value" _) with (JStr value).
    rewrite Hid, His, Hkey. reflexivity.
  - unfold canonical_json, E. rewrite envelope_sorted. apply dumps_ascii.
    pose proof (timestamp_ascii issued) as Hti. pose proof (timestamp_ascii expiry) as Hte.
    revert Hti Hte. generalize (timestamp issued) (timestamp expiry). intros ti te Hti Hte.
    apply identifier_ascii in Hid, His, Hkey. cbn [forallb] in Ha. breflect.
    unfold sorted_envelope, sorted_bindings. cbn [json_ascii forallb fst snd].
    repeat (apply andb_true_iff; split); done.
Qed.

Lemma bindings_equal dd rd policy price plan dd' rd' policy' price' plan' :
  py_eq (JObj (sorted_bindings dd rd policy price plan)) (JObj (bound_items dd' rd' policy' price' plan'))
    = true ↔
  dd = dd' ∧ rd = rd' ∧ policy = policy' ∧ price = price' ∧ plan = plan'.
Proof.
  split.
  - intros Hp. change (py_eq (JObj (sorted_bindings dd rd policy price plan))
      (JObj (bound_items dd' rd' policy' price' plan')))
      with ((plan == plan') && ((policy == policy') && ((price == price') && ((dd == dd')
            && ((rd == rd') && true))))) in Hp. by breflect.
  - intros (-> & -> & -> & -> & ->).
    change (JObj (sorted_bindings dd' rd' policy' price' plan'))
      with (jnorm (JObj (bound_items dd' rd' policy' price' plan'))).
    by apply py_eq_jnorm.
Qed.

Lemma authority_time_stamp t : in_range t = true → authority_time (JStr (timestamp t)) = Ok t.
Proof. intros Ht. unfold authority_time. rewrite read_timestamp by done. cbn. unfold utc_of. by rewrite Ht. Qed.
Lemma route_clock_range now t :
  route_clock now = Ok t → in_range t = true ∧ is_some (utcoffset now) = true.
Proof.
  unfold route_clock, astimezone_utc, utc_of. destruct (utcoffset now); [|done].
  destruct (in_range (instant now)) eqn:E; [|done]. by intros [= <-].
Qed.

Lemma sign_inv s decision request eid issued_at expires_at encoded :
  sign_route s decision request eid issued_at expires_at = Ok encoded →
  is_identifier eid = true ∧ ∃ issued expiry bound, route_clock issued_at = Ok issued ∧
    route_clock expires_at = Ok expiry ∧ issued < expiry ∧ bindings decision request = Ok bound ∧
    encoded = signed_envelope s eid issued expiry bound.
Proof.
  unfold sign_route. intros Hs. guard Hs as Eid. breflect. split; [done|].
  destruct (route_clock issued_at) as [issued|] eqn:Ei; [|done].
  rewrite authority_time_stamp in Hs by (eapply route_clock_range; done).
  destruct (route_clock expires_at) as [expiry|] eqn:Ee; [|done].
  rewrite authority_time_stamp in Hs by (eapply route_clock_range; done).
  guard Hs as Et. destruct (bindings decision request) as [bound|]; [|done]. injection Hs as <-.
  breflect. exists issued, expiry, bound. by split_and!.
Qed.

(** What the verifier does with a signed envelope. *)
Lemma verify_signed s eid issued expiry dd rd policy price plan pk decision request now :
  let encoded := signed_envelope s eid issued expiry (bound_items dd rd policy price plan) in
  is_identifier eid = true → is_identifier (sg_issuer_id s) = true → is_identifier (sg_key_id s) = true →
  forallb is_ascii [dd; rd; policy; price; plan] = true →
  String.length (sg_private_key s) = 32%nat → pk = ed_public (sg_private_key s) →
  in_range issued = true → in_range expiry = true → issued < expiry →
  verify_route_authority {| rav_encoded := encoded; rav_public_key := pk |} decision request now
  = (raise (RoutingError "ECO_ROUTE_CLOCK_INVALID") when (negb (is_some (utcoffset now))) else
     let! expected := bindings decision request in
     raise (RoutingError "ECO_ROUTE_AUTHORITY_MISMATCH") when
       (negb (py_eq (JObj (sorted_bindings dd rd policy price plan)) (JObj expected))) else
     let! current := route_clock now in
     let! limit := plus_micros current (300 * 1000000) in
     raise (RoutingError "ECO_ROUTE_AUTHORITY_EXPIRED") when
       ((issued >? limit) || (current >=? expiry)) else
     let a := {| au_issuer_id := sg_issuer_id s; au_key_id := sg_key_id s; au_algorithm := "ed25519";
                 au_evidence_digest := sha256_hex encoded; au_decision_digest := dd;
                 au_request_digest := rd; au_policy_digest := policy; au_price_digest := price;
                 au_plan_digest := plan; au_valid_until := timestamp expiry |} in
     let! _ := authority_validate a now in Ok a).
Proof.
  intros encoded Hid His Hkey Ha Hlen -> Hi He Hlt. unfold verify_route_authority.
  cbn [rav_encoded rav_public_key]. destruct (is_some (utcoffset now)); [|done]. cbn [negb].
  unfold encoded at 1, signed_envelope. cbv zeta.
  set (body := envelope_body s eid issued expiry _).
  unfold body at 1.
  rewrite envelope_read; [|done..|by cbn [forallb] in *; breflect; rewrite b64_ascii; repeat
    (apply andb_true_iff; split)].
  destruct (bindings decision request) as [expected|]; [|done].
  destruct (py_eq _ _); [|done]. cbn [negb].
  assert (signature_ok (ed_public (sg_private_key s))
    (b64encode (ed_sign (sg_private_key s) (auth_bytes body)))
    (without "signature" (sorted_envelope s eid (timestamp issued) (timestamp expiry)
       (sorted_bindings dd rd policy price plan)
       (b64encode (ed_sign (sg_private_key s) (auth_bytes body))))) = true) as ->.
  { unfold signature_ok. rewrite b64_roundtrip, bool_decide_true by done. cbn [andb].
    set (o := without _ _). assert (auth_bytes o = auth_bytes body) as -> by apply auth_bytes_jnorm, body_sorted.
    by apply ed_signed. }
  change (jget "issuedAt" _) with (JStr (timestamp issued)).
  change (jget "validUntil" _) with (JStr (timestamp expiry)).
  rewrite !authority_time_stamp by done.
  destruct (route_clock now) as [current|]; [|done].
  destruct (expiry <=? issued) eqn:E; [breflect; lia|]. reflexivity.
Qed.

Lemma new_signer_inv issuer key sk s :
  new_signer issuer key sk = Ok s →
  sg_issuer_id s = issuer ∧ sg_key_id s = key ∧ sg_private_key s = sk ∧
  is_identifier (sg_issuer_id s) = true ∧ is_identifier (sg_key_id s) = true ∧
  String.length (sg_private_key s) = 32%nat.
Proof.
  unfold new_signer. intros Hs. guard Hs as E. injection Hs as <-.
  rewrite !orb_false_iff, !negb_false_iff in E. destruct E as [[Hi Hk] Hl]. apply Nat.eqb_eq in Hl.
  by split_and!.
Qed.

Lemma attestation_valid a now current expiry :
  is_identifier (au_issuer_id a) = true → is_identifier (au_key_id a) = true →
  is_algorithm (au_algorithm a) = true → is_digest (au_evidence_digest a) = true →
  is_digest (au_decision_digest a) = true → is_digest (au_request_digest a) = true →
  is_digest (au_policy_digest a) = true → is_digest (au_price_digest a) = true →
  is_digest (au_plan_digest a) = true → au_valid_until a = timestamp expiry →
  in_range expiry = true → route_clock now = Ok current → current < expiry →
  authority_validate a now = Ok tt.
Proof.
  intros H1' H2' H3' H4' H5' H6' H7' H8' H9' Hu Re Hnow Hcur. unfold authority_validate. cbn [forallb].
  rewrite H1', H2', H3', H4', H5', H6', H7', H8', H9', Hnow, Hu, read_timestamp by done.
  cbn. unfold utc_of. rewrite Re. by replace (expiry <=? current) with false by lia.
Qed.

(** ** The claim *)

(** [C27] A signed envelope authorises exactly the route it was signed for.
    Within its window (five minutes of clock skew allowed before it), the verifier
    built from the envelope and the signer's public key satisfies the exact check
    of the consumption journal for that decision and request; and whenever it
    accepts a decision and a request, they have the digests of the signed ones
    and the clock is within the window. *)
Theorem signed_envelope_authorises_exactly issuer key sk s decision request eid issued_at expires_at
    encoded v d plan issued expiry :
  new_signer issuer key sk = Ok s →
  sign_route s decision request eid issued_at expires_at = Ok encoded →
  new_route_verifier encoded (ed_public sk) = Ok v →
  as_decision decision = Some d → dc_execution_plan d = Some plan →
  forallb is_digest [dc_policy_digest d; dc_price_digest d; plan] = true →
  route_clock issued_at = Ok issued → route_clock expires_at = Ok expiry →
  (∀ now current, route_clock now = Ok current →
     issued ≤ current + 300 * 1000000 → in_range (current + 300 * 1000000) = true → current < expiry →
     ∃ a, verify_authenticated_route_authority (authority_verifier v) decision request issuer key "ed25519"
            (dc_policy_digest d) (dc_price_digest d) plan now = Ok a) ∧
  (∀ decision' request' now a, verify_route_authority v decision' request' now = Ok a →
     record_digest decision' = record_digest decision ∧ record_digest request' = record_digest request ∧
     ∃ current, route_clock now = Ok current ∧ issued ≤ current + 300 * 1000000 ∧ current < expiry).
Proof.
  intros Hs Hsig Hv Hd Hplan Hdig Hi He. 
  destruct (new_signer_inv _ _ _ _ Hs) as (<- & <- & <- & Kiss & Kkey & Klen).
  destruct (sign_inv _ _ _ _ _ _ _ Hsig) as (Hid & i & e & bound & Hi' & He' & Hlt & Hb & ->).
  rewrite Hi in Hi'. injection Hi' as <-. rewrite He in He'. injection He' as <-.
  destruct (bindings_inv _ _ _ Hb) as (d' & rq & plan' & Hd' & Hrq & Hp' & Hdd & Hrd & Dd & Dr & ->).
  rewrite Hd in Hd'. injection Hd' as <-. rewrite Hplan in Hp'. injection Hp' as <-.
  unfold new_route_verifier in Hv. guard Hv as Elen. injection Hv as <-.
  destruct (route_clock_range _ _ Hi) as [Ri _]. destruct (route_clock_range _ _ He) as [Re _].
  cbn [forallb] in Hdig. rewrite !andb_true_iff in Hdig. destruct Hdig as (Dpo & Dpr & Dpl & _).
  assert (forallb is_ascii [rm_digest (dc_meta d); rm_digest (rq_meta rq); dc_policy_digest d;
                            dc_price_digest d; plan] = true) as Ha
    by (cbn [forallb]; by rewrite !digest_ascii).
  split.
  - intros now current Hnow Hskew Hrange Hcur. destruct (route_clock_range _ _ Hnow) as [_ Hoff].
    unfold verify_authenticated_route_authority, authority_verifier. cbv beta iota.
    rewrite verify_signed by done. rewrite Hoff, Hb, Hnow. cbn [negb].
    match goal with |- context [py_eq ?x ?y] => assert (py_eq x y = true) as -> end.
    { apply bindings_equal. repeat split. }
    cbn [negb].
    unfold plus_micros, utc_of. rewrite Hrange.
    replace ((issued >? current + 300 * 1000000) || (current >=? expiry)) with false
      by (symmetry; apply orb_false_iff; split; lia). cbv zeta.
    set (a := Build_VerifiedRouteAuthority _ _ _ _ _ _ _ _ _ _).
    assert (authority_validate a now = Ok tt) as Hval
      by exact (attestation_valid a now current expiry Kiss Kkey eq_refl (sha256_hex_digest _) Dd Dr Dpo
                  Dpr Dpl eq_refl Re Hnow Hcur).
    rewrite Hval. cbv beta iota. rewrite Hval, Hdd, Hrd. exists a.
    unfold a. cbn [au_issuer_id au_key_id au_algorithm au_evidence_digest
        au_decision_digest au_request_digest au_policy_digest au_price_digest au_plan_digest
        sg_issuer_id sg_key_id]. rewrite !bool_decide_true by reflexivity. reflexivity.
  - intros decision' request' now a Ha'. rewrite verify_signed in Ha' by done.
    guard Ha' as Eoff. destruct (bindings decision' request') as [exp|] eqn:Eb; [|done].
    destruct (bindings_inv _ _ _ Eb) as (d2 & rq2 & plan2 & _ & _ & _ & Hdd2 & Hrd2 & _ & _ & ->).
    guard Ha' as Eeq. breflect. apply bindings_equal in Eeq as (Ed & Er & _).
    rewrite Hdd2, Hrd2, <- Ed, <- Er, Hdd, Hrd. split; [done|]. split; [done|].
    destruct (route_clock now) as [current|] eqn:Enow; [|done]. unfold plus_micros, utc_of in Ha'.
    destruct (in_range (current + 300 * 1000000)); [|done]. guard Ha' as Eex.
    exists current. breflect. split_and!; [done|lia|lia].
Qed.
End Claims.

(** ** Witness *)

#[local] Existing Instance Checksum.crypto.
#[local] Existing Instance rfc3339_iso.
#[local] Existing Instance draft202012.

(** A scheme with the law of [Ed25519]: the key itself and a keyed checksum. *)
Program Definition keyed_checksum : Ed25519 :=
  {| ed_public := fun key => key; ed_sign := hmac_sha256_hex;
     ed_verify := fun key s m => s == hmac_sha256_hex key m |}.
Next Obligation. intros key m _. by apply bool_decide_eq_true. Qed.
#[local] Existing Instance keyed_checksum.

Definition operator_key : string := "0123456789abcdef0123456789abcdef".
Definition operator_signer : RouteAuthoritySigner :=
  {| sg_issuer_id := "operator"; sg_key_id := "key-7"; sg_private_key := operator_key |}.
Definition one_o_clock : datetime :=
  {| year := 2026; month := 6; day := 1; hour := 13; minute := 0; second := 0; microsecond := 0;
     utcoffset := Some 0 |}.
Definition example_envelope : string :=
  Eval vm_compute in
  match sign_route operator_signer example_decision request_doc "envelope-1" noon one_o_clock with
  | Ok text => text
  | Err _ => EmptyString
  end.
Definition example_route_verifier : RouteAuthorityVerifier :=
  {| rav_encoded := example_envelope; rav_public_key := operator_key |}.
Lemma example_signed :
  sign_route operator_signer example_decision request_doc "envelope-1" noon one_o_clock
  = Ok example_envelope.
Proof. vm_compute. reflexivity. Qed.
Lemma example_verifier_ok :
  new_route_verifier example_envelope (ed_public operator_key) = Ok example_route_verifier.
Proof. vm_compute. reflexivity. Qed.

Lemma signed_envelope_authorises_exactly_witness :
  ∃ d plan a, as_decision example_decision = Some d ∧ dc_execution_plan d = Some plan ∧
    verify_authenticated_route_authority (authority_verifier example_route_verifier) example_decision
      request_doc "operator" "key-7" "ed25519" (dc_policy_digest d) (dc_price_digest d) plan noon = Ok a.
Proof.
  destruct (as_decision example_decision) as [d|] eqn:Ed; [|vm_compute in Ed; discriminate Ed].
  destruct (dc_execution_plan d) as [plan|] eqn:Ep;
    [|vm_compute in Ed; injection Ed as <-; discriminate Ep].
  destruct (signed_envelope_authorises_exactly "operator" "key-7" operator_key operator_signer
    example_decision request_doc "envelope-1" noon one_o_clock example_envelope example_route_verifier
    d plan (instant noon) (instant one_o_clock) eq_refl example_signed example_verifier_ok Ed Ep)
    as [Hacc _].
  - vm_compute in Ed. injection Ed as <-. injection Ep as <-. vm_compute. reflexivity.
  - vm_compute. reflexivity.
  - vm_compute. reflexivity.
  - destruct (Hacc noon (instant noon)) as [a Ha].
    + vm_compute. reflexivity.
    + lia.
    + vm_compute. reflexivity.
    + vm_compute. reflexivity.
    + exists d, plan, a. split; [reflexivity|]. split; [exact Ep|exact Ha].
Defined.
