(* ===== verification/JsonCanon.v ===== *)
(** * Records that were stored and read back

    A record is stored as its canonical text; reading it back gives [jnorm], the
    same value with the items of every object in the order of their keys.  What
    the code reads from a record does not depend on that order: the readers, the
    validator and the digests give the same answers. *)

From S2P Require Import Prelude Json Digest Schema RouteRecords.

(** Values that can be the content of a JSON object. *)
Definition wf_items (o : list (string * json)) : Prop := json_wf (JObj o) = true.

Lemma wf_items_nodup o : wf_items o → NoDup o.*1.
Proof. unfold wf_items. cbn [json_wf]. intros Hw. by breflect. Qed.
Lemma wf_items_value k v o : wf_items o → jassoc k o = Some v → json_wf v = true.
Proof.
  unfold wf_items. cbn [json_wf]. intros Hw Hk. breflect. rewrite forallb_forall in H0.
  apply jassoc_elem, list_elem_of_In in Hk. by apply (H0 _ Hk).
Qed.
#[export] Hint Resolve wf_items_nodup wf_items_value : eco.

(** ** Readers *)

Lemma jnorm_obj o : jnorm (JObj o) = JObj (jnorm_items o).
Proof. done. Qed.

Lemma jassoc_jnorm k o : NoDup o.*1 → jassoc k (jnorm_items o) = jnorm <$> jassoc k o.
Proof.
  intros Hnd. assert ((map (fun kv => (kv.1, jnorm kv.2)) o).*1 = o.*1) as Hk.
  { clear. induction o; simpl; [done|]. by f_equal. }
  assert (NoDup (jnorm_items o).*1) as Hnd' by (unfold jnorm_items; by rewrite sorted_items_perm, Hk).
  destruct (jassoc k o) as [v|] eqn:E.
  - apply jassoc_elem in E. apply elem_jassoc; [done|]. unfold jnorm_items.
    rewrite sorted_items_perm. by apply (list_elem_of_fmap_2 (fun kv => (kv.1, jnorm kv.2))) in E.
  - destruct (jassoc k (jnorm_items o)) as [w|] eqn:E'; [|done].
    apply jassoc_elem in E'. unfold jnorm_items in E'. rewrite sorted_items_perm in E'.
    apply list_elem_of_fmap in E' as ([k' v'] & [= -> ->] & Hin).
    by rewrite (elem_jassoc _ _ _ Hnd Hin) in E.
Qed.

Section Readers.
Context (o : list (string * json)) (Ho : wf_items o).

Lemma str_at_jnorm k : str_at k (jnorm_items o) = str_at k o.
Proof using Ho.
  unfold str_at. rewrite jassoc_jnorm by auto with eco. by destruct (jassoc k o) as [[]|].
Qed.
Lemma int_at_jnorm k : int_at k (jnorm_items o) = int_at k o.
Proof using Ho.
  unfold int_at. rewrite jassoc_jnorm by auto with eco. by destruct (jassoc k o) as [[]|].
Qed.
Lemma bool_at_jnorm k : bool_at k (jnorm_items o) = bool_at k o.
Proof using Ho.
  unfold bool_at. rewrite jassoc_jnorm by auto with eco. by destruct (jassoc k o) as [[]|].
Qed.
Lemma obj_at_jnorm k : obj_at k (jnorm_items o) = jnorm_items <$> obj_at k o.
Proof using Ho.
  unfold obj_at. rewrite jassoc_jnorm by auto with eco. by destruct (jassoc k o) as [[]|].
Qed.
Lemma obj_at_wf k v : obj_at k o = Some v → wf_items v.
Proof using Ho.
  unfold obj_at. destruct (jassoc k o) as [[]|] eqn:E; try discriminate. intros [= <-].
  by apply (wf_items_value _ _ _ Ho E).
Qed.
Lemma as_strs_jnorm j : as_strs (jnorm j) = as_strs j.
Proof.
  destruct j; try done. simpl. induction l as [|x l IH]; simpl; [done|].
  rewrite IH. by destruct x.
Qed.
Lemma strs_at_jnorm k : strs_at k (jnorm_items o) = strs_at k o.
Proof using Ho.
  unfold strs_at. rewrite jassoc_jnorm by auto with eco.
  destruct (jassoc k o) as [v|]; [apply as_strs_jnorm|done].
Qed.
Lemma objs_at_jnorm k :
  objs_at k (jnorm_items o) = map jnorm_items <$> objs_at k o ∧
  (∀ l, objs_at k o = Some l → Forall wf_items l).
Proof using Ho.
  unfold objs_at. rewrite jassoc_jnorm by auto with eco.
  destruct (jassoc k o) as [[]|] eqn:E; try done.
  apply (wf_items_value _ _ _ Ho) in E. cbn [json_wf] in E. clear -E. cbn [jnorm fmap option_fmap option_map].
  induction l as [|x l IH]; cbn [mapM map]; [by split; [|intros ? [= <-]]|].
  cbn [forallb] in E. apply andb_true_iff in E as [Ex El]. destruct (IH El) as [IH1 IH2].
  rewrite IH1. clear IH IH1. destruct x; cbn [jnorm mbind option_bind]; try done.
  destruct (mapM _ l) as [vs|]; [|done]. cbn. split; [done|]. intros ? [= <-].
  constructor; [done|by apply IH2].
Qed.
Lemma opt_obj_at_jnorm {A} (f : list (string * json) → option A) k :
  (∀ v, wf_items v → f (jnorm_items v) = f v) →
  opt_obj_at f k (jnorm_items o) = opt_obj_at f k o.
Proof using Ho.
  intros Hf. unfold opt_obj_at. rewrite jassoc_jnorm by auto with eco.
  destruct (jassoc k o) as [[]|] eqn:E; try done. apply (wf_items_value _ _ _ Ho) in E.
  cbn [fmap option_fmap option_map jnorm]. fold (jnorm_items o0). by rewrite Hf.
Qed.
End Readers.

Lemma mapM_jnorm {A} (f : list (string * json) → option A) l :
  (∀ v, wf_items v → f (jnorm_items v) = f v) → Forall wf_items l →
  mapM f (map jnorm_items l) = mapM f l.
Proof.
  intros Hf. induction 1 as [|x l Hx _ IH]; cbn [mapM map]; [done|]. by rewrite Hf, IH.
Qed.

(** Read the same fields of a record and of its canonical form. *)
Ltac canon_step :=
  match goal with
  | |- context [str_at _ (jnorm_items ?o)] => rewrite (str_at_jnorm o) by assumption
  | |- context [int_at _ (jnorm_items ?o)] => rewrite (int_at_jnorm o) by assumption
  | |- context [bool_at _ (jnorm_items ?o)] => rewrite (bool_at_jnorm o) by assumption
  | |- context [strs_at _ (jnorm_items ?o)] => rewrite (strs_at_jnorm o) by assumption
  | Ho : wf_items ?o |- context [objs_at ?k (jnorm_items ?o)] =>
      let Hl := fresh "Hl" in
      destruct (objs_at_jnorm o Ho k) as [-> Hl];
      let E := fresh "E" in destruct (objs_at k o) as [?l|] eqn:E; [specialize (Hl _ eq_refl)|clear Hl]
  | Ho : wf_items ?o |- context [obj_at ?k (jnorm_items ?o)] =>
      rewrite (obj_at_jnorm o) by assumption;
      let E := fresh "E" in let v := fresh "v" in
      destruct (obj_at k o) as [v|] eqn:E; [apply (obj_at_wf o Ho) in E|]
  | |- context [opt_obj_at _ _ (jnorm_items ?o)] => rewrite (opt_obj_at_jnorm o) by auto with eco
  | |- context [mapM _ (map jnorm_items _)] => rewrite mapM_jnorm by auto with eco
  end.
Ltac canon := repeat (canon_step; cbn [mbind option_bind fmap option_fmap option_map]); try done.

(** ** The validator *)

Lemma jnorm_items_keys o : (jnorm_items o).*1 ≡ₚ o.*1.
Proof.
  unfold jnorm_items. rewrite sorted_items_perm.
  assert ((map (fun kv => (kv.1, jnorm kv.2)) o).*1 = o.*1) as ->; [|done].
  induction o; simpl; [done|]. by f_equal.
Qed.

Lemma forallb_ext {A} (p q : A → bool) l : (∀ x, p x = q x) → forallb p l = forallb q l.
Proof. intros Hpq. induction l; simpl; [done|]. by rewrite Hpq, IHl. Qed.
Lemma forallb_perm {A} (p : A → bool) l l' : l ≡ₚ l' → forallb p l = forallb p l'.
Proof. induction 1; simpl; try congruence. destruct (p x), (p y); done. Qed.

(** The schema a property name selects, as in [conforms]. *)
Definition property_conforms (props : list (string * schema)) (k : string) (v : json) : bool :=
  match prop_schema k props with Some s => conforms s v | None => false end.
Lemma conforms_obj_eq required props o :
  conforms (SObj required props) (JObj o) =
  bool_decide (NoDup o.*1) && forallb (fun k => k in? o.*1) required
  && forallb (fun kv => property_conforms props kv.1 kv.2) o.
Proof.
  cbn [conforms]. f_equal. apply forallb_ext. intros [k v]. unfold property_conforms. cbn [fst snd].
  induction props as [|[k' s] ps IH]; [done|]. cbn [prop_schema].
  destruct (k == k'); [done|]. apply IH.
Qed.

Lemma conforms_jnorm j : ∀ sc, json_wf j = true → conforms sc (jnorm j) = conforms sc j.
Proof.
  induction j as [| | | |l IH|o IH] using json_nested_ind; intros sc Hw; try done.
  - assert (∀ s, forallb (conforms s) (map jnorm l) = forallb (conforms s) l) as Hl.
    { intros t. cbn [json_wf] in Hw. clear sc. induction IH as [|x l Hx _ IHl]; [done|].
      cbn [forallb map] in *. apply andb_true_iff in Hw as [Hwx Hw]. by rewrite Hx, IHl. }
    induction sc as [| | | | | |s1 IHs1 s2 IHs2| | |minItems p| |]; try done.
    + change (xorb (conforms s1 (jnorm (JArr l))) (conforms s2 (jnorm (JArr l)))
              = xorb (conforms s1 (JArr l)) (conforms s2 (JArr l))). by rewrite IHs1, IHs2.
    + cbn [jnorm conforms]. by rewrite length_map, Hl.
    + cbn [jnorm conforms]. by rewrite length_map, Hl.
    + change (match as_strs (jnorm (JArr l)) with
              | Some vs => (minItems <=? length vs)%nat && bool_decide (NoDup vs) && forallb p vs
              | None => false end = conforms (SStrs minItems p) (JArr l)).
      by rewrite as_strs_jnorm.
  - induction sc as [| | | | | |s1 IHs1 s2 IHs2| | | |required props|]; try done.
    + change (xorb (conforms s1 (jnorm (JObj o))) (conforms s2 (jnorm (JObj o)))
              = xorb (conforms s1 (JObj o)) (conforms s2 (JObj o))). by rewrite IHs1, IHs2.
    + rewrite jnorm_obj, !conforms_obj_eq. cbn [json_wf] in Hw. breflect. f_equal; [f_equal|].
      * apply bool_decide_ext. by rewrite jnorm_items_keys.
      * apply forallb_ext. intros k. apply bool_decide_ext. by rewrite jnorm_items_keys.
      * unfold jnorm_items. rewrite (forallb_perm _ _ _ (sorted_items_perm _)).
        clear H. induction IH as [|kv o Hx _ IHo]; [done|]. cbn [forallb map fst snd] in *.
        apply andb_true_iff in H0 as [Hwx H0]. rewrite IHo by done. f_equal.
        unfold property_conforms. destruct (prop_schema kv.1 props); [by apply Hx|done].
Qed.

(** ** The digest of a record *)

Lemma jnorm_items_perm o o' :
  NoDup o.*1 → map (fun kv => (kv.1, jnorm kv.2)) o ≡ₚ map (fun kv => (kv.1, jnorm kv.2)) o' →
  jnorm_items o = jnorm_items o'.
Proof.
  intros Hnd Hp. unfold jnorm_items.
  assert ((map (fun kv => (kv.1, jnorm kv.2)) o).*1 = o.*1) as Hk.
  { clear. induction o; simpl; [done|]. by f_equal. }
  apply sorted_keys_unique; [by rewrite sorted_items_perm, Hk| |apply sorted_items_sorted..].
  by rewrite !sorted_items_perm.
Qed.

(** A dict is determined by its keys and what they map to. *)
Lemma jnorm_items_ext o o' :
  NoDup o.*1 → NoDup o'.*1 →
  (∀ k, jnorm <$> jassoc k o = jnorm <$> jassoc k o') → jnorm_items o = jnorm_items o'.
Proof.
  intros Hnd Hnd' Hk. apply jnorm_items_perm; [done|].
  assert (∀ o : list (string * json), (map (fun kv => (kv.1, jnorm kv.2)) o).*1 = o.*1) as Hkeys.
  { clear. intros o. induction o; simpl; [done|]. by f_equal. }
  assert (∀ o o' : list (string * json), NoDup o.*1 → (∀ k, jnorm <$> jassoc k o = jnorm <$> jassoc k o') →
            ∀ x, x ∈ map (fun kv => (kv.1, jnorm kv.2)) o → x ∈ map (fun kv => (kv.1, jnorm kv.2)) o')
    as Hsub.
  { clear. intros o o' Hnd Hk x Hx. apply list_elem_of_fmap in Hx as ([k v] & -> & Hin).
    specialize (Hk k).
    rewrite (elem_jassoc k o v Hnd Hin) in Hk. destruct (jassoc k o') as [w|] eqn:E; [|done].
    apply jassoc_elem in E. apply list_elem_of_fmap. exists (k, w). split; [|done].
    injection Hk as Hk. cbn [fst snd]. by rewrite Hk. }
  apply NoDup_Permutation.
  - apply (NoDup_fmap_1 fst). by rewrite Hkeys.
  - apply (NoDup_fmap_1 fst). by rewrite Hkeys.
  - intros x. split; apply Hsub; auto.
Qed.

Lemma jassoc_dict_set k k' v o :
  jassoc k (dict_set k' v o) = if k == k' then Some v else jassoc k o.
Proof.
  induction o as [|[k0 v0] o IH]; cbn [dict_set jassoc]; [done|].
  destruct (k' == k0) eqn:E; cbn [jassoc]; [|rewrite IH]; breflect; repeat case_bool_decide; congruence.
Qed.
Lemma dict_set_keys k v (o : list (string * json)) :
  (dict_set k v o).*1 = if k in? o.*1 then o.*1 else o.*1 ++ [k].
Proof.
  induction o as [|[k0 v0] o IH]; cbn [dict_set fmap list_fmap fst]; [done|].
  destruct (k == k0) eqn:E; cbn [fmap list_fmap fst]; [|rewrite IH]; breflect.
  - subst. rewrite bool_decide_true by left. done.
  - destruct (k in? o.*1) eqn:Ein; breflect.
    + rewrite bool_decide_true by (by right). done.
    + rewrite bool_decide_false; [done|]. by intros [->|?]%elem_of_cons.
Qed.
Lemma dict_set_nodup k v (o : list (string * json)) : NoDup o.*1 → NoDup (dict_set k v o).*1.
Proof.
  intros Hnd. rewrite dict_set_keys. case_bool_decide; [done|]. apply NoDup_app.
  split_and!; [done| |by apply NoDup_singleton]. by intros x Hx ->%list_elem_of_singleton.
Qed.
Lemma dict_del_cons k kv (o : list (string * json)) :
  dict_del k (kv :: o) = if kv.1 == k then dict_del k o else kv :: dict_del k o.
Proof.
  unfold dict_del. rewrite filter_cons. case_bool_decide; case_decide; try done.
Qed.
Lemma jassoc_dict_del k k' (o : list (string * json)) :
  jassoc k (dict_del k' o) = if k == k' then None else jassoc k o.
Proof.
  induction o as [|[k0 v0] o IH]; [by case_bool_decide|].
  rewrite dict_del_cons. cbn [fst]. destruct (k0 == k') eqn:E; cbn [jassoc]; rewrite IH; breflect;
    repeat case_bool_decide; congruence.
Qed.
Lemma dict_del_nodup k (o : list (string * json)) : NoDup o.*1 → NoDup (dict_del k o).*1.
Proof.
  induction o as [|[k0 v0] o IH]; [done|]. rewrite dict_del_cons. cbn [fmap list_fmap fst].
  intros [Hn Hnd]%NoDup_cons. case_bool_decide; [by apply IH|].
  cbn [fmap list_fmap fst]. apply NoDup_cons. split; [|by apply IH].
  intros (x & Ex & Hx)%list_elem_of_fmap. unfold dict_del in Hx.
  apply list_elem_of_filter in Hx as [_ Hx]. apply Hn. apply list_elem_of_fmap. by exists x.
Qed.

(** Without its digest, a record has the same canonical form either way. *)
Lemma undigested_jnorm o :
  wf_items o → jnorm_items (undigested (jnorm_items o)) = jnorm_items (undigested o).
Proof.
  intros Ho. unfold undigested.
  assert (NoDup (jnorm_items o).*1) as Hnd' by (rewrite jnorm_items_keys; auto with eco).
  rewrite jassoc_jnorm by auto with eco.
  destruct (jassoc "metadata" o) as [v|] eqn:E; cbn [fmap option_fmap option_map].
  2:{ apply jnorm_items_ext; [done|auto with eco|]. intros k. rewrite jassoc_jnorm by auto with eco.
      destruct (jassoc k o); [|done]. cbn. by rewrite jnorm_idem. }
  assert (json_wf v = true) as Hv by eauto with eco.
  assert (∀ o', (∀ k, jnorm <$> jassoc k o' = jnorm <$> jassoc k o) → NoDup o'.*1 →
            jnorm_items o' = jnorm_items o) as Hext.
  { intros o' Hk Hn. apply jnorm_items_ext; [done|auto with eco|done]. }
  assert (∀ k, jnorm <$> (jnorm <$> jassoc k o) = jnorm <$> jassoc k o) as Hidem.
  { intros k. destruct (jassoc k o); [|done]. cbn. by rewrite jnorm_idem. }
  cbn [fmap option_fmap option_map]. destruct v as [| | | | |md]; cbn [jnorm];
    try (apply Hext; [intros k; by rewrite jassoc_jnorm by auto with eco|done]).
  apply jnorm_items_ext; [by apply dict_set_nodup|apply dict_set_nodup; auto with eco|].
  intros k. rewrite !jassoc_dict_set. case_bool_decide; [|rewrite jassoc_jnorm by auto with eco; apply Hidem].
  cbn [fmap option_fmap option_map]. f_equal. fold (jnorm_items md). rewrite !jnorm_obj. f_equal.
  assert (wf_items md) as Hmd by done.
  assert (NoDup (jnorm_items md).*1) by (rewrite jnorm_items_keys; auto with eco).
  apply jnorm_items_ext; [by apply dict_del_nodup|apply dict_del_nodup; auto with eco|].
  intros k'. rewrite !jassoc_dict_del, jassoc_jnorm by auto with eco. case_bool_decide; [done|].
  destruct (jassoc k' md); [|done]. cbn. by rewrite jnorm_idem.
Qed.
