(* ===== verification/Flow.v ===== *)
(** * Flow projections, src/eco_flow/contracts.py and projector.py

    A projection is a record that shows a run as a list of nodes; it gives no
    authority.  [project_runtime_flow] projects the events of a run,
    [project_observed_flow] what a product reports of itself, and
    [replay_projection] reads an export back.  The events of a run are validated
    as RunEvent records: a record of another kind that the runtime contracts
    support has no sequence, and is refused here at once. *)

From S2P Require Import Prelude Json Digest PyTime PyClock Schema RunReducer RunEventChain RouteRecords Router.
From Stdlib Require Import Ascii.

Definition FLOW_API_VERSION := "flow.ai.ecosystem/v1alpha1".
Definition FLOW_CONTRACT_PROFILE := "flow-projection-v1alpha1".
Definition FLOW_RECORD_DOMAIN := "eco-flow-projection-v1alpha1".

(** ** flow-projection.schema.json *)

(** The pattern [^[A-Za-z0-9][A-Za-z0-9._:-]*$], and both lengths of an id or a code. *)
Definition is_flow_text (s : string) : bool :=
  match s with EmptyString => false | String c s' => is_alnum c && str_all is_ident_char s' end.
Definition flow_text (s : string) : bool :=
  (1 <=? py_len s)%nat && (py_len s <=? 128)%nat && search_pattern is_flow_text s.

Definition flow_statuses : list string :=
  ["pending"; "running"; "succeeded"; "incomplete"; "failed"; "denied"; "exhausted"; "cancelled"; "ambiguous"].
Definition flow_phases : list string :=
  ["admission"; "plan"; "policy"; "route"; "execute"; "retrieve"; "synthesize"; "verify"; "review"; "terminal"].

Section Schemas.
Context `{FromIso}.

(** [_is_date_time] *)
Definition _is_date_time (s : string) : bool := is_some (read_time s).

Definition flow_id : schema := SStr flow_text.
Definition flow_code : schema := SStr flow_text.
Definition flow_digest : schema := SStr (search_pattern is_digest).
Definition flow_timestamp : schema := SStr _is_date_time.
Definition subject_schema : schema :=
  SObj ["kind"; "id"; "digest"] [("kind", flow_code); ("id", flow_id); ("digest", SOneOf flow_digest SNull)].
Definition node_schema : schema :=
  SObj ["id"; "sequence"; "eventType"; "phase"; "status"; "occurredAt"; "reasonCode"; "subject"]
    [("id", flow_id); ("sequence", SInt 1); ("eventType", flow_code); ("phase", SEnum flow_phases);
     ("status", SEnum flow_statuses); ("occurredAt", SOneOf flow_timestamp SNull);
     ("reasonCode", SOneOf flow_code SNull); ("subject", subject_schema)].
Definition edge_schema : schema :=
  SObj ["id"; "from"; "to"; "type"]
    [("id", flow_id); ("from", flow_id); ("to", flow_id);
     ("type", SEnum ["next"; "caused-by"; "handoff"; "verified-by"; "reviewed-by"])].
Definition source_schema : schema :=
  SObj ["kind"; "trust"; "boundary"; "headDigest"]
    [("kind",
       SEnum ["runtime-run-events"; "orchestration-events"; "loop-events"; "team-state-events";
              "product-observation"]);
     ("trust", SEnum ["authenticated"; "validated"; "observed"]); ("boundary", flow_code);
     ("headDigest", SOneOf flow_digest SNull)].
Definition summary_schema : schema :=
  SObj ["nodeCount"; "edgeCount"; "failedNodeCount"; "deniedNodeCount"]
    [("nodeCount", SInt 0); ("edgeCount", SInt 0); ("failedNodeCount", SInt 0); ("deniedNodeCount", SInt 0)].
Definition flow_metadata_schema : schema :=
  SObj ["id"; "projectId"; "runId"; "recordDigest"]
    [("id", flow_id); ("projectId", flow_id); ("runId", flow_id); ("recordDigest", flow_digest)].
Definition flow_spec_schema : schema :=
  SObj ["profile"; "source"; "status"; "nodes"; "edges"; "summary"]
    [("profile", SEnum [FLOW_CONTRACT_PROFILE]); ("source", source_schema); ("status", SEnum flow_statuses);
     ("nodes", SArr 0 10000 node_schema); ("edges", SArr 0 20000 edge_schema); ("summary", summary_schema)].
Definition flow_schema : schema :=
  SObj ["apiVersion"; "kind"; "metadata"; "spec"]
    [("apiVersion", SEnum [FLOW_API_VERSION]); ("kind", SEnum ["FlowProjection"]);
     ("metadata", flow_metadata_schema); ("spec", flow_spec_schema)].
End Schemas.

(** ** The fields the contract reads *)

Record flow_node : Type := { fn_id : string; fn_sequence : Z; fn_status : string }.
Definition as_node (o : list (string * json)) : option flow_node :=
  i ← str_at "id" o; n ← int_at "sequence" o; s ← str_at "status" o;
  Some {| fn_id := i; fn_sequence := n; fn_status := s |}.
Record flow_edge : Type := { fe_id : string; fe_from : string; fe_to : string }.
Definition as_edge (o : list (string * json)) : option flow_edge :=
  i ← str_at "id" o; f ← str_at "from" o; t ← str_at "to" o;
  Some {| fe_id := i; fe_from := f; fe_to := t |}.
Record flow_counts : Type := { fc_nodes : Z; fc_edges : Z; fc_failed : Z; fc_denied : Z }.
#[export] Instance flow_counts_eq_dec : EqDecision flow_counts.
Proof. solve_decision. Defined.
Definition as_counts (o : list (string * json)) : option flow_counts :=
  n ← int_at "nodeCount" o; e ← int_at "edgeCount" o; f ← int_at "failedNodeCount" o;
  d ← int_at "deniedNodeCount" o; Some {| fc_nodes := n; fc_edges := e; fc_failed := f; fc_denied := d |}.
Record flow_projection : Type := {
  fp_digest : string; fp_nodes : list flow_node; fp_edges : list flow_edge; fp_summary : flow_counts;
}.
Definition as_flow (o : list (string * json)) : option flow_projection :=
  m ← obj_at "metadata" o; d ← str_at "recordDigest" m; sp ← obj_at "spec" o;
  ns ← objs_at "nodes" sp; nodes ← mapM as_node ns; es ← objs_at "edges" sp; edges ← mapM as_edge es;
  su ← obj_at "summary" sp; su ← as_counts su;
  Some {| fp_digest := d; fp_nodes := nodes; fp_edges := edges; fp_summary := su |}.

(** [sum(node["status"] == s for node in nodes)] *)
Definition count_status (s : string) (l : list flow_node) : Z :=
  Z.of_nat (length (List.filter (fun n => fn_status n == s) l)).
(** [list(range(1, n + 1))] *)
Definition one_to (n : nat) : list Z := map Z.of_nat (seq 1 n).
Definition summary_of (nodes : list flow_node) (edges : list flow_edge) : flow_counts :=
  {| fc_nodes := Z.of_nat (length nodes); fc_edges := Z.of_nat (length edges);
     fc_failed := count_status "failed" nodes; fc_denied := count_status "denied" nodes |}.

Section Contract.
Context `{FromIso} `{Crypto} `{Jsonschema}.

Definition flow_projection_digest (record : list (string * json)) : string :=
  let candidate := undigested record in
  semantic_digest
    (JObj [("domain", JStr FLOW_RECORD_DOMAIN); ("profile", JStr FLOW_CONTRACT_PROFILE);
           ("record", JObj candidate)]).

(** The part of [flow_contract_errors] after the schema. *)
Definition flow_ok (p : flow_projection) (record : list (string * json)) : bool :=
  let ids := map fn_id (fp_nodes p) in
  bool_decide (NoDup ids) && (map fn_sequence (fp_nodes p) == one_to (length (fp_nodes p)))
  && bool_decide (NoDup (map fe_id (fp_edges p)))
  && forallb (fun e => (fe_from e in? ids) && (fe_to e in? ids)) (fp_edges p)
  && (fp_summary p == summary_of (fp_nodes p) (fp_edges p))
  && (fp_digest p == flow_projection_digest record).

Definition validate_flow_projection (record : json) : result json :=
  match record with
  | JObj o =>
      raise FlowContractError when (negb (is_valid flow_schema record)) else
      let! p := some_or KeyError (as_flow o) in
      raise FlowContractError when (negb (flow_ok p o)) else Ok record
  | _ => Err FlowContractError
  end.

(** What [replay_projection] is given; bytes that are not UTF-8 are [PBytes None]. *)
Inductive flow_payload : Type :=
| PBytes (text : option string)
| PText (text : string)
| PMapping (o : list (string * json))
| POther.                                           (* dict(payload) raises *)
Definition replay_projection (payload : flow_payload) : result json :=
  let candidate :=
    match payload with
    | PBytes text => text ≫= json_loads
    | PText text => json_loads text
    | PMapping o => Some (JObj o)
    | POther => None
    end in
  match candidate with
  | None => Err FlowContractError
  | Some record => validate_flow_projection record
  end.

(** ** The projector *)

(** One event, as a dictionary [_projection] takes; [ObservedFlowEvent] and its
    [record()] are the same fields. *)
Record ObservedFlowEvent : Type := {
  oe_type : string; oe_phase : string; oe_status : string; oe_kind : string; oe_id : string;
  oe_occurred_at : option string; oe_reason : option string; oe_digest : option string;
}.
Definition subject_json (e : ObservedFlowEvent) : json :=
  JObj [("kind", JStr (oe_kind e)); ("id", JStr (oe_id e)); ("digest", json_of_optstr (oe_digest e))].
Definition event_record (e : ObservedFlowEvent) : list (string * json) :=
  [("eventType", JStr (oe_type e)); ("phase", JStr (oe_phase e)); ("status", JStr (oe_status e));
   ("subject", subject_json e); ("occurredAt", json_of_optstr (oe_occurred_at e));
   ("reasonCode", json_of_optstr (oe_reason e))].

(** [enumerate(events, 1)] *)
Definition enumerate {A} (l : list A) : list (nat * A) := zip (seq 1 (length l)) l.
(** [f"node-{sequence:06d}"], of a sequence below a million: a projection has at
    most 10000 nodes. *)
Definition numbered (prefix : string) (sequence : nat) : string := prefix +:+ pad 6 (Z.of_nat sequence).
Definition node_json (sequence : nat) (e : ObservedFlowEvent) : json :=
  JObj (("id", JStr (numbered "node-" sequence)) :: ("sequence", JInt (Z.of_nat sequence)) :: event_record e).
Definition edge_json (sequence : nat) : json :=
  JObj [("id", JStr (numbered "edge-" sequence)); ("from", JStr (numbered "node-" sequence));
        ("to", JStr (numbered "node-" (S sequence))); ("type", JStr "next")].

Definition flow_metadata (project_id run_id digest : string) : json :=
  JObj [("id", JStr ("flow:" +:+ run_id)); ("projectId", JStr project_id); ("runId", JStr run_id);
        ("recordDigest", JStr digest)].
Record flow_source : Type := {
  so_kind : string; so_trust : string; so_boundary : string; so_head : option string;
}.
Definition source_json (s : flow_source) : json :=
  JObj [("kind", JStr (so_kind s)); ("trust", JStr (so_trust s)); ("boundary", JStr (so_boundary s));
        ("headDigest", json_of_optstr (so_head s))].
Definition count_events (s : string) (events : list ObservedFlowEvent) : Z :=
  Z.of_nat (length (List.filter (fun e => oe_status e == s) events)).
Definition flow_spec (source : flow_source) (status : string) (events : list ObservedFlowEvent) : json :=
  let n := length events in
  JObj [("profile", JStr FLOW_CONTRACT_PROFILE); ("source", source_json source); ("status", JStr status);
        ("nodes", JArr (map (fun ie => node_json ie.1 ie.2) (enumerate events)));
        ("edges", JArr (map edge_json (seq 1 (n - 1))));
        ("summary",
          JObj [("nodeCount", JInt (Z.of_nat n)); ("edgeCount", JInt (Z.of_nat (n - 1)));
                ("failedNodeCount", JInt (count_events "failed" events));
                ("deniedNodeCount", JInt (count_events "denied" events))])].
Definition flow_record (project_id run_id digest : string) (spec : json) : list (string * json) :=
  [("apiVersion", JStr FLOW_API_VERSION); ("kind", JStr "FlowProjection");
   ("metadata", flow_metadata project_id run_id digest); ("spec", spec)].
Definition zero_digest : string := "0000000000000000000000000000000000000000000000000000000000000000".

Definition _projection (project_id run_id : string) (source : flow_source) (status : string)
    (events : list ObservedFlowEvent) : result json :=
  let spec := flow_spec source status events in
  let digest := flow_projection_digest (flow_record project_id run_id zero_digest spec) in
  validate_flow_projection (JObj (flow_record project_id run_id digest spec)).

Definition project_observed_flow (project_id run_id boundary status : string)
    (events : list ObservedFlowEvent) : result json :=
  _projection project_id run_id
    {| so_kind := "product-observation"; so_trust := "observed"; so_boundary := boundary; so_head := None |}
    status events.

(** ** Runtime events *)

Definition _OUTCOME_STATUS : list (string * string) :=
  [("success", "succeeded"); ("denied", "denied"); ("failed", "failed"); ("exhausted", "exhausted");
   ("cancelled", "cancelled")].
Definition _TERMINAL_EVENT_TYPES : list string :=
  ["policy.denied"; "no-model.policy.denied"; "no-model.workflow.succeeded"; "run.succeeded"; "run.failed";
   "run.cancelled"; "run.exhausted"].

(** [event_type.rsplit(".", 1)[-1]] *)
Fixpoint last_part (acc s : string) : string :=
  match s with
  | EmptyString => acc
  | String c s' => if c == "."%char then last_part s' s' else last_part acc s'
  end.
Definition event_phase (event_type : string) : string :=
  let suffix := last_part event_type event_type in
  if startswith event_type "policy." || startswith event_type "no-model.policy." then "policy"
  else if startswith event_type "tool." || startswith event_type "adapter."
          || startswith event_type "no-model.read." then "execute"
  else if startswith event_type "no-model.workflow." then
    if suffix == "started" then "execute" else "terminal"
  else if event_type == "plan.created" then "plan"
  else if event_type in? _TERMINAL_EVENT_TYPES then "terminal"
  else "admission".
Definition event_status (event_type outcome : string) : result string :=
  if (outcome == "pending") && (last_part event_type event_type == "started") then Ok "running"
  else if outcome == "pending" then Ok "pending"
  else some_or KeyError (assoc outcome _OUTCOME_STATUS).

(** [spec.get(k)], of a text that may be absent. *)
Definition opt_text (k : string) (o : list (string * json)) : option string :=
  match jassoc k o with Some (JStr s) => Some s | _ => None end.
(** [subject_id], an empty one being falsy. *)
Definition event_subject (e : EventView) : option string :=
  match opt_text "subjectId" (ev_spec e) with Some EmptyString => None | x => x end.
Definition project_event (e : EventView) : result ObservedFlowEvent :=
  let! status := event_status (ev_type e) (ev_outcome e) in
  let subject_id := event_subject e in
  Ok {| oe_type := ev_type e; oe_phase := event_phase (ev_type e); oe_status := status;
        oe_kind := if is_some subject_id then "RunEventSubject" else "RunEvent";
        oe_id := default (ev_id e) subject_id; oe_occurred_at := Some (ev_time e);
        oe_reason := opt_text "reasonCode" (ev_spec e);
        oe_digest := opt_text "subjectDigest" (ev_spec e) |}.

(** [validate_record] on one event, read. *)
Definition flow_event (event : json) : result EventView :=
  raise ContractValidationError when (negb (is_valid run_event_schema event)) else
  some_or KeyError (view event).
(** The loop over the links; [previous] is [previous_digest]. *)
Fixpoint linked (previous : option string) (l : list (json * EventView)) : bool :=
  match l with
  | [] => true
  | (event, e) :: l' => (ev_previous e == previous) && linked (Some (semantic_digest event)) l'
  end.

Definition project_runtime_flow (project_id : string) (events : list json) (authenticated : bool)
  : result json :=
  let! views := map_result flow_event events in
  match views, last (zip events views) with
  | first :: _, Some (last_event, last_view) =>
      let run_id := ev_run first in
      raise ValueError when (existsb (fun e => ev_run e != run_id) views) else
      raise ValueError when (map ev_sequence views != one_to (length views)) else
      raise ValueError when (negb (linked None (zip events views))) else
      let! projected := map_result project_event views in
      let terminal_status := default EmptyString (oe_status <$> last projected) in
      _projection project_id run_id
        {| so_kind := "runtime-run-events";
           so_trust := if authenticated then "authenticated" else "validated";
           so_boundary := if authenticated then "external-journal-authenticated"
                          else "schema-validated-not-authenticated";
           so_head := Some (semantic_digest last_event) |}
        (if ev_type last_view in? _TERMINAL_EVENT_TYPES then terminal_status else "running")
        projected
  | _, _ => Err ValueError
  end.
End Contract.
