(* ===== verification/FlowProofs.v ===== *)
(** * Facts about flow projections

    Which projections the contract accepts, what the projector writes, and that a
    projection that was exported reads back. *)

From S2P Require Import Prelude Json Digest PyTime PyClock Schema RunReducer RunMachine RunEventChain ChainProps RouteRecords Router RouteRecordFacts RouterProofs RouterOutput JsonCanon Flow.
From Stdlib Require Import Ascii.

(** ** Numbered identifiers *)

Lemma digit_char_text d :
  0 ≤ d < 10 → is_continuation (digit_char d) = false ∧ is_ident_char (digit_char d) = true.
Proof.
  intros Hd.
  assert (d = 0 ∨ d = 1 ∨ d = 2 ∨ d = 3 ∨ d = 4 ∨ d = 5 ∨ d = 6 ∨ d = 7 ∨ d = 8 ∨ d = 9) as Hc by lia.
  by repeat destruct Hc as [->|Hc]; subst.
Qed.
Lemma pad_text n z : str_all is_ident_char (pad n z) = true ∧ py_len (pad n z) = n.
Proof.
  induction n as [|n [IH1 IH2]]; [done|]. cbn [pad str_all py_len].
  destruct (digit_char_text ((z / 10 ^ Z.of_nat n) mod 10)) as [-> ->]; [apply Z.mod_pos_bound; lia|].
  by rewrite IH1, IH2.
Qed.
Lemma numbered_text p k : p ∈ ["node-"; "edge-"] → flow_text (numbered p k) = true.
Proof.
  intros Hp. destruct (pad_text 6 (Z.of_nat k)) as [E1 E2]. unfold flow_text, numbered.
  apply elem_of_cons in Hp as [->|[->|[]%elem_of_nil]%elem_of_cons].
  all: cbn [String.append]; generalize dependent (pad 6 (Z.of_nat k)); intros s E1 E2.
  all: apply andb_true_iff; split; [|apply search_intro; cbn [is_flow_text str_all]; by rewrite E1].
  all: cbn [py_len]; rewrite E2; vm_compute; reflexivity.
Qed.

Lemma pad_inj n a b :
  0 ≤ a < 10 ^ Z.of_nat n → 0 ≤ b < 10 ^ Z.of_nat n → pad n a = pad n b → a = b.
Proof.
  intros Ha Hb E. pose proof (read_pad n a EmptyString Ha) as Ra.
  pose proof (read_pad n b EmptyString Hb) as Rb. rewrite E, Rb in Ra. by injection Ra.
Qed.
Lemma str_app_inj_l p x y : p +:+ x = p +:+ y → x = y.
Proof. induction p as [|c p IH]; cbn [String.append]; [done|]. intros [= E]. auto. Qed.

(** Few enough for six digits. *)
Definition few (n : nat) : Prop := Z.of_nat n < 1000000.
Lemma numbered_inj p a b : few a → few b → numbered p a = numbered p b → a = b.
Proof.
  unfold few, numbered. intros Ha Hb E%str_app_inj_l%pad_inj; [|lia..]. lia.
Qed.
Lemma numbered_nodup p n : few n → NoDup (map (numbered p) (seq 1 n)).
Proof.
  intros Hn. change (map (numbered p) (seq 1 n)) with (numbered p <$> seq 1 n).
  apply NoDup_fmap_2_strong; [|apply NoDup_seq].
  intros a b Ha%elem_of_seq Hb%elem_of_seq. apply numbered_inj; unfold few in *; lia.
Qed.

(** ** Reading a written projection *)

Lemma enumerate_fst {A} (l : list A) : map fst (enumerate l) = seq 1 (length l).
Proof.
  unfold enumerate. change (map fst ?x) with (x.*1). apply fst_zip. by rewrite length_seq.
Qed.
Lemma enumerate_snd {A} (l : list A) : map snd (enumerate l) = l.
Proof.
  unfold enumerate. change (map snd ?x) with (x.*2). apply snd_zip. by rewrite length_seq.
Qed.
Lemma enumerate_length {A} (l : list A) : length (enumerate l) = length l.
Proof. unfold enumerate. rewrite length_zip, length_seq. lia. Qed.
Lemma enumerate_elem {A} (l : list A) i x : (i, x) ∈ enumerate l → (1 ≤ i ≤ length l)%nat ∧ x ∈ l.
Proof.
  intros Hx. split.
  - apply (list_elem_of_fmap_2 fst) in Hx. change (fst <$> ?l) with (map fst l) in Hx.
    rewrite enumerate_fst in Hx. apply elem_of_seq in Hx. cbn in Hx. lia.
  - apply (list_elem_of_fmap_2 snd) in Hx. change (snd <$> ?l) with (map snd l) in Hx.
    by rewrite enumerate_snd in Hx.
Qed.

Definition node_of (ie : nat * ObservedFlowEvent) : flow_node :=
  {| fn_id := numbered "node-" ie.1; fn_sequence := Z.of_nat ie.1; fn_status := oe_status ie.2 |}.
Definition edge_of (k : nat) : flow_edge :=
  {| fe_id := numbered "edge-" k; fe_from := numbered "node-" k; fe_to := numbered "node-" (S k) |}.
Definition written_counts (events : list ObservedFlowEvent) : flow_counts :=
  {| fc_nodes := Z.of_nat (length events); fc_edges := Z.of_nat (length events - 1);
     fc_failed := count_events "failed" events; fc_denied := count_events "denied" events |}.

Lemma objs_read {A B} (f : A → list (string * json)) (g : list (string * json) → option B) (h : A → B) l :
  (∀ x, g (f x) = Some (h x)) →
  mapM (fun x => match x with JObj o => Some o | _ => None end) (map (fun x => JObj (f x)) l)
  = Some (map f l) ∧ mapM g (map f l) = Some (map h l).
Proof.
  intros Hg. induction l as [|x l [IH1 IH2]]; [done|]. cbn [map mapM].
  rewrite IH1, IH2, Hg. done.
Qed.

Lemma as_flow_written pid rid digest source status events :
  as_flow (flow_record pid rid digest (flow_spec source status events))
  = Some {| fp_digest := digest; fp_nodes := map node_of (enumerate events);
            fp_edges := map edge_of (seq 1 (length events - 1)); fp_summary := written_counts events |}.
Proof.
  unfold as_flow. change (obj_at "metadata" _) with (Some [("id", JStr ("flow:" +:+ rid));
    ("projectId", JStr pid); ("runId", JStr rid); ("recordDigest", JStr digest)]).
  cbn [mbind option_bind]. change (str_at "recordDigest" _) with (Some digest). cbn [mbind option_bind].
  unfold flow_record, flow_spec. change (obj_at "spec" ?x) with (match jassoc "spec" x with Some (JObj o) => Some o | _ => None end).
  cbn [jassoc]. rewrite !bool_decide_false by done. rewrite bool_decide_true by done.
  cbn [mbind option_bind].
  set (ns := map _ (enumerate events)). set (es := map edge_json _).
  change (objs_at "nodes" _) with (mapM (fun x => match x with JObj o => Some o | _ => None end) ns).
  change (objs_at "edges" _) with (mapM (fun x => match x with JObj o => Some o | _ => None end) es).
  change (obj_at "summary" _) with
    (Some [("nodeCount", JInt (Z.of_nat (length events)));
           ("edgeCount", JInt (Z.of_nat (length events - 1)));
           ("failedNodeCount", JInt (count_events "failed" events));
           ("deniedNodeCount", JInt (count_events "denied" events))]).
  unfold ns, es, node_json, edge_json.
  destruct (objs_read (fun ie : nat * ObservedFlowEvent => ("id", JStr (numbered "node-" ie.1)) ::
    ("sequence", JInt (Z.of_nat ie.1)) :: event_record ie.2) as_node node_of (enumerate events)) as [E1 E2];
    [done|].
  rewrite E1. cbn [mbind option_bind]. rewrite E2. cbn [mbind option_bind].
  destruct (objs_read (fun k => [("id", JStr (numbered "edge-" k)); ("from", JStr (numbered "node-" k));
    ("to", JStr (numbered "node-" (S k))); ("type", JStr "next")]) as_edge edge_of
    (seq 1 (length events - 1))) as [E3 E4]; [done|].
  rewrite E3. cbn [mbind option_bind]. rewrite E4. reflexivity.
Qed.

(** The contract's own checks hold of what the projector writes. *)
Section Written.
Context `{FromIso} `{Crypto} `{Jsonschema}.

Lemma digest_of_written pid rid d d' spec :
  flow_projection_digest (flow_record pid rid d spec) = flow_projection_digest (flow_record pid rid d' spec).
Proof. reflexivity. Qed.

Lemma count_nodes st (l : list (nat * ObservedFlowEvent)) :
  count_status st (map node_of l) = count_events st (map snd l).
Proof.
  unfold count_status, count_events. f_equal.
  induction l as [|x l IH]; [done|]. cbn [map List.filter fn_status node_of snd].
  destruct (oe_status x.2 == st); cbn [length]; by rewrite IH.
Qed.

Lemma flow_ok_written pid rid source status events :
  few (length events) →
  let spec := flow_spec source status events in
  let d := flow_projection_digest (flow_record pid rid zero_digest spec) in
  flow_ok {| fp_digest := d; fp_nodes := map node_of (enumerate events);
             fp_edges := map edge_of (seq 1 (length events - 1)); fp_summary := written_counts events |}
    (flow_record pid rid d spec) = true.
Proof.
  intros Hfew spec d. unfold flow_ok. cbn [fp_nodes fp_edges fp_summary fp_digest].
  assert (map fn_id (map node_of (enumerate events)) = map (numbered "node-") (seq 1 (length events))) as ->.
  { rewrite map_map. cbn [fn_id node_of]. by rewrite <- enumerate_fst, map_map. }
  assert (map fe_id (map edge_of (seq 1 (length events - 1)))
          = map (numbered "edge-") (seq 1 (length events - 1))) as -> by (by rewrite map_map).
  assert (map fn_sequence (map node_of (enumerate events)) = one_to (length events)) as ->.
  { rewrite map_map. cbn [fn_sequence node_of]. unfold one_to. by rewrite <- enumerate_fst, map_map. }
  rewrite length_map, enumerate_length.
  repeat (apply andb_true_iff; split); try (apply bool_decide_eq_true).
  - by apply numbered_nodup.
  - done.
  - apply numbered_nodup. unfold few in *. lia.
  - apply forallb_forall. intros e (k & <- & Hk)%in_map_iff. apply in_seq in Hk.
    apply andb_true_iff. split; apply bool_decide_eq_true, list_elem_of_In, in_map_iff;
      eexists; (split; [reflexivity|]); apply in_seq; lia.
  - unfold written_counts, summary_of. rewrite !length_map, enumerate_length, length_seq.
    by rewrite !count_nodes, enumerate_snd.
  - apply digest_of_written.
Qed.

(** ** What fits in a projection *)

Record event_fits (e : ObservedFlowEvent) : Prop := {
  ef_type : flow_text (oe_type e) = true; ef_phase : oe_phase e ∈ flow_phases;
  ef_status : oe_status e ∈ flow_statuses; ef_kind : flow_text (oe_kind e) = true;
  ef_id : flow_text (oe_id e) = true;
  ef_time : ∀ t, oe_occurred_at e = Some t → _is_date_time t = true;
  ef_reason : ∀ c, oe_reason e = Some c → flow_text c = true;
  ef_digest : ∀ d, oe_digest e = Some d → search_pattern is_digest d = true;
}.
Record projection_fits (pid rid : string) (so : flow_source) (status : string)
    (events : list ObservedFlowEvent) : Prop := {
  pf_id : flow_text ("flow:" +:+ rid) = true; pf_project : flow_text pid = true;
  pf_run : flow_text rid = true;
  pf_kind : so_kind so ∈ ["runtime-run-events"; "orchestration-events"; "loop-events"; "team-state-events";
                          "product-observation"];
  pf_trust : so_trust so ∈ ["authenticated"; "validated"; "observed"];
  pf_boundary : flow_text (so_boundary so) = true;
  pf_head : ∀ d, so_head so = Some d → search_pattern is_digest d = true;
  pf_status : status ∈ flow_statuses; pf_few : (length events ≤ 10000)%nat;
  pf_events : Forall event_fits events;
}.

Lemma conforms_optional_text p o :
  conforms (SOneOf (SStr p) SNull) (json_of_optstr o) = true ↔ ∀ x, o = Some x → p x = true.
Proof.
  destruct o as [x|]; cbn [json_of_optstr conforms]; [|by split].
  rewrite xorb_false_r. split; [by intros ? ? [= <-]|auto].
Qed.

(** [item H k Hx]: what [Hx] says of the key [k] of a written object that conforms. *)
Lemma conforms_item req ps o (Ho : conforms (SObj req ps) (JObj o) = true) k :
  ∀ s, k ∈ req → prop_schema k ps = Some s → ∃ v, jassoc k o = Some v ∧ conforms s v = true.
Proof. intros s. by apply conforms_required. Qed.
Ltac item Ho k Hx :=
  let x := fresh "x" in let E := fresh "E" in
  edestruct (conforms_item _ _ _ Ho k) as (x & E & Hx); [member|reflexivity|];
  match type of E with
  | ?l = _ => let l' := eval hnf in l in change (l' = Some x) in E; injection E as <-
  end.

Lemma conforms_elem l x : conforms (SEnum l) (JStr x) = true ↔ x ∈ l.
Proof. cbn [conforms]. apply bool_decide_eq_true. Qed.

Lemma node_conforms i e : (1 ≤ i)%nat → conforms node_schema (node_json i e) = true ↔ event_fits e.
Proof.
  intros Hi. unfold node_schema, node_json, subject_schema, flow_timestamp, flow_code, flow_id, flow_digest. split.
  - intros Ho. item Ho "eventType" Ht. item Ho "phase" Hp. item Ho "status" Hs.
    item Ho "occurredAt" Ho'. item Ho "reasonCode" Hr. item Ho "subject" Hj.
    item Hj "kind" Hk. item Hj "id" Hid. item Hj "digest" Hd.
    rewrite conforms_optional_text in Ho', Hr, Hd. rewrite conforms_elem in Hp, Hs. by constructor.
  - intros []. unfold event_record. written; try done; try (by apply conforms_elem);
      try (by apply conforms_optional_text).
    + apply numbered_text. left.
    + apply written_int. lia.
    + unfold subject_json. written; try done. by apply conforms_optional_text.
Qed.

Lemma edge_conforms k : conforms edge_schema (edge_json k) = true.
Proof.
  unfold edge_schema, edge_json. written; try (apply numbered_text; repeat constructor).
  by apply conforms_elem; left.
Qed.

Lemma flow_conforms pid rid so status events d :
  search_pattern is_digest d = true →
  conforms flow_schema (JObj (flow_record pid rid d (flow_spec so status events))) = true ↔
  projection_fits pid rid so status events.
Proof.
  intros Hd. unfold flow_schema, flow_record, flow_spec_schema, flow_metadata_schema, source_schema.
  unfold flow_code, flow_id, flow_digest. split.
  - intros Ho. item Ho "metadata" Hm. item Hm "id" Hi. item Hm "projectId" Hp. item Hm "runId" Hr.
    item Ho "spec" Hs. item Hs "source" Hso. item Hso "kind" Hk. item Hso "trust" Ht.
    item Hso "boundary" Hb. item Hso "headDigest" Hh. item Hs "status" Hst. item Hs "nodes" Hn.
    rewrite conforms_optional_text in Hh. rewrite conforms_elem in Hk, Ht, Hst.
    cbn [conforms] in Hn. apply andb_true_iff in Hn as [[_ Hlen]%andb_true_iff Hn].
    rewrite length_map, enumerate_length in Hlen. apply Nat.leb_le in Hlen.
    constructor; try done. apply Forall_forall. intros e He.
    rewrite <-(enumerate_snd events) in He. apply list_elem_of_fmap in He as ([i e'] & -> & He).
    destruct (enumerate_elem _ _ _ He) as [Hi' _]. apply (node_conforms i); [lia|].
    rewrite forallb_forall in Hn. apply Hn, in_map_iff. exists (i, e'). split; [done|].
    by apply list_elem_of_In.
  - intros []. unfold flow_metadata, flow_spec. written; try (by apply conforms_elem; left).
    + by written.
    + written; try (by apply conforms_elem); try (by apply conforms_elem; left).
      * unfold source_json. written; try done; try (by apply conforms_elem).
        by apply conforms_optional_text.
      * cbn [conforms snd]. rewrite length_map, enumerate_length. cbn [Nat.leb andb].
        apply andb_true_iff. split; [by apply Nat.leb_le|]. apply forallb_forall.
        intros j ([i e] & <- & Hj)%in_map_iff. apply list_elem_of_In, enumerate_elem in Hj as [Hi He].
        apply node_conforms; [cbn [fst]; lia|]. rewrite Forall_forall in pf_events0. by apply pf_events0.
      * cbn [conforms snd]. rewrite length_map, length_seq. cbn [Nat.leb andb].
        apply andb_true_iff. split.
        -- apply Nat.leb_le. etrans; [|apply (Nat.leb_le 10000 20000); vm_compute; reflexivity]. lia.
        -- apply forallb_forall. intros j (k & <- & _)%in_map_iff. apply edge_conforms.
      * unfold summary_schema. written; apply written_int; unfold count_events; lia.
Qed.

(** [_projection] answers exactly when its texts fit, and answers what it wrote. *)
Lemma projection_written pid rid so status events :
  let spec := flow_spec so status events in
  let d := flow_projection_digest (flow_record pid rid zero_digest spec) in
  (projection_fits pid rid so status events →
     _projection pid rid so status events = Ok (JObj (flow_record pid rid d spec))) ∧
  (¬ projection_fits pid rid so status events →
     _projection pid rid so status events = Err FlowContractError).
Proof.
  intros spec d. unfold _projection. fold spec d. unfold validate_flow_projection.
  rewrite is_valid_conforms.
  pose proof (flow_conforms pid rid so status events d (digest_of _)) as Hc. fold spec in Hc. split.
  - intros Hf. rewrite (proj2 Hc Hf). cbn [negb]. unfold spec at 1. rewrite as_flow_written. cbn [some_or].
    unfold d, spec. rewrite flow_ok_written; [done|].
    destruct Hf as [_ _ _ _ _ _ _ _ Hfew _]. unfold few.
    apply inj_le in Hfew. assert (Z.of_nat 10000 = 10000) as E by (vm_compute; reflexivity).
    rewrite E in Hfew. lia.
  - intros Hf. destruct (conforms _ _) eqn:E; [|done]. destruct Hf. by apply Hc.
Qed.

(** ** Reading an export back *)

Lemma as_node_jnorm o : wf_items o → as_node (jnorm_items o) = as_node o.
Proof. intros Ho. unfold as_node. canon. Qed.
Lemma as_edge_jnorm o : wf_items o → as_edge (jnorm_items o) = as_edge o.
Proof. intros Ho. unfold as_edge. canon. Qed.
Lemma as_counts_jnorm o : wf_items o → as_counts (jnorm_items o) = as_counts o.
Proof. intros Ho. unfold as_counts. canon. Qed.
#[local] Hint Resolve as_node_jnorm as_edge_jnorm : eco.

Lemma as_flow_jnorm o : wf_items o → as_flow (jnorm_items o) = as_flow o.
Proof.
  intros Ho. unfold as_flow.
  repeat (first [canon_step
                |match goal with
                 | |- context [as_counts (jnorm_items ?x)] => rewrite (as_counts_jnorm x) by assumption
                 | |- context [?x ≫= _] => destruct x; cbn [mbind option_bind]; [|done]
                 end]; cbn [mbind option_bind fmap option_fmap option_map]); done.
Qed.
Lemma flow_digest_jnorm o : wf_items o → flow_projection_digest (jnorm_items o) = flow_projection_digest o.
Proof.
  intros Ho. unfold flow_projection_digest, semantic_digest, canonical_json. cbn [jnorm map fst snd].
  fold (jnorm_items (undigested (jnorm_items o))) (jnorm_items (undigested o)).
  by rewrite undigested_jnorm.
Qed.

Lemma validate_flow_inv r r' :
  validate_flow_projection r = Ok r' →
  r' = r ∧ ∃ o p, r = JObj o ∧ conforms flow_schema r = true ∧ wf_items o ∧ as_flow o = Some p ∧
    flow_ok p o = true.
Proof.
  unfold validate_flow_projection. destruct r as [| | | | |o]; try discriminate.
  rewrite is_valid_conforms. intros Hv. guard Hv as E1. breflect.
  destruct (as_flow o) as [p|] eqn:Ep; [|discriminate]. cbn [some_or] in Hv. guard Hv as E2. breflect.
  injection Hv as <-. split; [done|]. exists o, p. split_and!; try done. by eapply conforms_wf.
Qed.
Lemma validate_flow_jnorm r :
  validate_flow_projection r = Ok r → validate_flow_projection (jnorm r) = Ok (jnorm r).
Proof.
  intros (_ & o & p & -> & Hc & Ho & Hp & Hok)%validate_flow_inv. rewrite jnorm_obj.
  unfold validate_flow_projection. rewrite is_valid_conforms, <-jnorm_obj, conforms_jnorm, Hc by done.
  cbn [negb]. rewrite as_flow_jnorm, Hp by done. cbn [some_or]. unfold flow_ok in *.
  by rewrite flow_digest_jnorm, Hok.
Qed.

(** ** The events of a chain *)

Lemma view_fields e v :
  view e = Some v → jget "type" (ev_spec v) = JStr (ev_type v) ∧ jget "outcome" (ev_spec v) = JStr (ev_outcome v).
Proof. unfold view. intros Hv. repeat case_match; simplify_eq; done. Qed.

Definition outcome_texts : list string := ["pending"; "success"; "denied"; "failed"; "cancelled"; "exhausted"].
Lemma event_status_total t outcome :
  outcome ∈ outcome_texts → ∃ s, event_status t outcome = Ok s ∧ s ∈ flow_statuses.
Proof.
  intros Ho. unfold event_status. destruct (last_part t t == "started");
  repeat (apply elem_of_cons in Ho as [->|Ho]; [eexists; split; [reflexivity|member]|]);
  by apply elem_of_nil in Ho.
Qed.

Lemma valid_outcome e v :
  conforms run_event_schema e = true → view e = Some v → ev_outcome v ∈ outcome_texts.
Proof.
  intros (v' & Ev' & _ & _ & _ & Hs)%valid_view Ev. rewrite Ev in Ev'. injection Ev' as <-.
  destruct (view_fields _ _ Ev) as [_ Ho].
  destruct (conforms_required _ _ _ "outcome" (SEnum outcome_texts) Hs) as (x & Ex & Hx); [member|done|].
  apply jassoc_jget in Ex. rewrite Ho in Ex. subst x. by apply conforms_elem in Hx.
Qed.

(** What an event is projected to. *)
Definition projects (e : json) (p : ObservedFlowEvent) : Prop :=
  ∃ v, view e = Some v ∧ project_event v = Ok p.

Lemma valid_event_projects e :
  conforms run_event_schema e = true →
  ∃ v, flow_event e = Ok v ∧ view e = Some v ∧ ∃ p, project_event v = Ok p.
Proof.
  intros Hc. destruct (valid_view e Hc) as (v & Ev & _). exists v. unfold flow_event.
  rewrite is_valid_conforms, Hc. cbn [negb]. rewrite Ev. split_and!; [done..|].
  destruct (event_status_total (ev_type v) (ev_outcome v)) as (s & Es & _); [by eapply valid_outcome|].
  unfold project_event. rewrite Es. by eexists.
Qed.

(** The word a projection has for the state of a run. *)
Definition run_word (s : RunState) : string :=
  match s with
  | SUCCEEDED => "succeeded" | FAILED => "failed" | DENIED => "denied" | CANCELLED => "cancelled"
  | EXHAUSTED => "exhausted" | _ => "running"
  end.
Lemma step_word s p t sp s' p' outcome ps :
  run_step s p (t, sp) s' p' → assoc t EVENT_SEMANTICS = Some (outcome, ps) →
  (if t in? _TERMINAL_EVENT_TYPES then event_status t outcome else Ok "running") = Ok (run_word s').
Proof. inversion 1; subst; intros [= <- <-]; reflexivity. Qed.

(** Every event of a chain has the outcome its type means. *)
Definition outcomes_ok (c : RunEventChain) : Prop :=
  ∀ e v, e ∈ ch_events c → view e = Some v →
    ∃ ps, assoc (ev_type v) EVENT_SEMANTICS = Some (ev_outcome v, ps).
Lemma append_outcomes c e cap : outcomes_ok c → outcomes_ok (append c e cap).1.
Proof.
  intros Hc. unfold append. destruct (admit_event c e cap) as [[[v d] pr]|] eqn:Ea; [|done].
  apply admit_event_ok in Ea. intros e' v' [He'|He'%list_elem_of_singleton]%elem_of_app Hv'; [by eapply Hc|].
  subst e'. rewrite (ac_view _ _ _ _ _ _ Ea) in Hv'. injection Hv' as <-.
  destruct (ac_semantics _ _ _ _ _ _ Ea) as (o & ps & Ho & <- & _). by exists ps.
Qed.
Lemma calls_outcomes rid caps c l : new_chain rid caps = Ok c → outcomes_ok (calls c l).
Proof.
  intros Hc. assert (outcomes_ok c) as Hok.
  { intros e v He. apply new_chain_events in Hc. simpl in Hc. rewrite Hc in He. by apply elem_of_nil in He. }
  clear Hc. revert c Hok. induction l as [|x l IH]; intros c Hok; [done|]. simpl. apply IH.
  by apply append_outcomes.
Qed.

(** The last event of a chain tells its state. *)
Lemma last_event_word c e v :
  chain_inv c → outcomes_ok c → last (ch_events c) = Some e → view e = Some v →
  (if ev_type v in? _TERMINAL_EVENT_TYPES then event_status (ev_type v) (ev_outcome v) else Ok "running")
  = Ok (run_word (ch_state c)).
Proof.
  intros Hi Ho Hl Hv. pose proof (ci_replay _ Hi) as Hr.
  apply last_Some in Hl as [es Hes]. rewrite Hes, omap_app, replay_app in Hr.
  destruct (replay initial (omap event_of es)) as [pr|]; [|discriminate].
  assert (omap event_of [e] = [(ev_type v, ev_spec v)]) as Hev by (cbn; unfold event_of; by rewrite Hv).
  rewrite Hev in Hr. simpl in Hr. destruct (reduce_run_event _ _ _) as [pr'|] eqn:E; [|discriminate].
  injection Hr as ->. destruct (reduce_sound _ _ _ _ E) as (p' & Ep' & Hstep).
  destruct (Ho e v) as (ps & Hps); [rewrite Hes; apply elem_of_app; right; left|done|].
  by apply (step_word _ _ _ _ _ _ _ _ Hstep Hps).
Qed.
End Written.
