(* ===== verification/FlowProps.v ===== *)
(** * Properties of flow projections *)

From S2P Require Import Prelude Json Digest PyTime PyClock Schema RunReducer RunMachine RunEventChain ChainProps RouteRecords Router RouteRecordFacts RouterProofs RouterOutput JsonCanon Flow FlowProofs.

Section Projections.
Context `{FromIso} `{Crypto} `{Jsonschema}.

Lemma linked_ok prev es vs :
  Forall2 (fun e v => view e = Some v) es vs →
  (∀ i v, vs !! i = Some v →
     ev_previous v = match i with O => prev | S j => semantic_digest <$> es !! j end) →
  linked prev (zip es vs) = true.
Proof.
  intros Hv. revert prev. induction Hv as [|e v es vs _ _ IH]; intros prev Hp; [done|].
  cbn [zip zip_with linked]. rewrite (Hp 0%nat v eq_refl), bool_decide_true by done. cbn [andb].
  apply IH. intros i w Hw. rewrite (Hp (S i) w Hw). by destruct i.
Qed.

Lemma last_zip {A B} (R : A → B → Prop) es vs :
  Forall2 R es vs → es ≠ [] →
  ∃ e v, last (zip es vs) = Some (e, v) ∧ last es = Some e ∧ last vs = Some v ∧ R e v.
Proof.
  intros HR Hne. destruct es as [|e es] using rev_ind; [done|]. clear IHes Hne.
  apply Forall2_app_inv_l in HR as (vs1 & vs2 & H1' & H2' & ->).
  apply Forall2_cons_inv_l in H2' as (v & vs3 & Hev & ->%Forall2_nil_inv_l & ->).
  exists e, v. pose proof (Forall2_length _ _ _ H1') as Hlen.
  rewrite zip_with_app, !last_snoc by exact Hlen. cbn [zip_with]. by rewrite last_snoc.
Qed.

Definition runtime_source (authenticated : bool) (head : option string) : flow_source :=
  {| so_kind := "runtime-run-events"; so_trust := if authenticated then "authenticated" else "validated";
     so_boundary := if authenticated then "external-journal-authenticated"
                    else "schema-validated-not-authenticated";
     so_head := head |}.

(** The projector's checks pass on the events of a chain. *)
Lemma project_chain c pid auth :
  chain_inv c → outcomes_ok c → ch_events c ≠ [] →
  ∃ projected, Forall2 projects (ch_events c) projected ∧
    project_runtime_flow pid (ch_events c) auth
    = _projection pid (ch_run_id c) (runtime_source auth (ch_head_digest c)) (run_word (ch_state c)) projected.
Proof.
  intros Hi Ho Hne. pose proof (ci_events _ Hi) as Hev.
  destruct (map_result_total flow_event (fun e => conforms run_event_schema e = true)
              (fun e v => view e = Some v ∧ ∃ p, project_event v = Ok p) (ch_events c)) as (vs & Evs & Hvs).
  { intros e He. destruct (valid_event_projects e He) as (v & ? & ? & ?). by exists v. }
  { apply Forall_lookup. intros i e He. by destruct (Hev i e He). }
  assert (Forall2 (fun e v => view e = Some v) (ch_events c) vs) as Hview
    by (eapply Forall2_impl; [exact Hvs|by intros ? ? (_ & ? & _)]).
  destruct (map_result_total project_event (fun v => ∃ p, project_event v = Ok p) (fun _ _ => True) vs)
    as (ps & Eps & Hps).
  { intros v (p & Hp). by exists p. }
  { clear -Hvs. induction Hvs as [|e v es vs (_ & _ & Hp) _ IH]; by constructor. }
  exists ps. split.
  { clear -Hvs Hps. revert ps Hps.
    induction Hvs as [|e v es vs (_ & Hv & _) _ IH]; intros ps Hps; inversion Hps as [|? p ? ? [Hp _]]; subst;
      constructor; [by exists v|by apply IH]. }
  assert (∀ i v, vs !! i = Some v → ev_run v = ch_run_id c ∧ ev_sequence v = Z.of_nat i + 1 ∧
            ev_previous v = previous_of (ch_events c) i) as Hat.
  { intros i v Hv. destruct (Forall2_lookup_r _ _ _ _ _ Hview Hv) as (e & He & Ev).
    destruct (Hev i e He) as (_ & v' & Ev' & ?). congruence. }
  destruct (last_zip _ _ _ Hview Hne) as (e & v & Elast & Ele & Elv & Ev).
  assert (map ev_sequence vs = one_to (length vs)) as Hseq.
  { unfold one_to. apply list_eq. intros i. change (map ?f ?l) with (f <$> l). rewrite !list_lookup_fmap.
    destruct (vs !! i) as [w|] eqn:Ew; cbn [fmap option_fmap option_map].
    - pose proof (lookup_lt_Some _ _ _ Ew) as Hlt. rewrite lookup_seq_lt by done. cbn.
      destruct (Hat i w Ew) as (_ & -> & _). f_equal. lia.
    - apply lookup_ge_None in Ew. by rewrite lookup_seq_ge. }
  assert (linked None (zip (ch_events c) vs) = true) as Hlink.
  { apply linked_ok; [done|]. intros i w Hw. by destruct (Hat i w Hw) as (_ & _ & ->), i. }
  assert (∀ w, w ∈ vs → ev_run w = ch_run_id c) as Hrun.
  { intros w [i Hw]%list_elem_of_lookup. by destruct (Hat i w Hw) as (-> & _). }
  unfold project_runtime_flow. rewrite Evs. cbv iota beta.
  destruct vs as [|v0 vs']; [by apply Forall2_nil_inv_r in Hview|]. rewrite Elast. cbv iota beta zeta.
  rewrite (Hrun v0) by left. rewrite Hseq, Hlink, bool_decide_true by done. cbn [negb].
  assert (existsb (fun e0 => ev_run e0 != ch_run_id c) (v0 :: vs') = false) as ->.
  { apply not_true_is_false. intros (w & Hw & Hr)%existsb_exists. apply list_elem_of_In in Hw.
    rewrite (Hrun w Hw), bool_decide_true in Hr by done. discriminate. }
  rewrite Eps. unfold runtime_source. rewrite (ci_head _ Hi), Ele. cbn [fmap option_fmap option_map].
  f_equal. pose proof (last_event_word c e v Hi Ho Ele Ev) as Hw.
  destruct (ev_type v in? _TERMINAL_EVENT_TYPES); [|by injection Hw].
  assert (∃ p, last ps = Some p ∧ project_event v = Ok p) as (p & -> & Hp).
  { destruct (last_zip _ _ _ Hps) as (v' & p & _ & E1 & E2 & Hp & _); [done|].
    rewrite Elv in E1. injection E1 as <-. by exists p. }
  unfold project_event in Hp. rewrite Hw in Hp. by injection Hp as <-.
Qed.

(** The run fits the tighter texts of a projection. *)
Record flow_admits (pid : string) (c : RunEventChain) : Prop := {
  fa_project : flow_text pid = true; fa_run : flow_text (ch_run_id c) = true;
  fa_id : flow_text ("flow:" +:+ ch_run_id c) = true; fa_few : (length (ch_events c) ≤ 10000)%nat;
  fa_events : ∀ e v, e ∈ ch_events c → view e = Some v →
    flow_text (default (ev_id v) (event_subject v)) = true ∧ _is_date_time (ev_time v) = true ∧
    ∀ r, opt_text "reasonCode" (ev_spec v) = Some r → flow_text r = true;
}.

Lemma event_types_fit :
  Forall (fun t => flow_text t = true ∧ event_phase t ∈ flow_phases) EVENT_SEMANTICS.*1.
Proof.
  cbn [fmap list_fmap fst EVENT_SEMANTICS].
  repeat (apply List.Forall_cons; [split; [vm_compute; reflexivity|member]|]). apply List.Forall_nil.
Qed.

(** Of an event of a chain, only the texts of [flow_admits] can be too long. *)
Lemma event_fits_iff e v p :
  conforms run_event_schema e = true → view e = Some v → project_event v = Ok p →
  event_fits p ↔
  flow_text (default (ev_id v) (event_subject v)) = true ∧ _is_date_time (ev_time v) = true ∧
  ∀ r, opt_text "reasonCode" (ev_spec v) = Some r → flow_text r = true.
Proof.
  intros Hc Hv Hp. destruct (valid_view e Hc) as (v' & Hv' & _ & [x Ht] & _ & Hs).
  rewrite Hv in Hv'. injection Hv' as <-.
  pose proof event_types_fit as Hty. rewrite Forall_forall in Hty.
  destruct (Hty (ev_type v) (list_elem_of_fmap_2 fst _ _ (assoc_elem _ _ _ Ht))) as [Hty1 Hty2].
  destruct (event_status_total (ev_type v) (ev_outcome v)) as (st & Est & Hst);
    [by eapply valid_outcome|].
  unfold project_event in Hp. rewrite Est in Hp. injection Hp as <-. split.
  - intros [_ _ _ _ Hid Htime Hreason _]. cbn in Hid, Htime, Hreason. auto.
  - intros (Hid & Htime & Hreason). constructor; cbn; try done.
    + by destruct (is_some _).
    + by intros t [= <-].
    + intros d Hd. unfold opt_text in Hd.
      destruct (conforms_optional _ _ _ "subjectDigest" sha256_schema Hs eq_refl) as [E|E];
        unfold jget in E; destruct (jassoc "subjectDigest" (ev_spec v)) as [[]|]; try discriminate.
      injection Hd as <-. exact E.
Qed.

Lemma fits_admits c pid auth ps :
  chain_inv c → Forall2 projects (ch_events c) ps →
  projection_fits pid (ch_run_id c) (runtime_source auth (ch_head_digest c)) (run_word (ch_state c)) ps
  ↔ flow_admits pid c.
Proof.
  intros Hi Hps. pose proof (Forall2_length _ _ _ Hps) as Hlen.
  assert (∀ e, e ∈ ch_events c → conforms run_event_schema e = true) as Hev.
  { intros e [i He]%list_elem_of_lookup. by destruct (ci_events _ Hi i e He). }
  split.
  - intros [Hid Hpr Hru _ _ _ _ _ Hfew Hes]. constructor; try done; [by rewrite Hlen|].
    intros e v He Hv. destruct (list_elem_of_lookup_1 _ _ He) as [i Hie].
    destruct (Forall2_lookup_l _ _ _ _ _ Hps Hie) as (p & Hp & v' & Hv' & Hpe).
    rewrite Hv in Hv'. injection Hv' as <-. apply (event_fits_iff e v p); [by apply Hev|done..|].
    rewrite Forall_forall in Hes. apply Hes. by eapply list_elem_of_lookup_2.
  - intros [Hpr Hru Hid Hfew Hes]. constructor; try done.
    + member.
    + destruct auth; member.
    + by destruct auth.
    + cbn [so_head runtime_source]. rewrite (ci_head _ Hi). intros d (e & _ & ->)%fmap_Some. apply digest_of.
    + destruct (ch_state c); member.
    + by rewrite <-Hlen.
    + apply Forall_forall. intros p [i Hp]%list_elem_of_lookup.
      destruct (Forall2_lookup_r _ _ _ _ _ Hps Hp) as (e & He & v & Hv & Hpe).
      apply list_elem_of_lookup_2 in He. apply (event_fits_iff e v p); [by apply Hev|done..|]. by eapply Hes.
Qed.

(** [C38] The projection of a run is faithful.  Given the events of a chain,
    [project_runtime_flow] answers exactly when the identifiers, reason codes and
    times of the run fit the projection's tighter texts; the answer then has one node
    per event, in order and with the event's type, status, subject and time, is tied
    to the head digest of the chain, and its status is the state the reducer
    computed; otherwise it raises FlowContractError. *)
Theorem chain_projects_faithfully rid caps c0 l pid auth :
  new_chain rid caps = Ok c0 →
  let c := calls c0 l in
  ch_events c ≠ [] →
  (flow_admits pid c →
     ∃ projected digest, Forall2 projects (ch_events c) projected ∧
       project_runtime_flow pid (ch_events c) auth
       = Ok (JObj (flow_record pid rid digest
                     (flow_spec (runtime_source auth (ch_head_digest c)) (run_word (ch_state c)) projected)))) ∧
  (¬ flow_admits pid c → project_runtime_flow pid (ch_events c) auth = Err FlowContractError).
Proof.
  intros Hc c Hne. pose proof (calls_inv _ _ _ l Hc) as Hi. fold c in Hi.
  pose proof (calls_outcomes _ _ _ l Hc) as Ho. fold c in Ho.
  assert (ch_run_id c = rid) as Hr by (unfold c; rewrite calls_run_id; by apply new_chain_run_id in Hc).
  destruct (project_chain c pid auth Hi Ho Hne) as (ps & Hps & ->).
  pose proof (fits_admits c pid auth ps Hi Hps) as Hf.
  destruct (projection_written pid (ch_run_id c) (runtime_source auth (ch_head_digest c))
              (run_word (ch_state c)) ps) as [Hyes Hno].
  split; intros Ha.
  - exists ps. eexists. split; [done|]. rewrite Hyes by (by apply Hf). by rewrite Hr.
  - apply Hno. by rewrite Hf.
Qed.

(** An exported projection replays.  The text of a valid projection, as a
    string or as bytes, reads back as the same record in canonical form, and a
    mapping as itself; whatever a replay accepts is a valid projection whose nodes
    are numbered from one without repetition, whose edges join its nodes, and whose
    stated digest is that of its content. *)
Theorem projection_replays r :
  validate_flow_projection r = Ok r →
  replay_projection (PText (canonical_json r)) = Ok (jnorm r) ∧
  replay_projection (PBytes (Some (canonical_json r))) = Ok (jnorm r) ∧
  (∀ o, r = JObj o → replay_projection (PMapping o) = Ok r) ∧
  ∀ payload r', replay_projection payload = Ok r' →
    validate_flow_projection r' = Ok r' ∧
    ∃ o p, r' = JObj o ∧ as_flow o = Some p ∧ NoDup (map fn_id (fp_nodes p)) ∧
      map fn_sequence (fp_nodes p) = one_to (length (fp_nodes p)) ∧
      (∀ e, e ∈ fp_edges p → fe_from e ∈ map fn_id (fp_nodes p) ∧ fe_to e ∈ map fn_id (fp_nodes p)) ∧
      fp_digest p = flow_projection_digest o.
Proof.
  intros Hv. destruct (validate_flow_inv _ _ Hv) as (_ & o & _ & Er & _ & Ho & _).
  assert (json_loads (canonical_json r) = Some (jnorm r)) as Hl
    by (apply json_loads_canonical; subst r; exact Ho).
  split_and!.
  - unfold replay_projection. rewrite Hl. by apply validate_flow_jnorm.
  - unfold replay_projection. cbn [mbind option_bind]. rewrite Hl. by apply validate_flow_jnorm.
  - intros o' ->. exact Hv.
  - clear. intros payload r' Hr. unfold replay_projection in Hr.
    destruct (match payload with PBytes _ => _ | _ => _ end) as [r|]; [|discriminate].
    destruct (validate_flow_inv _ _ Hr) as (-> & o & p & -> & _ & _ & Hp & Hok). split; [done|].
    exists o, p. unfold flow_ok in Hok. breflect. split_and!; try done.
    match goal with Hf : forallb _ (fp_edges p) = true |- _ => rename Hf into Hedges end.
    intros e He. rewrite forallb_forall in Hedges. apply list_elem_of_In, Hedges in He. by breflect.
Qed.
End Projections.

(** ** A concrete projection *)

#[local] Existing Instance Checksum.crypto.
#[local] Existing Instance rfc3339_iso.
#[local] Existing Instance draft202012.

Definition flow_example : json :=
  Eval vm_compute in
  match project_runtime_flow "project-1" (ch_events (calls example_chain example_calls)) false with
  | Ok r => r
  | Err _ => JNull
  end.

Lemma example_admits : flow_admits "project-1" (calls example_chain example_calls).
Proof.
  constructor.
  - vm_compute. reflexivity.
  - vm_compute. reflexivity.
  - vm_compute. reflexivity.
  - apply Nat.leb_le. vm_compute. reflexivity.
  - assert (ch_events (calls example_chain example_calls) = [first_event; second_event]) as ->
      by (vm_compute; reflexivity).
    intros e v He Hv. repeat (apply elem_of_cons in He as [->|He]).
    + vm_compute in Hv. injection Hv as <-. split_and!; [vm_compute; reflexivity..|]. by intros r.
    + vm_compute in Hv. injection Hv as <-. split_and!; [vm_compute; reflexivity..|]. by intros r.
    + by apply elem_of_nil in He.
Qed.

Lemma chain_projects_faithfully_witness :
  ∃ projected digest,
    Forall2 projects (ch_events (calls example_chain example_calls)) projected ∧
    project_runtime_flow "project-1" (ch_events (calls example_chain example_calls)) false
    = Ok (JObj (flow_record "project-1" "run-1" digest
           (flow_spec (runtime_source false (ch_head_digest (calls example_chain example_calls)))
              "running" projected))).
Proof.
  apply (proj1 (chain_projects_faithfully "run-1" example_caps example_chain example_calls "project-1" false
                  ltac:(vm_compute; reflexivity) ltac:(vm_compute; discriminate))).
  exact example_admits.
Defined.

Lemma flow_example_valid : validate_flow_projection flow_example = Ok flow_example.
Proof. vm_compute. reflexivity. Qed.
Lemma projection_replays_witness :
  replay_projection (PText (canonical_json flow_example)) = Ok (jnorm flow_example).
Proof. destruct (projection_replays flow_example flow_example_valid) as (E & _). exact E. Defined.
