(* ===== verification/ArtifactStore.v ===== *)
(** * The content-addressed store, src/eco_runtime/artifact_store.py

    [ContentAddressedArtifactStore] keeps bytes in files named by their SHA-256
    digest and hands out proofs of availability.  The directory of objects is a
    map from file name to content: what a file holds need not have the digest of
    its name, since every read checks it.  Permissions, links, temporary files
    and the metadata file are file system matters and are left out; the store
    identity read from that file is a field. *)

From S2P Require Import Prelude Json Digest RouteRecords RouteConsumption.
From Stdlib Require Import Ascii.

Definition ARTIFACT_STORE_VERSION : Z := 1.
Definition store_error (code : string) : py_error := RuntimeStoreError code.

Record ArtifactAvailabilityProof : Type := {
  pf_ref : string; pf_sha256 : string; pf_length : Z; pf_key_id : string; pf_token : string;
}.
#[export] Instance proof_eq_dec : EqDecision ArtifactAvailabilityProof.
Proof. solve_decision. Defined.

Record artifact_store : Type := {
  at_objects : gmap string string;                 (* file name to content *)
  at_key : journal_key; at_store_id : string; at_closed : bool;
}.

(** ** References *)

(** [[A-Za-z0-9._:/-]] *)
Definition is_ref_char (c : ascii) : bool := is_ident_char c || (c == "/"%char).
(** The text after "artifact://": [_ARTIFACT_REF_RE]'s look-aheads exclude the
    path segments "." and "..", which [acc] collects, and "//". *)
Definition dots (acc : string) : bool := (acc == ".") || (acc == "..").
Fixpoint segments_ok (acc : string) (s : string) : bool :=
  match s with
  | EmptyString => negb (dots acc)
  | String c s' =>
      if c == "/"%char then
        negb (dots acc) && negb (startswith s' "/") && segments_ok EmptyString s'
      else segments_ok (acc +:+ String c EmptyString) s'
  end.
Definition ref_body (s : string) : bool :=
  re_ident is_alnum is_ref_char 4095 s && segments_ok EmptyString s.
Definition artifact_prefix : string := "artifact://".
Definition is_artifact_ref (s : string) : bool :=
  startswith s artifact_prefix
  && ref_body (String.substring (String.length artifact_prefix) (String.length s) s).

Section Store.
Context `{Crypto}.

Definition _proof_payload (s : artifact_store) (storage_ref digest : string) (byte_length : Z) : json :=
  JObj [("domain", JStr "eco-artifact-availability-v1"); ("version", JInt ARTIFACT_STORE_VERSION);
        ("storeId", JStr (at_store_id s)); ("keyId", JStr (jk_key_id (at_key s)));
        ("storageRef", JStr storage_ref); ("sha256", JStr digest); ("byteLength", JInt byte_length)].
Definition _make_proof (s : artifact_store) (storage_ref digest : string) (byte_length : Z)
  : ArtifactAvailabilityProof :=
  {| pf_ref := storage_ref; pf_sha256 := digest; pf_length := byte_length;
     pf_key_id := jk_key_id (at_key s);
     pf_token := sign (at_key s) (_proof_payload s storage_ref digest byte_length) |}.

(** [with self._exclusive_lock()] *)
Definition exclusive {A} (s : artifact_store) (body : result A) : result A :=
  raise (store_error "ECO_ARTIFACT_STORE_CLOSED") when (at_closed s) else body.

(** [_object_path] *)
Definition _object_path (digest : string) : result string :=
  raise (store_error "ECO_ARTIFACT_DIGEST_INVALID") when (negb (is_digest digest)) else Ok digest.

(** [len(b)] *)
Definition byte_len (b : string) : Z := Z.of_nat (String.length b).

(** [_open_verified_descriptor] and a read of the whole file. *)
Definition open_verified_path (s : artifact_store) (path expected_digest : string)
    (expected_byte_length : Z) : result string :=
  match at_objects s !! path with
  | None => Err (store_error "ECO_ARTIFACT_UNAVAILABLE")
  | Some content =>
      raise (store_error "ECO_ARTIFACT_STORE_CORRUPT") when
        ((sha256_hex content != expected_digest)
         || negb (byte_len content =? expected_byte_length)) else Ok content
  end.
Definition _verify_object (s : artifact_store) (digest : string) (byte_length : Z) : result unit :=
  let! path := _object_path digest in
  let! _ := open_verified_path s path digest byte_length in Ok tt.

(** [_require_proof] *)
Definition _require_proof (s : artifact_store) (p : ArtifactAvailabilityProof) : result unit :=
  raise (store_error "ECO_ARTIFACT_PROOF_INVALID") when
    (negb (is_artifact_ref (pf_ref p)) || negb (is_digest (pf_sha256 p)) || (pf_length p <? 0)
     || (pf_key_id p != jk_key_id (at_key s)) || negb (is_digest (pf_token p))) else
  let expected := sign (at_key s) (_proof_payload s (pf_ref p) (pf_sha256 p) (pf_length p)) in
  raise (store_error "ECO_ARTIFACT_PROOF_INVALID") when (expected != pf_token p) else Ok tt.

Definition verify_availability (s : artifact_store) (p : ArtifactAvailabilityProof) : result unit :=
  exclusive s
    (let! _ := _require_proof s p in _verify_object s (pf_sha256 p) (pf_length p)).

Definition verify_record (s : artifact_store) (storage_ref sha256 : string) (byte_length : Z)
  : result unit :=
  raise (store_error "ECO_ARTIFACT_PROOF_INVALID") when (negb (is_artifact_ref storage_ref)) else
  raise (store_error "ECO_ARTIFACT_PROOF_INVALID") when (byte_length <? 0) else
  exclusive s (_verify_object s sha256 byte_length).

Definition proof_for_record (s : artifact_store) (storage_ref sha256 : string) (byte_length : Z)
  : result ArtifactAvailabilityProof :=
  raise (store_error "ECO_ARTIFACT_PROOF_INVALID") when (negb (is_artifact_ref storage_ref)) else
  raise (store_error "ECO_ARTIFACT_DIGEST_INVALID") when (negb (is_digest sha256)) else
  raise (store_error "ECO_ARTIFACT_PROOF_INVALID") when (byte_length <? 0) else
  exclusive s
    (let! _ := _verify_object s sha256 byte_length in
     Ok (_make_proof s storage_ref sha256 byte_length)).

(** [open_verified(proof)] and a read of the stream. *)
Definition open_verified (s : artifact_store) (p : ArtifactAvailabilityProof) : result string :=
  exclusive s
    (let! _ := _require_proof s p in
     let! path := _object_path (pf_sha256 p) in
     open_verified_path s path (pf_sha256 p) (pf_length p)).

(** ** Installing an object *)

(** The loop of [put] over the chunks of its source. *)
Fixpoint receive (max_bytes : option Z) (received : string) (chunks : list string) : result string :=
  match chunks with
  | [] => Ok received
  | chunk :: chunks' =>
      let received := received +:+ chunk in
      raise (store_error "ECO_ARTIFACT_TOO_LARGE") when
        (match max_bytes with Some m => m <? byte_len received | None => false end) else
      receive max_bytes received chunks'
  end.

(** The keyword arguments of [put] other than [chunk_size]. *)
Record PutArgs : Type := {
  pa_ref : option string; pa_sha256 : option string; pa_length : option Z; pa_max : option Z;
}.
Definition put_defaults (max_bytes : Z) : PutArgs :=
  {| pa_ref := None; pa_sha256 := None; pa_length := None; pa_max := Some max_bytes |}.
Definition put_args_ok (a : PutArgs) : bool :=
  match pa_sha256 a with Some d => is_digest d | None => true end
  && match pa_length a with Some n => 0 <=? n | None => true end
  && match pa_max a with Some n => 0 <=? n | None => true end
  && match pa_ref a with Some r => is_artifact_ref r | None => true end.

Definition with_object (s : artifact_store) (digest content : string) : artifact_store :=
  {| at_objects := <[digest := content]> (at_objects s); at_key := at_key s;
     at_store_id := at_store_id s; at_closed := at_closed s |}.

(** [os.link(temporary, final)]: an existing object is verified, and kept. *)
Definition install (s : artifact_store) (digest content : string) : result artifact_store :=
  match at_objects s !! digest with
  | Some _ => let! _ := _verify_object s digest (byte_len content) in Ok s
  | None => Ok (with_object s digest content)
  end.

Definition put (s : artifact_store) (chunks : list string) (a : PutArgs)
  : artifact_store * result ArtifactAvailabilityProof :=
  if negb (put_args_ok a) then (s, Err ValueError) else
  match
    exclusive s
      (let! content := receive (pa_max a) EmptyString chunks in
       let digest := sha256_hex content in
       raise (store_error "ECO_ARTIFACT_DIGEST_MISMATCH") when
         (match pa_sha256 a with Some d => digest != d | None => false end) else
       raise (store_error "ECO_ARTIFACT_SIZE_MISMATCH") when
         (match pa_length a with Some n => negb (byte_len content =? n) | None => false end) else
       let! s' := install s digest content in Ok (s', digest, byte_len content))
  with
  | Err e => (s, Err e)
  | Ok (s', digest, byte_length) =>
      let reference := default (artifact_prefix +:+ "sha256/" +:+ digest) (pa_ref a) in
      (s',
       let! _ := _verify_object s' digest byte_length in
       Ok (_make_proof s' reference digest byte_length))
  end.

(** [_verify_locked]: the names and the contents of every object.  Each check
    raises the same error, so the order of the directory is immaterial. *)
Definition at_verify (s : artifact_store) : result unit :=
  exclusive s
    (raise (store_error "ECO_ARTIFACT_STORE_CORRUPT") when
       (negb (forallb (fun dc => is_digest dc.1 && (sha256_hex dc.2 == dc.1)) (map_to_list (at_objects s)))) else
     Ok tt).
Definition at_close (s : artifact_store) : artifact_store :=
  {| at_objects := at_objects s; at_key := at_key s; at_store_id := at_store_id s; at_closed := true |}.

(** ** What a read returns *)

Lemma open_verified_path_ok s path d n content :
  open_verified_path s path d n = Ok content →
  at_objects s !! path = Some content ∧ sha256_hex content = d ∧ byte_len content = n.
Proof.
  unfold open_verified_path. destruct (at_objects s !! path) as [c|] eqn:E; [|done].
  intros Ho. guard Ho as Eg. injection Ho as ->. by breflect.
Qed.
Lemma verify_object_ok s d n :
  _verify_object s d n = Ok tt ↔
  is_digest d = true ∧ ∃ content, at_objects s !! d = Some content ∧ sha256_hex content = d ∧
    byte_len content = n.
Proof.
  unfold _verify_object, _object_path. destruct (is_digest d) eqn:Ed; cbn [negb].
  2:{ split; [done|]. by intros [? _]. }
  destruct (open_verified_path s d d n) as [c|] eqn:Eo; split; try done.
  - intros _. split; [done|]. exists c. by apply open_verified_path_ok in Eo.
  - intros (_ & c & Ec & Hd & Hn). exfalso. revert Eo. unfold open_verified_path.
    rewrite Ec, Hd, Hn, Z.eqb_refl, bool_decide_true by done. done.
Qed.

(** Whatever the directory holds, bytes that are returned have the digest and the
    length that were asked for. *)
Lemma open_verified_authentic s p content :
  open_verified s p = Ok content → sha256_hex content = pf_sha256 p ∧ byte_len content = pf_length p.
Proof.
  unfold open_verified, exclusive. intros Ho. guard Ho as Ec.
  destruct (_require_proof s p); [|done]. unfold _object_path in Ho.
  destruct (is_digest _); [|done]. cbn [negb] in Ho. by apply open_verified_path_ok in Ho as (_ & ? & ?).
Qed.

Lemma require_made_proof s r d n :
  is_artifact_ref r = true → is_digest d = true → 0 ≤ n →
  _require_proof s (_make_proof s r d n) = Ok tt.
Proof.
  intros Hr Hd Hn. unfold _require_proof, _make_proof. cbn [pf_ref pf_sha256 pf_length pf_key_id pf_token].
  rewrite Hr, Hd, (proj2 (Z.ltb_ge n 0)) by done. unfold sign. rewrite hmac_sha256_hex_digest.
  by rewrite !bool_decide_true.
Qed.

(** The proof issued for a stored object opens it. *)
Lemma read_for_record s r d n p :
  proof_for_record s r d n = Ok p →
  ∃ content, open_verified s p = Ok content ∧ at_objects s !! d = Some content ∧
    sha256_hex content = d ∧ byte_len content = n.
Proof.
  unfold proof_for_record, exclusive, open_verified. intros Hp. guard Hp as Er. guard Hp as Ed.
  guard Hp as En. guard Hp as Ec. destruct (_verify_object s d n) as [[]|] eqn:Ev; [|done].
  injection Hp as <-. apply verify_object_ok in Ev as (Hd & c & Hc & Hs & Hl). breflect. exists c.
  rewrite require_made_proof by done.
  unfold _object_path. cbn [pf_sha256 pf_length _make_proof]. rewrite Hd. cbn [negb].
  unfold open_verified_path. rewrite Hc, Hs, Hl, Z.eqb_refl, bool_decide_true by done. cbn [negb orb].
  unfold exclusive. by rewrite Ec.
Qed.
End Store.
