(* ===== verification/ArtifactProps.v ===== *)
(** * Properties of the content-addressed store

    What [put] installs is what its proof opens, for as long as the store is only
    written by [put]. *)

From S2P Require Import Prelude Json Digest RouteRecords RouteConsumption ConsumptionProofs ArtifactStore.
From Stdlib Require Import Ascii.

(** The reference [put] makes up is one that its readers accept. *)
Lemma hex_not_slash c : is_hex c = true → (c == "/"%char) = false.
Proof. intros Hc. apply bool_decide_eq_false. by intros ->. Qed.
Lemma hex_alnum c : is_hex c = true → is_alnum c = true.
Proof. destruct c as [[] [] [] [] [] [] [] []]; vm_compute; congruence. Qed.
Lemma hex_not_dots t : str_all is_hex t = true → dots t = false.
Proof.
  unfold dots. intros Ht. apply orb_false_iff.
  split; apply bool_decide_eq_false; intros ->; vm_compute in Ht; discriminate Ht.
Qed.
Lemma segments_hex s acc :
  str_all is_hex s = true → (∀ t, str_all is_hex t = true → dots (acc +:+ t) = false) →
  segments_ok acc s = true.
Proof.
  revert acc. induction s as [|c s IH]; intros acc Hs Ha; cbn [segments_ok].
  - rewrite <- (str_app_nil_r acc). by rewrite Ha.
  - cbn [str_all] in Hs. apply andb_true_iff in Hs as [Hc Hs]. rewrite hex_not_slash by done.
    apply IH; [done|]. intros t Hh. rewrite str_app_assoc. apply Ha. cbn [str_all String.append]. by rewrite Hc.
Qed.
Lemma substring_all n s : (String.length s <= n)%nat → String.substring 0 n s = s.
Proof.
  revert n. induction s as [|c s IH]; intros [|n] Hn; cbn [String.length] in Hn; try done; [lia|].
  cbn [String.substring]. rewrite IH by lia. done.
Qed.
Lemma made_reference_ok d : is_digest d = true → is_artifact_ref (artifact_prefix +:+ "sha256/" +:+ d) = true.
Proof.
  unfold is_digest. intros [Hd Hn%Nat.eqb_eq]%andb_true_iff. unfold is_artifact_ref.
  set (body := "sha256/" +:+ d).
  assert (String.substring (String.length artifact_prefix) (String.length (artifact_prefix +:+ body))
            (artifact_prefix +:+ body) = body) as ->.
  { rewrite str_length_app. cbn [artifact_prefix String.append String.length Nat.add].
    change (String.substring 0 (11 + String.length body) body = body). apply substring_all. lia. }
  change (startswith (artifact_prefix +:+ body) artifact_prefix) with true. cbn [andb]. unfold ref_body, body.
  assert (str_all is_ref_char d = true) as Hr.
  { revert Hd. apply str_all_impl. intros c Hc%hex_alnum. unfold is_ref_char, is_ident_char. by rewrite Hc. }
  apply andb_true_iff. split.
  - change (re_ident is_alnum is_ref_char 4095 ("sha256/" +:+ d))
      with (str_all is_ref_char ("ha256/" +:+ d) && (String.length ("ha256/" +:+ d) <=? 4095)%nat).
    rewrite str_all_app, Hr, str_length_app, Hn. reflexivity.
  - change (negb (startswith d "/") && segments_ok EmptyString d = true).
    rewrite (segments_hex d EmptyString Hd hex_not_dots), andb_true_r. unfold startswith.
    destruct d as [|c d]; [done|]. cbn [str_all] in Hd. apply andb_true_iff in Hd as [Hc _].
    cbn [String.prefix]. destruct (ascii_dec _ _) as [<-|_]; [by vm_compute in Hc|done].
Qed.

Section Props.
Context `{Crypto}.

(** The bytes of a source read to the end. *)
Definition joined (chunks : list string) : string := foldl String.append EmptyString chunks.
Lemma receive_joined m acc chunks content :
  receive m acc chunks = Ok content → content = foldl String.append acc chunks.
Proof.
  revert acc. induction chunks as [|c chunks IH]; intros acc Hr; [by injection Hr|]. cbn [receive foldl] in *.
  destruct (match m with Some _ => _ | None => _ end); [done|]. by apply IH.
Qed.

(** Any calls of [put], whatever they answer. *)
Definition puts (s : artifact_store) (calls : list (list string * PutArgs)) : artifact_store :=
  foldl (fun s c => (put s c.1 c.2).1) s calls.

(** [put] leaves the store alone or adds one object under its digest. *)
Inductive put_effect (s : artifact_store) (content : string) : artifact_store → Prop :=
| PutKeeps : put_effect s content s
| PutAdds : at_objects s !! sha256_hex content = None →
    put_effect s content (with_object s (sha256_hex content) content).
#[local] Hint Constructors put_effect : core.
Lemma put_effect_of s chunks a : put_effect s (joined chunks) (put s chunks a).1.
Proof.
  unfold put. destruct (negb (put_args_ok a)); [done|]. unfold exclusive. destruct (at_closed s); [done|].
  destruct (receive _ _ chunks) as [content|] eqn:Er; [|done]. apply receive_joined in Er as ->.
  fold (joined chunks). destruct (match pa_sha256 a with Some d => _ | None => _ end); [done|].
  destruct (match pa_length a with Some n => _ | None => _ end); [done|]. unfold install.
  destruct (at_objects s !! sha256_hex (joined chunks)) eqn:Eo; [|by constructor].
  by destruct (_verify_object _ _ _).
Qed.

(** What [put] preserves: the identity of the store and every object in it. *)
Record extends (s s' : artifact_store) : Prop := {
  ex_objects : at_objects s ⊆ at_objects s';
  ex_same : at_key s' = at_key s ∧ at_store_id s' = at_store_id s ∧ at_closed s' = at_closed s;
  ex_sound : at_verify s = Ok tt → at_verify s' = Ok tt;
}.
#[local] Instance extends_preorder : PreOrder extends.
Proof.
  split; [intros s; by split|]. intros x y z [Ho (Hk & Hi & Hc) Hs] [Ho' (Hk' & Hi' & Hc') Hs'].
  split; [by etrans| |auto]. split_and!; congruence.
Qed.

Definition well_named (s : artifact_store) : Prop :=
  map_Forall (fun d c => is_digest d = true ∧ sha256_hex c = d) (at_objects s).
Lemma at_verify_ok s : at_verify s = Ok tt ↔ at_closed s = false ∧ well_named s.
Proof.
  unfold at_verify, exclusive, well_named. destruct (at_closed s); [by split; [|intros []]|].
  assert (forallb (fun dc => is_digest dc.1 && (sha256_hex dc.2 == dc.1)) (map_to_list (at_objects s)) = true
          ↔ map_Forall (fun d c => is_digest d = true ∧ sha256_hex c = d) (at_objects s)) as Hf.
  { rewrite forallb_forall, map_Forall_to_list, Forall_forall.
    split; intros Hall [d c] Hin; specialize (Hall (d, c)); rewrite list_elem_of_In in *; specialize (Hall Hin);
      cbn [fst snd uncurry] in *; [by breflect|]. destruct Hall as [-> ->]. by rewrite bool_decide_true. }
  destruct (forallb _ _); cbn [negb]; split; try done.
  - intros _. split; [done|]. by apply Hf.
  - intros [_ Hw%Hf]. done.
Qed.
Lemma put_effect_extends s content s' : put_effect s content s' → extends s s'.
Proof.
  intros [|Hn]; [done|]. split; [|done|].
  - by apply insert_subseteq.
  - intros [Hc Hw]%at_verify_ok. apply at_verify_ok. split; [done|]. cbn [with_object at_objects].
    apply map_Forall_insert_2; [|done]. split; [apply sha256_hex_digest|done].
Qed.
Lemma puts_extends calls s : extends s (puts s calls).
Proof.
  revert s. induction calls as [|[chunks a] calls IH]; intros s; [done|]. cbn [puts foldl].
  etrans; [|apply IH]. eapply put_effect_extends, put_effect_of.
Qed.

Lemma extends_opens s s' p content :
  extends s s' → open_verified s p = Ok content → open_verified s' p = Ok content.
Proof.
  intros [Ho (Hk & Hi & Hc) _]. unfold open_verified, exclusive. rewrite Hc. destruct (at_closed s); [done|].
  assert (_require_proof s' p = _require_proof s p) as ->
    by (unfold _require_proof, _proof_payload; by rewrite Hk, Hi).
  destruct (_require_proof s p) as [[]|]; [|done]. destruct (_object_path _) as [path|]; [|done]. intros Hr.
  destruct (open_verified_path_ok _ _ _ _ _ Hr) as (Hp & _ & _). revert Hr.
  unfold open_verified_path. by rewrite Hp, (lookup_weaken _ _ _ _ Hp Ho).
Qed.
Lemma opened_is_available s p content : open_verified s p = Ok content → verify_availability s p = Ok tt.
Proof.
  unfold open_verified, verify_availability, exclusive, _verify_object. destruct (at_closed s); [done|].
  destruct (_require_proof s p) as [[]|]; [|done]. destruct (_object_path _) as [path|]; [|done]. cbn.
  by intros ->.
Qed.

(** What a successful [put] leaves behind. *)
Lemma put_installed s chunks a s' p :
  put s chunks a = (s', Ok p) →
  ∃ reference kept, is_artifact_ref reference = true ∧
    p = _make_proof s' reference (sha256_hex (joined chunks)) (byte_len (joined chunks)) ∧
    at_closed s' = false ∧ at_objects s' !! sha256_hex (joined chunks) = Some kept ∧
    sha256_hex kept = sha256_hex (joined chunks) ∧ byte_len kept = byte_len (joined chunks) ∧
    (at_objects s !! sha256_hex (joined chunks) = None → kept = joined chunks).
Proof.
  intros Hp. pose proof (put_effect_of s chunks a) as He. rewrite Hp in He. cbn [fst] in He.
  revert Hp. unfold put. destruct (put_args_ok a) eqn:Ea; [|done]. cbn [negb]. unfold exclusive.
  destruct (at_closed s) eqn:Ec; [done|].
  destruct (receive _ _ chunks) as [content|] eqn:Er; [|done]. apply receive_joined in Er as ->.
  fold (joined chunks). destruct (match pa_sha256 a with Some d => _ | None => _ end); [done|].
  destruct (match pa_length a with Some n => _ | None => _ end); [done|].
  destruct (install _ _ _) as [s1|]; [|done].
  destruct (_verify_object s1 _ _) as [[]|] eqn:Ev; [|done]. intros [= -> <-].
  apply verify_object_ok in Ev as (Hd & kept & Hk & Hs & Hl).
  eexists _, kept. split_and!; try done.
  - destruct (pa_ref a) as [r|] eqn:Er; [|by apply made_reference_ok].
    unfold put_args_ok in Ea. rewrite Er in Ea. apply andb_true_iff in Ea as [_ Ea]. exact Ea.
  - inversion He as [E|_ E]; [congruence|exact Ec].
  - intros Hn. inversion He as [E|_ E]; [congruence|]. rewrite <- E in Hk. cbn [with_object at_objects] in Hk.
    rewrite lookup_insert in Hk. by destruct (decide _); [injection Hk|].
Qed.

(** [C24] What is put is what is served: the proof [put] answers names the
    content by its digest and length, and opens it and is confirmed as available
    whatever is put afterwards; the bytes are those given, unless another object of the same digest
    was there already.  No object is ever replaced, and a store that verifies
    goes on verifying. *)
Theorem stored_artifact_is_served s chunks a s' p calls :
  put s chunks a = (s', Ok p) →
  let content := joined chunks in
  let s'' := puts s' calls in
  pf_sha256 p = sha256_hex content ∧ pf_length p = byte_len content ∧ verify_availability s'' p = Ok tt ∧
  (∃ kept, open_verified s'' p = Ok kept ∧ sha256_hex kept = sha256_hex content ∧
     byte_len kept = byte_len content ∧ (at_objects s !! sha256_hex content = None → kept = content)) ∧
  at_objects s ⊆ at_objects s'' ∧ (at_verify s = Ok tt → at_verify s'' = Ok tt).
Proof.
  intros Hp content s''. destruct (put_installed _ _ _ _ _ Hp) as (r & kept & Hr & -> & Hc & Hk & Hs & Hl & Hn).
  assert (open_verified s' (_make_proof s' r (sha256_hex content) (byte_len content)) = Ok kept) as Ho.
  { unfold open_verified, exclusive. rewrite Hc, require_made_proof by (done || apply sha256_hex_digest || apply Zle_0_nat).
    cbn [pf_sha256 pf_length _make_proof]. unfold _object_path. rewrite sha256_hex_digest. cbn [negb].
    unfold open_verified_path. unfold content. by rewrite Hk, Hs, Hl, Z.eqb_refl, bool_decide_true. }
  apply (extends_opens _ s'') in Ho; [|apply puts_extends].
  assert (extends s s'') as [He _ Hv].
  { etrans; [|apply puts_extends]. pose proof (put_effect_of s chunks a) as E. rewrite Hp in E.
    by eapply put_effect_extends. }
  split_and!; try done; [by eapply opened_is_available|by exists kept].
Qed.
End Props.
