(* ===== verification/MemoryContracts.v ===== *)
(** * Memory records, src/eco_memory/contracts.py and its schemas

    A memory record describes one artifact of private memory: its namespace, its
    classes, where its bytes come from, what it supersedes, refutes or conflicts
    with, and, for a summary, the records it compacts.  Only whether a record has
    contract errors is modelled, not their texts. *)

From S2P Require Import Prelude Json Digest PyTime PyClock Schema RouteRecords ArtifactStore.
From Stdlib Require Import Ascii.

Definition MEMORY_API_VERSION := "memory.ai.ecosystem/v1alpha1".
Definition MEMORY_CONTRACT_PROFILE := "private-memory-contracts-v1alpha1".
Definition MEMORY_RECORD_DOMAIN := "eco-private-memory-record-v1alpha1".
Definition MEMORY_TYPES : list string :=
  ["fact"; "claim"; "decision"; "constraint"; "open-question"; "failed-approach"; "summary"].
Definition DATA_CLASSES : list string := ["D0"; "D1"; "D2"; "D3"].
Definition PRIVACY_LEVELS : list string := ["P0"; "P1"; "P2"; "P3"].
Definition LINK_RELATIONS : list string := ["supersedes"; "refutes"; "conflicts"].

(** ** common.schema.json and memory-record.schema.json *)

(** [minLength], [maxLength] and [pattern] of a string. *)
Definition bounded_text (max : nat) (pattern : string → bool) (s : string) : bool :=
  (1 <=? py_len s)%nat && (py_len s <=? max)%nat && search_pattern pattern s.
(** [^[A-Za-z0-9][A-Za-z0-9._:-]*$] *)
Definition is_safe_id (s : string) : bool :=
  match s with EmptyString => false | String c s' => is_alnum c && str_all is_ident_char s' end.
(** [^artifact://[A-Za-z0-9][A-Za-z0-9._:/-]*$] *)
Definition is_storage_ref (s : string) : bool :=
  startswith s artifact_prefix
  && match String.substring (String.length artifact_prefix) (String.length s) s with
     | EmptyString => false
     | String c s' => is_alnum c && str_all is_ref_char s'
     end.

Section Schemas.
Context `{FromIso}.

Definition memory_digest : schema := SStr (search_pattern is_digest).
Definition safe_id : schema := SStr (bounded_text 128 is_safe_id).
Definition artifact_schema : schema :=
  SObj ["storageRef"; "sha256"; "byteLength"]
    [("storageRef", SStr (bounded_text 4096 is_storage_ref)); ("sha256", memory_digest);
     ("byteLength", SRange 0 16777216)].
Definition namespace_schema : schema :=
  SObj ["projectId"; "teamId"; "runId"]
    [("projectId", safe_id); ("teamId", SOneOf safe_id SNull); ("runId", SOneOf safe_id SNull)].
Definition memory_time : schema := SStr is_date_time.
Definition memory_metadata_schema : schema :=
  SObj ["id"; "createdAt"; "recordDigest"]
    [("id", safe_id); ("createdAt", memory_time); ("recordDigest", memory_digest)].
Definition links_schema : schema :=
  SObj LINK_RELATIONS (map (fun name => (name, SArr 0 128 memory_digest)) LINK_RELATIONS).
Definition relation_schema : schema :=
  SObj ["from"; "relation"; "to"]
    [("from", memory_digest); ("relation", SEnum LINK_RELATIONS); ("to", memory_digest)].
Definition compaction_schema : schema :=
  SObj ["sourceRecordDigests"; "sourceArtifacts"; "preservedRelations"]
    [("sourceRecordDigests", SArr 1 256 memory_digest); ("sourceArtifacts", SArr 1 512 artifact_schema);
     ("preservedRelations", SArr 0 512 relation_schema)].
Definition memory_spec_schema : schema :=
  SObj ["namespace"; "memoryType"; "dataClass"; "privacyLevel"; "author"; "expiresAt";
        "contentArtifact"; "sourceArtifacts"; "links"; "compaction"]
    [("namespace", namespace_schema); ("memoryType", SEnum MEMORY_TYPES);
     ("dataClass", SEnum DATA_CLASSES); ("privacyLevel", SEnum PRIVACY_LEVELS); ("author", safe_id);
     ("expiresAt", SOneOf memory_time SNull); ("contentArtifact", artifact_schema);
     ("sourceArtifacts", SArr 1 128 artifact_schema); ("links", links_schema);
     ("compaction", SOneOf SNull compaction_schema)].
Definition memory_schema : schema :=
  SObj ["apiVersion"; "kind"; "metadata"; "spec"]
    [("apiVersion", SEnum [MEMORY_API_VERSION]); ("kind", SEnum ["MemoryRecord"]);
     ("metadata", memory_metadata_schema); ("spec", memory_spec_schema)].
End Schemas.

(** ** Reading a record *)

Record artifact : Type := { ar_ref : string; ar_sha256 : string; ar_length : Z }.
#[export] Instance artifact_eq_dec : EqDecision artifact.
Proof. solve_decision. Defined.
Definition as_artifact (o : list (string * json)) : option artifact :=
  r ← str_at "storageRef" o; d ← str_at "sha256" o; n ← int_at "byteLength" o;
  Some {| ar_ref := r; ar_sha256 := d; ar_length := n |}.
Definition artifact_json (a : artifact) : json :=
  JObj [("storageRef", JStr (ar_ref a)); ("sha256", JStr (ar_sha256 a)); ("byteLength", JInt (ar_length a))].

(** A relation: from, relation, to. *)
Definition link : Type := string * string * string.
Definition as_link (o : list (string * json)) : option link :=
  f ← str_at "from" o; r ← str_at "relation" o; t ← str_at "to" o; Some (f, r, t).
Definition link_json (l : link) : json :=
  JObj [("from", JStr l.1.1); ("relation", JStr l.1.2); ("to", JStr l.2)].

Record compaction : Type := {
  co_sources : list string; co_artifacts : list artifact; co_relations : list link;
}.
#[export] Instance compaction_eq_dec : EqDecision compaction.
Proof. solve_decision. Defined.
Definition as_compaction (o : list (string * json)) : option compaction :=
  ds ← strs_at "sourceRecordDigests" o; ao ← objs_at "sourceArtifacts" o; ars ← mapM as_artifact ao;
  ro ← objs_at "preservedRelations" o; rs ← mapM as_link ro;
  Some {| co_sources := ds; co_artifacts := ars; co_relations := rs |}.

(** [spec["links"]] *)
Record links : Type := { li_supersedes : list string; li_refutes : list string; li_conflicts : list string }.
#[export] Instance links_eq_dec : EqDecision links.
Proof. solve_decision. Defined.
Definition as_links (o : list (string * json)) : option links :=
  s ← strs_at "supersedes" o; r ← strs_at "refutes" o; c ← strs_at "conflicts" o;
  Some {| li_supersedes := s; li_refutes := r; li_conflicts := c |}.
(** [[(relation, target) for relation in LINK_RELATIONS for target in links[relation]]] *)
Definition link_pairs (l : links) : list (string * string) :=
  map (pair "supersedes") (li_supersedes l) ++ map (pair "refutes") (li_refutes l)
  ++ map (pair "conflicts") (li_conflicts l).

Record memory : Type := {
  mm_id : string; mm_created : string; mm_digest : string; mm_namespace : list (string * json);
  mm_type : string; mm_data_class : string; mm_privacy : string; mm_author : string;
  mm_expires : option string; mm_content : artifact; mm_artifacts : list artifact; mm_links : links;
  mm_compaction : option compaction;
}.
Definition as_memory (o : list (string * json)) : option memory :=
  m ← obj_at "metadata" o; i ← str_at "id" m; c ← str_at "createdAt" m; d ← str_at "recordDigest" m;
  sp ← obj_at "spec" o; ns ← obj_at "namespace" sp; ty ← str_at "memoryType" sp;
  dc ← str_at "dataClass" sp; pl ← str_at "privacyLevel" sp; au ← str_at "author" sp;
  ca ← obj_at "contentArtifact" sp; ca ← as_artifact ca;
  ao ← objs_at "sourceArtifacts" sp; ars ← mapM as_artifact ao;
  lo ← obj_at "links" sp; ls ← as_links lo; co ← opt_obj_at as_compaction "compaction" sp;
  Some {| mm_id := i; mm_created := c; mm_digest := d; mm_namespace := ns; mm_type := ty;
          mm_data_class := dc; mm_privacy := pl; mm_author := au; mm_expires := str_at "expiresAt" sp;
          mm_content := ca; mm_artifacts := ars; mm_links := ls; mm_compaction := co |}.

(** ** The orders of the contract *)

(** [key=lambda item: (item["sha256"], item["storageRef"])] *)
Definition artifact_leb (a b : artifact) : bool :=
  pair_leb (ar_sha256 a, ar_ref a) (ar_sha256 b, ar_ref b).
Definition _sorted_artifacts (l : list artifact) : list artifact := py_sorted artifact_leb l.
(** Tuples of three strings. *)
Definition link_leb (a b : link) : bool :=
  if a.1 == b.1 then String.leb a.2 b.2 else pair_leb a.1 b.1.
(** [sorted(set(values))] *)
Definition sorted_set (l : list string) : list string := sorted_strs (remove_dups l).
Definition sorted_links (l : list link) : list link := py_sorted link_leb (remove_dups l).

Section Contract.
Context `{FromIso} `{Crypto} `{Jsonschema}.

Definition memory_record_digest (record : list (string * json)) : string :=
  semantic_digest
    (JObj [("domain", JStr MEMORY_RECORD_DOMAIN); ("profile", JStr MEMORY_CONTRACT_PROFILE);
           ("record", JObj (undigested record))]).

(** [seal_memory_record] *)
Definition seal_memory_record (record : list (string * json)) : result json :=
  let digest := JStr (memory_record_digest record) in
  match jassoc "metadata" record with
  | Some (JObj metadata) =>
      Ok (JObj (dict_set "metadata" (JObj (dict_set "recordDigest" digest metadata)) record))
  | None => Ok (JObj (dict_set "metadata" (JObj [("recordDigest", digest)]) record))
  | Some _ => Err TypeError
  end.

(** [_parse_time(a) <= _parse_time(b)]; both were checked to be times. *)
Definition memory_time_le (a b : string) : bool :=
  match read_time a, read_time b with Some x, Some y => x <=? y | _, _ => false end.

Definition digests_ok (digest : string) (values : list string) : bool :=
  (values == sorted_set values) && negb (digest in? values).
Definition artifacts_ok (l : list artifact) : bool :=
  (l == _sorted_artifacts l) && bool_decide (NoDup (map ar_sha256 l)).
Definition compaction_ok (digest : string) (c : compaction) : bool :=
  digests_ok digest (co_sources c) && artifacts_ok (co_artifacts c)
  && (co_relations c == sorted_links (co_relations c))
  && forallb (fun r => r.1.1 in? co_sources c) (co_relations c).

(** The part of [memory_contract_errors] after the schema. *)
Definition memory_ok (m : memory) (record : list (string * json)) : bool :=
  (mm_digest m == memory_record_digest record)
  && match mm_expires m with Some e => negb (memory_time_le e (mm_created m)) | None => true end
  && digests_ok (mm_digest m) (li_supersedes (mm_links m))
  && digests_ok (mm_digest m) (li_refutes (mm_links m))
  && digests_ok (mm_digest m) (li_conflicts (mm_links m))
  && artifacts_ok (mm_artifacts m)
  && Bool.eqb (mm_type m == "summary") (is_some (mm_compaction m))
  && match mm_compaction m with Some c => compaction_ok (mm_digest m) c | None => true end.

(** [validate_memory_record]: the document, and the fields the callers read. *)
Definition validate_memory_record (document : json) : result (json * memory) :=
  match document with
  | JObj o =>
      raise ContractValidationError when (negb (is_valid memory_schema document)) else
      let! m := some_or KeyError (as_memory o) in
      raise ContractValidationError when (negb (memory_ok m o)) else Ok (document, m)
  | _ => Err ContractValidationError
  end.
End Contract.
