(* ===== verification/MemoryStore.v ===== *)
(** * The memory journal, src/eco_memory/store.py

    [PrivateMemoryStore] keeps sealed records in a SQLite file and their bytes in
    the artifact store.  The file has the records, a hash chain of their digests,
    and a metadata row with the head of the chain; rows are authenticated by HMAC.
    A call runs in one transaction, so a call that raises leaves the file as it
    was.  [_prepare_location], the integrity check of SQLite itself and the
    creation of the index are left out. *)

From S2P Require Import Prelude Json Digest PyTime PyClock Schema RouteRecords RouteConsumption ArtifactStore MemoryContracts.

Definition MEMORY_STORE_APPLICATION_ID : Z := 0x45434D36.
Definition MEMORY_STORE_SCHEMA_VERSION : Z := 1.
Definition MEMORY_STORE_DOMAIN := "eco-private-memory-store-v1".
Definition memory_error (code : string) : py_error := RuntimeStoreError code.
Definition unauthentic : py_error := memory_error "ECO_MEMORY_AUTHENTICATION_FAILED".
Definition unavailable : py_error := memory_error "ECO_MEMORY_STORE_UNAVAILABLE".

(** The rows of the tables. *)
Record record_row : Type := {
  rr_id : string; rr_digest : string; rr_namespace : string; rr_created : string;
  rr_expires : option string; rr_data_class : string; rr_privacy : string; rr_type : string;
  rr_json : string; rr_key_id : string; rr_hmac : string;
}.
Record journal_row : Type := {
  jr_sequence : Z; jr_digest : string; jr_previous : string; jr_hash : string; jr_key_id : string;
  jr_hmac : string;
}.
Record store_meta : Type := {
  sm_store_id : string; sm_schema_version : Z; sm_key_id : string; sm_head_sequence : Z;
  sm_head_hash : string; sm_hmac : string;
}.
Record memory_db : Type := {
  md_application_id : Z; md_user_version : Z; md_tables : bool; md_meta : option store_meta;
  md_records : list record_row; md_journal : list journal_row;
}.
Definition empty_memory_db : memory_db :=
  {| md_application_id := 0; md_user_version := 0; md_tables := false; md_meta := None;
     md_records := []; md_journal := [] |}.

(** A record read from the file, with its fields. *)
Notation loaded := (json * memory)%type.

Section Store.
Context `{FromIso} `{Crypto} `{Jsonschema}.

(** ** Helpers *)

Definition _namespace_key (namespace : list (string * json)) : string := canonical_json (JObj namespace).
(** [_preserved_relations] and, in retrieval.py, [_relations]. *)
Definition relations_of (m : memory) : list link :=
  map (fun rt => (mm_digest m, rt.1, rt.2)) (link_pairs (mm_links m))
  ++ match mm_compaction m with Some c => co_relations c | None => [] end.
Definition _artifact_binding (p : ArtifactAvailabilityProof) : artifact :=
  {| ar_ref := pf_ref p; ar_sha256 := pf_sha256 p; ar_length := pf_length p |}.

Definition _meta_payload (k : journal_key) (store_id : string) (head_sequence : Z) (head_hash : string) : json :=
  JObj [("domain", JStr MEMORY_STORE_DOMAIN); ("schemaVersion", JInt MEMORY_STORE_SCHEMA_VERSION);
        ("storeId", JStr store_id); ("keyId", JStr (jk_key_id k)); ("headSequence", JInt head_sequence);
        ("headHash", JStr head_hash)].
Definition record_payload (digest encoded : string) : json :=
  JObj [("domain", JStr MEMORY_STORE_DOMAIN); ("recordDigest", JStr digest); ("recordJson", JStr encoded)].
Definition journal_hash (sequence : Z) (digest previous : string) : string :=
  entry_hash (JObj [("domain", JStr MEMORY_STORE_DOMAIN); ("sequence", JInt sequence);
                    ("recordDigest", JStr digest); ("previousHash", JStr previous)]).
Definition journal_payload (hash : string) : json := JObj [("entryHash", JStr hash)].

(** [artifacts[binding["sha256"]] = binding], the values of the dict. *)
Definition by_sha (bindings : list artifact) : list artifact :=
  map snd (map_to_list (foldl (fun m b => <[ar_sha256 b := b]> m) (∅ : gmap string artifact) bindings)).
(** The bindings and relations of the sources of a compaction. *)
Definition bindings_of (sources : list memory) : list artifact :=
  _sorted_artifacts (by_sha (concat (map (fun m => mm_content m :: mm_artifacts m) sources))).
Definition links_of (sources : list memory) : list link :=
  sorted_links (concat (map relations_of sources)).
(** Instants of the expiries of [sources]; all are times. *)
Definition expiries (sources : list memory) : list Z := omap (fun m => mm_expires m ≫= read_time) sources.
Definition min_list (x : Z) (l : list Z) : Z := foldl Z.min x l.

(** ** Reading rows *)

Definition _verified_meta (k : journal_key) (db : memory_db) : result store_meta :=
  raise unavailable when (negb (md_tables db)) else
  match md_meta db with
  | None => Err unauthentic
  | Some m =>
      raise unauthentic when
        (negb (sm_schema_version m =? MEMORY_STORE_SCHEMA_VERSION) || (sm_key_id m != jk_key_id k)) else
      let! same := compare_digest (sm_hmac m)
                     (sign k (_meta_payload k (sm_store_id m) (sm_head_sequence m) (sm_head_hash m))) in
      raise unauthentic when (negb same) else Ok m
  end.

Definition _decode_record (row : record_row) : result loaded :=
  match json_loads (rr_json row) with
  | None => Err (memory_error "ECO_MEMORY_RECORD_INVALID")
  | Some document =>
      match validate_memory_record document with
      | Err ContractValidationError => Err (memory_error "ECO_MEMORY_RECORD_INVALID")
      | r => r
      end
  end.

Definition _verify_record_row (k : journal_key) (row : record_row) : result loaded :=
  let! ' (document, m) := _decode_record row in
  raise unauthentic when
    ((rr_digest row != mm_digest m) || (rr_id row != mm_id m)
     || (rr_namespace row != _namespace_key (mm_namespace m)) || (rr_key_id row != jk_key_id k)) else
  let! same := compare_digest (rr_hmac row) (sign k (record_payload (rr_digest row) (rr_json row))) in
  raise unauthentic when (negb same) else Ok (document, m).

(** [SELECT * FROM records WHERE record_digest = ?] *)
Definition find_digest (digest : string) (rows : list record_row) : option record_row :=
  List.find (fun r => rr_digest r == digest) rows.
Definition _load_digest_locked (k : journal_key) (db : memory_db) (digest : string)
  : result (option loaded) :=
  match find_digest digest (md_records db) with
  | None => Ok None
  | Some row => let! l := _verify_record_row k row in Ok (Some l)
  end.

(** The digests a record refers to. *)
Definition related (m : memory) : list string :=
  map snd (link_pairs (mm_links m))
  ++ match mm_compaction m with
     | Some c => co_sources c ++ concat (map (fun r => [r.1.1; r.2]) (co_relations c))
     | None => []
     end.
Definition link_invalid : py_error := memory_error "ECO_MEMORY_LINK_INVALID".
Definition load_related (k : journal_key) (db : memory_db) (namespace : string) (digest : string)
  : result (string * memory) :=
  let! record := _load_digest_locked k db digest in
  match record with
  | Some (_, m) => raise link_invalid when (_namespace_key (mm_namespace m) != namespace) else Ok (digest, m)
  | None => Err link_invalid
  end.

Definition compaction_invalid : py_error := memory_error "ECO_MEMORY_COMPACTION_INVALID".
(** The checks of a summary against its loaded sources. *)
Definition check_compaction (expires : option string) (c : compaction) (sources : list memory)
  : result unit :=
  raise compaction_invalid when
    ((co_artifacts c != bindings_of sources) || (co_relations c != links_of sources)) else
  match expiries sources with
  | [] => Ok tt
  | x :: l =>
      raise compaction_invalid when
        (match expires ≫= read_time with None => true | Some e => min_list x l <? e end) else Ok tt
  end.

Definition _require_related_locked (k : journal_key) (db : memory_db) (m : memory) : result unit :=
  let namespace := _namespace_key (mm_namespace m) in
  let! found := map_result (load_related k db namespace) (sorted_set (related m)) in
  match mm_compaction m with
  | None => Ok tt
  | Some c =>
      let! sources := map_result (fun d => some_or KeyError (assoc d found)) (co_sources c) in
      check_compaction (mm_expires m) c sources
  end.

(** Each object once, by digest: the first binding decides. *)
Fixpoint first_bindings (seen : list string) (l : list artifact) : list artifact :=
  match l with
  | [] => []
  | b :: l' =>
      if ar_sha256 b in? seen then first_bindings seen l'
      else b :: first_bindings (ar_sha256 b :: seen) l'
  end.
Definition all_bindings (m : memory) : list artifact :=
  mm_content m :: mm_artifacts m
  ++ match mm_compaction m with Some c => co_artifacts c | None => [] end.
Definition verify_binding (s : artifact_store) (b : artifact) : result unit :=
  verify_record s (ar_ref b) (ar_sha256 b) (ar_length b).
Definition _verify_artifact_bindings (s : artifact_store) (m : memory) : result unit :=
  let! _ := map_result (verify_binding s) (first_bindings [] (all_bindings m)) in Ok tt.

(** ** verify *)

Fixpoint verify_journal (k : journal_key) (digests : list string) (expected_sequence : Z)
    (previous : string) (rows : list journal_row) : result string :=
  match rows with
  | [] => Ok previous
  | row :: rows' =>
      let expected_hash := journal_hash expected_sequence (jr_digest row) previous in
      raise unauthentic when
        (negb (jr_sequence row =? expected_sequence) || negb (jr_digest row in? digests)
         || (jr_previous row != previous) || (jr_hash row != expected_hash)
         || (jr_key_id row != jk_key_id k)) else
      let! same := compare_digest (jr_hmac row) (sign k (journal_payload expected_hash)) in
      raise unauthentic when (negb same) else
      verify_journal k digests (expected_sequence + 1) expected_hash rows'
  end.

(** [ORDER BY record_digest] and [ORDER BY sequence] *)
Definition by_digest (rows : list record_row) : list record_row :=
  py_sorted (fun a b => String.leb (rr_digest a) (rr_digest b)) rows.
Definition in_sequence (rows : list journal_row) : list journal_row :=
  py_sorted (fun a b => jr_sequence a <=? jr_sequence b) rows.

Definition verify_locked (k : journal_key) (db : memory_db) : result (list loaded * string) :=
  let! meta := _verified_meta k db in
  let! documents := map_result (_verify_record_row k) (by_digest (md_records db)) in
  let journal := in_sequence (md_journal db) in
  let! previous := verify_journal k (map rr_digest (md_records db)) 1 GENESIS_DIGEST journal in
  raise unauthentic when
    (negb (length journal =? length documents)%nat
     || negb (sm_head_sequence meta =? Z.of_nat (length journal)) || (sm_head_hash meta != previous)) else
  let! _ := map_result (fun l => _require_related_locked k db l.2) documents in
  Ok (documents, previous).

(** An open store: [ms_closed] after [close()]. *)
Record PrivateMemoryStore : Type := { ms_key : journal_key; ms_closed : bool }.
Definition ms_close (s : PrivateMemoryStore) : PrivateMemoryStore :=
  {| ms_key := ms_key s; ms_closed := true |}.
Definition _transaction {A} (s : PrivateMemoryStore) (body : journal_key → result A) : result A :=
  raise (memory_error "ECO_MEMORY_STORE_CLOSED") when (ms_closed s) else body (ms_key s).

(** [verify(verify_artifacts=...)]: the record count and the head. *)
Definition ms_verify (s : PrivateMemoryStore) (art : artifact_store) (db : memory_db)
    (verify_artifacts : bool) : result (nat * string) :=
  let! ' (documents, previous) := _transaction s (fun k => verify_locked k db) in
  let! _ :=
    if verify_artifacts then map_result (fun l => _verify_artifact_bindings art l.2) documents else Ok [] in
  Ok (length documents, previous).

(** [PrivateMemoryStore(path, ...)]: an empty file gets its tables; [token] is
    [secrets.token_hex(16)]. *)
Definition mk_store_meta (k : journal_key) (store_id : string) (sequence : Z) (hash : string) : store_meta :=
  {| sm_store_id := store_id; sm_schema_version := MEMORY_STORE_SCHEMA_VERSION; sm_key_id := jk_key_id k;
     sm_head_sequence := sequence; sm_head_hash := hash;
     sm_hmac := sign k (_meta_payload k store_id sequence hash) |}.
Definition initialized (k : journal_key) (token : string) (db : memory_db) : result memory_db :=
  if (md_application_id db =? 0) && (md_user_version db =? 0) then
    raise unavailable when (md_tables db) else
    Ok {| md_application_id := MEMORY_STORE_APPLICATION_ID; md_user_version := MEMORY_STORE_SCHEMA_VERSION;
          md_tables := true; md_meta := Some (mk_store_meta k token 0 GENESIS_DIGEST); md_records := [];
          md_journal := [] |}
  else
    raise (memory_error "ECO_MEMORY_PROFILE_MISMATCH") when
      (negb (md_application_id db =? MEMORY_STORE_APPLICATION_ID)
       || negb (md_user_version db =? MEMORY_STORE_SCHEMA_VERSION)) else
    Ok db.
Definition open_memory (hmac_key key_id token : string) (art : artifact_store) (db : memory_db)
  : memory_db * result PrivateMemoryStore :=
  if (String.length hmac_key <? 32)%nat || negb (is_identifier key_id) then (db, Err ValueError)
  else
    let s := {| ms_key := {| jk_hmac_key := hmac_key; jk_key_id := key_id |}; ms_closed := false |} in
    match initialized (ms_key s) token db with
    | Err e => (db, Err e)
    | Ok db' => (db', let! _ := ms_verify s art db' false in Ok s)
    end.

(** ** append *)

Definition record_row_of (k : journal_key) (m : memory) (encoded : string) : record_row :=
  {| rr_id := mm_id m; rr_digest := mm_digest m; rr_namespace := _namespace_key (mm_namespace m);
     rr_created := mm_created m; rr_expires := mm_expires m; rr_data_class := mm_data_class m;
     rr_privacy := mm_privacy m; rr_type := mm_type m; rr_json := encoded; rr_key_id := jk_key_id k;
     rr_hmac := sign k (record_payload (mm_digest m) encoded) |}.
Definition journal_row_of (k : journal_key) (sequence : Z) (digest previous : string) : journal_row :=
  let hash := journal_hash sequence digest previous in
  {| jr_sequence := sequence; jr_digest := digest; jr_previous := previous; jr_hash := hash;
     jr_key_id := jk_key_id k; jr_hmac := sign k (journal_payload hash) |}.
(** [UPDATE store_meta SET head_sequence = ?, head_hash = ?, meta_hmac = ?] *)
Definition move_store_head (k : journal_key) (sequence : Z) (hash : string) (m : store_meta) : store_meta :=
  {| sm_store_id := sm_store_id m; sm_schema_version := sm_schema_version m; sm_key_id := sm_key_id m;
     sm_head_sequence := sequence; sm_head_hash := hash;
     sm_hmac := sign k (_meta_payload k (sm_store_id m) sequence hash) |}.

Definition append_locked (k : journal_key) (db : memory_db) (document : json) (m : memory)
  : result (memory_db * json) :=
  let encoded := canonical_json document in
  let digest := mm_digest m in
  let! meta := _verified_meta k db in
  match List.find (fun r => rr_id r == mm_id m) (md_records db) with
  | Some existing =>
      let! ' (existing_document, _) := _verify_record_row k existing in
      raise (memory_error "ECO_MEMORY_REPLAY_CONFLICT") when
        ((rr_digest existing != digest) || (rr_json existing != encoded)) else
      Ok (db, existing_document)
  | None =>
      let! _ := _require_related_locked k db m in
      (* UNIQUE (record_digest) of records *)
      raise unavailable when (digest in? map rr_digest (md_records db)) else
      let sequence := sm_head_sequence meta + 1 in
      let row := journal_row_of k sequence digest (sm_head_hash meta) in
      raise OverflowError when (negb (int64 sequence)) else
      (* PRIMARY KEY (sequence) and UNIQUE (record_digest) of journal *)
      raise unavailable when
        (bool_decide (sequence ∈ map jr_sequence (md_journal db))
         || (digest in? map jr_digest (md_journal db))) else
      Ok ({| md_application_id := md_application_id db; md_user_version := md_user_version db;
             md_tables := md_tables db; md_meta := move_store_head k sequence (jr_hash row) <$> md_meta db;
             md_records := md_records db ++ [record_row_of k m encoded];
             md_journal := md_journal db ++ [row] |}, document)
  end.

Definition ms_append (s : PrivateMemoryStore) (art : artifact_store) (db : memory_db)
    (record : list (string * json)) : memory_db * result json :=
  match
    (let! ' (document, m) := validate_memory_record (JObj record) in
     let! _ := _verify_artifact_bindings art m in
     _transaction s (fun k => append_locked k db document m))
  with
  | Ok (db', document) => (db', Ok document)
  | Err e => (db, Err e)
  end.

(** ** Reads *)

Definition ms_get (s : PrivateMemoryStore) (art : artifact_store) (db : memory_db) (digest : string)
    (verify_artifacts : bool) : result loaded :=
  let! found := _transaction s (fun k =>
    let! _ := _verified_meta k db in _load_digest_locked k db digest) in
  match found with
  | None => Err (memory_error "ECO_MEMORY_NOT_FOUND")
  | Some (document, m) =>
      let! _ := if verify_artifacts then _verify_artifact_bindings art m else Ok tt in Ok (document, m)
  end.

(** [ORDER BY created_at DESC, record_digest ASC] *)
Definition recent_first (a b : record_row) : bool :=
  if rr_created a == rr_created b then String.leb (rr_digest a) (rr_digest b)
  else String.leb (rr_created b) (rr_created a).
Definition namespace_records (s : PrivateMemoryStore) (db : memory_db) (namespace : list (string * json))
  : result (list loaded) :=
  _transaction s (fun k =>
    let! _ := _verified_meta k db in
    map_result (_verify_record_row k)
      (py_sorted recent_first
         (List.filter (fun r => rr_namespace r == _namespace_key namespace) (md_records db)))).

Definition read_content (s : PrivateMemoryStore) (art : artifact_store) (db : memory_db) (record : json)
  : result string :=
  let! ' (document, m) := validate_memory_record record in
  let! ' (authenticated, am) := ms_get s art db (mm_digest m) false in
  raise unauthentic when (negb (py_eq authenticated document)) else
  let binding := mm_content am in
  let! proof := proof_for_record art (ar_ref binding) (ar_sha256 binding) (ar_length binding) in
  open_verified art proof.

(** ** put_memory *)

Definition clock_invalid : py_error := memory_error "ECO_MEMORY_CLOCK_INVALID".
(** [_utc(value)] *)
Definition _utc (v : datetime) : result string :=
  match astimezone_utc v with
  | None => Err clock_invalid
  | Some r => let! t := r in Ok (timestamp t)
  end.
(** [created_at + ttl], as an instant: the addition is on local time. *)
Definition after_ttl (v : datetime) (ttl : Z) : result Z :=
  raise OverflowError when
    (negb (in_range (instant v + default 0 (utcoffset v) * 1000000 + ttl))) else Ok (instant v + ttl).

Definition compaction_json (c : compaction) : json :=
  JObj [("sourceRecordDigests", JArr (map JStr (co_sources c)));
        ("sourceArtifacts", JArr (map artifact_json (co_artifacts c)));
        ("preservedRelations", JArr (map link_json (co_relations c)))].
Definition links_json (l : links) : json :=
  JObj [("supersedes", JArr (map JStr (li_supersedes l))); ("refutes", JArr (map JStr (li_refutes l)));
        ("conflicts", JArr (map JStr (li_conflicts l)))].
(** The document [put_memory] and [compact] seal: the digest of [m] is not used. *)
Definition memory_items (m : memory) : list (string * json) :=
  [("apiVersion", JStr MEMORY_API_VERSION); ("kind", JStr "MemoryRecord");
   ("metadata", JObj [("id", JStr (mm_id m)); ("createdAt", JStr (mm_created m))]);
   ("spec",
     JObj [("namespace", JObj (mm_namespace m)); ("memoryType", JStr (mm_type m));
           ("dataClass", JStr (mm_data_class m)); ("privacyLevel", JStr (mm_privacy m));
           ("author", JStr (mm_author m)); ("expiresAt", json_of_optstr (mm_expires m));
           ("contentArtifact", artifact_json (mm_content m));
           ("sourceArtifacts", JArr (map artifact_json (mm_artifacts m)));
           ("links", links_json (mm_links m));
           ("compaction", match mm_compaction m with Some c => compaction_json c | None => JNull end)])].

Definition seal_and_append (s : PrivateMemoryStore) (art : artifact_store) (db : memory_db) (m : memory)
  : memory_db * result json :=
  match seal_memory_record (memory_items m) with
  | Ok (JObj record) => ms_append s art db record
  | Ok _ => (db, Err TypeError)
  | Err e => (db, Err e)
  end.

(** Keyword arguments of [put_memory]; a duration is in microseconds. *)
Record PutMemory : Type := {
  pm_id : string; pm_namespace : list (string * json); pm_type : string; pm_data_class : string;
  pm_privacy : string; pm_author : string; pm_created : datetime; pm_content : string;
  pm_proofs : list ArtifactAvailabilityProof; pm_ttl : option Z; pm_links : list (string * list string);
  pm_max : Z;
}.
(** [sorted(set(relation_values.get(relation, ())))] *)
Definition links_at (relation : string) (l : list (string * list string)) : list string :=
  sorted_set (default [] (assoc relation l)).

Definition put_memory (s : PrivateMemoryStore) (art : artifact_store) (db : memory_db) (a : PutMemory)
  : artifact_store * memory_db * result json :=
  match pm_proofs a with
  | [] => (art, db, Err (memory_error "ECO_MEMORY_PROVENANCE_REQUIRED"))
  | _ =>
      let '(art', content) := put art [pm_content a] (put_defaults (pm_max a)) in
      match
        (let! proof := content in
         let! _ := map_result (verify_availability art') (pm_proofs a) in
         let! expires :=
           match pm_ttl a with
           | None => Ok None
           | Some ttl =>
               let! t := after_ttl (pm_created a) ttl in
               raise clock_invalid when (negb (is_some (utcoffset (pm_created a)))) else
               let! t := utc_of t in Ok (Some (timestamp t))
           end in
         let! created := _utc (pm_created a) in
         Ok {| mm_id := pm_id a; mm_created := created; mm_digest := EmptyString;
               mm_namespace := pm_namespace a; mm_type := pm_type a; mm_data_class := pm_data_class a;
               mm_privacy := pm_privacy a; mm_author := pm_author a; mm_expires := expires;
               mm_content := _artifact_binding proof;
               mm_artifacts := _sorted_artifacts (map _artifact_binding (pm_proofs a));
               mm_links := {| li_supersedes := links_at "supersedes" (pm_links a);
                              li_refutes := links_at "refutes" (pm_links a);
                              li_conflicts := links_at "conflicts" (pm_links a) |};
               mm_compaction := None |})
      with
      | Err e => (art', db, Err e)
      | Ok m => let x := seal_and_append s art' db m in (art', x.1, x.2)
      end
  end.

(** ** compact and expand_summary *)

Record Compact : Type := {
  cp_id : string; cp_sources : list string; cp_content : string; cp_author : string;
  cp_created : datetime; cp_ttl : option Z; cp_max : Z;
}.
(** [expires_at]: a naive [created_at] cannot be compared with the expiry of a source. *)
Definition effective_expiry (v : datetime) (ttl : option Z) (sources : list Z) : result (option string) :=
  let! own := match ttl with None => Ok [] | Some d => let! t := after_ttl v d in Ok [t] end in
  match sources ++ own with
  | [] => Ok None
  | x :: l =>
      raise TypeError when (negb (is_some (utcoffset v)) && bool_decide (sources ≠ [])) else
      let t := min_list x l in
      raise (memory_error "ECO_MEMORY_COMPACTION_EXPIRED") when (t <=? instant v) else
      raise clock_invalid when (negb (is_some (utcoffset v))) else
      let! t := utc_of t in Ok (Some (timestamp t))
  end.
(** [max(l)] of texts *)
Definition max_text (x : string) (l : list string) : string :=
  foldl (fun a b => if String.leb a b then b else a) x l.

(** The record [compact] seals, once its sources are loaded. *)
Definition summary_of_sources (a : Compact) (digests : list string) (first : memory) (sources : list memory)
    (proof : ArtifactAvailabilityProof) (expires : option string) (created : string) : memory :=
  let artifacts := bindings_of sources in
  {| mm_id := cp_id a; mm_created := created; mm_digest := EmptyString; mm_namespace := mm_namespace first;
     mm_type := "summary"; mm_data_class := max_text (mm_data_class first) (map mm_data_class sources);
     mm_privacy := max_text (mm_privacy first) (map mm_privacy sources); mm_author := cp_author a;
     mm_expires := expires; mm_content := _artifact_binding proof; mm_artifacts := artifacts;
     mm_links := {| li_supersedes := []; li_refutes := []; li_conflicts := [] |};
     mm_compaction := Some {| co_sources := digests; co_artifacts := artifacts;
                              co_relations := links_of sources |} |}.
Definition compacted_sources (m : memory) : list string :=
  match mm_compaction m with Some c => co_sources c | None => [] end.

Definition compact (s : PrivateMemoryStore) (art : artifact_store) (db : memory_db) (a : Compact)
  : artifact_store * memory_db * result json :=
  let digests := sorted_set (cp_sources a) in
  match
    (raise compaction_invalid when (bool_decide (digests = [])) else
     map_result (fun d => ms_get s art db d true) digests)
  with
  | Err e => (art, db, Err e)
  | Ok [] => (art, db, Err compaction_invalid)
  | Ok (((_, first) :: _) as found) =>
      let sources := map snd found in
      if existsb (fun m => negb (py_eq (JObj (mm_namespace m)) (JObj (mm_namespace first)))) sources
      then (art, db, Err compaction_invalid)
      else
        let digests := sorted_set (digests ++ concat (map compacted_sources sources)) in
        let '(art', content) := put art [cp_content a] (put_defaults (cp_max a)) in
        match
          (let! proof := content in
           let! expires := effective_expiry (cp_created a) (cp_ttl a) (expiries sources) in
           let! created := _utc (cp_created a) in
           Ok (summary_of_sources a digests first sources proof expires created))
        with
        | Err e => (art', db, Err e)
        | Ok m => let x := seal_and_append s art' db m in (art', x.1, x.2)
        end
  end.

Record expanded : Type := {
  ex_summary : loaded; ex_records : list loaded; ex_artifacts : list artifact; ex_relations : list link;
}.
Definition expand_summary (s : PrivateMemoryStore) (art : artifact_store) (db : memory_db) (digest : string)
  : result expanded :=
  let! ' (document, m) := ms_get s art db digest true in
  match mm_compaction m with
  | None => Err (memory_error "ECO_MEMORY_NOT_SUMMARY")
  | Some c =>
      let! records := map_result (fun d => ms_get s art db d true) (co_sources c) in
      Ok {| ex_summary := (document, m); ex_records := records; ex_artifacts := co_artifacts c;
            ex_relations := co_relations c |}
  end.
End Store.
