(* ===== verification/MemoryRetrieval.v ===== *)
(** * Retrieval of memory, src/eco_memory/retrieval.py

    [retrieve_memory] selects records of one namespace for a context: those the
    query and the caller's policy admit, newest first, within three budgets.
    Records that refute or conflict with each other are selected together or not
    at all, which the code obtains from two searches of a graph: [block] spreads
    from the records whose counterpart is not visible, and [visit] collects a
    connected component. *)

From S2P Require Import Prelude Json Digest PyTime PyClock PyFloat Schema RouteRecords RouteConsumption ArtifactStore MemoryContracts MemoryStore.

(** [MemoryReadPolicy.allows]: [None] when it raises or does not answer a bool. *)
Definition MemoryReadPolicy : Type := memory → option bool.

(** A tuple of names is a non-empty subset of those that exist. *)
Definition explicit_subset (names known : list string) : bool :=
  bool_decide (names ≠ []) && forallb (fun x => x in? known) names.

Record ExplicitMemoryReadPolicy : Type := {
  ep_data_classes : list string; ep_privacy_levels : list string; ep_authors : option (list string);
}.
Definition new_explicit_policy (p : ExplicitMemoryReadPolicy) : result ExplicitMemoryReadPolicy :=
  raise ValueError when (negb (explicit_subset (ep_data_classes p) DATA_CLASSES)) else
  raise ValueError when (negb (explicit_subset (ep_privacy_levels p) PRIVACY_LEVELS)) else Ok p.
Definition explicit_allows (p : ExplicitMemoryReadPolicy) : MemoryReadPolicy := fun m =>
  Some ((mm_data_class m in? ep_data_classes p) && (mm_privacy m in? ep_privacy_levels p)
        && match ep_authors p with Some authors => mm_author m in? authors | None => true end).

Record MemoryQuery : Type := {
  mq_namespace : list (string * json); mq_data_classes : list string; mq_privacy_levels : list string;
  mq_types : list string; mq_max_items : Z; mq_max_bytes : Z; mq_max_tokens : Z;
}.
(** [MemoryQuery.__post_init__] *)
Definition new_query (q : MemoryQuery) : result MemoryQuery :=
  raise ValueError when
    (list_to_set (C := gset string) (mq_namespace q).*1 != {["projectId"; "teamId"; "runId"]}) else
  raise ValueError when (negb (explicit_subset (mq_data_classes q) DATA_CLASSES)) else
  raise ValueError when (negb (explicit_subset (mq_privacy_levels q) PRIVACY_LEVELS)) else
  raise ValueError when (negb (explicit_subset (mq_types q) MEMORY_TYPES)) else
  raise ValueError when (existsb (fun n => n <? 0) [mq_max_items q; mq_max_bytes q; mq_max_tokens q]) else
  Ok q.

Record MemoryHit : Type := { mh_record : json; mh_content : string }.
(** A relation of the answer and, when a summary preserved it, the summary. *)
Definition answer_relation : Type := link * option string.
Record MemoryRetrievalResult : Type := {
  mt_hits : list MemoryHit; mt_relations : list answer_relation; mt_used_bytes : Z;
  mt_estimated_tokens : Z; mt_truncated : bool;
}.

(** The content-free view of an answer. *)
Definition relation_json (r : answer_relation) : json :=
  JObj ([("from", JStr r.1.1.1); ("relation", JStr r.1.1.2); ("to", JStr r.1.2)]
        ++ match r.2 with Some d => [("preservedBy", JStr d)] | None => [] end).
Definition public_binding (h : MemoryHit) : option json :=
  m ← match mh_record h with JObj o => as_memory o | _ => None end;
  Some (JObj [("recordDigest", JStr (mm_digest m)); ("memoryType", JStr (mm_type m));
              ("dataClass", JStr (mm_data_class m)); ("privacyLevel", JStr (mm_privacy m));
              ("contentArtifact", artifact_json (mm_content m));
              ("sourceArtifacts", JArr (map artifact_json (mm_artifacts m)))]).
Definition as_public_dict (r : MemoryRetrievalResult) : option json :=
  hits ← mapM public_binding (mt_hits r);
  Some (JObj [("hits", JArr hits); ("relations", JArr (map relation_json (mt_relations r)));
              ("usedItems", JInt (Z.of_nat (length (mt_hits r)))); ("usedBytes", JInt (mt_used_bytes r));
              ("estimatedTokens", JInt (mt_estimated_tokens r)); ("truncated", JBool (mt_truncated r))]).

(** ** The graph of contested records *)

Notation graph := (gmap string (gset string)).
Definition neighbours (g : graph) (d : string) : list string := elements (default ∅ (g !! d)).

(** One turn of the loop over [all_relations]; [visible] are the keys of [eligible]. *)
Definition contests (relation : string) : bool := relation in? ["refutes"; "conflicts"].
Definition add_edge (source target : string) (g : graph) : graph :=
  match g !! source with Some s => <[source := {[target]} ∪ s]> g | None => g end.
Definition relate (visible : gset string) (gb : graph * gset string) (r : link) : graph * gset string :=
  let '(source, relation, target) := r in
  if negb (contests relation) then gb
  else if bool_decide (source ∈ visible) then
    if bool_decide (target ∈ visible) then
      (add_edge target source (add_edge source target gb.1), gb.2)
    else (gb.1, {[source]} ∪ gb.2)
  else if bool_decide (target ∈ visible) then (gb.1, {[target]} ∪ gb.2) else gb.
Definition contested (visible : gset string) (relations : list link) : graph * gset string :=
  foldl (relate visible) (gset_to_gmap ∅ visible, ∅) relations.

(** [while stack: ...]: the stack's top is the head of the list.  Every digest is
    pushed once, so the number of digests is fuel enough. *)
Definition push_new (blocked : gset string) (stack ns : list string) : gset string * list string :=
  foldl (fun bs n => if bool_decide (n ∈ bs.1) then bs else ({[n]} ∪ bs.1, n :: bs.2)) (blocked, stack) ns.
Fixpoint block (fuel : nat) (g : graph) (blocked : gset string) (stack : list string) : gset string :=
  match fuel, stack with
  | S fuel', d :: stack' =>
      let bs := push_new blocked stack' (neighbours g d) in block fuel' g bs.1 bs.2
  | _, _ => blocked
  end.
Definition all_blocked (g : graph) (blocked : gset string) : gset string :=
  block (size blocked + size (dom g)) g blocked (elements blocked).

(** The graph without the blocked records. *)
Definition unblocked (g : graph) (blocked : gset string) : graph :=
  (fun ns => ns ∖ blocked) <$> filter (fun dn => dn.1 ∉ blocked) g.

(** [stack.extend(sorted(..., reverse=True))]: the least neighbour is popped first. *)
Fixpoint visit (fuel : nat) (g : graph) (component : gset string) (stack : list string) : gset string :=
  match fuel, stack with
  | S fuel', d :: stack' =>
      if bool_decide (d ∈ component) then visit fuel' g component stack'
      else visit fuel' g ({[d]} ∪ component) (sorted_strs (neighbours g d) ++ stack')
  | _, _ => component
  end.
(** A digest is expanded once, so there are at most one push per edge and one more. *)
Definition edges (g : graph) : nat := map_fold (fun _ ns n => size ns + n)%nat 0%nat g.
Definition component_of (g : graph) (seed : string) : gset string :=
  visit (S (edges g)) g ∅ [seed].

(** [while unseen: seed = min(unseen) ...] *)
Fixpoint components (fuel : nat) (g : graph) (unseen : gset string) : list (list string) :=
  match fuel, sorted_strs (elements unseen) with
  | S fuel', seed :: _ =>
      let component := component_of g seed in
      sorted_strs (elements component) :: components fuel' g (unseen ∖ component)
  | _, _ => []
  end.

(** ** Selection *)

Section Retrieval.
Context `{FromIso} `{Crypto} `{Jsonschema}.

Definition is_eligible (q : MemoryQuery) (by_digest : gmap string memory) (allowed : gmap string bool)
    (now : Z) (m : memory) : bool :=
  let admits m := (mm_data_class m in? mq_data_classes q) && (mm_privacy m in? mq_privacy_levels q) in
  let permitted d := default false (allowed !! d) in
  admits m && (mm_type m in? mq_types q) && permitted (mm_digest m)
  && match mm_expires m with
     | Some e => match read_time e with Some t => now <? t | None => false end
     | None => true
     end
  && match mm_compaction m with
     | None => true
     | Some c =>
         forallb (fun target =>
             match by_digest !! target with
             | Some other => permitted target && admits other
             | None => false
             end)
           (co_sources c ++ map (fun r => r.2) (co_relations c))
     end.

(** [datetime.timestamp()] of [createdAt], in units of [2 ^ -80] seconds. *)
Definition created_seconds (m : memory) : Z := posix_seconds (default 0 (read_time (mm_created m))).
(** [(-seconds, digest)], the key of records and of components. *)
Definition newer_first (a b : Z * string) : bool :=
  if a.1 =? b.1 then String.leb a.2 b.2 else b.1 <? a.1.
Definition record_key (eligible : gmap string memory) (d : string) : Z * string :=
  (match eligible !! d with Some m => created_seconds m | None => 0 end, d).
Definition component_key (eligible : gmap string memory) (component : list string) : Z * string :=
  match component with
  | [] => (0, EmptyString)                              (* components are not empty *)
  | d :: ds => (foldl Z.max (record_key eligible d).1 (map (fun x => (record_key eligible x).1) ds), d)
  end.
Definition length_of (eligible : gmap string memory) (d : string) : Z :=
  match eligible !! d with Some m => ar_length (mm_content m) | None => 0 end.
Definition component_bytes (eligible : gmap string memory) (component : list string) : Z :=
  foldl Z.add 0 (map (length_of eligible) component).

Record selection : Type := { sl_selected : list string; sl_bytes : Z; sl_tokens : Z; sl_truncated : bool }.
Definition take_component (q : MemoryQuery) (eligible : gmap string memory) (s : selection)
    (component : list string) : selection :=
  let bytes := component_bytes eligible component in
  if (mq_max_items q <? Z.of_nat (length (sl_selected s) + length component))
     || (mq_max_bytes q <? sl_bytes s + bytes) || (mq_max_tokens q <? sl_tokens s + bytes)
  then {| sl_selected := sl_selected s; sl_bytes := sl_bytes s; sl_tokens := sl_tokens s;
          sl_truncated := true |}
  else {| sl_selected := sl_selected s ++ component; sl_bytes := sl_bytes s + bytes;
          sl_tokens := sl_tokens s + bytes; sl_truncated := sl_truncated s |}.

(** Everything between reading the records and reading their contents. *)
Definition select_memory (q : MemoryQuery) (eligible : gmap string memory) (relations : list link)
  : selection :=
  let gb := contested (dom eligible) relations in
  let blocked := all_blocked gb.1 gb.2 in
  let visible := filter (fun dm => dm.1 ∉ blocked) eligible in
  let g := unblocked gb.1 blocked in
  let comps := components (size visible) g (dom visible) in
  let ordered := py_sorted (fun a b => newer_first (component_key visible a) (component_key visible b)) comps in
  let s := foldl (take_component q visible)
             {| sl_selected := []; sl_bytes := 0; sl_tokens := 0;
                sl_truncated := bool_decide (blocked ≠ ∅) |} ordered in
  {| sl_selected := py_sorted (fun a b => newer_first (record_key visible a) (record_key visible b)) (sl_selected s);
     sl_bytes := sl_bytes s; sl_tokens := sl_tokens s; sl_truncated := sl_truncated s |}.

(** [relation_items], sorted. *)
Definition relation_leb (a b : answer_relation) : bool :=
  if a.1 == b.1 then String.leb (default EmptyString a.2) (default EmptyString b.2) else link_leb a.1 b.1.
Definition relation_items (eligible : gmap string memory) (relations : list link) (selected : list string)
  : list answer_relation :=
  py_sorted relation_leb
    (map (fun r => (r, None))
       (List.filter (fun r => (r.1.1 in? selected) && (r.2 in? selected)) (sorted_links relations))
     ++ concat (map (fun d =>
          match eligible !! d ≫= mm_compaction with
          | Some c => map (fun r => (r, Some d)) (co_relations c)
          | None => []
          end) selected)).

(** [{record["metadata"]["recordDigest"]: ... for record in records}] *)
Definition by_record_digest {A} (f : loaded → A) (records : list loaded) : gmap string A :=
  list_to_map (map (fun l => (mm_digest l.2, f l)) records).
(** The loop that fills [eligible]. *)
Definition eligible_records (q : MemoryQuery) (by_digest : gmap string memory) (allowed : gmap string bool)
    (now : Z) : gmap string memory :=
  filter (fun dm : string * memory => is_eligible q by_digest allowed now dm.2 = true) by_digest.

(** [_policy_allows] on every record. *)
Definition _policy_allows (policy : MemoryReadPolicy) (m : memory) : result (string * bool) :=
  match policy m with
  | Some decision => Ok (mm_digest m, decision)
  | None => Err (RuntimePolicyError "ECO_MEMORY_POLICY_FAILED")
  end.

Definition retrieve_memory (s : PrivateMemoryStore) (art : artifact_store) (db : memory_db)
    (q : MemoryQuery) (policy : MemoryReadPolicy) (now : datetime) : result MemoryRetrievalResult :=
  match astimezone_utc now with
  | None => Err (memory_error "ECO_MEMORY_CLOCK_INVALID")
  | Some current =>
      let! current := current in
      let! records := namespace_records s db (mq_namespace q) in
      let documents := by_record_digest fst records in
      let by_digest := by_record_digest snd records in
      let! decisions := map_result (fun l => _policy_allows policy l.2) records in
      let allowed : gmap string bool := list_to_map decisions in
      let eligible := eligible_records q by_digest allowed current in
      let all_relations := remove_dups (concat (map (fun l => relations_of l.2) records)) in
      let chosen := select_memory q eligible all_relations in
      let! hits :=
        map_result (fun d =>
            let! document := some_or KeyError (documents !! d) in
            let! content := read_content s art db document in
            Ok {| mh_record := document; mh_content := content |}) (sl_selected chosen) in
      Ok {| mt_hits := hits; mt_relations := relation_items eligible all_relations (sl_selected chosen);
            mt_used_bytes := sl_bytes chosen; mt_estimated_tokens := sl_tokens chosen;
            mt_truncated := sl_truncated chosen |}
  end.
End Retrieval.
