(* ===== verification/MemoryGraph.v ===== *)
(** * Facts about the graph of contested records

    [block] computes a set closed under the graph, [component_of] a connected
    component, [components] a partition; their fuel is enough. *)

From S2P Require Import Prelude Json Digest PyTime PyClock PyFloat Schema RouteRecords ArtifactStore MemoryContracts MemoryStore MemoryRetrieval.

(** A set of digests that no edge leaves. *)
Definition closed (g : graph) (P : string → Prop) : Prop :=
  ∀ d n, P d → n ∈ neighbours g d → P n.
(** Edges have both directions and stay in the graph. *)
Definition undirected (g : graph) : Prop :=
  ∀ d n, n ∈ neighbours g d → d ∈ neighbours g n ∧ n ∈ dom g.
(** [d] and [n] are joined by a path. *)
Definition joined (g : graph) : relation string := rtc (fun d n => n ∈ neighbours g d).

Lemma elem_of_neighbours g d n : n ∈ neighbours g d ↔ ∃ ns, g !! d = Some ns ∧ n ∈ ns.
Proof.
  unfold neighbours. rewrite elem_of_elements. destruct (g !! d) as [ns|]; cbn [default from_option].
  - split; [by exists ns|]. by intros (? & [= ->] & ?).
  - split; [by intros ?%elem_of_empty|]. by intros (? & ? & ?).
Qed.
Lemma closed_joined g (P : string → Prop) d n : closed g P → joined g d n → P d → P n.
Proof. intros Hc. induction 1; eauto. Qed.
Lemma undirected_closed_compl g (P : string → Prop) :
  undirected g → closed g P → closed g (fun d => ¬ P d).
Proof. intros Hu Hc d n Hd Hn Hp. apply Hd, (Hc n); [done|]. by apply Hu. Qed.

Lemma joined_sym g d n : undirected g → joined g d n → joined g n d.
Proof.
  intros Hu. induction 1 as [|x y z Hxy _ IH]; [constructor|]. eapply rtc_r; [done|]. by apply Hu.
Qed.

(** ** Spreading from the blocked records *)

Lemma push_new_spec U ns : ∀ (blocked : gset string) stack b' st',
  (∀ n, n ∈ ns → n ∈ U) →
  push_new blocked stack ns = (b', st') →
  blocked ⊆ b' ∧ (∀ n, n ∈ ns → n ∈ b') ∧ (∀ x, x ∈ b' ↔ x ∈ blocked ∨ x ∈ ns) ∧
  (∀ x, x ∈ st' ↔ x ∈ stack ∨ (x ∈ b' ∧ x ∉ blocked)) ∧
  (length st' + size (U ∖ b') = length stack + size (U ∖ blocked))%nat.
Proof.
  unfold push_new. induction ns as [|n ns IH]; intros blocked stack b' st' HU Hp; cbn [foldl] in Hp.
  { injection Hp as <- <-. split_and!; [done|by intros ? ?%elem_of_nil| | |done]; intros x.
    - rewrite elem_of_nil. tauto.
    - tauto. }
  cbn [fst snd] in Hp. assert (∀ m, m ∈ ns → m ∈ U) as HU' by (intros m Hm; apply HU; by right).
  case_bool_decide as Hn; apply IH in Hp as (H1 & H2 & H3 & H4 & H5); try done; clear IH.
  - split_and!; [done| | |done..].
    + intros m [->|Hm]%elem_of_cons; auto.
    + intros x. rewrite H3, elem_of_cons. split; [tauto|]. intros [?|[->|?]]; tauto.
  - assert (∀ x, x ∈ {[n]} ∪ blocked ↔ x = n ∨ x ∈ blocked) as Hx
      by (intros x; by rewrite elem_of_union, elem_of_singleton).
    split_and!.
    + intros x Hb. apply H1, Hx. by right.
    + intros m [->|Hm]%elem_of_cons; [|auto]. apply H1, Hx. by left.
    + intros x. rewrite H3, Hx, elem_of_cons. tauto.
    + intros x. rewrite H4, elem_of_cons, Hx. split; [|destruct (decide (x = n)); tauto].
      intros [[->|?]|[? ?]]; [|tauto..]. right. split; [|done]. apply H1, Hx. by left.
    + rewrite H5. cbn [length].
      assert (size (U ∖ blocked) = S (size (U ∖ ({[n]} ∪ blocked)))) as ->; [|lia].
      replace (U ∖ blocked) with ({[n]} ∪ (U ∖ ({[n]} ∪ blocked))).
      2:{ assert (n ∈ U) by (apply HU; left). clear -Hn H. apply set_eq. intros x.
          destruct (decide (x = n)); set_solver. }
      rewrite size_union by (clear; set_solver). by rewrite size_singleton.
Qed.

Lemma block_spec U g fuel : ∀ blocked stack,
  (∀ d n, n ∈ neighbours g d → n ∈ U) →
  (length stack + size (U ∖ blocked) ≤ fuel)%nat →
  (∀ x, x ∈ stack → x ∈ blocked) →
  (∀ d n, d ∈ blocked → d ∉ stack → n ∈ neighbours g d → n ∈ blocked) →
  blocked ⊆ block fuel g blocked stack ∧ closed g (fun x => x ∈ block fuel g blocked stack) ∧
  (∀ x, x ∈ block fuel g blocked stack → ∃ d, d ∈ blocked ∧ joined g d x).
Proof.
  induction fuel as [|fuel IH]; intros blocked stack HU Hf Hs Hc.
  { destruct stack; [|simpl in Hf; lia]. cbn [block].
    split_and!; [done| |intros x Hx; exists x; by split; [|constructor]].
    intros d n Hd Hn. apply (Hc d n Hd); [by apply not_elem_of_nil|done]. }
  destruct stack as [|d stack]; cbn [block].
  { split_and!; [done| |intros x Hx; exists x; by split; [|constructor]].
    intros d n Hd Hn. apply (Hc d n Hd); [by apply not_elem_of_nil|done]. }
  destruct (push_new blocked stack (neighbours g d)) as [b' st'] eqn:Hp.
  apply (push_new_spec U) in Hp as (H1 & H2 & H3 & H4 & H5); [|by apply HU]. cbn [fst snd].
  destruct (IH b' st') as (I1 & I2 & I3); [done|simpl in Hf; lia| | |].
  - intros x Hx. apply H4 in Hx as [Hx|[Hx _]]; [|done]. apply H1, Hs. by right.
  - intros x n Hx Hnx Hn. destruct (decide (x = d)) as [->|Hxd]; [by apply H2|].
    destruct (decide (x ∈ blocked)) as [Hb|Hb].
    + apply H1, (Hc x n Hb); [|done]. intros [->|Hin]%elem_of_cons; [done|].
      apply Hnx, H4. by left.
    + destruct Hnx. apply H4. by right.
  - split_and!; [by etrans|done|]. intros x (y & Hy & Hj)%I3. apply H3 in Hy as [Hy|Hy].
    + by exists y.
    + exists d. split; [apply Hs; left|]. by apply rtc_l with y.
Qed.

(** What is blocked is what can be reached from the first blocked records. *)
Lemma all_blocked_spec g blocked :
  undirected g →
  closed g (fun x => x ∈ all_blocked g blocked) ∧ blocked ⊆ all_blocked g blocked ∧
  (∀ x, x ∈ all_blocked g blocked ↔ ∃ d, d ∈ blocked ∧ joined g d x).
Proof.
  intros Hu. unfold all_blocked.
  destruct (block_spec (dom g) g (size blocked + size (dom g)) blocked (elements blocked)) as (H1 & H2 & H3).
  - intros d n Hn. by apply Hu in Hn as [_ ?].
  - change (length (elements blocked)) with (size blocked).
    apply Nat.add_le_mono_l, subseteq_size. set_solver.
  - intros x. by rewrite elem_of_elements.
  - intros d n Hd Hn. destruct Hn. by rewrite elem_of_elements.
  - split_and!; [done..|]. intros x. split; [apply H3|]. intros (d & Hd & Hj).
    apply (closed_joined g _ d x H2 Hj). by apply H1.
Qed.

(** ** Collecting a component *)

(** Edges from records not yet collected. *)
Definition pending (g : graph) (component : gset string) : nat :=
  edges (filter (fun dn => dn.1 ∉ component) g).

Lemma edges_delete g d ns : g !! d = Some ns → edges g = (size ns + edges (delete d g))%nat.
Proof.
  intros Hd. unfold edges. rewrite (fin_maps.map_fold_delete_L (M := gmap string) _ _ d ns g); [done| |done].
  intros j1 j2 z1 z2 y _ _ _. lia.
Qed.
Lemma pending_visited g component d :
  d ∉ component →
  pending g component = (length (neighbours g d) + pending g ({[d]} ∪ component))%nat.
Proof.
  intros Hd. unfold pending.
  assert (filter (fun dn : string * gset string => dn.1 ∉ {[d]} ∪ component) g
          = delete d (filter (fun dn => dn.1 ∉ component) g)) as ->.
  { apply map_eq. intros x. apply option_eq. intros ns. rewrite lookup_delete_Some, !map_lookup_filter_Some.
    cbn [fst]. set_solver. }
  unfold neighbours. destruct (g !! d) as [ns|] eqn:E; cbn [default from_option].
  - rewrite (edges_delete _ d ns); [done|]. by apply map_lookup_filter_Some.
  - rewrite elements_empty. cbn [length]. rewrite delete_id; [done|]. apply map_lookup_filter_None. by left.
Qed.

Lemma elem_of_sorted_strs x l : x ∈ sorted_strs l ↔ x ∈ l.
Proof. unfold sorted_strs. by rewrite py_sorted_perm. Qed.
Lemma sorted_strs_length l : length (sorted_strs l) = length l.
Proof. apply Permutation_length, py_sorted_perm. Qed.

Lemma visit_joins g (P : string → Prop) fuel : ∀ component stack,
  closed g P → (length stack + pending g component ≤ fuel)%nat →
  (∀ x, x ∈ stack → P x) → (∀ x, x ∈ component → P x) →
  (∀ d n, d ∈ component → n ∈ neighbours g d → n ∈ component ∨ n ∈ stack) →
  let c := visit fuel g component stack in
  component ⊆ c ∧ (∀ x, x ∈ stack → x ∈ c) ∧ (∀ x, x ∈ c → P x) ∧ closed g (fun x => x ∈ c).
Proof.
  induction fuel as [|fuel IH]; intros component stack Hc Hf Hs Hp Hcl; cbn zeta.
  { destruct stack; [|simpl in Hf; lia]. cbn [visit].
    split_and!; [done|by intros x ?%elem_of_nil|done|]. intros d n Hd Hn. by destruct (Hcl d n Hd Hn) as [?|?%elem_of_nil]. }
  destruct stack as [|d stack]; cbn [visit].
  { split_and!; [done|by intros x ?%elem_of_nil|done|].
    intros d n Hd Hn. by destruct (Hcl d n Hd Hn) as [?|?%elem_of_nil]. }
  case_bool_decide as Hd.
  - destruct (IH component stack) as (I1 & I2 & I3 & I4); [done|simpl in Hf; lia| |done| |].
    + intros x Hx. apply Hs. by right.
    + intros x n Hx Hn. destruct (Hcl x n Hx Hn) as [?|[->|?]%elem_of_cons]; auto.
    + split_and!; [done| |done..]. intros x [->|Hx]%elem_of_cons; auto.
  - destruct (IH ({[d]} ∪ component) (sorted_strs (neighbours g d) ++ stack)) as (I1 & I2 & I3 & I4); [done|..].
    + rewrite (pending_visited g component d Hd) in Hf. rewrite length_app, sorted_strs_length.
      simpl in Hf. lia.
    + intros x [Hx|Hx]%elem_of_app; [|by apply Hs; right].
      rewrite elem_of_sorted_strs in Hx. apply (Hc d x); [apply Hs; left|exact Hx].
    + intros x [->%elem_of_singleton|Hx]%elem_of_union; [apply Hs; left|by apply Hp].
    + intros x n Hx Hn. rewrite elem_of_app, elem_of_sorted_strs.
      apply elem_of_union in Hx as [->%elem_of_singleton|Hx]; [by right; left|].
      destruct (Hcl x n Hx Hn) as [?|[->|?]%elem_of_cons]; [left; set_solver|left; set_solver|auto].
    + split_and!; [set_solver| |done..]. intros x [->|Hx]%elem_of_cons; [apply I1; set_solver|].
      apply I2, elem_of_app. by right.
Qed.

(** A component is what is joined to its seed. *)
Lemma component_of_spec g seed :
  closed g (fun x => x ∈ component_of g seed) ∧ (∀ x, x ∈ component_of g seed ↔ joined g seed x).
Proof.
  destruct (visit_joins g (joined g seed) (S (edges g)) ∅ [seed]) as (H1 & H2 & H3 & H4).
  - intros d n Hd Hn. by eapply rtc_r.
  - cbn [length]. unfold pending. rewrite map_filter_id; [lia|]. set_solver.
  - intros x ->%list_elem_of_singleton. constructor.
  - set_solver.
  - set_solver.
  - fold (component_of g seed) in *. split; [done|]. intros x. split; [apply H3|].
    intros Hj. apply (closed_joined g _ seed x H4 Hj). apply H2. by left.
Qed.

(** ** All components *)

Lemma components_spec g fuel : ∀ unseen : gset string,
  undirected g → closed g (fun x => x ∈ unseen) → (size unseen ≤ fuel)%nat →
  concat (components fuel g unseen) ≡ₚ elements unseen ∧
  Forall (fun c => ∃ seed, seed ∈ unseen ∧ ∀ x, x ∈ c ↔ joined g seed x) (components fuel g unseen).
Proof.
  induction fuel as [|fuel IH]; intros unseen Hu Hc Hf.
  { assert (unseen ≡ ∅) as Hz by (apply size_empty_inv; lia).
    cbn [components concat]. split; [|constructor]. by rewrite Hz, elements_empty. }
  cbn [components]. destruct (sorted_strs (elements unseen)) as [|seed l] eqn:E.
  { split; [|constructor]. apply (f_equal length) in E. rewrite sorted_strs_length in E.
    by apply length_zero_iff_nil in E as ->. }
  assert (seed ∈ unseen) as Hs by (apply elem_of_elements, elem_of_sorted_strs; rewrite E; left).
  destruct (component_of_spec g seed) as [Hcl Hj]. set (c := component_of g seed) in *.
  assert (∀ x, x ∈ c → x ∈ unseen) as Hsub.
  { intros x Hx%Hj. by apply (closed_joined g (fun x => x ∈ unseen) seed). }
  assert (seed ∈ c) as Hsc by (apply Hj; constructor).
  destruct (IH (unseen ∖ c)) as [I1 I2]; [done| | |].
  - intros d n [Hd Hdc]%elem_of_difference Hn. apply elem_of_difference.
    split; [by apply (Hc d)|]. by apply (undirected_closed_compl g _ Hu Hcl d n).
  - assert (size (unseen ∖ c) < size unseen)%nat; [|lia]. apply subset_size.
    split; [set_solver|]. intros Hcon. specialize (Hcon seed Hs). set_solver.
  - cbn [concat]. split.
    + rewrite I1. unfold sorted_strs. rewrite py_sorted_perm.
      rewrite <- elements_disj_union by set_solver. f_equiv. intros x.
      rewrite elem_of_union, elem_of_difference. split; [|destruct (decide (x ∈ c)); tauto].
      intros [Hx|[? _]]; [by apply Hsub|done].
    + constructor.
      * exists seed. split; [done|]. intros x. by rewrite elem_of_sorted_strs, elem_of_elements.
      * eapply Forall_impl; [exact I2|]. intros x (s' & Hs' & Hx). exists s'. split; [set_solver|done].
Qed.

(** ** The graph of the relations *)

(** A record refutes the other or they conflict. *)
Definition opposes (relations : list link) (a b : string) : Prop :=
  ∃ r, contests r = true ∧ ((a, r, b) ∈ relations ∨ (b, r, a) ∈ relations).
Lemma opposes_sym relations a b : opposes relations a b → opposes relations b a.
Proof. intros (r & Hr & [?|?]); exists r; auto. Qed.
Lemma opposes_snoc relations s r t a b :
  opposes (relations ++ [(s, r, t)]) a b ↔
  opposes relations a b ∨ (contests r = true ∧ ((a = s ∧ b = t) ∨ (a = t ∧ b = s))).
Proof.
  unfold opposes. setoid_rewrite elem_of_app. setoid_rewrite list_elem_of_singleton. split.
  - intros (r' & Hr & [[?|[= -> -> ->]]|[?|[= -> -> ->]]]); [left|right|left|right]; eauto 6.
  - intros [(r' & Hr & [?|?])|[Hr [[-> ->]|[-> ->]]]]; [by eauto 6..|exists r; eauto 6|exists r; eauto 6].
Qed.

Lemma add_edge_dom s t g : dom (add_edge s t g) = dom g.
Proof.
  unfold add_edge. destruct (g !! s) eqn:E; [|done]. rewrite dom_insert_L.
  apply elem_of_dom_2 in E. set_solver.
Qed.
Lemma add_edge_neighbours s t g d n :
  n ∈ neighbours (add_edge s t g) d ↔ n ∈ neighbours g d ∨ (d = s ∧ n = t ∧ s ∈ dom g).
Proof.
  rewrite !elem_of_neighbours. unfold add_edge. destruct (g !! s) as [ns|] eqn:E.
  - assert (s ∈ dom g) by by apply elem_of_dom_2 in E. destruct (decide (d = s)) as [->|Hd].
    + rewrite lookup_insert_eq. split.
      * intros (? & [= <-] & [->%elem_of_singleton|?]%elem_of_union); [by right|]. left. by exists ns.
      * intros [(? & Hl & ?)|(_ & -> & _)]; exists ({[t]} ∪ ns); (split; [done|]); [|set_solver].
        rewrite E in Hl. injection Hl as <-. set_solver.
    + rewrite lookup_insert_ne by done. split; [by left|]. intros [?|(? & _)]; done.
  - split; [by left|]. intros [?|(_ & _ & Hs)]; [done|]. by apply elem_of_dom in Hs as [? ?]; congruence.
Qed.

Record contested_graph (visible : gset string) (relations : list link) (gb : graph * gset string) : Prop := {
  cg_dom : dom gb.1 = visible;
  cg_edges : ∀ d n, n ∈ neighbours gb.1 d ↔ d ∈ visible ∧ n ∈ visible ∧ opposes relations d n;
  cg_blocked : ∀ d, d ∈ gb.2 ↔ d ∈ visible ∧ ∃ n, n ∉ visible ∧ opposes relations d n;
}.
Lemma relate_spec visible relations gb s r t :
  contested_graph visible relations gb →
  contested_graph visible (relations ++ [(s, r, t)]) (relate visible gb (s, r, t)).
Proof.
  intros [Hd He Hb]. cbn [relate]. destruct (contests r) eqn:Er; cbn [negb].
  2:{ constructor; [done|intros d n|intros d]; setoid_rewrite opposes_snoc; rewrite Er; [rewrite He|rewrite Hb];
        naive_solver. }
  assert (∀ d n, opposes (relations ++ [(s, r, t)]) d n ↔
            opposes relations d n ∨ (d = s ∧ n = t) ∨ (d = t ∧ n = s)) as Ho
    by (intros d n; rewrite opposes_snoc, Er; tauto).
  case_bool_decide as Hs; case_bool_decide as Ht; constructor; cbn [fst snd]; rewrite ?add_edge_dom; try done.
  all: intros d; try intros n; rewrite ?add_edge_neighbours, ?add_edge_dom, ?Hd, ?He, ?elem_of_union, ?elem_of_singleton, ?Hb.
  all: setoid_rewrite Ho. all: naive_solver.
Qed.
Lemma contested_spec visible relations : contested_graph visible relations (contested visible relations).
Proof.
  unfold contested. induction relations as [|[[s r] t] relations IH] using rev_ind.
  - cbn [foldl]. constructor; cbn [fst snd].
    + apply dom_gset_to_gmap.
    + intros d n. rewrite elem_of_neighbours. setoid_rewrite lookup_gset_to_gmap_Some. split.
      * intros (? & [_ <-] & []%elem_of_empty).
      * intros (_ & _ & r & _ & [[]%elem_of_nil|[]%elem_of_nil]).
    + intros d. rewrite elem_of_empty. split; [done|].
      intros (_ & n & _ & r & _ & [[]%elem_of_nil|[]%elem_of_nil]).
  - rewrite foldl_app. cbn [foldl]. by apply relate_spec.
Qed.
Lemma contested_undirected visible relations : undirected (contested visible relations).1.
Proof.
  intros d n. destruct (contested_spec visible relations) as [Hd He _]. rewrite !He, Hd.
  intros (? & ? & ?). split_and!; auto using opposes_sym.
Qed.

(** ** Without the blocked records *)

Lemma unblocked_neighbours g blocked d n :
  n ∈ neighbours (unblocked g blocked) d ↔ n ∈ neighbours g d ∧ d ∉ blocked ∧ n ∉ blocked.
Proof.
  rewrite !elem_of_neighbours. unfold unblocked. setoid_rewrite lookup_fmap_Some.
  setoid_rewrite map_lookup_filter_Some. cbn [fst]. split.
  - intros (? & (ns & <- & Hns & Hd) & [Hn Hnb]%elem_of_difference). by split; [exists ns|].
  - intros ((ns & Hns & Hn) & Hd & Hnb). exists (ns ∖ blocked). split; [by exists ns|]. by apply elem_of_difference.
Qed.
Lemma unblocked_dom g blocked : dom (unblocked g blocked) = dom g ∖ blocked.
Proof.
  unfold unblocked. rewrite dom_fmap_L. apply set_eq. intros x.
  rewrite elem_of_difference, !elem_of_dom. unfold is_Some. setoid_rewrite map_lookup_filter_Some. cbn [fst].
  naive_solver.
Qed.
Lemma unblocked_undirected g blocked : undirected g → undirected (unblocked g blocked).
Proof.
  intros Hu d n. rewrite !unblocked_neighbours, unblocked_dom, elem_of_difference.
  intros (Hn & ? & ?). apply Hu in Hn as [? ?]. done.
Qed.

(** * Facts about the selection of memory

    What [select_memory] chooses: whole components, within the budgets, newest
    first, and nothing more could be added. *)

(** ** The order of the answer *)

Lemma newer_first_total x y : newer_first x y = false → newer_first y x = true.
Proof.
  unfold newer_first. destruct (x.1 =? y.1) eqn:E; breflect.
  - rewrite <- E, Z.eqb_refl. apply str_leb_total.
  - intros Hl. destruct (y.1 =? x.1) eqn:E'; breflect; [lia|]. apply Z.ltb_lt. lia.
Qed.
Lemma newer_first_trans x y z : newer_first x y = true → newer_first y z = true → newer_first x z = true.
Proof.
  unfold newer_first. intros H1 H2.
  destruct (x.1 =? y.1) eqn:E1, (y.1 =? z.1) eqn:E2, (x.1 =? z.1) eqn:E3; breflect; try lia;
    try (apply Z.ltb_lt; lia). eauto with eco.
Qed.
Lemma sorted_newest {A} (key : A → Z * string) l :
  StronglySorted (fun a b => newer_first (key a) (key b) = true)
    (py_sorted (fun a b => newer_first (key a) (key b)) l).
Proof.
  apply py_sorted_sorted; intros; [by apply newer_first_total|by eapply newer_first_trans].
Qed.

Lemma foldl_add_acc l : ∀ x, foldl Z.add x l = x + foldl Z.add 0 l.
Proof.
  induction l as [|y l IH]; intros x; cbn [foldl]; [lia|]. rewrite IH, (IH (0 + y)). lia.
Qed.
Definition sum_of (f : string → Z) (l : list string) : Z := foldl Z.add 0 (map f l).
Lemma bytes_of_app f l l' : sum_of f (l ++ l') = sum_of f l + sum_of f l'.
Proof. unfold sum_of. rewrite map_app, foldl_app, foldl_add_acc. done. Qed.
Lemma sum_of_cons f x l : sum_of f (x :: l) = f x + sum_of f l.
Proof. unfold sum_of. cbn [map foldl]. rewrite foldl_add_acc. lia. Qed.
Lemma sum_of_perm f l l' : l ≡ₚ l' → sum_of f l = sum_of f l'.
Proof. induction 1; rewrite ?sum_of_cons; lia. Qed.
Lemma sum_of_nonneg f l : (∀ x, x ∈ l → 0 ≤ f x) → 0 ≤ sum_of f l.
Proof.
  induction l as [|x l IH]; intros Hf; [done|]. rewrite sum_of_cons.
  pose proof (Hf x ltac:(left)). assert (0 ≤ sum_of f l) by (apply IH; intros; apply Hf; by right). lia.
Qed.

(** ** Taking components *)

Section Selection.
Context `{FromIso}.
Context (q : MemoryQuery) (eligible : gmap string memory).

(** The component does not fit on top of [items] records and [bytes] bytes. *)
Definition overflows (items bytes : Z) (component : list string) : Prop :=
  mq_max_items q < items + Z.of_nat (length component) ∨
  mq_max_bytes q < bytes + sum_of (length_of eligible) component ∨
  mq_max_tokens q < bytes + sum_of (length_of eligible) component.

(** What the loop has chosen of the components [cs]. *)
Record taken (cs : list (list string)) (truncated0 : bool) (s : selection) : Prop := {
  tk_chosen : ∃ chosen, sl_selected s = concat chosen ∧ sublist chosen cs ∧
    ∀ c, c ∈ cs → c ∈ chosen ∨ (sl_truncated s = true ∧
      overflows (Z.of_nat (length (sl_selected s))) (sl_bytes s) c);
  tk_bytes : sl_bytes s = sum_of (length_of eligible) (sl_selected s);
  tk_tokens : sl_tokens s = sl_bytes s;
  tk_items_fit : sl_selected s = [] ∨ Z.of_nat (length (sl_selected s)) ≤ mq_max_items q;
  tk_bytes_fit : sl_selected s = [] ∨ (sl_bytes s ≤ mq_max_bytes q ∧ sl_bytes s ≤ mq_max_tokens q);
  tk_truncated : truncated0 = true → sl_truncated s = true;
}.

Context (Hlen : ∀ d, 0 ≤ length_of eligible d).

Lemma take_component_spec cs t0 s c :
  taken cs t0 s → taken (cs ++ [c]) t0 (take_component q eligible s c).
Proof using Hlen.
  intros [(chosen & Hc & Hsub & Hall) Hb Ht Hi Hf Htr]. unfold take_component.
  change (component_bytes eligible c) with (sum_of (length_of eligible) c).
  assert (0 ≤ sum_of (length_of eligible) c) as Hn by (apply sum_of_nonneg; auto).
  destruct (_ || _) eqn:E; constructor; cbn [sl_selected sl_bytes sl_tokens sl_truncated]; try done.
  - exists chosen. split_and!; [done|by apply sublist_inserts_r|].
    intros c' [Hc'|Hc'%list_elem_of_singleton]%elem_of_app; [|subst c'].
    + destruct (Hall c' Hc') as [?|[_ ?]]; auto.
    + right. split; [done|]. unfold overflows. rewrite Ht in E.
      apply orb_true_iff in E as [[E|E]%orb_true_iff|E]; apply Z.ltb_lt in E; lia.
  - exists (chosen ++ [c]). split_and!; [|by apply sublist_app|].
    { rewrite concat_app, Hc. cbn [concat]. by rewrite app_nil_r. }
    intros c' [Hc'|Hc'%list_elem_of_singleton]%elem_of_app; [|subst c'].
    + destruct (Hall c' Hc') as [?|[? Ho]]; [left; apply elem_of_app; by left|]. right. split; [done|].
      unfold overflows in *. rewrite length_app. lia.
    + left. apply elem_of_app. right. by left.
  - rewrite bytes_of_app. lia.
  - lia.
  - breflect. right. rewrite length_app. lia.
  - breflect. right. lia.
Qed.

Lemma take_components_spec cs t0 :
  taken cs t0 (foldl (take_component q eligible)
                 {| sl_selected := []; sl_bytes := 0; sl_tokens := 0; sl_truncated := t0 |} cs).
Proof using Hlen.
  induction cs as [|c cs IH] using rev_ind.
  - constructor; cbn; auto. exists []. split_and!; [done|constructor|]. by intros c ?%elem_of_nil.
  - rewrite foldl_app. by apply take_component_spec.
Qed.
End Selection.

(** ** The whole selection *)

Section Chosen.
Context `{FromIso}.
Context (q : MemoryQuery) (eligible : gmap string memory) (relations : list link).

(** The records whose opposition connects them to [d]. *)
Definition opposition (d : string) (c : list string) : Prop :=
  NoDup c ∧ d ∈ c ∧ (∀ x, x ∈ c → x ∈ dom eligible) ∧ ∀ x y, x ∈ c → opposes relations x y → y ∈ c.

Record chosen_well (s : selection) : Prop := {
  cw_nodup : NoDup (sl_selected s);
  cw_eligible : ∀ d, d ∈ sl_selected s → d ∈ dom eligible;
  cw_together : ∀ a b, opposes relations a b → a ∈ sl_selected s → b ∈ sl_selected s;
  cw_bytes : sl_bytes s = sum_of (length_of eligible) (sl_selected s);
  cw_tokens : sl_tokens s = sl_bytes s;
  cw_items_fit : sl_selected s = [] ∨ Z.of_nat (length (sl_selected s)) ≤ mq_max_items q;
  cw_bytes_fit : sl_selected s = [] ∨ (sl_bytes s ≤ mq_max_bytes q ∧ sl_bytes s ≤ mq_max_tokens q);
  cw_newest : StronglySorted (fun a b => newer_first (record_key eligible a) (record_key eligible b) = true)
                (sl_selected s);
  cw_omitted : ∀ d, d ∈ dom eligible → d ∉ sl_selected s →
    sl_truncated s = true ∧
    ((∃ x n, joined (contested (dom eligible) relations).1 d x ∧ opposes relations x n ∧ n ∉ dom eligible) ∨
     ∃ c, opposition d c ∧ overflows q eligible (Z.of_nat (length (sl_selected s))) (sl_bytes s) c);
}.

(** The quantities of [select_memory]. *)
Let gb := contested (dom eligible) relations.
Let blocked := all_blocked gb.1 gb.2.
Let visible := filter (fun dm => dm.1 ∉ blocked) eligible.
Let g := unblocked gb.1 blocked.
Let comps := components (size visible) g (dom visible).

Lemma visible_dom : dom visible = dom eligible ∖ blocked.
Proof.
  apply set_eq. intros x. unfold visible. rewrite elem_of_difference, !elem_of_dom. unfold is_Some.
  setoid_rewrite map_lookup_filter_Some. cbn [fst]. naive_solver.
Qed.
Lemma blocked_spec :
  closed gb.1 (fun x => x ∈ blocked) ∧ gb.2 ⊆ blocked ∧
  (∀ x, x ∈ blocked ↔ ∃ d, d ∈ gb.2 ∧ joined gb.1 d x).
Proof. apply all_blocked_spec, contested_undirected. Qed.

(** A visible record's counterparts are visible, and its neighbours. *)
Lemma visible_opposes a b :
  a ∈ dom visible → opposes relations a b → b ∈ dom visible ∧ b ∈ neighbours g a.
Proof.
  rewrite visible_dom, !elem_of_difference. intros [Ha Hna] Ho.
  destruct (contested_spec (dom eligible) relations) as [Hd He Hb]. fold gb in Hd, He, Hb.
  destruct blocked_spec as (Hcl & Hsub & _).
  assert (b ∈ dom eligible) as Hbe.
  { destruct (decide (b ∈ dom eligible)) as [|Hn]; [done|]. destruct Hna. apply Hsub, Hb.
    split; [done|]. by exists b. }
  assert (b ∉ blocked) as Hnb.
  { intros Hbb. apply Hna, (Hcl b a Hbb), He. split_and!; auto using opposes_sym. }
  split; [done|]. unfold g. apply unblocked_neighbours. split_and!; [|done..]. by apply He.
Qed.

Lemma g_undirected : undirected g.
Proof. apply unblocked_undirected, contested_undirected. Qed.
Lemma comps_spec :
  concat comps ≡ₚ elements (dom visible) ∧
  Forall (fun c => ∃ seed, seed ∈ dom visible ∧ ∀ x, x ∈ c ↔ joined g seed x) comps.
Proof.
  apply components_spec; [apply g_undirected| |by rewrite size_dom].
  intros d n _ Hn. apply g_undirected in Hn as [_ Hn]. unfold g in Hn. rewrite unblocked_dom in Hn.
  rewrite visible_dom. by destruct (contested_spec (dom eligible) relations) as [<- _ _].
Qed.
Lemma comps_opposition d c : c ∈ comps → d ∈ c → opposition d c ∧ ∀ x, x ∈ c → x ∈ dom visible.
Proof.
  intros Hc Hd. destruct comps_spec as [Hp Hall]. rewrite Forall_forall in Hall.
  assert (∀ x, x ∈ c → x ∈ dom visible) as Hv.
  { intros x Hx. apply elem_of_elements. rewrite <- Hp. apply list_elem_of_In, in_concat.
    exists c. by rewrite <- !list_elem_of_In. }
  split; [|done]. destruct (Hall c Hc) as (seed & _ & Hj). split_and!; [|done| |].
  - assert (NoDup (concat comps)) as Hnd by (rewrite Hp; apply NoDup_elements).
    clear -Hnd Hc. induction comps as [|x l IH]; [by apply elem_of_nil in Hc|]. cbn [concat] in Hnd.
    apply NoDup_app in Hnd as (? & _ & ?). apply elem_of_cons in Hc as [->|Hc]; auto.
  - intros x Hx%Hv. rewrite visible_dom in Hx. by apply elem_of_difference in Hx as [? _].
  - intros x y Hx Ho. apply Hj. apply rtc_r with x; [by apply Hj|]. by apply visible_opposes; [apply Hv|].
Qed.
End Chosen.

Lemma sublist_concat {A} (l k : list (list A)) : sublist l k → sublist (concat l) (concat k).
Proof.
  induction 1 as [|x l k _ IH|x l k _ IH]; cbn [concat]; [done|by apply sublist_app|by apply sublist_inserts_l].
Qed.
Lemma sum_of_ext f f' l : (∀ x, x ∈ l → f x = f' x) → sum_of f l = sum_of f' l.
Proof.
  induction l as [|x l IH]; intros Hf; [done|]. rewrite !sum_of_cons, (Hf x), IH; [done| |left].
  intros y Hy. apply Hf. by right.
Qed.

Section Spec.
Context `{FromIso}.

Lemma length_of_visible q relations eligible d :
  let blocked := all_blocked (contested (dom eligible) relations).1 (contested (dom eligible) relations).2 in
  let visible := filter (fun dm : string * memory => dm.1 ∉ blocked) eligible in
  d ∈ dom visible →
  length_of visible d = length_of eligible d ∧ record_key visible d = record_key eligible d ∧
  (∀ items bytes c, (∀ x, x ∈ c → x ∈ dom visible) →
     overflows q visible items bytes c → overflows q eligible items bytes c).
Proof.
  cbv zeta. set (visible := filter _ eligible).
  assert (∀ x, x ∈ dom visible → visible !! x = eligible !! x) as Hl.
  { intros x [m Hm]%elem_of_dom. rewrite Hm. by apply map_lookup_filter_Some in Hm as [-> _]. }
  intros Hd. unfold length_of, record_key. rewrite Hl by done. split_and!; [done..|].
  intros items bytes c Hc. unfold overflows.
  rewrite (sum_of_ext (length_of visible) (length_of eligible) c); [done|].
  intros x Hx. unfold length_of. by rewrite Hl by auto.
Qed.

Lemma strongly_sorted_ext {A} (R R' : A → A → Prop) l :
  (∀ a b, a ∈ l → b ∈ l → R a b → R' a b) → StronglySorted R l → StronglySorted R' l.
Proof.
  induction 2 as [|x l _ IH Hx]; constructor.
  - apply IH. intros a b ? ?. apply H0; by right.
  - rewrite Forall_forall in *. intros y Hy. apply H0; [left|by right|by apply Hx].
Qed.

Section Select.
Context (q : MemoryQuery) (eligible : gmap string memory) (relations : list link).
Let gb := contested (dom eligible) relations.
Let blocked := all_blocked gb.1 gb.2.
Let visible := filter (fun dm : string * memory => dm.1 ∉ blocked) eligible.
Let comps := components (size visible) (unblocked gb.1 blocked) (dom visible).

Lemma dom_visible : dom visible = dom eligible ∖ blocked.
Proof using All. apply visible_dom. Qed.

(** A choice among the components, in some order, is chosen well. *)
Lemma chosen_components ordered chosen s final :
  ordered ≡ₚ comps → taken q visible ordered (bool_decide (blocked ≠ ∅)) s →
  sl_selected s = concat chosen → sublist chosen ordered →
  final ≡ₚ sl_selected s →
  (∀ d, d ∈ final → d ∈ dom visible) ∧ NoDup final ∧
  (∀ a b, opposes relations a b → a ∈ final → b ∈ final).
Proof using All.
  intros Hord _ Hsel Hsub Hfin. destruct (comps_spec eligible relations) as [Hcat _].
  fold gb blocked visible comps in Hcat.
  assert (∀ c, c ∈ chosen → c ∈ comps) as Hchosen.
  { intros c Hc. rewrite <- Hord. eapply elem_of_submseteq; [exact Hc|by apply sublist_submseteq]. }
  assert (∀ d, d ∈ final ↔ ∃ c, c ∈ chosen ∧ d ∈ c) as Hin.
  { intros d. rewrite Hfin, Hsel, list_elem_of_In, in_concat. by setoid_rewrite <- list_elem_of_In. }
  split_and!.
  - intros d (c & Hc%Hchosen & Hd)%Hin. by eapply (comps_opposition eligible relations d c).
  - rewrite Hfin, Hsel. apply (sublist_NoDup _ (concat ordered)); [|by apply sublist_concat].
    assert (concat ordered ≡ₚ concat comps) as -> by (by rewrite Hord).
    rewrite Hcat. apply NoDup_elements.
  - intros a b Ho (c & Hc & Ha)%Hin. apply Hin. exists c. split; [done|].
    destruct (comps_opposition eligible relations a c) as [(_ & _ & _ & Hcl) _]; [by apply Hchosen|done|].
    by apply (Hcl a b).
Qed.

(** Why a record is left out. *)
Lemma omitted_because ordered s d :
  ordered ≡ₚ comps → taken q visible ordered (bool_decide (blocked ≠ ∅)) s →
  d ∈ dom eligible → d ∉ sl_selected s →
  sl_truncated s = true ∧
  ((∃ x n, joined gb.1 d x ∧ opposes relations x n ∧ n ∉ dom eligible) ∨
   ∃ c, opposition eligible relations d c ∧ overflows q eligible (Z.of_nat (length (sl_selected s))) (sl_bytes s) c).
Proof using All.
  intros Hord [(chosen & Hsel & Hsub & Hall) _ _ _ _ Htr] Hd Hn.
  destruct (contested_spec (dom eligible) relations) as [_ _ Hb].
  destruct (blocked_spec eligible relations) as (_ & _ & Hbl). fold gb in Hb, Hbl. fold blocked in Hbl.
  destruct (decide (d ∈ blocked)) as [Hdb|Hdb].
  - split; [apply Htr; apply bool_decide_eq_true; set_solver|]. left.
    apply Hbl in Hdb as (x & Hx & Hj). apply Hb in Hx as (_ & n & Hne & Ho). exists x, n.
    split_and!; [|done..]. apply joined_sym; [apply contested_undirected|done].
  - assert (d ∈ dom visible) as Hv by (rewrite dom_visible; by apply elem_of_difference).
    destruct (comps_spec eligible relations) as [Hcat _]. fold gb blocked visible comps in Hcat.
    pose proof Hv as Hin. apply elem_of_elements in Hin. rewrite <- Hcat in Hin.
    apply list_elem_of_In, in_concat in Hin as (c & Hc & Hdc). apply list_elem_of_In in Hc, Hdc.
    destruct (comps_opposition eligible relations d c Hc Hdc) as [Hopp Hcv].
    rewrite <- Hord in Hc. destruct (Hall c Hc) as [Hch|[Ht Ho]].
    + destruct Hn. rewrite Hsel. apply list_elem_of_In, in_concat. exists c. by rewrite <- !list_elem_of_In.
    + split; [done|]. right. exists c. split; [done|].
      by apply (length_of_visible q relations eligible d Hv).
Qed.

Lemma select_memory_spec :
  (∀ d, 0 ≤ length_of eligible d) →
  chosen_well q eligible relations (select_memory q eligible relations).
Proof using All.
  intros Hlen. unfold select_memory. fold gb. fold blocked. fold visible. fold comps. cbv zeta.
  set (ordered := py_sorted _ comps).
  assert (∀ d, 0 ≤ length_of visible d) as Hlv.
  { intros d. specialize (Hlen d). unfold length_of in *. destruct (visible !! d) as [m|] eqn:E; [|done].
    apply map_lookup_filter_Some in E as [E _]. by rewrite E in Hlen. }
  assert (ordered ≡ₚ comps) as Hord by apply py_sorted_perm.
  pose proof (take_components_spec q visible Hlv ordered (bool_decide (blocked ≠ ∅))) as Ht.
  set (s := foldl (take_component q visible) _ ordered) in *.
  set (final := py_sorted _ (sl_selected s)).
  assert (final ≡ₚ sl_selected s) as Hfin by apply py_sorted_perm.
  pose proof Ht as [(chosen & Hsel & Hsub & _) Hb Htok Hi Hf _].
  destruct (chosen_components ordered chosen s final) as (Hvis & Hnd & Htog); [done..|].
  assert (final = [] ↔ sl_selected s = []) as Hnil.
  { split; intros E; [rewrite E in Hfin|rewrite E in Hfin]; [by apply Permutation_nil_l in Hfin|].
    by apply Permutation_nil_r in Hfin. }
  assert (∀ d, d ∈ final → length_of visible d = length_of eligible d ∧
            record_key visible d = record_key eligible d) as Hsame.
  { intros d Hd%Hvis. by destruct (length_of_visible q relations eligible d Hd) as (? & ? & _). }
  constructor; cbn [sl_selected sl_bytes sl_tokens sl_truncated]; try done; rewrite ?Hnil, ?Hfin; try done.
  - intros d Hd%Hvis. rewrite dom_visible in Hd. by apply elem_of_difference in Hd as [? _].
  - rewrite Hb, (sum_of_perm _ _ _ Hfin). apply sum_of_ext. intros x. rewrite <- Hfin. by apply Hsame.
  - apply (strongly_sorted_ext (fun a b => newer_first (record_key visible a) (record_key visible b) = true)).
    + intros a b [_ <-]%Hsame [_ <-]%Hsame. done.
    + apply sorted_newest.
  - intros d Hd Hn. rewrite Hfin in Hn. rewrite (Permutation_length Hfin). by apply (omitted_because ordered s d).
Qed.
End Select.
End Spec.
