(* ===== verification/MemoryFacts.v ===== *)
(** * Facts about stored memory

    What reading a row, a namespace or a content gives. *)

From S2P Require Import Prelude Json Digest PyTime PyClock PyFloat Schema RouteRecords RouteRecordFacts RouteConsumption ConsumptionProofs ArtifactStore MemoryContracts MemoryStore MemoryRetrieval MemoryGraph.

(** [H] is a chain of readers that succeeded: each of them did. *)
Ltac bind_inv H :=
  repeat match type of H with
  | mbind _ ?x = Some _ => let E := fresh "E" in destruct x eqn:E; [|discriminate H]; cbn [mbind option_bind] in H
  end.

Section Facts.
Context `{FromIso} `{Crypto} `{Jsonschema}.

(** ** Documents *)

Lemma validate_memory_ok document document' m :
  validate_memory_record document = Ok (document', m) →
  ∃ o, document = JObj o ∧ document' = document ∧ conforms memory_schema document = true ∧
    as_memory o = Some m ∧ memory_ok m o = true.
Proof.
  unfold validate_memory_record. destruct document as [| | | | |o]; try done. intros Hv. guard Hv as Es.
  destruct (as_memory o) as [m'|] eqn:Em; [|done]. cbn [some_or] in Hv. guard Hv as Eo.
  injection Hv as <- <-. rewrite negb_false_iff in Es, Eo. rewrite is_valid_conforms in Es. by exists o.
Qed.

(** [record["metadata"]["recordDigest"]] *)
Definition record_digest (document : json) : string :=
  match document with
  | JObj o => default EmptyString (obj_at "metadata" o ≫= str_at "recordDigest")
  | _ => EmptyString
  end.
Lemma as_memory_digest o m : as_memory o = Some m → record_digest (JObj o) = mm_digest m.
Proof.
  unfold as_memory, record_digest. destruct (obj_at "metadata" o) as [md|]; [|done]. cbn [mbind option_bind].
  destruct (str_at "id" md); [|done]. destruct (str_at "createdAt" md); [|done].
  destruct (str_at "recordDigest" md) as [d|]; [|done]. cbn [mbind option_bind].
  intros Hm. bind_inv Hm. by injection Hm as <-.
Qed.

(** ** What the schema gives *)

Section Getters.
Context (req : list string) (ps : list (string * schema)) (o : list (string * json)).
Context (Ho : conforms (SObj req ps) (JObj o) = true).

Lemma strs_arr_ok k lo hi p :
  k ∈ req → prop_schema k ps = Some (SArr lo hi (SStr p)) →
  ∃ l, strs_at k o = Some l ∧ Forall (fun s => p s = true) l.
Proof using Ho.
  intros Hk Hp. destruct (conforms_required _ _ _ _ _ Ho Hk Hp) as (v & Hv & Hc).
  unfold strs_at. rewrite Hv. destruct v as [| | | |l|]; try discriminate. cbn [mbind option_bind].
  cbn [conforms] in Hc. apply andb_true_iff in Hc as [_ Hc]. clear Hv.
  induction l as [|x l IH]; [by exists []|]. cbn [forallb] in Hc. apply andb_true_iff in Hc as [Hx Hl].
  destruct (IH Hl) as (vs & Evs & Hvs). destruct x; try discriminate. exists (s :: vs).
  cbn [as_strs mapM mbind option_bind] in *. rewrite Evs. split; [done|]. by constructor.
Qed.
Lemma str_at_nullable k p :
  prop_schema k ps = Some (SOneOf (SStr p) SNull) → ∀ s, str_at k o = Some s → p s = true.
Proof using Ho.
  intros Hp s Hs. unfold str_at in Hs. destruct (jassoc k o) as [[]|] eqn:E; try discriminate.
  injection Hs as ->. apply conforms_obj in Ho as (_ & _ & Hall).
  destruct (Hall _ _ (jassoc_elem _ _ _ E)) as (sc & Esc & Hc). rewrite Hp in Esc. injection Esc as <-.
  cbn [conforms] in Hc. by rewrite xorb_false_r in Hc.
Qed.
End Getters.

Lemma as_artifact_ok o :
  conforms artifact_schema (JObj o) = true → ∃ a, as_artifact o = Some a ∧ 0 ≤ ar_length a.
Proof.
  intros Ho. unfold as_artifact. ask Ho str_at_ok "storageRef" as r Hr. ask Ho str_at_ok "sha256" as d Hd.
  ask Ho range_at_ok "byteLength" as n Hn. eexists. split; [done|]. cbn. lia.
Qed.
Lemma as_link_ok o : conforms relation_schema (JObj o) = true → ∃ l, as_link o = Some l ∧ True.
Proof.
  intros Ho. unfold as_link. ask Ho str_at_ok "from" as f Hf. ask Ho enum_at_ok "relation" as r Hr.
  ask Ho str_at_ok "to" as t Ht. by eexists.
Qed.
Lemma as_compaction_ok o : conforms compaction_schema (JObj o) = true → ∃ c, as_compaction o = Some c ∧ True.
Proof.
  intros Ho. unfold as_compaction. ask Ho strs_arr_ok "sourceRecordDigests" as ds Hds.
  edestruct (objs_at_ok _ _ _ Ho "sourceArtifacts") as (l & -> & Hl); [member|right; eexists; reflexivity|].
  cbn [mbind option_bind].
  destruct (mapM_ok as_artifact _ _ l as_artifact_ok Hl) as (ars & -> & _). cbn [mbind option_bind].
  edestruct (objs_at_ok _ _ _ Ho "preservedRelations") as (l' & -> & Hl'); [member|right; eexists; reflexivity|].
  cbn [mbind option_bind].
  destruct (mapM_ok as_link _ _ l' as_link_ok Hl') as (rs & -> & _). by eexists.
Qed.
Lemma as_links_ok o : conforms links_schema (JObj o) = true → ∃ l, as_links o = Some l ∧ True.
Proof.
  intros Ho. unfold as_links. ask Ho strs_arr_ok "supersedes" as a Ha. ask Ho strs_arr_ok "refutes" as b Hb.
  ask Ho strs_arr_ok "conflicts" as c Hc. by eexists.
Qed.

(** The fields of a record that passed its schema. *)
Record memory_typed (m : memory) : Prop := {
  ty_created : ∃ t, read_time (mm_created m) = Some t;
  ty_expires : ∀ e, mm_expires m = Some e → ∃ t, read_time e = Some t;
  ty_type : mm_type m ∈ MEMORY_TYPES;
  ty_data_class : mm_data_class m ∈ DATA_CLASSES;
  ty_privacy : mm_privacy m ∈ PRIVACY_LEVELS;
  ty_length : 0 ≤ ar_length (mm_content m);
}.
Lemma as_memory_ok o :
  conforms memory_schema (JObj o) = true → ∃ m, as_memory o = Some m ∧ memory_typed m.
Proof.
  intros Ho. unfold as_memory. ask Ho obj_at_ok "metadata" as md Hmd. ask Hmd str_at_ok "id" as i Hi.
  ask Hmd str_at_ok "createdAt" as c Hc. ask Hmd str_at_ok "recordDigest" as d Hd.
  ask Ho obj_at_ok "spec" as sp Hsp. ask Hsp obj_at_ok "namespace" as ns Hns.
  ask Hsp enum_at_ok "memoryType" as ty Hty. ask Hsp enum_at_ok "dataClass" as dc Hdc.
  ask Hsp enum_at_ok "privacyLevel" as pl Hpl. ask Hsp str_at_ok "author" as au Hau.
  ask Hsp obj_at_ok "contentArtifact" as ca Hca.
  destruct (as_artifact_ok ca Hca) as (a & -> & Ha). cbn [mbind option_bind].
  edestruct (objs_at_ok _ _ _ Hsp "sourceArtifacts") as (l & -> & Hl); [member|right; eexists; reflexivity|].
  cbn [mbind option_bind].
  destruct (mapM_ok as_artifact _ _ l as_artifact_ok Hl) as (ars & -> & _). cbn [mbind option_bind].
  ask Hsp obj_at_ok "links" as lo Hlo. destruct (as_links_ok lo Hlo) as (ls & -> & _). cbn [mbind option_bind].
  edestruct (opt_obj_at_ok _ _ _ Hsp as_compaction (fun _ => True) "compaction") as (co & -> & _);
    [right; reflexivity|exact as_compaction_ok|].
  eexists. split; [reflexivity|]. constructor; try done.
  - by apply time_text_read.
  - intros e He. apply time_text_read. by apply (str_at_nullable _ _ _ Hsp "expiresAt" is_date_time).
Qed.
Lemma validate_memory_typed document document' m :
  validate_memory_record document = Ok (document', m) → memory_typed m.
Proof.
  intros (o & -> & _ & Hs & Hm & _)%validate_memory_ok. destruct (as_memory_ok o Hs) as (m' & Hm' & Ht).
  rewrite Hm in Hm'. by injection Hm' as ->.
Qed.

(** ** Rows *)

Record row_holds (k : journal_key) (row : record_row) (document : json) (m : memory) : Prop := {
  rh_loads : json_loads (rr_json row) = Some document;
  rh_valid : validate_memory_record document = Ok (document, m);
  rh_digest : rr_digest row = mm_digest m;
  rh_id : rr_id row = mm_id m;
  rh_namespace : rr_namespace row = _namespace_key (mm_namespace m);
  rh_key : rr_key_id row = jk_key_id k;
  rh_hmac : rr_hmac row = sign k (record_payload (rr_digest row) (rr_json row));
}.

Lemma verify_record_row_ok k row document m :
  _verify_record_row k row = Ok (document, m) ↔ row_holds k row document m.
Proof.
  unfold _verify_record_row, _decode_record. split.
  - destruct (json_loads (rr_json row)) as [d|] eqn:Ej; [|done].
    destruct (validate_memory_record d) as [[d' m']|e] eqn:Ev; [|by destruct e].
    intros Hr. guard Hr as Eg.
    destruct (compare_digest _ _) as [same|] eqn:Ec; [|done]. destruct same; [|done]. injection Hr as -> ->.
    apply compare_digest_eq in Ec. pose proof Ev as (o & -> & -> & _)%validate_memory_ok. breflect.
    by constructor.
  - intros []. rewrite rh_loads0, rh_valid0, rh_digest0, rh_id0, rh_namespace0, rh_key0.
    rewrite !bool_decide_true by done. cbn [negb orb]. rewrite rh_hmac0, rh_digest0.
    by rewrite compare_digest_refl by apply sign_digest.
Qed.

Lemma namespace_records_ok s db namespace records :
  namespace_records s db namespace = Ok records →
  (∃ meta, _verified_meta (ms_key s) db = Ok meta) ∧ ms_closed s = false ∧
  (∀ document m, (document, m) ∈ records → ∃ row, row ∈ md_records db ∧
     row_holds (ms_key s) row document m ∧ rr_namespace row = _namespace_key namespace).
Proof.
  unfold namespace_records, _transaction. intros Hn. guard Hn as Ec.
  destruct (_verified_meta (ms_key s) db) as [meta|]; [|done]. split_and!; [by exists meta|done|].
  apply map_result_Forall2 in Hn. intros document m Hin.
  apply list_elem_of_lookup in Hin as [i Hi].
  destruct (Forall2_lookup_r _ _ _ _ _ Hn Hi) as (row & Hrow & Hv). exists row.
  apply list_elem_of_lookup_2 in Hrow. rewrite py_sorted_perm in Hrow.
  apply list_elem_of_In, filter_In in Hrow as [Hrow Hk]. apply list_elem_of_In in Hrow. breflect.
  by split_and!; [|apply verify_record_row_ok|].
Qed.

(** The [UNIQUE] constraint of the table of records. *)
Definition unique_digests (db : memory_db) : Prop := NoDup (map rr_digest (md_records db)).

Lemma find_digest_unique db row :
  unique_digests db → row ∈ md_records db → find_digest (rr_digest row) (md_records db) = Some row.
Proof.
  unfold unique_digests, find_digest. induction (md_records db) as [|r rows IH]; [by intros _ ?%elem_of_nil|].
  intros Hnd Hin. cbn [map] in Hnd. apply NoDup_cons in Hnd as [Hn Hnd]. cbn [List.find].
  apply elem_of_cons in Hin as [->|Hin]; [by rewrite bool_decide_true|].
  rewrite bool_decide_false; [by apply IH|]. intros E. apply Hn. rewrite E. by apply (list_elem_of_fmap_2 rr_digest).
Qed.

Lemma ms_get_row s art db row document m meta :
  unique_digests db → ms_closed s = false → _verified_meta (ms_key s) db = Ok meta →
  row ∈ md_records db → row_holds (ms_key s) row document m →
  ms_get s art db (mm_digest m) false = Ok (document, m).
Proof.
  intros Hu Hc Hm Hin Hrow. unfold ms_get, _transaction. rewrite Hc, Hm. unfold _load_digest_locked.
  rewrite <- (rh_digest _ _ _ _ Hrow), find_digest_unique by done.
  by apply verify_record_row_ok in Hrow as ->.
Qed.

(** Reading the content of a stored record is reading its artifact. *)
Lemma read_content_row s art db row document m meta :
  unique_digests db → ms_closed s = false → _verified_meta (ms_key s) db = Ok meta →
  row ∈ md_records db → row_holds (ms_key s) row document m →
  read_content s art db document =
    (if py_eq document document then
       let! proof := proof_for_record art (ar_ref (mm_content m)) (ar_sha256 (mm_content m))
                       (ar_length (mm_content m)) in
       open_verified art proof
     else Err unauthentic).
Proof.
  intros Hu Hc Hm Hin Hrow. unfold read_content. rewrite (rh_valid _ _ _ _ Hrow).
  rewrite (ms_get_row s art db row document m meta) by done. by destruct (py_eq document document).
Qed.
Lemma read_content_authentic s art db row document m meta content :
  unique_digests db → ms_closed s = false → _verified_meta (ms_key s) db = Ok meta →
  row ∈ md_records db → row_holds (ms_key s) row document m →
  read_content s art db document = Ok content →
  sha256_hex content = ar_sha256 (mm_content m) ∧ byte_len content = ar_length (mm_content m).
Proof.
  intros Hu Hc Hm Hin Hrow. rewrite (read_content_row s art db row document m meta) by done.
  destruct (py_eq _ _); [|done]. destruct (proof_for_record _ _ _ _) as [p|] eqn:Ep; [|done].
  intros Ho. apply read_for_record in Ep as (c & Ho' & _ & Hs & Hl). rewrite Ho in Ho'. by injection Ho' as <-.
Qed.

(** ** A document equals itself *)

Lemma py_eq_refl j : json_wf j = true → py_eq j j = true.
Proof.
  induction j as [|b|z|s|l IH|o IH] using json_nested_ind; intros Hwf; simpl;
    try (by apply bool_decide_eq_true); [done| |].
  - simpl in Hwf. induction IH as [|x l Hx _ IHl]; [done|]. simpl in *.
    apply andb_true_iff in Hwf as [H1' H2']. rewrite Hx by done. simpl. by apply IHl.
  - simpl in Hwf. apply andb_true_iff in Hwf as [Hnd Hwf]. apply bool_decide_eq_true in Hnd.
    rewrite Nat.eqb_refl. cbn [andb]. rewrite forallb_forall in *. intros [k v] Hkv. simpl.
    pose proof Hkv as Hin. apply list_elem_of_In in Hin. rewrite (elem_jassoc k o v Hnd Hin).
    rewrite List.Forall_forall in IH. by apply (IH _ Hkv), (Hwf _ Hkv).
Qed.
End Facts.

(** * Facts about a retrieval that answered

    [disclosable] is what the query, the policy and the clock admit;
    [retrieve_memory] is read as a choice among the disclosable records of the
    namespace. *)

Section Facts.
Context `{FromIso} `{Crypto} `{Jsonschema}.

(** ** What may be disclosed *)

Definition admits (q : MemoryQuery) (policy : MemoryReadPolicy) (m : memory) : Prop :=
  mm_data_class m ∈ mq_data_classes q ∧ mm_privacy m ∈ mq_privacy_levels q ∧ policy m = Some true.
(** The record with this digest is among [records]. *)
Definition recorded (records : list loaded) (d : string) (m : memory) : Prop :=
  ∃ document, (document, m) ∈ records ∧ mm_digest m = d.
Definition unexpired (current : Z) (m : memory) : Prop :=
  ∀ e, mm_expires m = Some e → ∃ t, read_time e = Some t ∧ current < t.
(** A summary needs its sources and the records its relations name. *)
Definition sources_admitted (q : MemoryQuery) (policy : MemoryReadPolicy) (records : list loaded)
    (m : memory) : Prop :=
  ∀ c target, mm_compaction m = Some c → target ∈ co_sources c ++ map (fun r => r.2) (co_relations c) →
  ∃ other, recorded records target other ∧ admits q policy other.
Definition disclosable (q : MemoryQuery) (policy : MemoryReadPolicy) (current : Z) (records : list loaded)
    (m : memory) : Prop :=
  admits q policy m ∧ mm_type m ∈ mq_types q ∧ unexpired current m ∧ sources_admitted q policy records m.

Definition digest_of (l : loaded) : string := mm_digest l.2.
Definition indexed (records : list loaded) : gmap string loaded := by_record_digest id records.
Definition decided (policy : MemoryReadPolicy) (records : list loaded) (decisions : list (string * bool)) : Prop :=
  Forall2 (fun l d => d.1 = digest_of l ∧ policy l.2 = Some d.2) records decisions.

Lemma by_record_digest_indexed {A} (f : loaded → A) records :
  by_record_digest f records = f <$> indexed records.
Proof.
  unfold indexed, by_record_digest. induction records as [|l records IH]; cbn; [by rewrite fmap_empty|].
  by rewrite fmap_insert, IH.
Qed.

Section Records.
Context (records : list loaded) (Hnd : NoDup (map digest_of records)).

Lemma indexed_spec d l : indexed records !! d = Some l ↔ l ∈ records ∧ digest_of l = d.
Proof using Hnd.
  unfold indexed, by_record_digest. rewrite <- elem_of_list_to_map.
  - rewrite list_elem_of_fmap. split; [by intros (? & [= -> ->] & ?)|]. intros [? <-]. by exists l.
  - change ((map (fun l0 => (mm_digest l0.2, id l0)) records).*1)
      with (fst <$> ((fun l0 : loaded => (mm_digest l0.2, id l0)) <$> records)).
    by rewrite <- list_fmap_compose.
Qed.
Lemma decided_spec policy decisions d b :
  decided policy records decisions →
  (list_to_map decisions : gmap string bool) !! d = Some b →
  ∃ l, l ∈ records ∧ digest_of l = d ∧ policy l.2 = Some b.
Proof using Type.
  intros Hd Hl. apply elem_of_list_to_map_2, list_elem_of_lookup in Hl as [i Hi].
  destruct (Forall2_lookup_r _ _ _ _ _ Hd Hi) as (l & Hl & Ed & Ep). cbn [fst snd] in *.
  exists l. split_and!; [by eapply list_elem_of_lookup_2|done|done].
Qed.
Lemma decided_lookup policy decisions l b :
  decided policy records decisions → l ∈ records → policy l.2 = Some b →
  (list_to_map decisions : gmap string bool) !! digest_of l = Some b.
Proof using Hnd.
  intros Hd Hl Hp. destruct ((list_to_map decisions : gmap string bool) !! digest_of l) as [b'|] eqn:E.
  - destruct (decided_spec _ _ _ _ Hd E) as (l' & Hl' & Ed & Ep).
    rewrite (NoDup_map_inj digest_of records Hnd l' l Hl' Hl Ed) in Ep. congruence.
  - apply list_elem_of_lookup in Hl as [i Hi].
    destruct (Forall2_lookup_l _ _ _ _ _ Hd Hi) as ([d' b'] & Hb & Ed & _). cbn [fst] in Ed.
    apply not_elem_of_list_to_map_2 in E. destruct E. rewrite <- Ed.
    apply list_elem_of_lookup_2, (list_elem_of_fmap_2 fst) in Hb. done.
Qed.

(** The test of the code is [disclosable]. *)
Lemma is_eligible_spec q policy decisions current l :
  decided policy records decisions → l ∈ records →
  is_eligible q (snd <$> indexed records) (list_to_map decisions) current l.2 = true
  ↔ disclosable q policy current records l.2.
Proof using Hnd.
  intros Hd Hl.
  assert (∀ l', l' ∈ records →
    default false ((list_to_map decisions : gmap string bool) !! digest_of l') = true ↔ policy l'.2 = Some true)
    as Hperm.
  { intros l' Hl'. split.
    - destruct (_ !! _) as [[]|] eqn:E; try done. intros _. apply decided_spec with (policy := policy) in E; [|done].
      destruct E as (l2 & Hl2 & Ed & Ep). by rewrite (NoDup_map_inj digest_of records Hnd l2 l' Hl2 Hl' Ed) in Ep.
    - intros Hp. by rewrite (decided_lookup policy decisions l' true). }
  assert (match mm_expires l.2 with
          | Some e => match read_time e with Some t => current <? t | None => false end
          | None => true
          end = true ↔ unexpired current l.2) as Hexp.
  { unfold unexpired. destruct (mm_expires l.2) as [e|]; [|by split].
    destruct (read_time e) as [t|] eqn:Et; split.
    - intros Hlt e' [= <-]. exists t. split; [done|]. by apply Z.ltb_lt.
    - intros Hx. destruct (Hx e eq_refl) as (t' & Et' & Hlt). rewrite Et in Et'. injection Et' as <-. by apply Z.ltb_lt.
    - done.
    - intros Hx. destruct (Hx e eq_refl) as (t' & Et' & _). congruence. }
  unfold is_eligible, disclosable, admits. cbv zeta. rewrite !andb_true_iff, !bool_decide_eq_true, Hexp.
  change (mm_digest l.2) with (digest_of l). rewrite Hperm by done.
  assert (∀ P Q R : Prop, (P ↔ Q) → (R ∧ P ↔ R ∧ Q)) as Hcong by tauto.
  enough (match mm_compaction l.2 with
          | Some c => forallb _ (co_sources c ++ map (fun r => r.2) (co_relations c))
          | None => true
          end = true ↔ sources_admitted q policy records l.2) as -> by tauto.
  unfold sources_admitted. destruct (mm_compaction l.2) as [c|]; [|by split].
  rewrite forallb_forall. setoid_rewrite <- list_elem_of_In. split.
  - intros Hall c' target [= <-] Ht. specialize (Hall target Ht). rewrite lookup_fmap in Hall.
    destruct (indexed records !! target) as [l'|] eqn:E; [|done]. cbn in Hall. apply indexed_spec in E as [Hl' Ed].
    rewrite !andb_true_iff, !bool_decide_eq_true in Hall. rewrite <- Ed, Hperm in Hall by done.
    exists l'.2. split; [exists l'.1; split; [by destruct l'|exact Ed]|]. unfold admits. tauto.
  - intros Hall target Ht. destruct (Hall c target eq_refl Ht) as (other & (doc & Hin & Ed) & Ha & Hb & Hc).
    assert (indexed records !! target = Some (doc, other)) as E by by apply indexed_spec.
    rewrite lookup_fmap, E. cbn. rewrite !andb_true_iff, !bool_decide_eq_true.
    pose proof (Hperm (doc, other) Hin) as Hp. unfold digest_of in Hp. cbn [snd] in Hp. rewrite <- Ed.
    split; [by apply Hp|done].
Qed.
End Records.

(** ** A retrieval that answered *)

(** What [retrieve_memory] computes between reading the records and their contents. *)
Definition eligible_of (q : MemoryQuery) (current : Z) (records : list loaded)
    (decisions : list (string * bool)) : gmap string memory :=
  eligible_records q (by_record_digest snd records) (list_to_map decisions) current.
Definition relations_among (records : list loaded) : list link :=
  remove_dups (concat (map (fun l => relations_of l.2) records)).

Lemma opposes_among records a b :
  opposes (relations_among records) a b ↔ opposes (concat (map (fun l => relations_of l.2) records)) a b.
Proof. unfold opposes, relations_among. by setoid_rewrite elem_of_remove_dups. Qed.

Record answered (s : PrivateMemoryStore) (art : artifact_store) (db : memory_db) (q : MemoryQuery)
    (policy : MemoryReadPolicy) (records : list loaded) (current : Z) (decisions : list (string * bool))
    (r : MemoryRetrievalResult) : Prop := {
  an_decided : decided policy records decisions;
  an_hits : Forall2 (fun d h => (fst <$> indexed records) !! d = Some (mh_record h) ∧
                                read_content s art db (mh_record h) = Ok (mh_content h))
              (sl_selected (select_memory q (eligible_of q current records decisions) (relations_among records)))
              (mt_hits r);
  an_bytes : mt_used_bytes r
    = sl_bytes (select_memory q (eligible_of q current records decisions) (relations_among records));
  an_tokens : mt_estimated_tokens r
    = sl_tokens (select_memory q (eligible_of q current records decisions) (relations_among records));
  an_truncated : mt_truncated r
    = sl_truncated (select_memory q (eligible_of q current records decisions) (relations_among records));
}.

Lemma decided_ok policy records decisions :
  map_result (fun l : loaded => _policy_allows policy l.2) records = Ok decisions ↔ decided policy records decisions.
Proof.
  rewrite map_result_Forall2. split; intros Hf; (eapply Forall2_impl; [exact Hf|]); intros l [d b];
    unfold _policy_allows.
  - by destruct (policy l.2) as [b'|]; [|done]; intros [= <- <-].
  - cbn [fst snd]. by intros [-> ->].
Qed.

Lemma retrieve_memory_answered s art db q policy now r :
  retrieve_memory s art db q policy now = Ok r →
  ∃ current records decisions,
    astimezone_utc now = Some (Ok current) ∧ namespace_records s db (mq_namespace q) = Ok records ∧
    answered s art db q policy records current decisions r.
Proof.
  unfold retrieve_memory. intros Hr. destruct (astimezone_utc now) as [[current|]|]; [|discriminate Hr..].
  destruct (namespace_records _ _ _) as [records|]; [|discriminate Hr]. cbv zeta in Hr.
  destruct (map_result (fun l => _policy_allows policy l.2) records) as [decisions|] eqn:Ed; [|discriminate Hr].
  apply decided_ok in Ed. fold (eligible_of q current records decisions) in Hr.
  fold (relations_among records) in Hr.
  destruct (map_result _ (sl_selected _)) as [hits|] eqn:Eh; [|discriminate Hr]. injection Hr as <-.
  exists current, records, decisions. split_and!; [done..|]. constructor; try done.
  apply map_result_Forall2 in Eh. cbn [mt_hits]. eapply Forall2_impl; [exact Eh|]. intros d h Hh. cbn beta in Hh.
  rewrite <- (by_record_digest_indexed fst).
  destruct (by_record_digest fst records !! d) as [doc|]; [|discriminate Hh]. cbn [some_or] in Hh.
  destruct (read_content s art db doc) as [c|] eqn:Ec; [|discriminate Hh]. by injection Hh as <-.
Qed.

Lemma namespace_digests s db namespace records :
  unique_digests db → namespace_records s db namespace = Ok records → NoDup (map digest_of records).
Proof.
  intros Hu Hn. unfold namespace_records, _transaction in Hn. guard Hn as Ec.
  destruct (_verified_meta _ _); [|done]. apply map_result_Forall2 in Hn.
  set (rows := py_sorted _ _) in Hn.
  assert (NoDup (map rr_digest rows)) as Hr.
  { unfold rows. eapply (sublist_NoDup _ (map rr_digest (md_records db))) in Hu.
    - change (NoDup (rr_digest <$> py_sorted recent_first
                       (List.filter (fun r => rr_namespace r == _namespace_key namespace) (md_records db)))).
      rewrite py_sorted_perm. exact Hu.
    - apply fmap_sublist. clear. induction (md_records db) as [|x l IH]; [constructor|]. cbn [List.filter].
      case_bool_decide; by constructor. }
  assert (map digest_of records = map rr_digest rows) as ->; [|done]. clear -Hn.
  induction Hn as [|row [doc m] rows records Hv _ IH]; [done|]. cbn [map]. f_equal; [|done].
  apply verify_record_row_ok, rh_digest in Hv. by rewrite Hv.
Qed.

Lemma eligible_of_spec q policy current records decisions d m :
  NoDup (map digest_of records) → decided policy records decisions →
  eligible_of q current records decisions !! d = Some m
  ↔ recorded records d m ∧ disclosable q policy current records m.
Proof.
  intros Hnd Hd. unfold eligible_of, eligible_records. rewrite map_lookup_filter_Some, by_record_digest_indexed.
  cbn [snd]. rewrite lookup_fmap_Some. setoid_rewrite (indexed_spec records Hnd). split.
  - intros [([doc m'] & <- & Hin & Ed) He]. split; [by exists doc|].
    by apply (is_eligible_spec records Hnd q policy decisions current (doc, m')) in He.
  - intros [(doc & Hin & Ed) Hp]. split; [by exists (doc, m)|].
    by apply (is_eligible_spec records Hnd q policy decisions current (doc, m)).
Qed.

(** Every record read is what its row says. *)
Definition read_rows (s : PrivateMemoryStore) (db : memory_db) (namespace : list (string * json))
    (records : list loaded) : Prop :=
  ∀ document m, (document, m) ∈ records → ∃ row, row ∈ md_records db ∧
    row_holds (ms_key s) row document m ∧ rr_namespace row = _namespace_key namespace.

(** The hits are the selected records, in order. *)
Lemma answered_hits s art db q policy records current decisions r :
  NoDup (map digest_of records) → read_rows s db (mq_namespace q) records →
  answered s art db q policy records current decisions r →
  map (fun h => record_digest (mh_record h)) (mt_hits r)
  = sl_selected (select_memory q (eligible_of q current records decisions) (relations_among records)) ∧
  ∀ h, h ∈ mt_hits r → ∃ m, (mh_record h, m) ∈ records ∧ record_digest (mh_record h) = mm_digest m ∧
    read_content s art db (mh_record h) = Ok (mh_content h).
Proof.
  intros Hnd Hrows [_ Hhits _ _ _]. set (sel := sl_selected _) in *. clearbody sel.
  assert (∀ d doc, (fst <$> indexed records) !! d = Some doc →
            ∃ m, (doc, m) ∈ records ∧ mm_digest m = d ∧ record_digest doc = d) as Hdoc.
  { intros d doc Hl. apply lookup_fmap_Some in Hl as ([doc' m] & <- & Hin).
    apply (indexed_spec records Hnd) in Hin as [Hin Ed]. exists m. split_and!; [done|done|].
    destruct (Hrows _ _ Hin) as (row & _ & Hrow & _).
    apply rh_valid, validate_memory_ok in Hrow as (o & Eo & _ & _ & Hm & _). cbn [fst]. rewrite Eo.
    by rewrite (as_memory_digest o m Hm). }
  split.
  - clear Hrows. induction Hhits as [|d h sel hits [Hl _] _ IH]; [done|]. cbn [map].
    destruct (Hdoc _ _ Hl) as (m & _ & _ & ->). by rewrite IH.
  - intros h Hh. apply list_elem_of_lookup in Hh as [i Hi].
    destruct (Forall2_lookup_r _ _ _ _ _ Hhits Hi) as (d & _ & Hl & Hc).
    destruct (Hdoc _ _ Hl) as (m & Hin & Ed & Er). exists m. by rewrite Er, Ed.
Qed.

End Facts.
