(* ===== verification/MemoryProps.v ===== *)
(** * Properties of memory retrieval

    What a context built from memory can contain, and why something is missing. *)

From S2P Require Import Prelude Json Digest PyTime PyClock PyFloat Schema RouteRecords RouteConsumption ArtifactStore MemoryContracts MemoryStore MemoryRetrieval MemoryGraph MemoryFacts.

Section Props.
Context `{FromIso} `{Crypto} `{Jsonschema}.

(** The digests of the hits, in the order of the answer. *)
Definition hit_digests (r : MemoryRetrievalResult) : list string :=
  map (fun h => record_digest (mh_record h)) (mt_hits r).
(** The relations of the records of the namespace. *)
Definition relations_in (records : list loaded) : list link := concat (map (fun l => relations_of l.2) records).

(** A retrieval that answered chose among the disclosable records. *)
Record chose (s : PrivateMemoryStore) (art : artifact_store) (db : memory_db) (q : MemoryQuery)
    (policy : MemoryReadPolicy) (current : Z) (records : list loaded) (r : MemoryRetrievalResult)
    (eligible : gmap string memory) : Prop := {
  ch_eligible : ∀ d m, eligible !! d = Some m ↔ recorded records d m ∧ disclosable q policy current records m;
  ch_selected : ∃ sel, chosen_well q eligible (relations_among records) sel ∧ hit_digests r = sl_selected sel ∧
    mt_used_bytes r = sl_bytes sel ∧ mt_estimated_tokens r = sl_tokens sel ∧ mt_truncated r = sl_truncated sel;
  ch_hits : ∀ h, h ∈ mt_hits r → ∃ m, (mh_record h, m) ∈ records ∧ record_digest (mh_record h) = mm_digest m ∧
    eligible !! mm_digest m = Some m ∧
    sha256_hex (mh_content h) = ar_sha256 (mm_content m) ∧ byte_len (mh_content h) = ar_length (mm_content m);
  ch_rows : read_rows s db (mq_namespace q) records;
}.

Lemma retrieve_memory_chose s art db q policy now r :
  unique_digests db → retrieve_memory s art db q policy now = Ok r →
  ∃ current records eligible,
    astimezone_utc now = Some (Ok current) ∧ namespace_records s db (mq_namespace q) = Ok records ∧
    chose s art db q policy current records r eligible.
Proof.
  intros Hu (current & records & decisions & Hnow & Hrec & Han)%retrieve_memory_answered.
  pose proof (namespace_digests _ _ _ _ Hu Hrec) as Hnd.
  destruct (namespace_records_ok _ _ _ _ Hrec) as ((meta & Hmeta) & Hclosed & Hrows).
  pose proof (eligible_of_spec q policy current records decisions) as Hel.
  specialize (fun d m => Hel d m Hnd (an_decided _ _ _ _ _ _ _ _ _ Han)).
  destruct (answered_hits s art db q policy records current decisions r Hnd Hrows Han) as [Hsel Hhits].
  exists current, records, (eligible_of q current records decisions). split_and!; [done..|].
  assert (chosen_well q (eligible_of q current records decisions) (relations_among records)
            (select_memory q (eligible_of q current records decisions) (relations_among records))) as Hcw.
  { apply select_memory_spec. intros d. unfold length_of. destruct (_ !! d) as [m|] eqn:E; [|done].
    apply Hel in E as [(doc & Hin & _) _]. destruct (Hrows _ _ Hin) as (row & _ & Hrow & _).
    by apply rh_valid, validate_memory_typed, ty_length in Hrow. }
  constructor; [done| | |done].
  - exists (select_memory q (eligible_of q current records decisions) (relations_among records)).
    destruct Han. by split_and!.
  - intros h Hh. destruct (Hhits h Hh) as (m & Hin & Ed & Hc). exists m. split_and!; [done|done|..].
    + destruct (eligible_of q current records decisions !! mm_digest m) as [m'|] eqn:E.
      * apply Hel in E as [(doc & Hin' & E) _].
        assert ((doc, m') = (mh_record h, m)) as [= _ ->]; [|done].
        by apply (NoDup_map_inj digest_of records Hnd).
      * exfalso. apply not_elem_of_dom in E. apply E, (cw_eligible _ _ _ _ Hcw). rewrite <- Hsel, <- Ed.
        by apply (list_elem_of_fmap_2 (fun h => record_digest (mh_record h))).
    + destruct (Hrows _ _ Hin) as (row & Hrow & Hh' & _).
      by eapply (read_content_authentic s art db row _ m meta).
    + destruct (Hrows _ _ Hin) as (row & Hrow & Hh' & _).
      by eapply (read_content_authentic s art db row _ m meta).
Qed.

(** [C9] Memory that is contested is shown whole or not at all: when a record
    of the namespace refutes or conflicts with another, as either of them or a
    summary of them says, both are hits or neither is, whatever the budgets, the
    query and the policy leave out. *)
Theorem contested_memory_stays_together s art db q policy now r records a b :
  unique_digests db → retrieve_memory s art db q policy now = Ok r →
  namespace_records s db (mq_namespace q) = Ok records →
  opposes (relations_in records) a b → a ∈ hit_digests r ↔ b ∈ hit_digests r.
Proof.
  intros Hu Hr Hrec Ho. destruct (retrieve_memory_chose _ _ _ _ _ _ _ Hu Hr) as (cur & recs & el & _ & Hrec' & Hch).
  rewrite Hrec in Hrec'. injection Hrec' as <-. destruct (ch_selected _ _ _ _ _ _ _ _ _ Hch) as (sel & Hcw & -> & _).
  apply opposes_among in Ho.
  split; [by apply (cw_together _ _ _ _ Hcw)|]. apply (cw_together _ _ _ _ Hcw). by apply opposes_sym.
Qed.

(** [C11] Memory is disclosed by permission only: a hit is an authenticated
    record of the namespace asked for, of a data class, a privacy level and a type
    of the query, allowed by the caller's policy and not expired; if it is a
    summary, the same classes and the policy admit every record it summarises or
    relates to.  Its content has the digest and the length the record declares. *)
Theorem memory_is_disclosed_by_permission s art db q policy now r h :
  unique_digests db → retrieve_memory s art db q policy now = Ok r → h ∈ mt_hits r →
  ∃ current records row m,
    astimezone_utc now = Some (Ok current) ∧ namespace_records s db (mq_namespace q) = Ok records ∧
    row ∈ md_records db ∧ row_holds (ms_key s) row (mh_record h) m ∧
    _namespace_key (mm_namespace m) = _namespace_key (mq_namespace q) ∧
    disclosable q policy current records m ∧
    sha256_hex (mh_content h) = ar_sha256 (mm_content m) ∧ byte_len (mh_content h) = ar_length (mm_content m).
Proof.
  intros Hu Hr Hh. destruct (retrieve_memory_chose _ _ _ _ _ _ _ Hu Hr) as (cur & recs & el & Hn & Hrec & Hch).
  destruct (ch_hits _ _ _ _ _ _ _ _ _ Hch h Hh) as (m & Hin & _ & Hel & Hs & Hl).
  destruct (ch_rows _ _ _ _ _ _ _ _ _ Hch _ _ Hin) as (row & Hrow & Hholds & Hk).
  apply (ch_eligible _ _ _ _ _ _ _ _ _ Hch) in Hel as [_ Hd].
  exists cur, recs, row, m. split_and!; try done. by rewrite <- (rh_namespace _ _ _ _ Hholds).
Qed.

(** [C23] A context never exceeds its three budgets: a query that passed its
    checks gets at most [max_items] records, whose contents have exactly the
    reported number of bytes, at most [max_bytes] and [max_tokens]. *)
Theorem memory_context_within_budgets s art db q policy now r :
  unique_digests db → new_query q = Ok q → retrieve_memory s art db q policy now = Ok r →
  Z.of_nat (length (mt_hits r)) ≤ mq_max_items q ∧
  mt_used_bytes r = foldl Z.add 0 (map (fun h => byte_len (mh_content h)) (mt_hits r)) ∧
  mt_estimated_tokens r = mt_used_bytes r ∧
  mt_used_bytes r ≤ mq_max_bytes q ∧ mt_used_bytes r ≤ mq_max_tokens q.
Proof.
  intros Hu Hq Hr. destruct (retrieve_memory_chose _ _ _ _ _ _ _ Hu Hr) as (cur & recs & el & _ & _ & Hch).
  destruct (ch_selected _ _ _ _ _ _ _ _ _ Hch) as (sel & Hcw & Hd & Hb & Ht & _).
  assert (length (mt_hits r) = length (sl_selected sel)) as Hlen
    by (rewrite <- Hd; unfold hit_digests; by rewrite length_map).
  assert (0 ≤ mq_max_items q ∧ 0 ≤ mq_max_bytes q ∧ 0 ≤ mq_max_tokens q) as (? & ? & ?).
  { unfold new_query in Hq. guard Hq as E1. guard Hq as E2. guard Hq as E3. guard Hq as E4. guard Hq as E5.
    cbn [existsb] in E5. breflect. lia. }
  rewrite Hb, Ht, (cw_tokens _ _ _ _ Hcw), Hlen.
  assert (sl_bytes sel = foldl Z.add 0 (map (fun h => byte_len (mh_content h)) (mt_hits r))) as Hsum.
  { rewrite (cw_bytes _ _ _ _ Hcw), <- Hd. unfold sum_of, hit_digests. rewrite map_map. f_equal.
    apply map_ext_in. intros h Hh. apply list_elem_of_In in Hh.
    destruct (ch_hits _ _ _ _ _ _ _ _ _ Hch h Hh) as (m & _ & -> & Hel & _ & ->). unfold length_of. by rewrite Hel. }
  destruct (cw_items_fit _ _ _ _ Hcw) as [E|Hi]; destruct (cw_bytes_fit _ _ _ _ Hcw) as [E'|[Hb1 Hb2]];
    split_and!; try done; rewrite ?(cw_bytes _ _ _ _ Hcw), ?E, ?E'; cbn; lia.
Qed.

(** ** What is left out *)

(** One contested pair of disclosable records after another. *)
Definition disputed_with (q : MemoryQuery) (policy : MemoryReadPolicy) (current : Z) (records : list loaded)
    (a b : string) : Prop :=
  opposes (relations_in records) a b ∧
  (∃ m, recorded records a m ∧ disclosable q policy current records m) ∧
  (∃ m, recorded records b m ∧ disclosable q policy current records m).
(** [group] is closed under contests: it is shown as a whole. *)
Definition contested_group (records : list loaded) (group : list memory) : Prop :=
  NoDup (map mm_digest group) ∧ (∀ x, x ∈ group → recorded records (mm_digest x) x) ∧
  ∀ x b, x ∈ group → opposes (relations_in records) (mm_digest x) b → b ∈ map mm_digest group.
Definition total_bytes (group : list memory) : Z := foldl Z.add 0 (map (fun m => ar_length (mm_content m)) group).

Lemma group_of_digests (eligible : gmap string memory) records policy current q c :
  (∀ d m, eligible !! d = Some m ↔ recorded records d m ∧ disclosable q policy current records m) →
  (∀ x, x ∈ c → x ∈ dom eligible) →
  ∃ group, map mm_digest group = c ∧ (∀ x, x ∈ group → recorded records (mm_digest x) x) ∧
    sum_of (length_of eligible) c = total_bytes group.
Proof.
  intros Hel. unfold total_bytes. induction c as [|d c IH]; intros Hc.
  { exists []. split_and!; [done|by intros ? ?%elem_of_nil|done]. }
  destruct IH as (group & <- & Hg & Hs); [intros x Hx; apply Hc; by right|].
  assert (d ∈ dom eligible) as [m Hm]%elem_of_dom by (apply Hc; left).
  pose proof Hm as [Hrec _]%Hel. assert (mm_digest m = d) as Ed by by destruct Hrec as (? & _ & ?).
  exists (m :: group). split_and!.
  - cbn [map]. by rewrite Ed.
  - intros x [->|Hx]%elem_of_cons; [by rewrite Ed|by apply Hg].
  - rewrite sum_of_cons, Hs. unfold length_of at 1. rewrite Hm. cbn [map foldl].
    rewrite (foldl_add_acc _ (0 + _)). lia.
Qed.


(** ** Answers *)

Lemma verify_object_proof art b :
  verify_binding art b = Ok tt →
  ∃ proof content, proof_for_record art (ar_ref b) (ar_sha256 b) (ar_length b) = Ok proof ∧
    open_verified art proof = Ok content.
Proof.
  unfold verify_binding, verify_record, exclusive. intros Hv. guard Hv as E1. guard Hv as E2. guard Hv as E3.
  pose proof Hv as [Hd _]%verify_object_ok.
  assert (proof_for_record art (ar_ref b) (ar_sha256 b) (ar_length b)
          = Ok (_make_proof art (ar_ref b) (ar_sha256 b) (ar_length b))) as Hp.
  { unfold proof_for_record, exclusive. by rewrite E1, Hd, E2, E3, Hv. }
  pose proof (read_for_record _ _ _ _ _ Hp) as (content & Ho & _). by eauto.
Qed.

(** In a store that verifies with its artifacts every record can be read. *)
Lemma verified_reads s art db report :
  ms_verify s art db true = Ok report →
  (∃ meta, _verified_meta (ms_key s) db = Ok meta) ∧ ms_closed s = false ∧
  ∀ row, row ∈ md_records db → ∃ document m, row_holds (ms_key s) row document m ∧
    ∃ proof content, proof_for_record art (ar_ref (mm_content m)) (ar_sha256 (mm_content m))
      (ar_length (mm_content m)) = Ok proof ∧ open_verified art proof = Ok content.
Proof.
  intros Hv. unfold ms_verify, _transaction in Hv. destruct (ms_closed s) eqn:Ec; [done|].
  destruct (verify_locked (ms_key s) db) as [[documents head]|] eqn:El; [|done].
  destruct (map_result _ documents) as [us|] eqn:Eb; [|done]. clear Hv report.
  unfold verify_locked in El. destruct (_verified_meta (ms_key s) db) as [meta|] eqn:Em; [|done].
  destruct (map_result (_verify_record_row _) _) as [docs|] eqn:Er; [|done].
  destruct (verify_journal _ _ _ _ _); [|done]. guard El as Eg. destruct (map_result _ docs); [|done].
  injection El as -> _. apply map_result_Forall2 in Er, Eb. split_and!; [by exists meta|done|].
  intros row Hrow. unfold by_digest in Er. rewrite <- (py_sorted_perm (fun a b => String.leb (rr_digest a) (rr_digest b))) in Hrow.
  apply list_elem_of_lookup in Hrow as [i Hi].
  destruct (Forall2_lookup_l _ _ _ _ _ Er Hi) as ([document m] & Hl & Hv).
  destruct (Forall2_lookup_l _ _ _ _ _ Eb Hl) as (u & _ & Hb). exists document, m.
  split; [by apply verify_record_row_ok|]. apply verify_object_proof. cbn [snd] in Hb.
  unfold _verify_artifact_bindings, all_bindings in Hb. cbn [first_bindings] in Hb.
  rewrite bool_decide_false in Hb by apply not_elem_of_nil. cbn [map_result] in Hb.
  by destruct (verify_binding art (mm_content m)) as [[]|].
Qed.

(** [C39] A sound store answers: if the store verifies together with its
    artifacts and the policy decides about every record, a retrieval at a time
    the clock can express returns. *)
Theorem sound_memory_answers s art db q policy now current report :
  unique_digests db → ms_verify s art db true = Ok report →
  (∀ m, is_Some (policy m)) → astimezone_utc now = Some (Ok current) →
  ∃ r, retrieve_memory s art db q policy now = Ok r.
Proof.
  intros Hu ((meta & Hmeta) & Hc & Hrows)%verified_reads Hp Hn.
  destruct (map_result_total (_verify_record_row (ms_key s))
    (fun row => row ∈ md_records db) (fun _ _ => True)
    (py_sorted recent_first
       (List.filter (fun r => rr_namespace r == _namespace_key (mq_namespace q)) (md_records db))))
    as (records & Hrec & _).
  { intros row Hrow. destruct (Hrows row Hrow) as (document & m & Hh & _). exists (document, m).
    split; [by apply verify_record_row_ok|done]. }
  { apply Forall_forall. intros row Hrow. rewrite py_sorted_perm in Hrow.
    apply list_elem_of_In, filter_In in Hrow as [Hrow _]. by apply list_elem_of_In. }
  assert (namespace_records s db (mq_namespace q) = Ok records) as Hns
    by (unfold namespace_records, _transaction; by rewrite Hc, Hmeta).
  pose proof (namespace_digests _ _ _ _ Hu Hns) as Hnd.
  destruct (namespace_records_ok _ _ _ _ Hns) as (_ & _ & Hread).
  destruct (map_result_total (fun l : loaded => _policy_allows policy l.2) (fun _ => True) (fun _ _ => True) records)
    as (decisions & Hdec & _).
  { intros l _. destruct (Hp l.2) as [b Eb]. unfold _policy_allows. rewrite Eb. by eexists. }
  { by apply Forall_true. }
  pose proof Hdec as Hd. apply decided_ok in Hd.
  unfold retrieve_memory. rewrite Hn, Hns. cbv zeta. rewrite Hdec.
  fold (eligible_of q current records decisions). fold (relations_among records).
  set (sel := select_memory _ _ _).
  assert (∀ d, d ∈ sl_selected sel → d ∈ dom (eligible_of q current records decisions)) as Hsel.
  { apply (cw_eligible q _ (relations_among records)), select_memory_spec. intros d. unfold length_of.
    destruct (_ !! d) as [m|] eqn:E; [|done]. apply (eligible_of_spec q policy) in E as [(doc & Hin & _) _]; [|done..].
    destruct (Hread _ _ Hin) as (row & _ & Hrow & _). by apply rh_valid, validate_memory_typed, ty_length in Hrow. }
  match goal with |- context [map_result ?f (sl_selected sel)] =>
    destruct (map_result_total f (fun d => d ∈ sl_selected sel) (fun _ _ => True) (sl_selected sel)) as (hits & -> & _) end.
  - intros d [m Hm]%Hsel%elem_of_dom. apply (eligible_of_spec q policy) in Hm as [(doc & Hin & Ed) _]; [|done..].
    rewrite by_record_digest_indexed, lookup_fmap.
    assert (indexed records !! d = Some (doc, m)) as -> by by apply indexed_spec.
    cbn [fmap option_fmap option_map fst some_or].
    destruct (Hread _ _ Hin) as (row & Hrow & Hh & _).
    destruct (Hrows row Hrow) as (doc' & m' & Hh' & proof & content & Hproof & Ho).
    assert ((doc', m') = (doc, m)) as [= -> ->].
    { pose proof Hh as E1%verify_record_row_ok. pose proof Hh' as E2%verify_record_row_ok. congruence. }
    rewrite (read_content_row s art db row doc m meta) by done.
    assert (py_eq doc doc = true) as ->.
    { apply py_eq_refl. apply rh_valid, validate_memory_ok in Hh as (o & -> & _ & Hs & _). by eapply conforms_wf. }
    rewrite Hproof, Ho. by eexists.
  - by apply Forall_forall.
  - by eexists.
Qed.
End Props.
