(* ===== verification/MemoryJournal.v ===== *)
(** * The invariant of a memory store

    [journal_inv] says what a file written by the store holds: the rows of a list
    of documents, their hash chain, and, for every record, the records it refers
    to.  Verification accepts such a file and [append] keeps it. *)

From S2P Require Import Prelude Json Digest PyTime PyClock Schema RouteRecords RouteConsumption ConsumptionProofs JsonCanon ArtifactStore MemoryContracts MemoryStore MemoryFacts.

(** Both sides make the same choices. *)
Ltac bind_cases :=
  repeat match goal with
  | |- mbind _ ?x = _ => destruct x; cbn [mbind option_bind fmap option_fmap option_map]; try done
  end.

Section Journal.
Context `{FromIso} `{Crypto} `{Jsonschema}.

(** ** A document and its canonical form *)

(** [m] as it is read back. *)
Definition stored (m : memory) : memory :=
  {| mm_id := mm_id m; mm_created := mm_created m; mm_digest := mm_digest m;
     mm_namespace := jnorm_items (mm_namespace m); mm_type := mm_type m; mm_data_class := mm_data_class m;
     mm_privacy := mm_privacy m; mm_author := mm_author m; mm_expires := mm_expires m;
     mm_content := mm_content m; mm_artifacts := mm_artifacts m; mm_links := mm_links m;
     mm_compaction := mm_compaction m |}.

Lemma namespace_key_jnorm ns : _namespace_key (jnorm_items ns) = _namespace_key ns.
Proof. unfold _namespace_key. rewrite <- jnorm_obj. apply canonical_json_jnorm. Qed.

Lemma as_artifact_jnorm o : wf_items o → as_artifact (jnorm_items o) = as_artifact o.
Proof. intros Ho. unfold as_artifact. canon. Qed.
Lemma as_link_jnorm o : wf_items o → as_link (jnorm_items o) = as_link o.
Proof. intros Ho. unfold as_link. canon. Qed.
Lemma as_links_jnorm o : wf_items o → as_links (jnorm_items o) = as_links o.
Proof. intros Ho. unfold as_links. canon. Qed.
Hint Resolve as_artifact_jnorm as_link_jnorm as_links_jnorm : eco.
Lemma as_compaction_jnorm o : wf_items o → as_compaction (jnorm_items o) = as_compaction o.
Proof. intros Ho. unfold as_compaction. canon. Qed.
Hint Resolve as_compaction_jnorm : eco.
Lemma as_memory_jnorm o : wf_items o → as_memory (jnorm_items o) = stored <$> as_memory o.
Proof.
  intros Ho. unfold as_memory. canon; rewrite ?as_artifact_jnorm, ?as_links_jnorm by assumption; bind_cases.
Qed.

(** The canonical form of a valid record is valid, and read the same. *)
Lemma validate_jnorm document document' m :
  validate_memory_record document = Ok (document', m) →
  validate_memory_record (jnorm document) = Ok (jnorm document, stored m).
Proof.
  intros (o & -> & _ & Hs & Hm & Hok)%validate_memory_ok.
  assert (wf_items o) as Ho by by eapply conforms_wf.
  unfold validate_memory_record. rewrite jnorm_obj. rewrite is_valid_conforms, <- jnorm_obj, conforms_jnorm by done.
  rewrite Hs, as_memory_jnorm, Hm by done. cbn [negb fmap option_fmap option_map some_or].
  assert (memory_ok (stored m) (jnorm_items o) = memory_ok m o) as ->; [|by rewrite Hok].
  unfold memory_ok, stored. cbn [mm_digest mm_expires mm_created mm_links mm_artifacts mm_type mm_compaction].
  assert (memory_record_digest (jnorm_items o) = memory_record_digest o) as ->; [|done].
  unfold memory_record_digest, semantic_digest. f_equal. rewrite <- canonical_json_jnorm.
  rewrite <- (canonical_json_jnorm (JObj [_; _; ("record", JObj (undigested o))])). f_equal.
  rewrite !jnorm_obj. f_equal. apply jnorm_items_ext; [apply (bool_decide_eq_true_1 _); reflexivity..|].
  intros k. cbn [jassoc]. repeat (case_bool_decide; [done || idtac|]); try done.
  cbn [fmap option_fmap option_map]. f_equal. rewrite !jnorm_obj. f_equal. by apply undigested_jnorm.
Qed.
(** ** Rows that hold *)

(** A document as the file keeps it. *)
Definition canonical (l : loaded) : Prop :=
  jnorm l.1 = l.1 ∧ json_wf l.1 = true ∧ validate_memory_record l.1 = Ok l.
Definition row_of (k : journal_key) (l : loaded) : record_row := record_row_of k l.2 (canonical_json l.1).

Lemma canonical_stored document m :
  validate_memory_record document = Ok (document, m) → canonical (jnorm document, stored m).
Proof.
  intros Hv. pose proof (validate_jnorm _ _ _ Hv) as Hv'.
  apply validate_memory_ok in Hv as (o & -> & _ & Hs & _).
  split_and!; [apply jnorm_idem| |done]. apply jnorm_wf. by eapply conforms_wf.
Qed.
Lemma row_of_holds k l : canonical l → row_holds k (row_of k l) l.1 l.2.
Proof.
  destruct l as [document m]. intros (Hj & Hw & Hv). cbn [fst snd] in *.
  constructor; try done. cbn [rr_json row_of record_row_of fst].
  rewrite <- Hj at 2. by apply json_loads_canonical.
Qed.
Lemma verify_row_of k l : canonical l → _verify_record_row k (row_of k l) = Ok l.
Proof. intros Hl. destruct l as [document m]. apply verify_record_row_ok. by apply row_of_holds. Qed.

Lemma record_row_stored k document m :
  record_row_of k m (canonical_json document) = row_of k (jnorm document, stored m).
Proof.
  unfold row_of, record_row_of. cbn [fst snd]. rewrite canonical_json_jnorm.
  cbn [stored mm_id mm_digest mm_namespace mm_created mm_expires mm_data_class mm_privacy mm_type].
  by rewrite namespace_key_jnorm.
Qed.

(** ** Looking up related records *)

Definition digests (ds : list loaded) : list string := map (fun l => mm_digest l.2) ds.

Section Lookup.
Context (k : journal_key) (db : memory_db) (ds : list loaded).
Context (Hrows : md_records db = map (row_of k) ds) (Hcan : Forall canonical ds).

Lemma load_row d :
  match find_digest d (md_records db) with
  | Some row => ∃ l, row = row_of k l ∧ l ∈ ds ∧ mm_digest l.2 = d ∧
                     _load_digest_locked k db d = Ok (Some l)
  | None => d ∉ digests ds ∧ _load_digest_locked k db d = Ok None
  end.
Proof using Hrows Hcan.
  unfold _load_digest_locked. rewrite Hrows.
  assert (match find_digest d (map (row_of k) ds) with
          | Some row => ∃ l, row = row_of k l ∧ l ∈ ds ∧ mm_digest l.2 = d
          | None => d ∉ digests ds end) as Hf.
  { clear. unfold find_digest. induction ds as [|l l' IH]; cbn [map List.find]; [by apply not_elem_of_nil|].
    cbn [row_of record_row_of rr_digest]. case_bool_decide as Hd.
    - exists l. split_and!; [done|left|done].
    - destruct (List.find _ _) as [row|].
      + destruct IH as (x & -> & Hx & Hd'). exists x. split_and!; [done|by right|done].
      + cbn [digests map]. apply not_elem_of_cons. by split. }
  destruct (find_digest d _) as [row|]; [|done]. destruct Hf as (l & -> & Hl & Hd). exists l.
  rewrite verify_row_of; [done|]. by eapply Forall_forall in Hcan.
Qed.

(** What [load_related] finds. *)
Lemma load_related_ok ns d x :
  load_related k db ns d = Ok x →
  ∃ l, l ∈ ds ∧ mm_digest l.2 = d ∧ x = (d, l.2) ∧ _namespace_key (mm_namespace l.2) = ns.
Proof using Hrows Hcan.
  unfold load_related. pose proof (load_row d) as Hl. destruct (find_digest d _) as [row|].
  - destruct Hl as ([doc m] & _ & Hin & Hd & ->). intros Hr. guard Hr as En. injection Hr as <-.
    exists (doc, m). by breflect.
  - destruct Hl as [_ ->]. done.
Qed.
End Lookup.
(** ** The records a record refers to *)

(** Every record referred to is in [ds], in the same namespace, and a summary
    agrees with its sources. *)
Record related_ok (ds : list loaded) (m : memory) : Prop := {
  ro_found : ∀ d, d ∈ related m → ∃ l, l ∈ ds ∧ mm_digest l.2 = d ∧
    _namespace_key (mm_namespace l.2) = _namespace_key (mm_namespace m);
  ro_compaction : ∀ c, mm_compaction m = Some c → ∃ sources,
    Forall2 (fun d l => l ∈ ds ∧ mm_digest l.2 = d) (co_sources c) sources ∧
    check_compaction (mm_expires m) c (map snd sources) = Ok tt;
}.

Lemma related_ok_more ds ds' m : (∀ l, l ∈ ds → l ∈ ds') → related_ok ds m → related_ok ds' m.
Proof.
  intros Hsub [Hf Hc]. constructor.
  - intros d (l & Hl & ?)%Hf. exists l. split; [by apply Hsub|done].
  - intros c (sources & Hs & ?)%Hc. exists sources. split; [|done].
    eapply Forall2_impl; [exact Hs|]. intros d l [? ?]. split; [by apply Hsub|done].
Qed.
Lemma related_ok_stored ds m : related_ok ds (stored m) ↔ related_ok ds m.
Proof.
  split; intros [Hf Hc]; (constructor; [|exact Hc]); intros d (l & ? & ? & Hk)%Hf; exists l;
    split_and!; [done|done| |done|done|]; revert Hk; cbn [stored mm_namespace]; by rewrite namespace_key_jnorm.
Qed.

Lemma elem_of_sorted_set x l : x ∈ sorted_set l ↔ x ∈ l.
Proof. unfold sorted_set, sorted_strs. by rewrite py_sorted_perm, elem_of_remove_dups. Qed.
Section Related.
Context (k : journal_key) (db : memory_db) (ds : list loaded).
Context (Hrows : md_records db = map (row_of k) ds) (Hcan : Forall canonical ds) (Hnd : NoDup (digests ds)).

Lemma same_digest l l' : l ∈ ds → l' ∈ ds → mm_digest l.2 = mm_digest l'.2 → l = l'.
Proof using Hnd. apply (NoDup_map_inj (fun l : loaded => mm_digest l.2)). exact Hnd. Qed.

Lemma load_related_found ns l :
  l ∈ ds → _namespace_key (mm_namespace l.2) = ns → load_related k db ns (mm_digest l.2) = Ok (mm_digest l.2, l.2).
Proof using Hrows Hcan Hnd.
  intros Hl Hns. unfold load_related. pose proof (load_row k db ds Hrows Hcan (mm_digest l.2)) as Hr.
  destruct (find_digest _ _) as [row|].
  - destruct Hr as (l' & _ & Hl' & Hd & ->). rewrite (same_digest l' l Hl' Hl Hd).
    destruct l as [doc m]. cbn [snd] in *. by rewrite Hns, bool_decide_true.
  - destruct Hr as [Hn _]. destruct Hn. by apply (list_elem_of_fmap_2 (fun l : loaded => mm_digest l.2)).
Qed.

Lemma require_related_spec m : _require_related_locked k db m = Ok tt ↔ related_ok ds m.
Proof using Hrows Hcan Hnd.
  unfold _require_related_locked. split.
  - intros Hr. destruct (map_result _ (sorted_set _)) as [found|] eqn:Ef; [|done].
    apply map_result_Forall2 in Ef.
    assert (∀ d, d ∈ related m → ∃ l, l ∈ ds ∧ mm_digest l.2 = d ∧ (d, l.2) ∈ found ∧
              _namespace_key (mm_namespace l.2) = _namespace_key (mm_namespace m)) as Hfound.
    { intros d Hd. apply elem_of_sorted_set, list_elem_of_lookup in Hd as [i Hi].
      destruct (Forall2_lookup_l _ _ _ _ _ Ef Hi) as (x & Hx & Hload).
      apply (load_related_ok k db ds Hrows Hcan) in Hload as (l & Hl & Hdl & -> & Hns).
      exists l. split_and!; try done. by eapply list_elem_of_lookup_2. }
    assert (∀ d m', (d, m') ∈ found → ∃ l, l ∈ ds ∧ mm_digest l.2 = d ∧ l.2 = m') as Hback.
    { intros d m' Hx. apply list_elem_of_lookup in Hx as [i Hi].
      destruct (Forall2_lookup_r _ _ _ _ _ Ef Hi) as (d' & _ & Hload).
      apply (load_related_ok k db ds Hrows Hcan) in Hload as (l & Hl & Hdl & [= -> ->] & _). by exists l. }
    constructor; [intros d (l & ? & ? & _ & ?)%Hfound; by exists l|].
    intros c Hc. rewrite Hc in Hr. destruct (map_result _ (co_sources c)) as [sources|] eqn:Es; [|done].
    apply map_result_Forall2 in Es.
    assert (∃ ls, Forall2 (fun d (l : loaded) => l ∈ ds ∧ mm_digest l.2 = d) (co_sources c) ls ∧ map snd ls = sources)
      as (ls & Hls & <-).
    { clear Hr. induction Es as [|d m' dl ml Hd _ IH]; [by exists []|]. destruct IH as (ls & Hls & <-).
      destruct (assoc d found) as [v|] eqn:Ea; [|done]. injection Hd as <-.
      apply assoc_elem, Hback in Ea as (l & Hl & Hdl & <-). exists (l :: ls). split; [by constructor|done]. }
    by exists ls.
  - intros [Hf Hc].
    destruct (map_result_total (load_related k db (_namespace_key (mm_namespace m)))
                (fun d => d ∈ related m) (fun d x => ∃ l, l ∈ ds ∧ x = (mm_digest l.2, l.2) ∧ mm_digest l.2 = d)
                (sorted_set (related m))) as (found & -> & Hfound).
    { intros d (l & Hl & <- & Hns)%Hf. exists (mm_digest l.2, l.2). split; [by apply load_related_found|by exists l]. }
    { apply Forall_forall. intros d. by rewrite elem_of_sorted_set. }
    destruct (mm_compaction m) as [c|] eqn:Ec; [|done]. destruct (Hc c eq_refl) as (sources & Hs & Hchk).
    assert (map_result (fun d => some_or KeyError (assoc d found)) (co_sources c) = Ok (map snd sources)) as ->; [|done].
    assert (∀ d, d ∈ co_sources c → d ∈ sorted_set (related m)) as Hin.
    { intros d Hd. apply elem_of_sorted_set. unfold related. rewrite Ec. rewrite !elem_of_app. auto. }
    clear Hchk. induction Hs as [|d l dl ls [Hl Hd] _ IH]; [done|]. cbn [map_result map].
    assert (d ∈ sorted_set (related m)) as Hd' by (apply Hin; left).
    apply list_elem_of_lookup in Hd' as [i Hi].
    destruct (Forall2_lookup_l _ _ _ _ _ Hfound Hi) as (x & Hx & _ & l' & Hl' & -> & Hdl').
    destruct (assoc_dom d found) as [v Hv].
    { rewrite <- Hdl'. apply list_elem_of_lookup_2, (list_elem_of_fmap_2 fst) in Hx. done. }
    rewrite Hv. cbn [some_or]. apply assoc_elem, list_elem_of_lookup in Hv as [j Hj].
    destruct (Forall2_lookup_r _ _ _ _ _ Hfound Hj) as (d2 & _ & _ & l2 & Hl2 & [= Hd2 ->] & _).
    rewrite (same_digest l2 l Hl2 Hl) by congruence. rewrite IH; [done|]. intros d0 Hd0. apply Hin. by right.
Qed.
End Related.
(** ** The chain of digests *)

Fixpoint journal_of (k : journal_key) (sequence : Z) (previous : string) (ds : list loaded) : list journal_row :=
  match ds with
  | [] => []
  | l :: ds' =>
      let row := journal_row_of k sequence (mm_digest l.2) previous in
      row :: journal_of k (sequence + 1) (jr_hash row) ds'
  end.
Fixpoint chain_head (sequence : Z) (previous : string) (ds : list loaded) : string :=
  match ds with
  | [] => previous
  | l :: ds' => chain_head (sequence + 1) (journal_hash sequence (mm_digest l.2) previous) ds'
  end.

Lemma journal_of_snoc k ds l : ∀ sequence previous,
  journal_of k sequence previous (ds ++ [l])
  = journal_of k sequence previous ds
    ++ [journal_row_of k (sequence + Z.of_nat (length ds)) (mm_digest l.2) (chain_head sequence previous ds)].
Proof.
  induction ds as [|x ds IH]; intros sequence previous; cbn [app journal_of chain_head length].
  - by rewrite Z.add_0_r.
  - rewrite IH. cbn [jr_hash journal_row_of].
    by replace (sequence + 1 + Z.of_nat (length ds)) with (sequence + Z.of_nat (S (length ds))) by lia.
Qed.
Lemma chain_head_snoc ds l : ∀ sequence previous,
  chain_head sequence previous (ds ++ [l])
  = journal_hash (sequence + Z.of_nat (length ds)) (mm_digest l.2) (chain_head sequence previous ds).
Proof.
  induction ds as [|x ds IH]; intros sequence previous; cbn [app chain_head length].
  - by rewrite Z.add_0_r.
  - rewrite IH. by replace (sequence + 1 + Z.of_nat (length ds)) with (sequence + Z.of_nat (S (length ds))) by lia.
Qed.
Lemma journal_of_sequences k ds : ∀ sequence previous,
  StronglySorted (fun a b => jr_sequence a <=? jr_sequence b = true) (journal_of k sequence previous ds) ∧
  Forall (fun r => sequence ≤ jr_sequence r < sequence + Z.of_nat (length ds)) (journal_of k sequence previous ds).
Proof.
  induction ds as [|l ds IH]; intros sequence previous; cbn [journal_of]; [by repeat constructor|].
  destruct (IH (sequence + 1) (jr_hash (journal_row_of k sequence (mm_digest l.2) previous))) as [Hs Hf].
  cbn [length]. split; constructor; try done.
  - eapply Forall_impl; [exact Hf|]. cbn. intros r Hr. apply Z.leb_le. lia.
  - cbn. lia.
  - eapply Forall_impl; [exact Hf|]. cbn. intros r Hr. lia.
Qed.
Lemma journal_of_digests k ds : ∀ sequence previous,
  map jr_digest (journal_of k sequence previous ds) = digests ds.
Proof. induction ds as [|l ds IH]; intros; cbn [journal_of map]; [done|]. by rewrite IH. Qed.
Lemma journal_of_length k ds sequence previous : length (journal_of k sequence previous ds) = length ds.
Proof. pose proof (f_equal length (journal_of_digests k ds sequence previous)) as E. unfold digests in E. by rewrite !length_map in E. Qed.

Lemma verify_journal_of k all ds : ∀ sequence previous,
  (∀ l, l ∈ ds → mm_digest l.2 ∈ all) →
  verify_journal k all sequence previous (journal_of k sequence previous ds) = Ok (chain_head sequence previous ds).
Proof.
  induction ds as [|l ds IH]; intros sequence previous Hall; cbn [journal_of verify_journal chain_head]; [done|].
  cbn [jr_sequence jr_digest jr_previous jr_hash jr_key_id jr_hmac journal_row_of]. cbv zeta.
  rewrite Z.eqb_refl, !bool_decide_true by (done || apply Hall; left). cbn [negb orb].
  rewrite compare_digest_refl by apply sign_digest. cbn [negb]. apply IH. intros l' Hl'. apply Hall. by right.
Qed.

(** ** The invariant *)

Record journal_inv (k : journal_key) (db : memory_db) (store_id : string) (ds : list loaded) : Prop := {
  ji_application : md_application_id db = MEMORY_STORE_APPLICATION_ID;
  ji_version : md_user_version db = MEMORY_STORE_SCHEMA_VERSION;
  ji_tables : md_tables db = true;
  ji_meta : md_meta db = Some (mk_store_meta k store_id (Z.of_nat (length ds)) (chain_head 1 GENESIS_DIGEST ds));
  ji_records : md_records db = map (row_of k) ds;
  ji_journal : md_journal db = journal_of k 1 GENESIS_DIGEST ds;
  ji_canonical : Forall canonical ds;
  ji_digests : NoDup (digests ds);
  ji_ids : NoDup (map (fun l => mm_id l.2) ds);
  ji_related : ∀ l, l ∈ ds → related_ok ds l.2;
}.

Lemma ji_rr_digests k db store_id ds : journal_inv k db store_id ds → map rr_digest (md_records db) = digests ds.
Proof. intros []. rewrite ji_records0, map_map. done. Qed.
Lemma ji_unique k db store_id ds : journal_inv k db store_id ds → unique_digests db.
Proof. intros Hinv. unfold unique_digests. erewrite ji_rr_digests by done. apply Hinv. Qed.

Lemma verified_meta_inv k db store_id ds :
  journal_inv k db store_id ds →
  _verified_meta k db = Ok (mk_store_meta k store_id (Z.of_nat (length ds)) (chain_head 1 GENESIS_DIGEST ds)).
Proof.
  intros Hinv. unfold _verified_meta. rewrite (ji_tables _ _ _ _ Hinv), (ji_meta _ _ _ _ Hinv). cbn [negb].
  cbn [mk_store_meta sm_schema_version sm_key_id sm_hmac sm_store_id sm_head_sequence sm_head_hash].
  rewrite Z.eqb_refl, bool_decide_true by done. cbn [negb orb].
  by rewrite compare_digest_refl by apply sign_digest.
Qed.

Lemma memory_locked_inv k db store_id ds :
  journal_inv k db store_id ds →
  ∃ docs, verify_locked k db = Ok (docs, chain_head 1 GENESIS_DIGEST ds) ∧ docs ≡ₚ ds.
Proof.
  intros Hinv. unfold verify_locked. rewrite (verified_meta_inv _ _ _ _ Hinv).
  assert (map_result (_verify_record_row k) (md_records db) = Ok ds) as Hall.
  { rewrite (ji_records _ _ _ _ Hinv). apply map_result_Forall2.
    pose proof (ji_canonical _ _ _ _ Hinv) as Hc. clear -Hc.
    induction Hc; cbn [map]; constructor; [by apply verify_row_of|done]. }
  destruct (map_result_permute (_verify_record_row k) (md_records db) (by_digest (md_records db)) ds) as (docs & -> & Hdocs);
    [by unfold by_digest; rewrite py_sorted_perm|done|].
  exists docs. split; [|done].
  assert (in_sequence (md_journal db) = md_journal db) as ->.
  { rewrite (ji_journal _ _ _ _ Hinv). apply py_sorted_id, journal_of_sequences. }
  rewrite (ji_rr_digests _ _ _ _ Hinv), (ji_journal _ _ _ _ Hinv).
  rewrite verify_journal_of by (intros l Hl; by apply (list_elem_of_fmap_2 (fun l : loaded => mm_digest l.2))).
  rewrite journal_of_length, <- (Permutation_length Hdocs), Nat.eqb_refl.
  cbn [mk_store_meta sm_head_sequence sm_head_hash]. rewrite Z.eqb_refl.
  rewrite bool_decide_true by done. cbn [negb orb].
  assert (map_result (fun l : loaded => _require_related_locked k db l.2) docs = Ok (map (fun _ => tt) docs)) as ->; [|done].
  apply map_result_Forall2. assert (∀ l, l ∈ docs → _require_related_locked k db l.2 = Ok tt) as Hrel.
  { intros l Hl. apply (require_related_spec k db ds); try apply Hinv. by rewrite Hdocs. }
  clear -Hrel. induction docs as [|l docs IH]; cbn [map]; constructor; [apply Hrel; left|].
  apply IH. intros l' Hl'. apply Hrel. by right.
Qed.
Lemma ms_verify_inv s art db store_id ds :
  ms_closed s = false → journal_inv (ms_key s) db store_id ds →
  ms_verify s art db false = Ok (length ds, chain_head 1 GENESIS_DIGEST ds).
Proof.
  intros Hc Hinv. unfold ms_verify, _transaction. rewrite Hc.
  destruct (memory_locked_inv _ _ _ _ Hinv) as (docs & -> & Hp). by rewrite (Permutation_length Hp).
Qed.

Lemma initialized_inv k token :
  ∃ db, initialized k token empty_memory_db = Ok db ∧ journal_inv k db token [].
Proof.
  eexists. split; [reflexivity|]. constructor; try done; try apply NoDup_nil_2; by intros l ?%elem_of_nil.
Qed.
Lemma initialized_again k token db store_id ds :
  journal_inv k db store_id ds → initialized k token db = Ok db.
Proof. intros [Ha Hv]. unfold initialized. by rewrite Ha, Hv. Qed.

(** ** append *)

(** The record with this identifier. *)
Lemma find_id_row k ds i :
  match List.find (fun r => rr_id r == i) (map (row_of k) ds) with
  | Some row => ∃ l, row = row_of k l ∧ l ∈ ds ∧ mm_id l.2 = i
  | None => i ∉ map (fun l : loaded => mm_id l.2) ds
  end.
Proof.
  induction ds as [|l ds IH]; cbn [map List.find]; [by apply not_elem_of_nil|].
  cbn [row_of record_row_of rr_id]. case_bool_decide as Hd.
  - exists l. split_and!; [done|left|done].
  - destruct (List.find _ _) as [row|].
    + destruct IH as (x & -> & Hx & Hd'). exists x. split_and!; [done|by right|done].
    + apply not_elem_of_cons. by split.
Qed.

(** The file with one more record. *)
Definition appended (k : journal_key) (db : memory_db) (store_id : string) (ds : list loaded) (l : loaded) : memory_db :=
  {| md_application_id := md_application_id db; md_user_version := md_user_version db;
     md_tables := md_tables db;
     md_meta := Some (mk_store_meta k store_id (Z.of_nat (length ds) + 1) (chain_head 1 GENESIS_DIGEST (ds ++ [l])));
     md_records := md_records db ++ [row_of k l];
     md_journal := journal_of k 1 GENESIS_DIGEST (ds ++ [l]) |}.

Lemma appended_inv k db store_id ds l :
  journal_inv k db store_id ds → canonical l → mm_digest l.2 ∉ digests ds →
  mm_id l.2 ∉ map (fun l : loaded => mm_id l.2) ds → related_ok ds l.2 →
  journal_inv k (appended k db store_id ds l) store_id (ds ++ [l]).
Proof.
  intros [] Hl Hd Hi Hr. constructor; cbn [appended md_application_id md_user_version md_tables md_meta md_records md_journal];
    try done.
  - by replace (Z.of_nat (length (ds ++ [l]))) with (Z.of_nat (length ds) + 1) by (rewrite length_app; simpl; lia).
  - by rewrite ji_records0, map_app.
  - apply Forall_app_2; [done|]. by constructor.
  - unfold digests. rewrite map_app. apply NoDup_app. split_and!; [done| |apply NoDup_singleton].
    by intros x Hx ->%list_elem_of_singleton.
  - rewrite map_app. apply NoDup_app. split_and!; [done| |apply NoDup_singleton].
    by intros x Hx ->%list_elem_of_singleton.
  - intros x [Hx|Hx%list_elem_of_singleton]%elem_of_app; [|subst x];
      (eapply related_ok_more; [|by eauto]); intros y Hy; apply elem_of_app; by left.
Qed.

(** The three things [append] can do. *)
Inductive append_outcome (k : journal_key) (db : memory_db) (store_id : string) (ds : list loaded)
    (document : json) (m : memory) : result (memory_db * json) → Prop :=
| append_new :
    mm_id m ∉ map (fun l : loaded => mm_id l.2) ds → mm_digest m ∉ digests ds → related_ok ds m →
    append_outcome k db store_id ds document m
      (Ok (appended k db store_id ds (jnorm document, stored m), document))
| append_replayed l :
    l ∈ ds → mm_id l.2 = mm_id m → mm_digest l.2 = mm_digest m → l.1 = jnorm document →
    append_outcome k db store_id ds document m (Ok (db, l.1))
| append_conflict l :
    l ∈ ds → mm_id l.2 = mm_id m → (mm_digest l.2 ≠ mm_digest m ∨ l.1 ≠ jnorm document) →
    append_outcome k db store_id ds document m (Err (memory_error "ECO_MEMORY_REPLAY_CONFLICT"))
| append_refused e :
    mm_id m ∉ map (fun l : loaded => mm_id l.2) ds →
    append_outcome k db store_id ds document m (Err e).

Lemma append_locked_outcome k db store_id ds document m :
  journal_inv k db store_id ds → validate_memory_record document = Ok (document, m) →
  append_outcome k db store_id ds document m (append_locked k db document m).
Proof.
  intros Hinv Hv. unfold append_locked. rewrite (verified_meta_inv _ _ _ _ Hinv), (ji_records _ _ _ _ Hinv).
  assert (json_wf document = true) as Hw
    by (apply validate_memory_ok in Hv as (o & -> & _ & Hs & _); by eapply conforms_wf).
  pose proof (find_id_row k ds (mm_id m)) as Hf. destruct (List.find _ _) as [row|].
  - destruct Hf as (l & -> & Hl & Hi).
    assert (canonical l) as Hcl by by eapply Forall_forall in Hl; [|apply Hinv].
    rewrite verify_row_of by done. destruct l as [doc ml]. cbn [fst snd] in *.
    cbn [row_of record_row_of rr_digest rr_json fst snd].
    destruct Hcl as (Hj & Hw' & _). cbn [fst] in Hj, Hw'.
    case_bool_decide as Ed; cbn [negb orb].
    + case_bool_decide as Ej; cbn [negb].
      * apply (append_replayed k db store_id ds document m (doc, ml)); try done. cbn [fst].
        rewrite <- Hj. by apply canonical_json_inj.
      * apply (append_conflict k db store_id ds document m (doc, ml)); try done. right. cbn [fst].
        intros ->. apply Ej. apply canonical_json_jnorm.
    + by apply (append_conflict k db store_id ds document m (doc, ml)); [..|left].
  - destruct (_require_related_locked k db m) as [[]|] eqn:Er; [|by apply append_refused].
    apply (require_related_spec k db ds) in Er; [|apply Hinv..].
    rewrite <- (ji_records _ _ _ _ Hinv), (ji_rr_digests _ _ _ _ Hinv), (ji_journal _ _ _ _ Hinv).
    case_bool_decide as Ed; [by apply append_refused|].
    cbn [mk_store_meta sm_head_sequence sm_head_hash]. cbv zeta.
    destruct (int64 _); cbn [negb]; [|by apply append_refused].
    rewrite bool_decide_false.
    2:{ intros Hin. apply list_elem_of_fmap in Hin as (r & Er' & Hr).
        destruct (journal_of_sequences k ds 1 GENESIS_DIGEST) as [_ Hseq]. rewrite Forall_forall in Hseq.
        specialize (Hseq r Hr). lia. }
    rewrite journal_of_digests, bool_decide_false by done. cbn [orb].
    assert (∀ db1 db2 d, db1 = db2 → append_outcome k db store_id ds document m (Ok (db1, d)) →
              append_outcome k db store_id ds document m (Ok (db2, d))) as Hcast by by intros ? ? ? ->.
    eapply Hcast; [|by apply append_new]. unfold appended.
    rewrite (ji_meta _ _ _ _ Hinv), record_row_stored, journal_of_snoc, chain_head_snoc.
    cbn [snd stored mm_digest fmap option_fmap option_map mk_store_meta move_store_head sm_store_id sm_schema_version sm_key_id].
    unfold move_store_head, mk_store_meta. cbn [sm_store_id sm_schema_version sm_key_id jr_hash journal_row_of].
    replace (Z.of_nat (length ds) + 1) with (1 + Z.of_nat (length ds)) by lia. done.
Qed.
End Journal.
