(* ===== verification/MemoryStoreProps.v ===== *)
(** * Properties of the memory store

    What holds of every file the store can have written, whatever the sequence of
    its operations and whatever happened to the artifacts in between. *)

From S2P Require Import Prelude Json Digest PyTime PyClock Schema RouteRecords RouteConsumption ConsumptionProofs JsonCanon ArtifactStore MemoryContracts MemoryStore MemoryFacts MemoryJournal.

Section Ops.
Context `{FromIso} `{Crypto} `{Jsonschema}.

(** The operations that write, each with the artifact store it meets. *)
Inductive memory_op : Type :=
| OpAppend (art : artifact_store) (record : list (string * json))
| OpPut (art : artifact_store) (a : PutMemory)
| OpCompact (art : artifact_store) (a : Compact).
Definition apply_op (s : PrivateMemoryStore) (db : memory_db) (op : memory_op) : memory_db :=
  match op with
  | OpAppend art record => (ms_append s art db record).1
  | OpPut art a => (put_memory s art db a).1.2
  | OpCompact art a => (compact s art db a).1.2
  end.
Definition run_ops (s : PrivateMemoryStore) (db : memory_db) (ops : list memory_op) : memory_db :=
  foldl (apply_op s) db ops.

Lemma ms_append_cases s art db store_id ds record db' r :
  journal_inv (ms_key s) db store_id ds → ms_append s art db record = (db', r) →
  (∃ e, r = Err e ∧ db' = db) ∨
  (∃ m, validate_memory_record (JObj record) = Ok (JObj record, m) ∧ ms_closed s = false ∧
     _verify_artifact_bindings art m = Ok tt ∧
     ((∃ l, l ∈ ds ∧ mm_id l.2 = mm_id m ∧ mm_digest l.2 = mm_digest m ∧ l.1 = jnorm (JObj record) ∧
         db' = db ∧ r = Ok l.1) ∨
      (mm_id m ∉ map (fun l : loaded => mm_id l.2) ds ∧ mm_digest m ∉ digests ds ∧ related_ok ds m ∧
       db' = appended (ms_key s) db store_id ds (jnorm (JObj record), stored m) ∧ r = Ok (JObj record)))).
Proof.
  intros Hinv. unfold ms_append.
  destruct (validate_memory_record (JObj record)) as [[document m]|e] eqn:Ev; [|intros [= <- <-]; left; by exists e].
  pose proof Ev as (_ & _ & -> & _)%validate_memory_ok.
  destruct (_verify_artifact_bindings art m) as [[]|e] eqn:Ea; [|intros [= <- <-]; left; by exists e].
  unfold _transaction. destruct (ms_closed s) eqn:Ec; [intros [= <- <-]; left; by eexists|].
  pose proof (append_locked_outcome _ _ _ _ _ _ Hinv Ev) as Ho.
  destruct Ho as [Hi Hd Hr|l Hl Hi Hd Hj|l Hl Hi Hn|e Hi]; intros [= <- <-].
  - right. exists m. split_and!; [done..|]. right. by split_and!.
  - right. exists m. split_and!; [done..|]. left. by exists l.
  - left. by eexists.
  - left. by exists e.
Qed.

(** Every operation leaves the file alone or appends one record. *)
Lemma ms_append_inv s art db store_id ds record :
  journal_inv (ms_key s) db store_id ds →
  ∃ more, journal_inv (ms_key s) (ms_append s art db record).1 store_id (ds ++ more).
Proof.
  intros Hinv. destruct (ms_append s art db record) as [db' r] eqn:E. cbn [fst].
  destruct (ms_append_cases _ _ _ _ _ _ _ _ Hinv E)
    as [(e & _ & ->)|(m & Hv & _ & _ & [(l & _ & _ & _ & _ & -> & _)|(Hi & Hd & Hr & -> & _)])];
    [exists []; by rewrite app_nil_r..|].
  exists [(jnorm (JObj record), stored m)]. apply appended_inv; try done; [by apply canonical_stored|].
  by apply related_ok_stored.
Qed.
Lemma seal_and_append_cases s art db m :
  (seal_and_append s art db m).1 = db ∨ ∃ record, (seal_and_append s art db m).1 = (ms_append s art db record).1.
Proof.
  unfold seal_and_append. destruct (seal_memory_record _) as [[| | | | |record]|]; try (by left).
  right. by exists record.
Qed.
Lemma apply_op_inv s db store_id ds op :
  journal_inv (ms_key s) db store_id ds → ∃ more, journal_inv (ms_key s) (apply_op s db op) store_id (ds ++ more).
Proof.
  intros Hinv.
  assert (∃ more, journal_inv (ms_key s) db store_id (ds ++ more)) as Hsame by (exists []; by rewrite app_nil_r).
  assert (∀ art m, ∃ more, journal_inv (ms_key s) (seal_and_append s art db m).1 store_id (ds ++ more)) as Hseal.
  { intros art m. destruct (seal_and_append_cases s art db m) as [->|(record & ->)]; [done|].
    by apply ms_append_inv. }
  destruct op as [art record|art a|art a]; cbn [apply_op]; [by apply ms_append_inv| |].
  - unfold put_memory. destruct (pm_proofs a); [done|]. destruct (put _ _ _) as [art' content].
    match goal with |- context [match ?x with Ok _ => _ | Err _ => _ end] => destruct x as [m|e] end; [apply Hseal|done].
  - unfold compact. match goal with |- context [match ?x with Ok _ => _ | Err _ => _ end] => destruct x as [[|[doc first] found]|e] end; try done.
    destruct (existsb _ _); [done|]. destruct (put _ _ _) as [art' content].
    match goal with |- context [match ?x with Ok _ => _ | Err _ => _ end] => destruct x as [m|e'] end; [apply Hseal|done].
Qed.
Lemma run_ops_inv s ops : ∀ db store_id ds,
  journal_inv (ms_key s) db store_id ds → ∃ more, journal_inv (ms_key s) (run_ops s db ops) store_id (ds ++ more).
Proof.
  induction ops as [|op ops IH]; intros db store_id ds Hinv; cbn [run_ops foldl].
  - exists []. by rewrite app_nil_r.
  - destruct (apply_op_inv s db store_id ds op Hinv) as (m1 & H1'). destruct (IH _ _ _ H1') as (m2 & H2').
    exists (m1 ++ m2). by rewrite app_assoc.
Qed.

(** A file the store made from nothing. *)
Definition written_by (s : PrivateMemoryStore) (hmac_key key_id token : string) (db : memory_db) : Prop :=
  ∃ art db0 ops, open_memory hmac_key key_id token art empty_memory_db = (db0, Ok s) ∧ db = run_ops s db0 ops.

Lemma open_memory_key hmac_key key_id token art db db' s :
  open_memory hmac_key key_id token art db = (db', Ok s) →
  s = {| ms_key := {| jk_hmac_key := hmac_key; jk_key_id := key_id |}; ms_closed := false |} ∧
  (String.length hmac_key <? 32)%nat || negb (is_identifier key_id) = false ∧
  initialized (ms_key s) token db = Ok db'.
Proof.
  unfold open_memory. destruct (_ || _); [done|]. cbn [ms_key].
  destruct (initialized _ _ _) as [db1|] eqn:Ei; [|done].
  destruct (ms_verify _ _ _ _); [|done]. intros [= <- <-]. done.
Qed.
Lemma written_by_inv s hmac_key key_id token db :
  written_by s hmac_key key_id token db → ms_closed s = false ∧ ∃ ds, journal_inv (ms_key s) db token ds.
Proof.
  intros (art & db0 & ops & Ho & ->). apply open_memory_key in Ho as (-> & _ & Hi). split; [done|].
  cbn [ms_key] in Hi |- *. destruct (initialized_inv {| jk_hmac_key := hmac_key; jk_key_id := key_id |} token) as (db1 & E & Hinv).
  rewrite E in Hi. injection Hi as ->.
  by destruct (run_ops_inv {| ms_key := {| jk_hmac_key := hmac_key; jk_key_id := key_id |}; ms_closed := false |}
    ops db0 token [] Hinv) as (more & ?); exists more.
Qed.

(** [C10] The store accepts what it wrote: whatever operations were called since
    the file was created, in whatever order and with whatever results, the file
    verifies, with one journal entry per record; it opens again unchanged; digests
    are unique; and later operations only add records at the end. *)
Theorem memory_store_accepts_its_file s hmac_key key_id token db :
  written_by s hmac_key key_id token db →
  (∃ head, ∀ art, ms_verify s art db false = Ok (length (md_records db), head)) ∧
  (∀ art token', open_memory hmac_key key_id token' art db = (db, Ok s)) ∧
  unique_digests db ∧
  ∀ ops, ∃ more, md_records (run_ops s db ops) = md_records db ++ more.
Proof.
  intros Hw. pose proof Hw as (Hc & ds & Hinv)%written_by_inv. split_and!.
  - exists (chain_head 1 GENESIS_DIGEST ds). intros art. rewrite (ms_verify_inv s art db token ds) by done.
    by rewrite (ji_records _ _ _ _ Hinv), length_map.
  - destruct Hw as (art0 & db0 & ops0 & Ho & _). apply open_memory_key in Ho as (-> & Hk & _).
    intros art token'. unfold open_memory. rewrite Hk. cbn [ms_key] in *.
    rewrite (initialized_again _ token' _ _ _ Hinv). by rewrite (ms_verify_inv _ art db token ds).
  - by apply (ji_unique (ms_key s) db token ds).
  - intros ops. destruct (run_ops_inv s ops db token ds Hinv) as (more & Hinv').
    exists (map (row_of (ms_key s)) more).
    by rewrite (ji_records _ _ _ _ Hinv), (ji_records _ _ _ _ Hinv'), map_app.
Qed.
(** ** Reading what is kept *)

Lemma ms_get_inv s art db store_id ds d document m :
  ms_closed s = false → journal_inv (ms_key s) db store_id ds →
  ms_get s art db d false = Ok (document, m) ↔ (document, m) ∈ ds ∧ mm_digest m = d.
Proof.
  intros Hc Hinv. unfold ms_get, _transaction. rewrite Hc, (verified_meta_inv _ _ _ _ Hinv).
  pose proof (load_row (ms_key s) db ds (ji_records _ _ _ _ Hinv) (ji_canonical _ _ _ _ Hinv) d) as Hl.
  destruct (find_digest d _) as [row|].
  - destruct Hl as ([doc' m'] & _ & Hin & Hd & ->). cbn [snd] in Hd. split; [by intros [= <- <-]|].
    intros [Hin' Hd']. assert ((doc', m') = (document, m)) as [= -> ->]; [|done].
    apply (same_digest ds (ji_digests _ _ _ _ Hinv)); cbn [snd]; congruence || done.
  - destruct Hl as [Hn ->]. split; [done|]. intros [Hin Hd]. destruct Hn. rewrite <- Hd.
    by apply (list_elem_of_fmap_2 (fun l : loaded => mm_digest l.2) _ (document, m)).
Qed.

(** Appending under an identifier that is taken. *)
Lemma append_again s art db store_id ds kept mk o mo :
  ms_closed s = false → journal_inv (ms_key s) db store_id ds → (kept, mk) ∈ ds →
  validate_memory_record (JObj o) = Ok (JObj o, mo) → mm_id mo = mm_id mk →
  _verify_artifact_bindings art mo = Ok tt →
  (jnorm (JObj o) = kept → ms_append s art db o = (db, Ok kept)) ∧
  (jnorm (JObj o) ≠ kept → ms_append s art db o = (db, Err (memory_error "ECO_MEMORY_REPLAY_CONFLICT"))).
Proof.
  intros Hc Hinv Hin Hv Hi Hb. unfold ms_append. rewrite Hv, Hb. unfold _transaction. rewrite Hc.
  assert (∀ x, x ∈ ds → mm_id x.2 = mm_id mo → x = (kept, mk)) as Hone.
  { intros x Hx Hix. apply (NoDup_map_inj (fun l : loaded => mm_id l.2) _ (ji_ids _ _ _ _ Hinv)); [done..|].
    cbn [snd]. congruence. }
  assert (mm_id mo ∈ map (fun l : loaded => mm_id l.2) ds) as Hid.
  { rewrite Hi. by apply (list_elem_of_fmap_2 (fun l : loaded => mm_id l.2) _ (kept, mk)). }
  destruct (append_locked_outcome _ _ _ _ _ _ Hinv Hv) as [Hn|l Hl Hix Hd Hj|l Hl Hix Hn|e Hn]; [by destruct Hn| | |by destruct Hn].
  - rewrite (Hone l Hl Hix) in Hj |- *. cbn [fst] in Hj |- *. split; [done|]. intros Hne. by destruct Hne.
  - rewrite (Hone l Hl Hix) in Hn. cbn [fst snd] in Hn. split; [|done]. intros E. exfalso.
    destruct Hn as [Hn|Hn]; [|by destruct Hn]. apply Hn.
    assert (canonical (kept, mk)) as (_ & _ & Hvk) by by eapply Forall_forall in Hin; [|apply Hinv].
    cbn [fst] in Hvk. apply validate_jnorm in Hv. rewrite E, Hvk in Hv. by injection Hv as ->.
Qed.

(** [C40] A record that was appended is kept: after any further operations it
    is found under its digest, equal to what was appended; appending it again
    answers with it and changes nothing; and another record under its identifier
    is refused as a conflict. *)
Theorem appended_memory_is_kept s hmac_key key_id token db art record db' document ops :
  written_by s hmac_key key_id token db → ms_append s art db record = (db', Ok document) →
  let db'' := run_ops s db' ops in
  ∃ m kept, validate_memory_record (JObj record) = Ok (JObj record, m) ∧
    ms_get s art db'' (mm_digest m) false = Ok (kept, stored m) ∧ kept = jnorm (JObj record) ∧
    ms_append s art db'' record = (db'', Ok kept) ∧
    ∀ art2 other m2, validate_memory_record (JObj other) = Ok (JObj other, m2) → mm_id m2 = mm_id m →
      jnorm (JObj other) ≠ kept → _verify_artifact_bindings art2 m2 = Ok tt →
      ms_append s art2 db'' other = (db'', Err (memory_error "ECO_MEMORY_REPLAY_CONFLICT")).
Proof.
  intros (Hc & ds & Hinv)%written_by_inv Ha db''.
  assert (∃ m ds', validate_memory_record (JObj record) = Ok (JObj record, m) ∧
            _verify_artifact_bindings art m = Ok tt ∧ journal_inv (ms_key s) db' token ds' ∧
            (jnorm (JObj record), stored m) ∈ ds') as (m & ds' & Hv & Hb & Hinv' & Hin).
  { destruct (ms_append_cases _ _ _ _ _ _ _ _ Hinv Ha)
      as [(e & [=] & _)|(m & Hv & _ & Hb & [([doc ml] & Hl & _ & _ & Hj & -> & _)|(Hi & Hd & Hr & -> & _)])].
    - exists m, ds. split_and!; try done. cbn [fst] in Hj. subst doc.
      assert (canonical (jnorm (JObj record), ml)) as (_ & _ & Hv') by by eapply Forall_forall in Hl; [|apply Hinv].
      cbn [fst] in Hv'. pose proof (validate_jnorm _ _ _ Hv) as Hv2. rewrite Hv2 in Hv'. by injection Hv' as ->.
    - exists m, (ds ++ [(jnorm (JObj record), stored m)]). split_and!; [done|done| |apply elem_of_app; right; left].
      apply appended_inv; try done; [by apply canonical_stored|by apply related_ok_stored]. }
  destruct (run_ops_inv s ops db' token ds' Hinv') as (more & Hinv2). fold db'' in Hinv2.
  assert ((jnorm (JObj record), stored m) ∈ ds' ++ more) as Hin2 by (apply elem_of_app; by left).
  pose proof (fun a o mo => append_again s a db'' token _ _ _ o mo Hc Hinv2 Hin2) as Hagain. cbn [stored mm_id] in Hagain.
  exists m, (jnorm (JObj record)). split_and!; [done|by apply (ms_get_inv s art db'' token (ds' ++ more))|done| |].
  - by apply (Hagain art record m).
  - intros art2 other m2 Hv2 Hi2 Hne Hb2. by apply (Hagain art2 other m2).
Qed.
(** ** Summaries *)

Lemma by_sha_spec l a : a ∈ l → ∃ a', a' ∈ by_sha l ∧ ar_sha256 a' = ar_sha256 a.
Proof.
  intros Ha. unfold by_sha.
  set (m := foldl (fun m b => <[ar_sha256 b := b]> m) (∅ : gmap string artifact) l).
  assert ((∀ k b, m !! k = Some b → ar_sha256 b = k) ∧ (∀ b, b ∈ l → is_Some (m !! ar_sha256 b))) as [Hk Hd].
  { unfold m. clear. induction l as [|x l [IH1 IH2]] using rev_ind.
    - split; [by intros k b ?|by intros b ?%elem_of_nil].
    - rewrite foldl_app. cbn [foldl]. split.
      + intros k b. rewrite lookup_insert_Some. intros [[<- <-]|[_ ?]]; auto.
      + intros b [Hb|Hb%list_elem_of_singleton]%elem_of_app; [|subst b; by rewrite lookup_insert_eq; eexists].
        rewrite lookup_insert_is_Some'. auto. }
  destruct (Hd a Ha) as [a' Ha']. exists a'. split; [|by apply Hk].
  apply (list_elem_of_fmap_2 snd _ (ar_sha256 a, a')). by apply elem_of_map_to_list.
Qed.
Lemma bindings_of_source sources m a :
  m ∈ sources → a ∈ mm_content m :: mm_artifacts m →
  ∃ a', a' ∈ bindings_of sources ∧ ar_sha256 a' = ar_sha256 a.
Proof.
  intros Hm Ha.
  assert (a ∈ concat (map (fun m => mm_content m :: mm_artifacts m) sources)) as Hin.
  { apply list_elem_of_In, in_concat. exists (mm_content m :: mm_artifacts m). split; [|by apply list_elem_of_In].
    apply in_map_iff. exists m. split; [done|by apply list_elem_of_In]. }
  apply by_sha_spec in Hin as (a' & Ha' & Hs). exists a'. split; [|done].
  unfold bindings_of, _sorted_artifacts. by rewrite py_sorted_perm.
Qed.
Lemma links_of_source sources m l : m ∈ sources → l ∈ relations_of m → l ∈ links_of sources.
Proof.
  intros Hm Hl. unfold links_of, sorted_links. rewrite py_sorted_perm, elem_of_remove_dups.
  apply list_elem_of_In, in_concat. exists (relations_of m). split; [|by apply list_elem_of_In].
  apply in_map_iff. exists m. split; [done|by apply list_elem_of_In].
Qed.
Lemma min_list_le x l y : y ∈ x :: l → min_list x l ≤ y.
Proof.
  unfold min_list. revert x y. induction l as [|z l IH]; intros x y Hy; cbn [foldl].
  - apply list_elem_of_singleton in Hy. lia.
  - apply elem_of_cons in Hy as [->|[->|Hy]%elem_of_cons].
    + pose proof (IH (Z.min x z) (Z.min x z) ltac:(left)). lia.
    + pose proof (IH (Z.min x z) (Z.min x z) ltac:(left)). lia.
    + apply IH. by right.
Qed.

(** What [m] says of one of its sources. *)
Definition expires_by (m source : memory) : Prop :=
  ∀ e, mm_expires source = Some e → ∃ e' t t', mm_expires m = Some e' ∧ read_time e = Some t ∧
    read_time e' = Some t' ∧ t' ≤ t.
Definition covers (c : compaction) (source : memory) : Prop :=
  (∀ l, l ∈ relations_of source → l ∈ co_relations c) ∧
  (∀ a, a ∈ mm_content source :: mm_artifacts source →
     ∃ a', a' ∈ co_artifacts c ∧ ar_sha256 a' = ar_sha256 a).

Lemma check_compaction_covers expires c sources source :
  check_compaction expires c sources = Ok tt → source ∈ sources → memory_typed source →
  covers c source ∧
  ∀ e, mm_expires source = Some e → ∃ e' t t', expires = Some e' ∧ read_time e = Some t ∧
    read_time e' = Some t' ∧ t' ≤ t.
Proof.
  unfold check_compaction. intros Hc Hs Ht. guard Hc as Eg. breflect. split.
  - split; [intros l Hl; rewrite H3; by eapply links_of_source|].
    intros a Ha. rewrite H2. by eapply bindings_of_source.
  - intros e He. destruct (ty_expires _ Ht e He) as (t & Et).
    assert (t ∈ expiries sources) as Hin.
    { unfold expiries. apply list_elem_of_omap. exists source. split; [done|]. rewrite He. exact Et. }
    destruct (expiries sources) as [|x l]; [by apply elem_of_nil in Hin|]. guard Hc as Ee.
    destruct expires as [e'|]; [|done]. cbn [mbind option_bind] in Ee.
    destruct (read_time e') as [t'|] eqn:Et'; [|done]. breflect.
    exists e', t, t'. split_and!; try done. pose proof (min_list_le x l t Hin). lia.
Qed.

(** [C22] Summaries are faithful, however they came into the store: every record
    a summary names as a source is stored, in the same namespace; the summary does
    not outlive it; and it keeps the source's relations, its content and the
    artifacts the source came from. *)
Theorem summaries_are_faithful s hmac_key key_id token db art d document m c source :
  written_by s hmac_key key_id token db → ms_get s art db d false = Ok (document, m) →
  mm_compaction m = Some c → source ∈ co_sources c →
  ∃ source_document sm, ms_get s art db source false = Ok (source_document, sm) ∧
    _namespace_key (mm_namespace sm) = _namespace_key (mm_namespace m) ∧ expires_by m sm ∧ covers c sm.
Proof.
  intros (Hc & ds & Hinv)%written_by_inv Hg Hcomp Hsrc.
  apply (ms_get_inv s art db token ds d document m Hc Hinv) in Hg as [Hin _].
  destruct (ji_related _ _ _ _ Hinv _ Hin) as [Hfound Hsum]. cbn [snd] in Hfound, Hsum.
  destruct (Hsum c Hcomp) as (sources & Hall & Hchk).
  apply list_elem_of_lookup in Hsrc as [i Hi].
  destruct (Forall2_lookup_l _ _ _ _ _ Hall Hi) as ([sd sm] & Hs & Hsin & Hsd). cbn [snd] in Hsd.
  assert (memory_typed sm) as Hty.
  { assert (canonical (sd, sm)) as (_ & _ & Hv) by by eapply Forall_forall in Hsin; [|apply Hinv].
    by eapply validate_memory_typed. }
  assert (sm ∈ map snd sources) as Hm.
  { apply list_elem_of_lookup_2 in Hs. by apply (list_elem_of_fmap_2 snd) in Hs. }
  destruct (check_compaction_covers _ _ _ _ Hchk Hm Hty) as [Hcov Hexp].
  exists sd, sm. split_and!; [by apply (ms_get_inv s art db token ds)| |done|done].
  destruct (Hfound source) as ([sd' sm'] & Hin' & Hd' & Hk).
  { unfold related. rewrite Hcomp, !elem_of_app. right. left. by eapply list_elem_of_lookup_2. }
  cbn [snd] in Hd', Hk.
  assert ((sd', sm') = (sd, sm)) as [= -> ->]; [|done].
  apply (same_digest ds (ji_digests _ _ _ _ Hinv)); [done..|]. cbn [snd]. congruence.
Qed.
(** ** Compaction *)

Definition with_digest (m : memory) (digest : string) : memory :=
  {| mm_id := mm_id m; mm_created := mm_created m; mm_digest := digest; mm_namespace := mm_namespace m;
     mm_type := mm_type m; mm_data_class := mm_data_class m; mm_privacy := mm_privacy m;
     mm_author := mm_author m; mm_expires := mm_expires m; mm_content := mm_content m;
     mm_artifacts := mm_artifacts m; mm_links := mm_links m; mm_compaction := mm_compaction m |}.

Lemma as_strs_written l : as_strs (JArr (map JStr l)) = Some l.
Proof. cbn [as_strs]. induction l as [|x l IH]; [done|]. cbn [map mapM mbind option_bind]. by rewrite IH. Qed.
Lemma strs_written k l o : jassoc k o = Some (JArr (map JStr l)) → strs_at k o = Some l.
Proof. intros Hk. unfold strs_at. rewrite Hk. apply as_strs_written. Qed.
Lemma objs_written {A} k (f : A → json) (g : list (string * json) → option A) l o :
  jassoc k o = Some (JArr (map f l)) → (∀ x, ∃ ox, f x = JObj ox ∧ g ox = Some x) →
  ∃ os, objs_at k o = Some os ∧ mapM g os = Some l.
Proof.
  intros Hk Hf. unfold objs_at. rewrite Hk. clear Hk. induction l as [|x l (os & E1 & E2)]; [by exists []|].
  destruct (Hf x) as (ox & Ex & Eg). exists (ox :: os). cbn [map mapM]. rewrite Ex, E1. cbn [mbind option_bind mapM].
  by rewrite Eg, E2.
Qed.
Lemma artifact_written a : ∃ o, artifact_json a = JObj o ∧ as_artifact o = Some a.
Proof. eexists. split; [done|]. by destruct a. Qed.
Lemma link_written l : ∃ o, link_json l = JObj o ∧ as_link o = Some l.
Proof. eexists. split; [done|]. by destruct l as [[f r] t]. Qed.
Lemma compaction_written c : ∃ o, compaction_json c = JObj o ∧ as_compaction o = Some c.
Proof.
  eexists. split; [done|]. unfold as_compaction.
  erewrite strs_written by done. cbn [mbind option_bind].
  destruct (objs_written "sourceArtifacts" artifact_json as_artifact (co_artifacts c)
    [("sourceRecordDigests", JArr (map JStr (co_sources c)));
     ("sourceArtifacts", JArr (map artifact_json (co_artifacts c)));
     ("preservedRelations", JArr (map link_json (co_relations c)))] eq_refl artifact_written) as (os & -> & Eo).
  cbn [mbind option_bind]. rewrite Eo. cbn [mbind option_bind].
  destruct (objs_written "preservedRelations" link_json as_link (co_relations c)
    [("sourceRecordDigests", JArr (map JStr (co_sources c)));
     ("sourceArtifacts", JArr (map artifact_json (co_artifacts c)));
     ("preservedRelations", JArr (map link_json (co_relations c)))] eq_refl link_written) as (rs & -> & Er).
  cbn [mbind option_bind]. rewrite Er. by destruct c.
Qed.

(** What is sealed reads back as what was meant. *)
Lemma links_written l : ∃ o, links_json l = JObj o ∧ as_links o = Some l.
Proof.
  eexists. split; [done|]. unfold as_links. erewrite !strs_written by done. by destruct l.
Qed.
Definition sealed_metadata (m : memory) (digest : string) : list (string * json) :=
  [("id", JStr (mm_id m)); ("createdAt", JStr (mm_created m)); ("recordDigest", JStr digest)].
Definition sealed_spec (m : memory) : list (string * json) :=
  [("namespace", JObj (mm_namespace m)); ("memoryType", JStr (mm_type m));
   ("dataClass", JStr (mm_data_class m)); ("privacyLevel", JStr (mm_privacy m));
   ("author", JStr (mm_author m)); ("expiresAt", json_of_optstr (mm_expires m));
   ("contentArtifact", artifact_json (mm_content m));
   ("sourceArtifacts", JArr (map artifact_json (mm_artifacts m))); ("links", links_json (mm_links m));
   ("compaction", match mm_compaction m with Some c => compaction_json c | None => JNull end)].
Lemma sealed_reads m :
  ∃ record digest, seal_memory_record (memory_items m) = Ok (JObj record) ∧
    as_memory record = Some (with_digest m digest).
Proof.
  set (digest := memory_record_digest (memory_items m)).
  exists [("apiVersion", JStr MEMORY_API_VERSION); ("kind", JStr "MemoryRecord");
          ("metadata", JObj (sealed_metadata m digest)); ("spec", JObj (sealed_spec m))], digest.
  split; [reflexivity|]. unfold as_memory.
  change (obj_at "metadata" _) with (Some (sealed_metadata m digest)).
  change (obj_at "spec" _) with (Some (sealed_spec m)). cbn [mbind option_bind].
  change (str_at "id" (sealed_metadata m digest)) with (Some (mm_id m)).
  change (str_at "createdAt" (sealed_metadata m digest)) with (Some (mm_created m)).
  change (str_at "recordDigest" (sealed_metadata m digest)) with (Some digest). cbn [mbind option_bind].
  change (obj_at "namespace" (sealed_spec m)) with (Some (mm_namespace m)).
  change (str_at "memoryType" (sealed_spec m)) with (Some (mm_type m)).
  change (str_at "dataClass" (sealed_spec m)) with (Some (mm_data_class m)).
  change (str_at "privacyLevel" (sealed_spec m)) with (Some (mm_privacy m)).
  change (str_at "author" (sealed_spec m)) with (Some (mm_author m)). cbn [mbind option_bind].
  destruct (artifact_written (mm_content m)) as (co & Eco & Rco).
  destruct (links_written (mm_links m)) as (lo & Elo & Rlo).
  destruct (objs_written "sourceArtifacts" artifact_json as_artifact (mm_artifacts m) (sealed_spec m) eq_refl artifact_written)
    as (os & Eos & Ros).
  change (obj_at "contentArtifact" (sealed_spec m)) with (match artifact_json (mm_content m) with JObj v => Some v | _ => None end).
  change (obj_at "links" (sealed_spec m)) with (match links_json (mm_links m) with JObj v => Some v | _ => None end).
  rewrite Eco, Elo. cbn [mbind option_bind]. rewrite Rco. cbn [mbind option_bind]. rewrite Eos. cbn [mbind option_bind].
  rewrite Ros. cbn [mbind option_bind]. rewrite Rlo. cbn [mbind option_bind].
  assert (opt_obj_at as_compaction "compaction" (sealed_spec m) = Some (mm_compaction m)) as ->.
  { change (opt_obj_at as_compaction "compaction" (sealed_spec m)) with
      (match (match mm_compaction m with Some c => compaction_json c | None => JNull end) with
       | JNull => Some None | JObj v => Some <$> as_compaction v | _ => None end).
    destruct (mm_compaction m) as [c|]; [|done]. destruct (compaction_written c) as (cc & -> & ->). done. }
  assert (str_at "expiresAt" (sealed_spec m) = mm_expires m) as ->; [|by destruct m].
  change (str_at "expiresAt" (sealed_spec m)) with (match json_of_optstr (mm_expires m) with JStr s => Some s | _ => None end).
  by destruct (mm_expires m).
Qed.

(** What [compact] and [put_memory] append, they append as they built it. *)
Lemma seal_and_append_kept s art db store_id ds m db' document :
  journal_inv (ms_key s) db store_id ds → seal_and_append s art db m = (db', Ok document) →
  ∃ kept digest, ms_get s art db' digest false = Ok (kept, stored (with_digest m digest)) ∧
    record_digest document = digest ∧ ms_closed s = false.
Proof.
  intros Hinv Hs. unfold seal_and_append in Hs. destruct (sealed_reads m) as (record & digest & E & Hm).
  rewrite E in Hs.
  destruct (ms_append_cases _ _ _ _ _ _ _ _ Hinv Hs) as [(e & [=] & _)|(m' & Hv & Hc & _ & Hcases)].
  pose proof Hv as (o & [= <-] & _ & _ & Hm' & _)%validate_memory_ok. rewrite Hm in Hm'. injection Hm' as <-.
  destruct Hcases as [([doc ml] & Hl & _ & _ & Hj & -> & [= ->])|(Hi & Hd & Hr & -> & [= ->])].
  - cbn [fst] in Hj |- *. subst doc. exists (jnorm (JObj record)), digest.
    assert (canonical (jnorm (JObj record), ml)) as (_ & _ & Hvl) by by eapply Forall_forall in Hl; [|apply Hinv].
    cbn [fst] in Hvl. pose proof (validate_jnorm _ _ _ Hv) as Hv2. rewrite Hv2 in Hvl. injection Hvl as <-.
    split_and!; [by apply (ms_get_inv s art db store_id ds)| |done].
    apply validate_memory_ok in Hv2 as (o' & Eo & _ & _ & Hm' & _). rewrite Eo.
    by rewrite (as_memory_digest o' _ Hm').
  - exists (jnorm (JObj record)), digest. split_and!; [|by rewrite (as_memory_digest record _ Hm)|done].
    apply (ms_get_inv s art _ store_id (ds ++ [(jnorm (JObj record), stored (with_digest m digest))])); [done| |].
    + apply appended_inv; try done; [by eapply canonical_stored|by apply related_ok_stored].
    + split; [apply elem_of_app; right; left|done].
Qed.

Lemma max_text_ge x l y : y ∈ x :: l → String.leb y (max_text x l) = true.
Proof.
  unfold max_text. revert x y. induction l as [|z l IH]; intros x y Hy; cbn [foldl].
  - apply list_elem_of_singleton in Hy as ->. apply str_leb_refl.
  - set (w := if String.leb x z then z else x). pose proof (IH w w ltac:(left)) as Hw.
    assert (String.leb x w = true ∧ String.leb z w = true) as [Hx Hz].
    { unfold w. destruct (String.leb x z) eqn:E; split; try done; try apply str_leb_refl. by apply str_leb_total. }
    apply elem_of_cons in Hy as [E|[E|Hy]%elem_of_cons]; [subst y..|].
    + by eapply str_leb_trans.
    + by eapply str_leb_trans.
    + apply IH. by right.
Qed.

Lemma put_sha256 s content a s' p :
  put s [content] a = (s', Ok p) → pf_sha256 p = sha256_hex content ∧ pf_length p = byte_len content.
Proof.
  unfold put. destruct (negb (put_args_ok a)); [done|]. unfold exclusive. destruct (at_closed s); [done|].
  cbn [receive String.append].
  destruct (match pa_max a with Some m => m <? byte_len content | None => false end); [done|].
  destruct (match pa_sha256 a with Some d => sha256_hex content != d | None => false end); [done|].
  destruct (match pa_length a with Some n => negb (byte_len content =? n) | None => false end); [done|].
  destruct (install s _ content); [|done]. destruct (_verify_object _ _ _); [|done]. by intros [= <- <-].
Qed.

(** [C20] Compaction never declassifies: the summary that [compact] stores has
    every source among the records it names, a data class and a privacy level no
    lower than any of theirs, and exactly the content that was given. *)
Theorem compaction_never_declassifies s hmac_key key_id token db art a art' db' document :
  written_by s hmac_key key_id token db → compact s art db a = (art', db', Ok document) →
  ∃ kept m c, ms_get s art' db' (record_digest document) false = Ok (kept, m) ∧
    mm_type m = "summary" ∧ mm_compaction m = Some c ∧ cp_sources a ≠ [] ∧
    ar_sha256 (mm_content m) = sha256_hex (cp_content a) ∧
    ∀ source, source ∈ cp_sources a → source ∈ co_sources c ∧
      ∃ source_document sm, ms_get s art db source true = Ok (source_document, sm) ∧
        String.leb (mm_data_class sm) (mm_data_class m) = true ∧
        String.leb (mm_privacy sm) (mm_privacy m) = true.
Proof.
  intros (Hc & ds & Hinv)%written_by_inv. unfold compact.
  destruct (bool_decide (sorted_set (cp_sources a) = [])) eqn:Ee; [done|].
  destruct (map_result _ (sorted_set (cp_sources a))) as [[|[fd first] found]|e] eqn:Ef; [done| |done].
  apply map_result_Forall2 in Ef. destruct (existsb _ _); [done|].
  set (sources := map snd ((fd, first) :: found)).
  set (names := sorted_set (sorted_set (cp_sources a) ++ concat (map compacted_sources sources))).
  destruct (put art [cp_content a] (put_defaults (cp_max a))) as [art1 content] eqn:Ep.
  destruct content as [proof|e]; [|done].
  destruct (effective_expiry _ _ _) as [expires|e]; [|done]. destruct (_utc _) as [created|e]; [|done].
  set (m := summary_of_sources a names first sources proof expires created).
  intros Hx. injection Hx as <- Hd Hr.
  assert (seal_and_append s art1 db m = (db', Ok document)) as Es by exact (injective_projections _ (_, _) Hd Hr).
  destruct (seal_and_append_kept _ _ _ _ _ _ _ _ Hinv Es) as (kept & digest & Hget & Ed & _).
  exists kept, (stored (with_digest m digest)),
    {| co_sources := names; co_artifacts := bindings_of sources; co_relations := links_of sources |}.
  rewrite Ed. split_and!; [done|done|done| | |].
  - intros E. rewrite E in Ee. breflect. by apply Ee.
  - by apply put_sha256 in Ep as [? _].
  - intros source Hsrc. apply elem_of_sorted_set in Hsrc. split.
    { cbn [co_sources]. unfold names. apply elem_of_sorted_set, elem_of_app. by left. }
    apply list_elem_of_lookup in Hsrc as [i Hi].
    destruct (Forall2_lookup_l _ _ _ _ _ Ef Hi) as ([sd sm] & Hs & Hg). exists sd, sm.
    split; [done|]. apply list_elem_of_lookup_2, (list_elem_of_fmap_2 snd) in Hs. fold sources in Hs.
    cbn [stored with_digest m summary_of_sources mm_data_class mm_privacy].
    split; apply max_text_ge; right; by apply list_elem_of_fmap_2.
Qed.
End Ops.
