(* ===== verification/MemoryExamples.v ===== *)
(** * A concrete memory

    Five records in one namespace: two claims that conflict, a fact that refutes
    neither, a summary of them and a record of another run.  The properties of the
    store and of retrieval are instantiated on its files. *)

From S2P Require Import Prelude Json Digest PyTime PyClock PyFloat Schema RouteRecords RouteConsumption ConsumptionProofs RouteExamples JsonCanon ArtifactStore ArtifactProps MemoryContracts MemoryStore MemoryRetrieval MemoryGraph MemoryFacts MemoryProps MemoryJournal MemoryStoreProps.

#[local] Existing Instance Checksum.crypto.
#[local] Existing Instance rfc3339_iso.
#[local] Existing Instance draft202012.

(** ** Artifacts, and the file the store makes *)

Definition memory_hmac_key : string := "0123456789abcdef0123456789abcdef".
Definition no_artifacts : artifact_store :=
  {| at_objects := ∅; at_key := {| jk_hmac_key := memory_hmac_key; jk_key_id := "cas-key" |};
     at_store_id := "cas-1"; at_closed := false |}.
Definition source_put : artifact_store * result ArtifactAvailabilityProof :=
  put no_artifacts ["the minutes"] (put_defaults 100).
Definition source_proofs : list ArtifactAvailabilityProof :=
  match source_put.2 with Ok p => [p] | Err _ => [] end.

Definition memory_token : string := "0123456789abcdef".
Definition opened_memory : memory_db * result PrivateMemoryStore :=
  open_memory memory_hmac_key "memory-key" memory_token no_artifacts empty_memory_db.
Definition example_store : PrivateMemoryStore :=
  {| ms_key := {| jk_hmac_key := memory_hmac_key; jk_key_id := "memory-key" |}; ms_closed := false |}.
Definition db0 : memory_db := opened_memory.1.

(** ** Records *)

Definition team_namespace : list (string * json) :=
  [("projectId", JStr "project-1"); ("teamId", JStr "team-1"); ("runId", JNull)].
Definition at_hour (hours : Z) : datetime := of_instant (instant noon + hours * 3600 * 1000000).
Definition memory_put (id type content : string) (hours : Z) (ttl : option Z) (ls : list (string * list string))
  : PutMemory :=
  {| pm_id := id; pm_namespace := team_namespace; pm_type := type; pm_data_class := "D1";
     pm_privacy := "P1"; pm_author := "scout"; pm_created := at_hour hours; pm_content := content;
     pm_proofs := source_proofs; pm_ttl := ttl; pm_links := ls; pm_max := 100 |}.
Definition stored_digest (r : result json) : string :=
  match r with Ok document => record_digest document | Err _ => EmptyString end.

Definition put_west := memory_put "m-west" "claim" "the gate opens west" 0 None [].
Definition art0 : artifact_store := source_put.1.
Definition x1 := Eval vm_compute in put_memory example_store art0 db0 put_west.
Definition west : string := stored_digest x1.2.
Definition put_east := memory_put "m-east" "claim" "the gate opens east" 1 (Some (24 * 3600 * 1000000)) [("conflicts", [west])].
Definition x2 := Eval vm_compute in put_memory example_store x1.1.1 x1.1.2 put_east.
Definition east : string := stored_digest x2.2.
Definition put_fact := memory_put "m-fact" "fact" "there is one gate" 2 None [("supersedes", [west])].
Definition x3 := Eval vm_compute in put_memory example_store x2.1.1 x2.1.2 put_fact.
Definition fact : string := stored_digest x3.2.
Definition summary_args : Compact :=
  {| cp_id := "m-sum"; cp_sources := [west; east]; cp_content := "the gate is contested";
     cp_author := "scribe"; cp_created := at_hour 3; cp_ttl := None; cp_max := 100 |}.
Definition x4 := Eval vm_compute in compact example_store x3.1.1 x3.1.2 summary_args.

Example memory_example : (is_ok x1.2, is_ok x2.2, is_ok x3.2, is_ok x4.2, opened_memory.2) = (true, true, true, true, Ok example_store).
Proof. vm_compute. reflexivity. Qed.

(** ** Retrieval *)

Definition example_query (items : Z) : MemoryQuery :=
  {| mq_namespace := team_namespace; mq_data_classes := ["D0"; "D1"]; mq_privacy_levels := ["P1"];
     mq_types := MEMORY_TYPES; mq_max_items := items; mq_max_bytes := 1000; mq_max_tokens := 1000 |}.
Definition scouts_and_scribes : MemoryReadPolicy :=
  explicit_allows {| ep_data_classes := ["D1"]; ep_privacy_levels := ["P1"]; ep_authors := Some ["scout"; "scribe"] |}.
Definition memory_art : artifact_store := x4.1.1.
Definition memory_file : memory_db := x4.1.2.
Definition ask_memory (items hours : Z) : result MemoryRetrievalResult :=
  retrieve_memory example_store memory_art memory_file (example_query items) scouts_and_scribes (at_hour hours).

(** What retrieval answers: everything; the summary alone, since the claims do not
    fit together; and, once one of the claims has expired, neither of them. *)
Definition no_answer : MemoryRetrievalResult :=
  {| mt_hits := []; mt_relations := []; mt_used_bytes := 0; mt_estimated_tokens := 0; mt_truncated := false |}.
Definition answer (r : result MemoryRetrievalResult) : MemoryRetrievalResult :=
  match r with Ok a => a | Err _ => no_answer end.
Definition answer_all : MemoryRetrievalResult := Eval vm_compute in answer (ask_memory 10 4).
Definition answer_one : MemoryRetrievalResult := Eval vm_compute in answer (ask_memory 1 4).
Definition answer_late : MemoryRetrievalResult := Eval vm_compute in answer (ask_memory 10 30).
Lemma asked_all :
  retrieve_memory example_store memory_art memory_file (example_query 10) scouts_and_scribes (at_hour 4)
  = Ok answer_all.
Proof. vm_compute. reflexivity. Qed.
Lemma asked_one :
  retrieve_memory example_store memory_art memory_file (example_query 1) scouts_and_scribes (at_hour 4)
  = Ok answer_one.
Proof. vm_compute. reflexivity. Qed.
Lemma asked_late :
  retrieve_memory example_store memory_art memory_file (example_query 10) scouts_and_scribes (at_hour 30)
  = Ok answer_late.
Proof. vm_compute. reflexivity. Qed.
Example hits_of_answers :
  (length (mt_hits answer_all), length (mt_hits answer_one), length (mt_hits answer_late)) = (4, 1, 1)%nat ∧
  (west in? hit_digests answer_all, west in? hit_digests answer_late) = (true, false).
Proof. vm_compute. split; reflexivity. Qed.

Definition memory_ops : list memory_op :=
  [OpPut art0 put_west; OpPut x1.1.1 put_east; OpPut x2.1.1 put_fact; OpCompact x3.1.1 summary_args].
Lemma file_written ops :
  written_by example_store memory_hmac_key "memory-key" memory_token (run_ops example_store db0 ops).
Proof.
  exists no_artifacts, db0, ops. split; [|done].
  vm_compute. reflexivity.
Qed.
Lemma memory_file_written : written_by example_store memory_hmac_key "memory-key" memory_token memory_file.
Proof.
  assert (memory_file = run_ops example_store db0 memory_ops) as -> by (vm_compute; reflexivity).
  apply file_written.
Qed.
Lemma memory_file_unique : unique_digests memory_file.
Proof. apply (bool_decide_eq_true_1 _). vm_compute. reflexivity. Qed.

Definition memory_records : list loaded := Eval vm_compute in
  match namespace_records example_store memory_file team_namespace with Ok l => l | Err _ => [] end.
Lemma memory_records_read items :
  namespace_records example_store memory_file (mq_namespace (example_query items)) = Ok memory_records.
Proof. vm_compute. reflexivity. Qed.

Lemma claims_oppose : opposes (relations_in memory_records) east west.
Proof.
  exists "conflicts". split; [done|]. left. apply (bool_decide_eq_true_1 _). vm_compute. reflexivity.
Qed.

Lemma contested_memory_stays_together_witness :
  east ∈ hit_digests answer_one ↔ west ∈ hit_digests answer_one.
Proof.
  exact (contested_memory_stays_together _ _ _ _ _ _ _ _ _ _ memory_file_unique asked_one
           (memory_records_read 1) claims_oppose).
Defined.

Lemma memory_context_within_budgets_witness :
  new_query (example_query 1) = Ok (example_query 1) ∧
  Z.of_nat (length (mt_hits answer_one)) ≤ 1 ∧ mt_used_bytes answer_one ≤ 1000.
Proof.
  assert (new_query (example_query 1) = Ok (example_query 1)) as Hq by (vm_compute; reflexivity).
  split; [exact Hq|].
  destruct (memory_context_within_budgets _ _ _ _ _ _ _ memory_file_unique Hq asked_one) as (Hi & _ & _ & Hb & _).
  exact (conj Hi Hb).
Defined.

Definition summary_hit : MemoryHit := Eval vm_compute in
  match mt_hits answer_one with h :: _ => h | [] => {| mh_record := JNull; mh_content := EmptyString |} end.
Lemma memory_is_disclosed_by_permission_witness :
  ∃ current records m, disclosable (example_query 1) scouts_and_scribes current records m ∧
    sha256_hex (mh_content summary_hit) = ar_sha256 (mm_content m).
Proof.
  assert (summary_hit ∈ mt_hits answer_one) as Hin by left.
  destruct (memory_is_disclosed_by_permission _ _ _ _ _ _ _ _ memory_file_unique asked_one Hin)
    as (current & records & row & m & _ & _ & _ & _ & _ & Hd & Hs & _).
  exists current, records, m. split; [exact Hd|exact Hs].
Defined.

Lemma sound_memory_answers_witness :
  ∃ r, retrieve_memory example_store memory_art memory_file (example_query 10) scouts_and_scribes (at_hour 4) = Ok r.
Proof.
  assert (∃ report, ms_verify example_store memory_art memory_file true = Ok report) as [report Hv]
    by (eexists; vm_compute; reflexivity).
  assert (astimezone_utc (at_hour 4) = Some (Ok (instant (at_hour 4)))) as Hn by (vm_compute; reflexivity).
  exact (sound_memory_answers _ _ _ _ _ _ _ _ memory_file_unique Hv (fun m => ltac:(by eexists)) Hn).
Defined.

(** The claim that has not expired, left out because it is contested by the one
    that has. *)
Lemma west_disclosable current :
  ∃ document m, (document, m) ∈ memory_records ∧ mm_digest m = west ∧
    disclosable (example_query 10) scouts_and_scribes current memory_records m.
Proof.
  do 2 eexists. split; [unfold memory_records; do 3 right; left|]. split; [vm_compute; reflexivity|].
  split_and!.
  - vm_compute. split_and!; try reflexivity; by repeat constructor.
  - apply (bool_decide_eq_true_1 _). vm_compute. reflexivity.
  - by intros e [=].
  - by intros c target [=].
Qed.

(** ** The store *)

Lemma memory_store_accepts_its_file_witness :
  (∃ head, ms_verify example_store no_artifacts memory_file false = Ok (4%nat, head)) ∧
  open_memory memory_hmac_key "memory-key" EmptyString no_artifacts memory_file = (memory_file, Ok example_store).
Proof.
  destruct (memory_store_accepts_its_file _ _ _ _ _ memory_file_written) as ((head & Hv) & Ho & _).
  split; [exists head; exact (Hv no_artifacts)|exact (Ho no_artifacts EmptyString)].
Defined.

Definition west_record : list (string * json) := Eval vm_compute in
  match x1.2 with Ok (JObj o) => o | _ => [] end.
Lemma west_appended : ms_append example_store x1.1.1 db0 west_record = (x1.1.2, Ok (JObj west_record)).
Proof. vm_compute. reflexivity. Qed.
Lemma appended_memory_is_kept_witness :
  ∃ m kept, ms_get example_store x1.1.1 memory_file (mm_digest m) false = Ok (kept, stored m) ∧
    ms_append example_store x1.1.1 memory_file west_record = (memory_file, Ok kept).
Proof.
  destruct (appended_memory_is_kept _ _ _ _ _ _ _ _ _ (tail memory_ops) (file_written []) west_appended)
    as (m & kept & _ & Hg & _ & Ha & _).
  assert (run_ops example_store x1.1.2 (tail memory_ops) = memory_file) as E by (vm_compute; reflexivity).
  rewrite E in Hg, Ha. exists m, kept. exact (conj Hg Ha).
Defined.

Definition summary_digest : string := Eval vm_compute in stored_digest x4.2.
Lemma summary_read :
  ∃ document m c, ms_get example_store memory_art memory_file summary_digest false = Ok (document, m) ∧
    mm_compaction m = Some c ∧ west ∈ co_sources c.
Proof.
  do 3 eexists. split; [vm_compute; reflexivity|]. split; [reflexivity|].
  apply (bool_decide_eq_true_1 _). vm_compute. reflexivity.
Qed.
Lemma summaries_are_faithful_witness :
  ∃ c sm, covers c sm ∧ ∃ document, ms_get example_store memory_art memory_file west false = Ok (document, sm).
Proof.
  destruct summary_read as (document & m & c & Hg & Hc & Hsrc).
  destruct (summaries_are_faithful _ _ _ _ _ _ _ _ _ _ _ memory_file_written Hg Hc Hsrc)
    as (sd & sm & Hs & _ & _ & Hcov).
  exists c, sm. split; [exact Hcov|]. exists sd. exact Hs.
Defined.

Definition summary_document : json := Eval vm_compute in match x4.2 with Ok j => j | Err _ => JNull end.
Lemma summary_compacted :
  compact example_store x3.1.1 (run_ops example_store db0 (take 3 memory_ops)) summary_args
  = (memory_art, memory_file, Ok summary_document).
Proof. vm_compute. reflexivity. Qed.
Lemma compaction_never_declassifies_witness :
  ∃ kept m, ms_get example_store memory_art memory_file (record_digest summary_document) false = Ok (kept, m) ∧
    mm_type m = "summary".
Proof.
  destruct (compaction_never_declassifies _ _ _ _ _ _ _ _ _ _ (file_written (take 3 memory_ops)) summary_compacted)
    as (kept & m & c & Hg & Ht & _).
  exists kept, m. exact (conj Hg Ht).
Defined.

(** ** The artifacts *)

Lemma stored_artifact_is_served_witness :
  ∃ p kept, source_put.2 = Ok p ∧ kept = "the minutes" ∧
    open_verified (puts art0 [(["the "; "minutes"], put_defaults 100); (["other"], put_defaults 3)]) p = Ok kept.
Proof.
  destruct source_put as [s r] eqn:E. destruct r as [p|e].
  - destruct (stored_artifact_is_served no_artifacts ["the minutes"] (put_defaults 100) s p
                [(["the "; "minutes"], put_defaults 100); (["other"], put_defaults 3)] E)
      as (_ & _ & _ & (kept & Ho & _ & _ & Hk) & _).
    exists p, kept. split; [reflexivity|]. split; [exact (Hk ltac:(reflexivity))|].
    unfold art0. rewrite E. exact Ho.
  - exfalso. vm_compute in E. discriminate E.
Defined.
