(* ===== verification/TeamContracts.v ===== *)
(** * Team records, src/eco_teams/contracts.py and its schemas

    Four kinds of record describe a bounded team of agents: the manifest with its
    roles, a task, a handoff between tasks, and the result of a run.  A record is
    validated by its JSON Schema, by the digest it carries, and by the semantic
    checks of its kind.  As with the routing records each kind has a schema, a Rocq
    record of the fields the code reads and a reader; only whether the list of
    errors is empty is modelled. *)

From S2P Require Import Prelude Json Digest PyTime PyClock Schema RouteRecords.
From Stdlib Require Import Ascii.

Definition API_VERSION := "teams.ai.ecosystem/v1alpha1".
Definition PROFILE := "bounded-agent-team-v1".

(** [ACTION_PROFILE] of src/eco_runtime/team_access.py: the action class and the
    kind of the resource. *)
Definition ACTION_PROFILE : list (string * (string * string)) :=
  [("identity.inspect", ("A0", "identity-record")); ("policy.inspect", ("A0", "policy-record"));
   ("model.invoke", ("A0", "deployment")); ("run.plan", ("A0", "workflow"));
   ("repository.read", ("A1", "repository-entry")); ("run.activate", ("A1", "workflow"));
   ("evaluation.run", ("A1", "workflow")); ("repository.write", ("A2", "repository-entry"));
   ("code.execute", ("A2", "project")); ("external.write", ("A3", "external-service"));
   ("production.change", ("A4", "production-target"))].
Definition action_profile (action : string) : option (string * string) :=
  snd <$> List.find (fun x => x.1 == action) ACTION_PROFILE.

(** The format "date-time" of [FormatChecker()]: the check of an optional package
    that reads RFC 3339, or no check at all. *)
Class DateTimeFormat : Type := {
  date_time_format : string → bool;
  date_time_format_timestamp : ∀ t, in_range t = true → date_time_format (timestamp t) = true;
}.

(** ** schemas/common.schema.json *)

Section Schemas.
Context `{DateTimeFormat}.

(** [^[A-Za-z0-9][A-Za-z0-9._:@/-]{0,127}$] *)
Definition is_team_id (s : string) : bool :=
  re_ident is_alnum (fun c => is_ident_char c || (c == "@"%char) || (c == "/"%char)) 127 s.
Definition team_id : schema := SStr (search_pattern is_team_id).
Definition team_digest : schema := SStr (search_pattern is_digest).
Definition team_timestamp : schema := SStr date_time_format.
(** A string with [minLength: 1] and [maxLength: n]. *)
Definition short_string (n : nat) : schema :=
  SStr (fun s => (1 <=? py_len s)%nat && (py_len s <=? n)%nat).
Definition short_strings (lo n : nat) : schema :=
  SStrs lo (fun s => (1 <=? py_len s)%nat && (py_len s <=? n)%nat).
Definition binding_schema : schema :=
  SObj ["kind"; "id"; "digest"]
       [("kind", short_string 64); ("id", team_id); ("digest", team_digest)].
Definition budget_schema : schema :=
  SObj ["maxTokens"; "maxCostMicrousd"; "maxDurationSeconds"]
       [("maxTokens", SRange 0 1000000000); ("maxCostMicrousd", SRange 0 1000000000000);
        ("maxDurationSeconds", SRange 1 86400)].
Definition data_class_names : list string := ["D0"; "D1"; "D2"; "D3"].
Definition team_record_schema (kind : string) (metadata spec : schema) : schema :=
  SObj ["apiVersion"; "kind"; "metadata"; "spec"]
       [("apiVersion", SEnum [API_VERSION]); ("kind", SEnum [kind]);
        ("metadata", metadata); ("spec", spec)].
Definition run_metadata_schema : schema :=
  SObj ["id"; "teamId"; "projectId"; "runId"; "createdAt"; "recordDigest"]
       [("id", team_id); ("teamId", team_id); ("projectId", team_id); ("runId", team_id);
        ("createdAt", team_timestamp); ("recordDigest", team_digest)].

(** ** schemas/agent-team-manifest.schema.json *)

Definition role_schema : schema :=
  SObj ["id"; "principal"; "membership"; "actions"; "dataClasses"; "toolIds"; "zones"; "notAfter";
        "budget"; "delegatesTo"]
       [("id", team_id); ("principal", binding_schema); ("membership", binding_schema);
        ("actions", short_strings 1 64); ("dataClasses", enum_strs 1 data_class_names);
        ("toolIds", short_strings 0 128); ("zones", short_strings 1 64);
        ("notAfter", team_timestamp); ("budget", budget_schema);
        ("delegatesTo", SStrs 0 (search_pattern is_team_id))].

Definition manifest_spec_schema : schema :=
  SObj ["profile"; "authority"; "roles"; "budget"; "deadline"; "safety"]
       [("profile", SEnum [PROFILE]);
        ("authority",
          SObj ["teamId"; "storeId"; "authoritySnapshotDigest"; "activeBundleDigest";
                "accessPolicyDigest"]
               [("teamId", team_id); ("storeId", team_id); ("authoritySnapshotDigest", team_digest);
                ("activeBundleDigest", team_digest); ("accessPolicyDigest", team_digest)]);
        ("roles", SArr 1 64 role_schema);
        ("budget",
          SObj ["maxTasks"; "maxTotalTokens"; "maxCostMicrousd"]
               [("maxTasks", SRange 1 10000); ("maxTotalTokens", SRange 0 1000000000);
                ("maxCostMicrousd", SRange 0 1000000000000)]);
        ("deadline", team_timestamp);
        ("safety",
          SObj ["signedAuthorityRequired"; "permissionsGranted"; "runtimeAuthorityCreated"]
               [("signedAuthorityRequired", SConst true); ("permissionsGranted", SConst false);
                ("runtimeAuthorityCreated", SConst false)])].
Definition manifest_schema : schema :=
  team_record_schema "AgentTeamManifest"
    (SObj ["id"; "projectId"; "createdAt"; "recordDigest"]
          [("id", team_id); ("projectId", team_id); ("createdAt", team_timestamp);
           ("recordDigest", team_digest)])
    manifest_spec_schema.

(** ** schemas/team-task.schema.json *)

Definition task_spec_schema : schema :=
  SObj ["roleId"; "parentTaskId"; "action"; "dataClass"; "toolId"; "zone"; "environmentId";
        "resource"; "notAfter"; "budget"; "input"; "dependencies"; "routeDecision"; "safety"]
       [("roleId", team_id); ("parentTaskId", SOneOf SNull team_id); ("action", short_string 64);
        ("dataClass", SEnum data_class_names); ("toolId", SOneOf SNull (short_string 128));
        ("zone", short_string 64); ("environmentId", team_id); ("resource", binding_schema);
        ("notAfter", team_timestamp); ("budget", budget_schema); ("input", binding_schema);
        ("dependencies", SStrs 0 (search_pattern is_team_id));
        ("routeDecision", SOneOf SNull binding_schema);
        ("safety",
          SObj ["routerDecisionGrantsAuthority"; "delegationExpandsAuthority"]
               [("routerDecisionGrantsAuthority", SConst false);
                ("delegationExpandsAuthority", SConst false)])].
Definition task_schema : schema :=
  team_record_schema "TeamTask" run_metadata_schema task_spec_schema.

(** ** schemas/team-handoff.schema.json *)

Definition handoff_schema : schema :=
  team_record_schema "TeamHandoff" run_metadata_schema
    (SObj ["fromTaskId"; "fromRoleId"; "toTaskId"; "toRoleId"; "artifact"; "channel"]
          [("fromTaskId", team_id); ("fromRoleId", team_id); ("toTaskId", team_id);
           ("toRoleId", team_id); ("artifact", binding_schema); ("channel", SEnum ["task-input"])]).

(** ** schemas/team-run-result.schema.json *)

Definition result_task_schema : schema :=
  SObj ["id"; "status"; "outcomeDigest"; "chargedTokens"; "chargedCostMicrousd"]
       [("id", team_id); ("status", SEnum ["succeeded"; "failed"; "cancelled"; "ambiguous"]);
        ("outcomeDigest", SOneOf SNull team_digest); ("chargedTokens", SInt 0);
        ("chargedCostMicrousd", SInt 0)].
Definition result_schema : schema :=
  team_record_schema "TeamRunResult" run_metadata_schema
    (SObj ["status"; "cancellationRequested"; "tasks"; "usage"]
          [("status", SEnum ["succeeded"; "failed"; "partial-failure"; "cancelled"; "ambiguous"]);
           ("cancellationRequested", SBool); ("tasks", SList 1 result_task_schema);
           ("usage",
             SObj ["tokens"; "costMicrousd"] [("tokens", SInt 0); ("costMicrousd", SInt 0)])]).

Definition SCHEMAS : list (string * schema) :=
  [("AgentTeamManifest", manifest_schema); ("TeamTask", task_schema);
   ("TeamHandoff", handoff_schema); ("TeamRunResult", result_schema)].
End Schemas.

(** ** Reading a document *)

Record binding : Type := { bd_kind : string; bd_id : string; bd_digest : string }.
#[export] Instance binding_eq_dec : EqDecision binding.
Proof. solve_decision. Defined.
Definition as_binding (o : list (string * json)) : option binding :=
  k ← str_at "kind" o; i ← str_at "id" o; d ← str_at "digest" o;
  Some {| bd_kind := k; bd_id := i; bd_digest := d |}.

Record team_budget : Type := { bu_tokens : Z; bu_cost : Z; bu_seconds : Z }.
Definition as_budget (o : list (string * json)) : option team_budget :=
  t ← int_at "maxTokens" o; c ← int_at "maxCostMicrousd" o; s ← int_at "maxDurationSeconds" o;
  Some {| bu_tokens := t; bu_cost := c; bu_seconds := s |}.

(** The metadata of tasks, handoffs and results. *)
Record TeamMeta : Type := {
  tm_id : string; tm_team : string; tm_project : string; tm_run : string;
  tm_created_at : string; tm_digest : string;
}.
Definition as_team_meta (o : list (string * json)) : option TeamMeta :=
  m ← obj_at "metadata" o;
  i ← str_at "id" m; t ← str_at "teamId" m; p ← str_at "projectId" m; r ← str_at "runId" m;
  c ← str_at "createdAt" m; d ← str_at "recordDigest" m;
  Some {| tm_id := i; tm_team := t; tm_project := p; tm_run := r; tm_created_at := c;
          tm_digest := d |}.

Record TeamRole : Type := {
  ro_id : string; ro_principal : binding; ro_membership : binding; ro_actions : list string;
  ro_data_classes : list string; ro_tool_ids : list string; ro_zones : list string;
  ro_not_after : string; ro_budget : team_budget; ro_delegates_to : list string;
}.
Definition as_team_role (o : list (string * json)) : option TeamRole :=
  i ← str_at "id" o;
  p ← obj_at "principal" o; p ← as_binding p; m ← obj_at "membership" o; m ← as_binding m;
  a ← strs_at "actions" o; d ← strs_at "dataClasses" o; t ← strs_at "toolIds" o;
  z ← strs_at "zones" o; n ← str_at "notAfter" o;
  b ← obj_at "budget" o; b ← as_budget b; g ← strs_at "delegatesTo" o;
  Some {| ro_id := i; ro_principal := p; ro_membership := m; ro_actions := a;
          ro_data_classes := d; ro_tool_ids := t; ro_zones := z; ro_not_after := n;
          ro_budget := b; ro_delegates_to := g |}.

Record Manifest : Type := {
  mf_id : string; mf_project : string; mf_created_at : string; mf_digest : string;
  mf_team : string; mf_roles : list TeamRole; mf_max_tasks : Z; mf_max_tokens : Z;
  mf_max_cost : Z; mf_deadline : string;
}.
Definition as_manifest (doc : json) : option Manifest :=
  match doc with
  | JObj o =>
      m ← obj_at "metadata" o; sp ← obj_at "spec" o;
      i ← str_at "id" m; p ← str_at "projectId" m; c ← str_at "createdAt" m;
      d ← str_at "recordDigest" m;
      au ← obj_at "authority" sp; t ← str_at "teamId" au;
      rs ← objs_at "roles" sp; roles ← mapM as_team_role rs;
      b ← obj_at "budget" sp; mt ← int_at "maxTasks" b; mk ← int_at "maxTotalTokens" b;
      mc ← int_at "maxCostMicrousd" b; dl ← str_at "deadline" sp;
      Some {| mf_id := i; mf_project := p; mf_created_at := c; mf_digest := d; mf_team := t;
              mf_roles := roles; mf_max_tasks := mt; mf_max_tokens := mk; mf_max_cost := mc;
              mf_deadline := dl |}
  | _ => None
  end.

Record Task : Type := {
  tk_meta : TeamMeta; tk_role : string; tk_parent : option string; tk_action : string;
  tk_data_class : string; tk_tool : option string; tk_zone : string; tk_environment : string;
  tk_resource : binding; tk_not_after : string; tk_budget : team_budget; tk_input : binding;
  tk_dependencies : list string; tk_route : option binding;
}.
Definition as_task (doc : json) : option Task :=
  match doc with
  | JObj o =>
      m ← as_team_meta o; sp ← obj_at "spec" o;
      r ← str_at "roleId" sp; a ← str_at "action" sp; dc ← str_at "dataClass" sp;
      z ← str_at "zone" sp; e ← str_at "environmentId" sp;
      rs ← obj_at "resource" sp; rs ← as_binding rs; n ← str_at "notAfter" sp;
      b ← obj_at "budget" sp; b ← as_budget b; i ← obj_at "input" sp; i ← as_binding i;
      ds ← strs_at "dependencies" sp; rt ← opt_obj_at as_binding "routeDecision" sp;
      Some {| tk_meta := m; tk_role := r; tk_parent := str_at "parentTaskId" sp; tk_action := a;
              tk_data_class := dc; tk_tool := str_at "toolId" sp; tk_zone := z;
              tk_environment := e; tk_resource := rs; tk_not_after := n; tk_budget := b;
              tk_input := i; tk_dependencies := ds; tk_route := rt |}
  | _ => None
  end.

Record Handoff : Type := {
  ho_meta : TeamMeta; ho_from_task : string; ho_from_role : string; ho_to_task : string;
  ho_to_role : string; ho_artifact : binding;
}.
Definition as_handoff (doc : json) : option Handoff :=
  match doc with
  | JObj o =>
      m ← as_team_meta o; sp ← obj_at "spec" o;
      f ← str_at "fromTaskId" sp; fr ← str_at "fromRoleId" sp; t ← str_at "toTaskId" sp;
      tr ← str_at "toRoleId" sp; a ← obj_at "artifact" sp; a ← as_binding a;
      Some {| ho_meta := m; ho_from_task := f; ho_from_role := fr; ho_to_task := t;
              ho_to_role := tr; ho_artifact := a |}
  | _ => None
  end.

Record ResultTask : Type := {
  rt_id : string; rt_status : string; rt_outcome : option string; rt_tokens : Z; rt_cost : Z;
}.
Definition as_result_task (o : list (string * json)) : option ResultTask :=
  i ← str_at "id" o; s ← str_at "status" o; t ← int_at "chargedTokens" o;
  c ← int_at "chargedCostMicrousd" o;
  Some {| rt_id := i; rt_status := s; rt_outcome := str_at "outcomeDigest" o; rt_tokens := t;
          rt_cost := c |}.
Record RunResult : Type := {
  rr_meta : TeamMeta; rr_status : string; rr_cancellation : bool; rr_tasks : list ResultTask;
  rr_tokens : Z; rr_cost : Z;
}.
Definition as_run_result (doc : json) : option RunResult :=
  match doc with
  | JObj o =>
      m ← as_team_meta o; sp ← obj_at "spec" o;
      s ← str_at "status" sp; c ← bool_at "cancellationRequested" sp;
      ts ← objs_at "tasks" sp; tasks ← mapM as_result_task ts;
      u ← obj_at "usage" sp; k ← int_at "tokens" u; mc ← int_at "costMicrousd" u;
      Some {| rr_meta := m; rr_status := s; rr_cancellation := c; rr_tasks := tasks;
              rr_tokens := k; rr_cost := mc |}
  | _ => None
  end.

(** ** Digests *)

Section Records.
Context `{FromIso} `{Crypto} `{Jsonschema} `{DateTimeFormat}.

Definition record_digest (record : list (string * json)) : string :=
  let candidate := undigested record in
  semantic_digest (JObj [("profile", JStr "eco-team-record-v1"); ("record", JObj candidate)]).

Definition seal_record (record : list (string * json)) : result json :=
  let digest := JStr (record_digest record) in
  match jassoc "metadata" record with
  | Some (JObj metadata) =>
      Ok (JObj (dict_set "metadata" (JObj (dict_set "recordDigest" digest metadata)) record))
  | None => Ok (JObj (dict_set "metadata" (JObj [("recordDigest", digest)]) record))
  | Some _ => Err TypeError
  end.

(** [_time]: a text [fromisoformat] refuses and a naive value are [ValueError]s,
    a value beyond the calendar an [OverflowError]. *)
Definition team_time (value : string) : result Z :=
  let! t := some_or ValueError (read_time value) in utc_of t.

(** ** Semantic checks *)

(** A loop that collects errors: every check is made unless one raises. *)
Fixpoint all_checks {A} (f : A → result bool) (l : list A) : result bool :=
  match l with
  | [] => Ok true
  | x :: l' => let! a := f x in let! b := all_checks f l' in Ok (a && b)
  end.

Definition sorted_unique (values : list string) : bool :=
  is_sorted values && bool_decide (NoDup values).
(** [set(a) <= set(b)] *)
Definition subset (a b : list string) : bool := forallb (fun x => x in? b) a.
(** [{role["id"]: role for role in roles}[id]]: the last role of that id. *)
Definition role_by_id (roles : list TeamRole) (i : string) : option TeamRole :=
  List.find (fun r => ro_id r == i) (rev roles).

(** The first loop over the roles. *)
Definition role_checks (m : Manifest) (deadline : Z) (r : TeamRole) : result bool :=
  let! not_after := team_time (ro_not_after r) in
  Ok ((bd_kind (ro_principal r) == "PrincipalIdentity")
      && (bd_kind (ro_membership r) == "MembershipBinding")
      && forallb sorted_unique
           [ro_actions r; ro_data_classes r; ro_tool_ids r; ro_zones r; ro_delegates_to r]
      && (not_after <=? deadline)
      && negb (ro_id r in? ro_delegates_to r)
      && subset (ro_delegates_to r) (map ro_id (mf_roles m))
      && (bu_tokens (ro_budget r) <=? mf_max_tokens m)
      && (bu_cost (ro_budget r) <=? mf_max_cost m)).

(** The target of a delegation has no authority its source lacks. *)
Definition narrower (source target : TeamRole) : result bool :=
  if subset (ro_actions target) (ro_actions source)
     && subset (ro_data_classes target) (ro_data_classes source)
     && subset (ro_tool_ids target) (ro_tool_ids source)
     && subset (ro_zones target) (ro_zones source)
  then
    let! t := team_time (ro_not_after target) in
    let! s := team_time (ro_not_after source) in
    Ok ((t <=? s)
        && (bu_tokens (ro_budget target) <=? bu_tokens (ro_budget source))
        && (bu_cost (ro_budget target) <=? bu_cost (ro_budget source))
        && (bu_seconds (ro_budget target) <=? bu_seconds (ro_budget source)))
  else Ok false.
Definition delegation_checks (m : Manifest) (source : TeamRole) : result bool :=
  all_checks
    (fun i => let! target := some_or KeyError (role_by_id (mf_roles m) i) in narrower source target)
    (ro_delegates_to source).

(** The [try] block of [_manifest_errors]. *)
Definition manifest_checks (m : Manifest) : result bool :=
  let! created := team_time (mf_created_at m) in
  let! deadline := team_time (mf_deadline m) in
  let! a := all_checks (role_checks m deadline) (mf_roles m) in
  let! b := all_checks (delegation_checks m) (mf_roles m) in
  Ok ((created <? deadline) && a && b).
Definition manifest_ok (m : Manifest) : result bool :=
  match manifest_checks m with
  | Err KeyError | Err TypeError | Err ValueError => Ok false
  | Err e => Err e
  | Ok b => Ok (sorted_unique (map ro_id (mf_roles m)) && b)
  end.

Definition task_ok (t : Task) : result bool :=
  let fields :=
    sorted_unique (tk_dependencies t)
    && negb (tm_id (tk_meta t) in? tk_dependencies t)
    && (tk_parent t != Some (tm_id (tk_meta t)))
    && match action_profile (tk_action t) with
       | Some (_, kind) => bd_kind (tk_resource t) == kind
       | None => false
       end
    && (if tk_action t == "model.invoke"
        then match tk_route t with Some r => bd_kind r == "ModelRouteDecision" | None => false end
        else negb (is_some (tk_route t)))
    && (negb (startswith (tk_action t) "repository.") || (tk_tool t == Some (tk_action t))) in
  match (let! created := team_time (tm_created_at (tk_meta t)) in
         let! not_after := team_time (tk_not_after t) in Ok (created <? not_after)) with
  | Err TypeError | Err ValueError => Ok false
  | Err e => Err e
  | Ok b => Ok (fields && b)
  end.

Definition handoff_ok (h : Handoff) : bool := ho_from_task h != ho_to_task h.

(** The status that summarises the statuses of the tasks. *)
Definition summary (statuses : list string) : string :=
  if "ambiguous" in? statuses then "ambiguous"
  else if forallb (fun s => s == "succeeded") statuses then "succeeded"
  else if forallb (fun s => s == "cancelled") statuses then "cancelled"
  else if forallb (fun s => s == "failed") statuses then "failed"
  else "partial-failure".
Definition sum_of {A} (f : A → Z) (l : list A) : Z := foldr (fun x n => f x + n) 0 l.
Definition result_ok (r : RunResult) : bool :=
  sorted_unique (map rt_id (rr_tasks r))
  && (rr_status r == summary (map rt_status (rr_tasks r)))
  && (rr_tokens r =? sum_of rt_tokens (rr_tasks r))
  && (rr_cost r =? sum_of rt_cost (rr_tasks r))
  && forallb (fun t => negb (rt_status t in? ["succeeded"; "failed"]) || is_some (rt_outcome t))
       (rr_tasks r).

Definition team_kind_ok (kind : string) (doc : json) : result bool :=
  if kind == "AgentTeamManifest" then
    let! m := some_or KeyError (as_manifest doc) in manifest_ok m
  else if kind == "TeamTask" then
    let! t := some_or KeyError (as_task doc) in task_ok t
  else if kind == "TeamHandoff" then
    let! h := some_or KeyError (as_handoff doc) in Ok (handoff_ok h)
  else let! r := some_or KeyError (as_run_result doc) in Ok (result_ok r).

(** [record["metadata"]["recordDigest"]] *)
Definition stored_digest (o : list (string * json)) : option string :=
  obj_at "metadata" o ≫= str_at "recordDigest".

Definition validate_record (record : json) : result json :=
  match record with
  | JObj o =>
      match jget "kind" o with
      | JStr kind =>
          match snd <$> List.find (fun ks => ks.1 == kind) SCHEMAS with
          | None => Err ContractValidationError
          | Some s =>
              raise ContractValidationError when (negb (is_valid s record)) else
              raise ContractValidationError when (stored_digest o != Some (record_digest o)) else
              let! ok := team_kind_ok kind record in
              raise ContractValidationError when (negb ok) else Ok record
          end
      | JArr _ | JObj _ => Err TypeError                     (* unhashable *)
      | _ => Err ContractValidationError
      end
  | _ => Err ContractValidationError
  end.
End Records.

(** ** Checks over lists *)

Lemma all_checks_elem {A} (f : A → result bool) l x :
  all_checks f l = Ok true → x ∈ l → f x = Ok true.
Proof.
  induction l as [|y l IH]; cbn [all_checks]; [by intros _ ?%elem_of_nil|].
  destruct (f y) as [a|] eqn:Ef; [|discriminate]. destruct (all_checks f l) as [b|]; [|discriminate].
  intros [= E]. breflect. subst. intros [->|Hx]%elem_of_cons; auto.
Qed.
Lemma all_checks_total {A} (f : A → result bool) l :
  (∀ x, x ∈ l → ∃ b, f x = Ok b) → ∃ b, all_checks f l = Ok b.
Proof.
  induction l as [|x l IH]; intros Hf; [by eexists|]. cbn [all_checks].
  destruct (Hf x) as (a & ->); [left|]. destruct IH as (b & ->); [|by eexists].
  intros y Hy. apply Hf. by right.
Qed.
