(* ===== verification/TeamAccess.v ===== *)
(** * Team access policies, src/eco_runtime/team_access.py

    A policy gives roles to actors and statements to roles; [evaluate_team_access]
    answers one request.  An allow only narrows: it is never authority by itself.
    As elsewhere a record is a schema, a Rocq record of what the code reads and a
    reader, and only whether the list of contract errors is empty is modelled. *)

From S2P Require Import Prelude Json Digest PyTime PyClock Schema RouteRecords TeamContracts.
From Stdlib Require Import Ascii.

Definition TEAM_ACCESS_API_VERSION := "authority.ai.ecosystem/v1alpha1".
Definition TEAM_ACCESS_PROFILE := "bounded-team-access-v1".

(** [^[a-z0-9][a-z0-9._:@-]{0,127}$] *)
Definition is_access_id (s : string) : bool :=
  re_ident (fun c => is_lower c || is_digit c)
    (fun c => is_lower c || is_digit c || (c == "."%char) || (c == "_"%char) || (c == ":"%char)
              || (c == "@"%char) || (c == "-"%char)) 127 s.

(** A full match of a template in which "0" stands for a digit.  ([\d] matches
    other scripts' digits too, which [fromisoformat] then refuses.) *)
Fixpoint like (template s : string) : bool :=
  match template, s with
  | EmptyString, EmptyString => true
  | String t template', String c s' =>
      (if t == "0"%char then is_digit c else c == t) && like template' s'
  | _, _ => false
  end.
Definition _TIMESTAMP (s : string) : bool := like "0000-00-00T00:00:00Z" s.

Section Schemas.
Context `{FromIso}.

(** [_date_time] *)
Definition _date_time (s : string) : bool := _TIMESTAMP s && is_some (read_time s).

Definition access_id : schema := SStr (search_pattern is_access_id).
Definition access_sha256 : schema := SStr (search_pattern is_digest).
Definition access_timestamp : schema := SStr (fun s => search_pattern _TIMESTAMP s && _date_time s).
Definition exact_schema (kinds : list string) : schema :=
  SObj ["kind"; "id"; "digest"] [("kind", SEnum kinds); ("id", access_id); ("digest", access_sha256)].
Definition access_data_classes : list string := ["D0"; "D1"; "D2"; "D3"; "D4"].
Definition access_action_classes : list string := ["A0"; "A1"; "A2"; "A3"; "A4"].
Definition constraints_schema : schema :=
  SObj ["projectId"; "environmentId"; "dataClasses"; "notBefore"; "notAfter"]
    [("projectId", access_id); ("environmentId", access_id);
     ("dataClasses", enum_strs 1 access_data_classes);
     ("notBefore", access_timestamp); ("notAfter", access_timestamp)].
Definition statement_schema : schema :=
  SObj ["id"; "effect"; "action"; "actionClass"; "resource"; "constraints"; "approvalProfile"]
    [("id", access_id); ("effect", SEnum ["allow"; "deny"]); ("action", SEnum (map fst ACTION_PROFILE));
     ("actionClass", SEnum access_action_classes);
     ("resource",
       exact_schema ["identity-record"; "policy-record"; "deployment"; "workflow"; "repository-entry";
                     "project"; "external-service"; "production-target"]);
     ("constraints", constraints_schema);
     ("approvalProfile", SOneOf SNull (exact_schema ["ApprovalProfile"]))].
Definition access_role_schema : schema :=
  SObj ["id"; "statements"] [("id", access_id); ("statements", SArr 1 256 statement_schema)].
Definition actor_schema : schema :=
  SObj ["id"; "principal"; "membership"; "roleId"]
    [("id", access_id); ("principal", exact_schema ["PrincipalIdentity"]);
     ("membership", exact_schema ["MembershipBinding"]); ("roleId", access_id)].
Definition access_policy_spec_schema : schema :=
  SObj ["profile"; "defaultEffect"; "roles"; "bindings"; "safety"]
    [("profile", SEnum [TEAM_ACCESS_PROFILE]); ("defaultEffect", SEnum ["deny"]);
     ("roles", SArr 1 256 access_role_schema); ("bindings", SArr 1 4096 actor_schema);
     ("safety",
       SObj ["maximumAllowActionClass"; "d4AllowDenied"; "highImpactAllowDenied"; "wildcardsAllowed";
             "roleInheritanceAllowed"; "standaloneAuthorityCreated"]
         [("maximumAllowActionClass", SEnum ["A2"]); ("d4AllowDenied", SConst true);
          ("highImpactAllowDenied", SConst true); ("wildcardsAllowed", SConst false);
          ("roleInheritanceAllowed", SConst false); ("standaloneAuthorityCreated", SConst false)])].
Definition access_metadata_schema : schema :=
  SObj ["id"; "revision"; "createdAt"; "recordDigest"]
    [("id", access_id); ("revision", SRange 1 2147483647); ("createdAt", access_timestamp);
     ("recordDigest", access_sha256)].
Definition access_policy_schema : schema :=
  SObj ["apiVersion"; "kind"; "metadata"; "spec"]
    [("apiVersion", SEnum [TEAM_ACCESS_API_VERSION]); ("kind", SEnum ["TeamAccessPolicy"]);
     ("metadata", access_metadata_schema); ("spec", access_policy_spec_schema)].
End Schemas.

(** ** Reading a policy *)

(** [as_constraints], [st_raw]: the statement itself, for its digest. *)
Record Statement : Type := {
  st_id : string; st_effect : string; st_action : string; st_class : string; st_resource : binding;
  st_project : string; st_environment : string; st_data_classes : list string;
  st_not_before : string; st_not_after : string; st_approval : option binding;
  st_raw : list (string * json);
}.
Definition as_statement (o : list (string * json)) : option Statement :=
  i ← str_at "id" o; e ← str_at "effect" o; a ← str_at "action" o; c ← str_at "actionClass" o;
  r ← obj_at "resource" o; r ← as_binding r;
  cs ← obj_at "constraints" o; p ← str_at "projectId" cs; v ← str_at "environmentId" cs;
  d ← strs_at "dataClasses" cs; nb ← str_at "notBefore" cs; na ← str_at "notAfter" cs;
  ap ← opt_obj_at as_binding "approvalProfile" o;
  Some {| st_id := i; st_effect := e; st_action := a; st_class := c; st_resource := r;
          st_project := p; st_environment := v; st_data_classes := d; st_not_before := nb;
          st_not_after := na; st_approval := ap; st_raw := o |}.
Record AccessRole : Type := { ar_id : string; ar_statements : list Statement }.
Definition as_access_role (o : list (string * json)) : option AccessRole :=
  i ← str_at "id" o; ss ← objs_at "statements" o; sts ← mapM as_statement ss;
  Some {| ar_id := i; ar_statements := sts |}.
Record ActorBinding : Type := {
  ab_id : string; ab_principal : binding; ab_membership : binding; ab_role : string;
}.
Definition as_actor (o : list (string * json)) : option ActorBinding :=
  i ← str_at "id" o; p ← obj_at "principal" o; p ← as_binding p;
  m ← obj_at "membership" o; m ← as_binding m; r ← str_at "roleId" o;
  Some {| ab_id := i; ab_principal := p; ab_membership := m; ab_role := r |}.
Record AccessPolicy : Type := {
  ap_created_at : string; ap_digest : string; ap_roles : list AccessRole;
  ap_bindings : list ActorBinding;
}.
Definition as_access_policy (o : list (string * json)) : option AccessPolicy :=
  m ← obj_at "metadata" o; c ← str_at "createdAt" m; d ← str_at "recordDigest" m;
  sp ← obj_at "spec" o; rs ← objs_at "roles" sp; roles ← mapM as_access_role rs;
  bs ← objs_at "bindings" sp; bindings ← mapM as_actor bs;
  Some {| ap_created_at := c; ap_digest := d; ap_roles := roles; ap_bindings := bindings |}.

(** ** Digests *)

Definition binding_json (b : binding) : json :=
  JObj [("kind", JStr (bd_kind b)); ("id", JStr (bd_id b)); ("digest", JStr (bd_digest b))].

Section Access.
Context `{FromIso} `{Crypto} `{Jsonschema}.

Definition team_access_policy_digest (policy : list (string * json)) : string :=
  let projected := undigested policy in
  semantic_digest (JObj [("profile", JStr "team-access-policy-record-v1"); ("record", JObj projected)]).

Definition team_access_binding_id (principal membership : binding) (role_id : string) : string :=
  "binding:" +:+
  semantic_digest
    (JObj [("profile", JStr "team-access-binding-id-v1"); ("principal", binding_json principal);
           ("membership", binding_json membership); ("roleId", JStr role_id)]).

(** ** [team_access_contract_errors] *)

Definition access_time (s : string) : result Z := some_or ValueError (read_time s).

(** The loop over the bindings; [seen] is [seen_actor_roles]. *)
Fixpoint bindings_ok (roles : list string) (seen : list (string * string * string))
    (l : list ActorBinding) : bool :=
  match l with
  | [] => true
  | b :: l' =>
      let actor_role := (bd_digest (ab_principal b), bd_digest (ab_membership b), ab_role b) in
      (ab_id b == team_access_binding_id (ab_principal b) (ab_membership b) (ab_role b))
      && (ab_role b in? roles) && negb (actor_role in? seen)
      && bindings_ok roles (actor_role :: seen) l'
  end.

Definition statement_ok (created : Z) (s : Statement) : result bool :=
  let! ' (expected_class, expected_kind) := some_or KeyError (action_profile (st_action s)) in
  let! not_before := access_time (st_not_before s) in
  let! not_after := access_time (st_not_after s) in
  let allows := st_effect s == "allow" in
  Ok ((st_class s == expected_class) && (bd_kind (st_resource s) == expected_kind)
      && (not_before <? not_after) && (created <? not_after)
      && is_sorted (st_data_classes s)
      && negb (allows && (st_class s == "A2") && negb (is_some (st_approval s)))
      && negb ((negb allows || (st_class s != "A2")) && is_some (st_approval s))
      && negb (allows && ((st_class s in? ["A3"; "A4"]) || ("D4" in? st_data_classes s)))).
Definition role_ok (created : Z) (r : AccessRole) : result bool :=
  let! b := all_checks (statement_ok created) (ar_statements r) in
  Ok (sorted_unique (map st_id (ar_statements r)) && b).

Definition access_policy_ok (p : AccessPolicy) : result bool :=
  let! created := access_time (ap_created_at p) in
  let! b := all_checks (role_ok created) (ap_roles p) in
  Ok (sorted_unique (map ar_id (ap_roles p)) && sorted_unique (map ab_id (ap_bindings p))
      && bindings_ok (map ar_id (ap_roles p)) [] (ap_bindings p) && b).

(** [validate_team_access_policy], with the fields of what it returns. *)
Definition validate_team_access_policy (document : list (string * json)) : result AccessPolicy :=
  raise ContractValidationError when (negb (is_valid access_policy_schema (JObj document))) else
  let! p := some_or KeyError (as_access_policy document) in
  let! ok := access_policy_ok p in
  raise ContractValidationError when
    ((ap_digest p != team_access_policy_digest document) || negb ok) else
  Ok p.

(** ** Requests *)

(** [set(value) == keys] *)
Definition same_keys (keys : list string) (o : list (string * json)) : bool :=
  forallb (fun k => k in? keys) o.*1 && forallb (fun k => k in? o.*1) keys.
(** [isinstance(v, str) and p(v)] *)
Definition str_ok (p : string → bool) (v : json) : bool := match v with JStr s => p s | _ => false end.
(** [v in {...}]: a list or a dict is not hashable. *)
Definition in_set (l : list string) (v : json) : result bool :=
  match v with
  | JStr s => Ok (s in? l)
  | JArr _ | JObj _ => Err TypeError
  | _ => Ok false
  end.

Definition _exact_binding (kind : string → bool) (value : json) : bool :=
  match value with
  | JObj o =>
      same_keys ["kind"; "id"; "digest"] o && str_ok kind (jget "kind" o)
      && str_ok is_access_id (jget "id" o) && str_ok is_digest (jget "digest" o)
  | _ => false
  end.
Definition request_keys : list string :=
  ["principal"; "membership"; "action"; "actionClass"; "resource"; "projectId"; "environmentId"; "dataClass"].
Definition valid_request (o : list (string * json)) : result bool :=
  if same_keys request_keys o
     && _exact_binding (fun k => k == "PrincipalIdentity") (jget "principal" o)
     && _exact_binding (fun k => k == "MembershipBinding") (jget "membership" o)
     && str_ok (fun a => is_some (action_profile a)) (jget "action" o)
  then
    let! a := in_set access_action_classes (jget "actionClass" o) in
    if a && _exact_binding (fun _ => true) (jget "resource" o)
       && str_ok is_access_id (jget "projectId" o) && str_ok is_access_id (jget "environmentId" o)
    then in_set access_data_classes (jget "dataClass" o)
    else Ok false
  else Ok false.

Record AccessRequest : Type := {
  aq_principal : binding; aq_membership : binding; aq_action : string; aq_class : string;
  aq_resource : binding; aq_project : string; aq_environment : string; aq_data_class : string;
}.
Definition as_access_request (o : list (string * json)) : option AccessRequest :=
  p ← obj_at "principal" o; p ← as_binding p; m ← obj_at "membership" o; m ← as_binding m;
  a ← str_at "action" o; c ← str_at "actionClass" o; r ← obj_at "resource" o; r ← as_binding r;
  pr ← str_at "projectId" o; e ← str_at "environmentId" o; d ← str_at "dataClass" o;
  Some {| aq_principal := p; aq_membership := m; aq_action := a; aq_class := c; aq_resource := r;
          aq_project := pr; aq_environment := e; aq_data_class := d |}.

(** ** Decisions *)

Record TeamAccessDecision : Type := {
  td_effect : string; td_code : string; td_policy_digest : string; td_request_digest : string;
  td_actor_digest : string; td_matches : list string; td_approval : option (string * string);
}.
(** [as_dict] *)
Definition decision_dict (d : TeamAccessDecision) : json :=
  JObj [("teamEffect", JStr (td_effect d)); ("code", JStr (td_code d));
        ("policyDigest", JStr (td_policy_digest d)); ("requestDigest", JStr (td_request_digest d));
        ("actorBindingDigest", JStr (td_actor_digest d));
        ("matchedStatementDigests", JArr (map JStr (td_matches d)));
        ("approvalProfileId", json_of_optstr (fst <$> td_approval d));
        ("approvalProfileDigest", json_of_optstr (snd <$> td_approval d));
        ("narrowingOnly", JBool true); ("effectiveAuthorization", JBool false);
        ("runtimeAuthorityCreated", JBool false)].

(** A statement that matched: its role, itself and its digest. *)
Definition statement_digest (role_id : string) (s : Statement) : string :=
  semantic_digest
    (JObj [("profile", JStr "team-access-statement-v1"); ("roleId", JStr role_id);
           ("statement", JObj (st_raw s))]).
Record matched : Type := { ma_effect : string; ma_digest : string; ma_approval : option binding }.

Definition statement_matches (rq : AccessRequest) (observed : Z) (s : Statement) : result bool :=
  if (st_action s == aq_action rq) && (st_class s == aq_class rq) && (st_resource s == aq_resource rq)
     && (st_project s == aq_project rq) && (st_environment s == aq_environment rq)
     && (aq_data_class rq in? st_data_classes s)
  then
    let! not_before := access_time (st_not_before s) in
    if not_before <=? observed
    then let! not_after := access_time (st_not_after s) in Ok (observed <? not_after)
    else Ok false
  else Ok false.
Fixpoint role_matches (rq : AccessRequest) (observed : Z) (role_id : string) (l : list Statement)
  : result (list matched) :=
  match l with
  | [] => Ok []
  | s :: l' =>
      let! b := statement_matches rq observed s in
      let! ms := role_matches rq observed role_id l' in
      Ok (if b then {| ma_effect := st_effect s; ma_digest := statement_digest role_id s;
                       ma_approval := st_approval s |} :: ms else ms)
  end.
(** [roles[role_id]] *)
Definition access_role (roles : list AccessRole) (i : string) : option AccessRole :=
  List.find (fun r => ar_id r == i) (rev roles).
Fixpoint all_matches (roles : list AccessRole) (rq : AccessRequest) (observed : Z) (ids : list string)
  : result (list matched) :=
  match ids with
  | [] => Ok []
  | i :: ids' =>
      let! r := some_or KeyError (access_role roles i) in
      let! ms := role_matches rq observed i (ar_statements r) in
      let! rest := all_matches roles rq observed ids' in Ok (ms ++ rest)
  end.
(** [sorted(assigned_role_ids)] *)
Definition assigned_roles (p : AccessPolicy) (rq : AccessRequest) : list string :=
  sorted_strs
    (remove_dups
       (map ab_role
          (List.filter (fun b => (ab_principal b == aq_principal rq) && (ab_membership b == aq_membership rq))
             (ap_bindings p)))).

Definition approval_key (b : binding) : string * string := (bd_id b, bd_digest b).
Definition with_effect (e : string) (ms : list matched) : list matched :=
  List.filter (fun m => ma_effect m == e) ms.
Definition digests_of (ms : list matched) : list string := sorted_strs (map ma_digest ms).

(** What the statements that matched decide. *)
Definition decide_matches (rq : AccessRequest) (ms : list matched)
  : string * string * list string * option (string * string) :=
  let denies := with_effect "deny" ms in
  let allows := with_effect "allow" ms in
  let profiles := omap (fun m => approval_key <$> ma_approval m) allows in
  if bool_decide (denies ≠ []) then
    ("deny", "ECO_TEAM_ACCESS_EXPLICIT_DENY", digests_of denies, None)
  else if bool_decide (allows ≠ []) then
    if (aq_class rq == "A2") && negb (length (remove_dups profiles) =? 1)%nat
    then ("deny", "ECO_TEAM_ACCESS_APPROVAL_AMBIGUOUS", digests_of allows, None)
    else ("allow", "ECO_TEAM_ACCESS_ALLOW_CANDIDATE", digests_of allows, head profiles)
  else ("deny", "ECO_TEAM_ACCESS_DEFAULT_DENY", [], None).

(** [request] is [None] when it is not a mapping. *)
Definition evaluate_team_access (policy : list (string * json))
    (request : option (list (string * json))) (now : datetime) : result TeamAccessDecision :=
  let! p := validate_team_access_policy policy in
  let invalid := semantic_digest (JObj [("profile", JStr "team-access-invalid-request-v1")]) in
  let answer request_digest actor_digest (x : string * string * list string * option (string * string)) :=
    let '(effect, code, matches, approval) := x in
    {| td_effect := effect; td_code := code; td_policy_digest := ap_digest p;
       td_request_digest := request_digest; td_actor_digest := actor_digest; td_matches := matches;
       td_approval := approval |} in
  let refuse code := answer invalid invalid ("deny", code, [], None) in
  match astimezone_utc now with
  | None => Ok (refuse "ECO_TEAM_ACCESS_TIME_INVALID")
  | Some (Err e) => Err e
  | Some (Ok observed) =>
      match request with
      | None => Ok (refuse "ECO_TEAM_ACCESS_REQUEST_INVALID")
      | Some candidate =>
          let! valid := valid_request candidate in
          if negb valid then Ok (refuse "ECO_TEAM_ACCESS_REQUEST_INVALID") else
          let! rq := some_or KeyError (as_access_request candidate) in
          let request_digest :=
            semantic_digest (JObj [("profile", JStr "team-access-request-v1"); ("request", JObj candidate)]) in
          let actor_digest :=
            semantic_digest
              (JObj [("profile", JStr "team-access-actor-binding-v1");
                     ("principal", jget "principal" candidate);
                     ("membership", jget "membership" candidate)]) in
          let decide x := Ok (answer request_digest actor_digest x) in
          let deny code := decide ("deny", code, [], None) in
          let! ' (expected_class, expected_kind) := some_or KeyError (action_profile (aq_action rq)) in
          if (aq_class rq != expected_class) || (bd_kind (aq_resource rq) != expected_kind)
          then deny "ECO_TEAM_ACCESS_REQUEST_MISMATCH"
          else if aq_class rq in? ["A3"; "A4"] then deny "ECO_TEAM_ACCESS_HIGH_IMPACT_DENIED"
          else if aq_data_class rq == "D4" then deny "ECO_TEAM_ACCESS_D4_DENIED"
          else
            let assigned := assigned_roles p rq in
            if assigned == [] then deny "ECO_TEAM_ACCESS_ACTOR_UNBOUND"
            else
              let! ms := all_matches (ap_roles p) rq observed assigned in
              decide (decide_matches rq ms)
      end
  end.
End Access.
