(* ===== verification/TeamAccessProofs.v ===== *)
(** * Facts about team access policies

    What a validated policy satisfies, and which statements the evaluation
    collects: exactly those of an assigned role that apply to the request. *)

From S2P Require Import Prelude Json Digest PyTime PyClock Schema RouteRecords RouteLemmas RouteRecordFacts TeamContracts TeamAccess.
From Stdlib Require Import Ascii.

Lemma remove_dups_elem (l : list string) x : x ∈ remove_dups l ↔ x ∈ l.
Proof. apply elem_of_remove_dups. Qed.

Lemma sorted_strs_elem l x : x ∈ sorted_strs l ↔ x ∈ l.
Proof. apply elem_of_py_sorted. Qed.

(** ** Reading *)

Section Reading.
Context `{FromIso}.

Definition instant_text (s : string) : Prop := ∃ t, read_time s = Some t.

Record statement_wf (s : Statement) : Prop := {
  sw_effect : st_effect s ∈ ["allow"; "deny"]; sw_action : ∃ x, action_profile (st_action s) = Some x;
  sw_not_before : instant_text (st_not_before s); sw_not_after : instant_text (st_not_after s);
}.
Record access_policy_wf (p : AccessPolicy) : Prop := {
  aw_created : instant_text (ap_created_at p);
  aw_statements : Forall (fun r => Forall statement_wf (ar_statements r)) (ap_roles p);
}.

Lemma access_instant s : search_pattern _TIMESTAMP s && _date_time s = true → instant_text s.
Proof.
  unfold _date_time, instant_text. intros Hs. breflect. destruct (read_time s); [by eexists|discriminate].
Qed.

Lemma profiled_action a : a ∈ map fst ACTION_PROFILE → ∃ x, action_profile a = Some x.
Proof.
  intros Ha.
  assert (Forall (fun a => is_some (action_profile a) = true) (map fst ACTION_PROFILE)) as Hall
    by (repeat (apply List.Forall_cons; [vm_compute; reflexivity|]); apply List.Forall_nil).
  rewrite Forall_forall in Hall. specialize (Hall a Ha). destruct (action_profile a); [by eexists|discriminate].
Qed.

Lemma as_exact_ok kinds o :
  conforms (exact_schema kinds) (JObj o) = true → ∃ b, as_binding o = Some b ∧ True.
Proof.
  intros Ho. unfold as_binding. ask Ho enum_at_ok "kind" as k _. ask Ho str_at_ok "id" as i _.
  ask Ho str_at_ok "digest" as d _. by eexists.
Qed.

Lemma as_statement_ok o :
  conforms statement_schema (JObj o) = true → ∃ s, as_statement o = Some s ∧ statement_wf s.
Proof.
  intros Ho. unfold as_statement.
  ask Ho str_at_ok "id" as i _. ask Ho enum_at_ok "effect" as e He. ask Ho enum_at_ok "action" as a Ha.
  ask Ho enum_at_ok "actionClass" as c _. ask Ho obj_at_ok "resource" as r Hr.
  destruct (as_exact_ok _ _ Hr) as (b & -> & _). cbn [mbind option_bind].
  ask Ho obj_at_ok "constraints" as cs Hcs. ask Hcs str_at_ok "projectId" as p _.
  ask Hcs str_at_ok "environmentId" as v _. ask Hcs strs_at_ok "dataClasses" as d _.
  ask Hcs str_at_ok "notBefore" as nb Hnb. ask Hcs str_at_ok "notAfter" as na Hna.
  destruct (opt_obj_at_ok _ _ _ Ho as_binding (fun _ => True) "approvalProfile" ["kind"; "id"; "digest"]
              [("kind", SEnum ["ApprovalProfile"]); ("id", access_id); ("digest", access_sha256)])
    as (ap & -> & _); [by right|intros ?; apply as_exact_ok|]. cbn [mbind option_bind].
  eexists. split; [done|].
  constructor; [exact He|exact (profiled_action _ Ha)|by apply access_instant..].
Qed.

Lemma as_access_role_ok o :
  conforms access_role_schema (JObj o) = true →
  ∃ r, as_access_role o = Some r ∧ Forall statement_wf (ar_statements r).
Proof.
  intros Ho. unfold as_access_role. ask Ho str_at_ok "id" as i _.
  destruct (objs_at_ok _ _ _ Ho "statements" 1 _ _ ltac:(member) (or_intror (ex_intro _ 256%nat eq_refl)))
    as (l & El & Hl). rewrite El. cbn [mbind option_bind].
  destruct (mapM_ok as_statement _ statement_wf l as_statement_ok Hl) as (ss & -> & Hss).
  by eexists.
Qed.

Lemma as_actor_ok o : conforms actor_schema (JObj o) = true → ∃ b, as_actor o = Some b ∧ True.
Proof.
  intros Ho. unfold as_actor. ask Ho str_at_ok "id" as i _. ask Ho obj_at_ok "principal" as p Hp.
  destruct (as_exact_ok _ _ Hp) as (? & -> & _). cbn [mbind option_bind].
  ask Ho obj_at_ok "membership" as m Hm. destruct (as_exact_ok _ _ Hm) as (? & -> & _).
  cbn [mbind option_bind]. ask Ho str_at_ok "roleId" as r _. by eexists.
Qed.

Lemma as_access_policy_ok o :
  conforms access_policy_schema (JObj o) = true →
  ∃ p, as_access_policy o = Some p ∧ access_policy_wf p.
Proof.
  intros Ho. unfold as_access_policy. ask Ho obj_at_ok "metadata" as m Hm.
  ask Hm str_at_ok "createdAt" as c Hc. ask Hm str_at_ok "recordDigest" as d _.
  ask Ho obj_at_ok "spec" as sp Hsp.
  destruct (objs_at_ok _ _ _ Hsp "roles" 1 _ _ ltac:(member) (or_intror (ex_intro _ 256%nat eq_refl)))
    as (rs & Ers & Hrs). rewrite Ers. cbn [mbind option_bind].
  destruct (mapM_ok as_access_role _ _ rs as_access_role_ok Hrs) as (roles & -> & Hroles).
  cbn [mbind option_bind].
  destruct (objs_at_ok _ _ _ Hsp "bindings" 1 _ _ ltac:(member) (or_intror (ex_intro _ 4096%nat eq_refl)))
    as (bs & Ebs & Hbs). rewrite Ebs. cbn [mbind option_bind].
  destruct (mapM_ok as_actor _ _ bs as_actor_ok Hbs) as (bindings & -> & _). cbn [mbind option_bind].
  eexists. split; [done|]. constructor; [by apply access_instant|done].
Qed.
End Reading.

(** ** Validated policies *)

Section Validated.
Context `{FromIso} `{Crypto} `{Jsonschema}.

(** What the contract asks of a statement. *)
Record statement_sound (s : Statement) : Prop := {
  ss_wf : statement_wf s;
  ss_profile : action_profile (st_action s) = Some (st_class s, bd_kind (st_resource s));
  ss_approval : st_effect s = "allow" → st_class s = "A2" ↔ is_Some (st_approval s);
  ss_low_impact : st_effect s = "allow" → st_class s ∉ ["A3"; "A4"] ∧ "D4" ∉ st_data_classes s;
}.
Record policy_sound (p : AccessPolicy) : Prop := {
  ps_role_ids : NoDup (map ar_id (ap_roles p));
  ps_bound : ∀ b, b ∈ ap_bindings p → ab_role b ∈ map ar_id (ap_roles p);
  ps_statements : ∀ r s, r ∈ ap_roles p → s ∈ ar_statements r → statement_sound s;
}.

Lemma statement_ok_sound created s :
  statement_wf s → statement_ok created s = Ok true → statement_sound s.
Proof.
  intros Hw Hs. pose proof Hw as [He (prof & Hp) (nb & Hb) (na & Ha)]. unfold statement_ok in Hs.
  rewrite Hp in Hs. destruct prof as [ec ek]. cbn [some_or] in Hs. unfold access_time in Hs.
  rewrite Hb, Ha in Hs. cbn [some_or] in Hs. injection Hs as Hs.
  apply andb_true_iff in Hs as [Hs H6]. apply andb_true_iff in Hs as [Hs H5].
  apply andb_true_iff in Hs as [Hs H4]. breflect.
  constructor; [done|by subst| |].
  - intros Hal. rewrite bool_decide_true in H4, H5 by done. cbn [andb orb negb] in H4, H5.
    destruct (decide (st_class s = "A2")) as [Hc|Hc];
      [rewrite bool_decide_true in H4, H5 by done|rewrite bool_decide_false in H4, H5 by done];
      destruct (st_approval s) as [ap|]; try discriminate; split; naive_solver.
  - intros Hal. rewrite bool_decide_true in H6 by done. cbn [andb] in H6. by breflect.
Qed.

Lemma bindings_ok_bound roles seen l b :
  bindings_ok roles seen l = true → b ∈ l → ab_role b ∈ roles.
Proof.
  revert seen. induction l as [|x l IH]; intros seen Hl Hb; [by apply elem_of_nil in Hb|].
  cbn [bindings_ok] in Hl. apply andb_true_iff in Hl as [Hl Hr]. breflect.
  apply elem_of_cons in Hb as [->|Hb]; [done|]. by eapply IH.
Qed.

Lemma access_policy_sound p :
  access_policy_wf p → access_policy_ok p = Ok true → policy_sound p.
Proof.
  intros [(c & Hc) Hss] Hp. unfold access_policy_ok in Hp. unfold access_time in Hp. rewrite Hc in Hp.
  cbn [some_or] in Hp. destruct (all_checks _ _) as [b|] eqn:Eb; [|discriminate]. injection Hp as Hp.
  unfold TeamContracts.sorted_unique in Hp. breflect. subst b. constructor; [done| |].
  - intros b Hb. by eapply bindings_ok_bound.
  - intros r s Hr Hs. pose proof (all_checks_elem _ _ r Eb Hr) as Er. unfold role_ok in Er.
    destruct (all_checks (statement_ok c) _) as [b|] eqn:Es; [|discriminate]. injection Er as Er. breflect.
    subst b. rewrite Forall_forall in Hss. specialize (Hss r Hr). rewrite Forall_forall in Hss.
    eapply statement_ok_sound; [by apply Hss|]. by eapply all_checks_elem.
Qed.

Lemma validate_access_inv doc p :
  validate_team_access_policy doc = Ok p → policy_sound p.
Proof.
  intros Hv. unfold validate_team_access_policy in Hv. guard Hv as E1. breflect.
  rewrite is_valid_conforms in E1. destruct (as_access_policy_ok _ E1) as (p' & Ep & Hw).
  rewrite Ep in Hv. cbn [some_or] in Hv. destruct (access_policy_ok p') as [ok|] eqn:Eo; [|discriminate].
  guard Hv as E2. injection Hv as <-. breflect. apply access_policy_sound; [done|]. by subst ok.
Qed.

(** ** Which statements match *)

Definition matched_of (role_id : string) (s : Statement) : matched :=
  {| ma_effect := st_effect s; ma_digest := statement_digest role_id s; ma_approval := st_approval s |}.

(** The statement [s] is about the request, in its time window. *)
Record covers (rq : AccessRequest) (t : Z) (s : Statement) : Prop := {
  co_action : st_action s = aq_action rq; co_class : st_class s = aq_class rq;
  co_resource : st_resource s = aq_resource rq; co_project : st_project s = aq_project rq;
  co_environment : st_environment s = aq_environment rq;
  co_data_class : aq_data_class rq ∈ st_data_classes s;
  co_window : ∃ nb na, read_time (st_not_before s) = Some nb ∧ read_time (st_not_after s) = Some na ∧
                nb ≤ t < na;
}.

Lemma statement_matches_total rq t s :
  statement_wf s → ∃ b, statement_matches rq t s = Ok b ∧ (b = true ↔ covers rq t s).
Proof.
  intros [_ _ (nb & Hb) (na & Ha)]. unfold statement_matches, access_time. rewrite Hb, Ha.
  cbn [some_or]. destruct (_ && _) eqn:E1.
  - breflect. destruct (nb <=? t) eqn:E2.
    + eexists. split; [done|]. split; intros Hx.
      * breflect. constructor; try done. exists nb, na. by breflect.
      * destruct Hx as [_ _ _ _ _ _ (nb' & na' & F1 & F2 & F3)].
        rewrite F2 in Ha. injection Ha as ->. apply Z.ltb_lt. lia.
    + eexists. split; [done|]. split; [done|]. intros [_ _ _ _ _ _ (nb' & na' & F1 & F2 & F3)].
      rewrite F1 in Hb. injection Hb as ->. breflect. lia.
  - eexists. split; [done|]. split; [done|]. intros [F1 F2 F3 F4 F5 F6 _].
    rewrite F1, F2, F3, F4, F5, !bool_decide_true in E1 by done. discriminate.
Qed.

Lemma role_matches_total rq t i l :
  Forall statement_wf l →
  ∃ ms, role_matches rq t i l = Ok ms ∧
    ∀ m, m ∈ ms ↔ ∃ s, s ∈ l ∧ covers rq t s ∧ m = matched_of i s.
Proof.
  induction 1 as [|s l Hs _ (ms & Em & Hm)].
  - exists []. split; [done|]. intros m. split; [by intros ?%elem_of_nil|].
    intros (s & ?%elem_of_nil & _). done.
  - cbn [role_matches]. destruct (statement_matches_total rq t s Hs) as (b & -> & Hb). rewrite Em.
    eexists. split; [done|]. intros m. destruct b.
    + rewrite elem_of_cons, Hm. change {| ma_effect := _ |} with (matched_of i s). split.
      * intros [->|(s' & ? & ?)]; [exists s; split_and!; [left|tauto|done]|exists s'; split; [by right|done]].
      * intros (s' & [->|Hs']%elem_of_cons & ? & ?); [by left|]. right. by exists s'.
    + rewrite Hm. split; intros (s' & Hs' & Hc & ?).
      * exists s'. split; [by right|done].
      * apply elem_of_cons in Hs' as [->|Hs']; [|by exists s']. apply Hb in Hc. discriminate.
Qed.

Lemma access_role_found roles i :
  NoDup (map ar_id roles) → i ∈ map ar_id roles →
  ∃ r, access_role roles i = Some r ∧ ∀ r', r' ∈ roles ∧ ar_id r' = i ↔ r' = r.
Proof.
  intros Hnd (r & Hi & Hr)%list_elem_of_fmap. subst i. unfold access_role.
  destruct (List.find _ (rev roles)) as [r0|] eqn:E.
  - apply find_some in E as [H1' H2']. breflect. rewrite <-in_rev, <-list_elem_of_In in H1'.
    exists r0. split; [done|]. intros r'. split; [|by intros ->].
    intros [Hr' Hi]. rewrite <-H2' in Hi.
    by apply (NoDup_map_inj _ _ Hnd).
  - eapply find_none in E; [|apply -> in_rev; by apply list_elem_of_In]. by breflect.
Qed.

Definition assigned (p : AccessPolicy) (rq : AccessRequest) (i : string) : Prop :=
  ∃ b, b ∈ ap_bindings p ∧ ab_principal b = aq_principal rq ∧ ab_membership b = aq_membership rq ∧
    ab_role b = i.

(** The statement [s] of the role [r] of the policy decides the request. *)
Record applies (p : AccessPolicy) (rq : AccessRequest) (t : Z) (r : AccessRole) (s : Statement)
  : Prop := {
  pl_role : r ∈ ap_roles p; pl_assigned : assigned p rq (ar_id r); pl_statement : s ∈ ar_statements r;
  pl_covers : covers rq t s;
}.

Lemma assigned_roles_elem p rq i : i ∈ assigned_roles p rq ↔ assigned p rq i.
Proof.
  unfold assigned_roles, assigned. rewrite sorted_strs_elem, remove_dups_elem.
  change (map ab_role ?l) with (ab_role <$> l). rewrite list_elem_of_fmap.
  split.
  - intros (b & -> & Hb). exists b. apply list_elem_of_In, filter_In in Hb as [Hb Hm].
    apply list_elem_of_In in Hb. by breflect.
  - intros (b & Hb & Hp & Hm & <-). exists b. split; [done|]. apply list_elem_of_In, filter_In.
    split; [by apply list_elem_of_In|]. by rewrite Hp, Hm, !bool_decide_true.
Qed.

Lemma all_matches_total roles rq t ids :
  NoDup (map ar_id roles) → (∀ i, i ∈ ids → i ∈ map ar_id roles) →
  (∀ r, r ∈ roles → Forall statement_wf (ar_statements r)) →
  ∃ ms, all_matches roles rq t ids = Ok ms ∧
    ∀ m, m ∈ ms ↔ ∃ r s, r ∈ roles ∧ ar_id r ∈ ids ∧ s ∈ ar_statements r ∧ covers rq t s ∧
                    m = matched_of (ar_id r) s.
Proof.
  intros Hnd Hids Hw. induction ids as [|i ids IH].
  - exists []. split; [done|]. intros m. split; [by intros ?%elem_of_nil|].
    intros (r & s & _ & ?%elem_of_nil & _). done.
  - destruct IH as (ms & Em & Hm); [by intros; apply Hids; right|]. cbn [all_matches].
    destruct (access_role_found roles i Hnd) as (r & -> & Hr); [by apply Hids; left|]. cbn [some_or].
    destruct (proj2 (Hr r) eq_refl) as [Hin Hi].
    destruct (role_matches_total rq t i _ (Hw r Hin)) as (rs & -> & Hrs). rewrite Em.
    eexists. split; [done|]. intros m. rewrite elem_of_app, Hrs, Hm. split.
    + intros [(s & ? & ? & ->)|(r' & s & ? & ? & ?)].
      * exists r, s. rewrite Hi. split_and!; try done. left.
      * exists r', s. split_and!; try tauto. by right.
    + intros (r' & s & Hr' & [E|Hx]%elem_of_cons & Hs & Hc & ->).
      * assert (r' = r) as -> by (by apply Hr). left. exists s. by rewrite Hi.
      * right. by exists r', s.
Qed.

Lemma policy_matches p rq t :
  policy_sound p →
  ∃ ms, all_matches (ap_roles p) rq t (assigned_roles p rq) = Ok ms ∧
    ∀ m, m ∈ ms ↔ ∃ r s, applies p rq t r s ∧ m = matched_of (ar_id r) s.
Proof.
  intros [Hnd Hb Hs]. destruct (all_matches_total (ap_roles p) rq t (assigned_roles p rq))
    as (ms & Em & Hm); [done|..].
  - intros i (b & Hin & _ & _ & <-)%assigned_roles_elem. by apply Hb.
  - intros r Hr. apply Forall_forall. intros s Hin. by apply (Hs r s).
  - exists ms. split; [done|]. intros m. rewrite Hm. split.
    + intros (r & s & ? & ?%assigned_roles_elem & ? & ? & ->). by exists r, s.
    + intros (r & s & [] & ->). exists r, s. by rewrite assigned_roles_elem.
Qed.
End Validated.
