(* ===== verification/ModelRequest.v ===== *)
(** * The ModelRequest record, src/eco_runtime/contracts.py and its schema

    [validate_record] of the runtime contracts on the one kind of record the team
    coordinator accepts as the subject of a model call.  A record of another
    kind is refused here; the coordinator refuses it too, with the same error,
    when the validator lets it pass. *)

From S2P Require Import Prelude Json PyTime Schema RouteRecords.

(** [FORMAT_CHECKER]: [RFC3339_RE] and [fromisoformat]. *)
Definition is_rfc3339 (s : string) : bool := is_some (parse_rfc3339 s).

Definition runtime_id : schema := SStr (search_pattern is_identifier).
Definition sha256_schema : schema := SStr (search_pattern is_digest).
Definition model_request_schema : schema :=
  SObj ["apiVersion"; "kind"; "metadata"; "spec"]
    [("apiVersion", SEnum ["runtime.ai.ecosystem/v1alpha1"]); ("kind", SEnum ["ModelRequest"]);
     ("metadata",
       SObj ["id"; "runId"; "createdAt"]
         [("id", runtime_id); ("runId", runtime_id); ("createdAt", SStr is_rfc3339)]);
     ("spec",
       SObj ["planDigest"; "deploymentId"; "deploymentIdentityDigest"; "endpointBindingDigest";
             "input"; "parameters"; "timeoutMs"; "fallbackPolicy"]
         [("planDigest", sha256_schema); ("deploymentId", runtime_id);
          ("deploymentIdentityDigest", sha256_schema); ("endpointBindingDigest", sha256_schema);
          ("input",
            SObj ["artifactRecordDigest"; "contentDigest"; "byteLength"; "dataClass"; "trust"]
              [("artifactRecordDigest", sha256_schema); ("contentDigest", sha256_schema);
               ("byteLength", SRange 0 1073741824); ("dataClass", SEnum ["D0"; "D1"; "D2"; "D3"]);
               ("trust", SEnum ["P0"; "P1"; "P2"; "P3"; "P4"])]);
          ("parameters",
            SObj ["maxOutputTokens"; "maxOutputBytes"; "temperatureMillis"]
              [("maxOutputTokens", SRange 1 1000000); ("maxOutputBytes", SRange 1 1073741824);
               ("temperatureMillis", SRange 0 2000)]);
          ("timeoutMs", SRange 1 3600000); ("fallbackPolicy", SEnum ["none"])])].

Record ModelRequest : Type := {
  mq_run : string; mq_deployment_id : string; mq_identity_digest : string;
  mq_artifact : string; mq_data_class : string; mq_max_output_tokens : Z;
}.
Definition as_model_request (doc : json) : option ModelRequest :=
  match doc with
  | JObj o =>
      m ← obj_at "metadata" o; sp ← obj_at "spec" o;
      r ← str_at "runId" m; d ← str_at "deploymentId" sp; i ← str_at "deploymentIdentityDigest" sp;
      inp ← obj_at "input" sp; a ← str_at "artifactRecordDigest" inp;
      c ← str_at "dataClass" inp; ps ← obj_at "parameters" sp; t ← int_at "maxOutputTokens" ps;
      Some {| mq_run := r; mq_deployment_id := d; mq_identity_digest := i; mq_artifact := a;
              mq_data_class := c; mq_max_output_tokens := t |}
  | _ => None
  end.

Definition validate_model_request `{Jsonschema} (document : json) : result json :=
  raise ContractValidationError when (negb (is_valid model_request_schema document)) else
  Ok document.
