(* ===== verification/TeamGraph.v ===== *)
(** * The task graph, [_assert_acyclic] of src/eco_teams/runtime.py

    A task depends on tasks and may have a parent; both must be tasks of the
    same run and no task may reach itself.  [assert_acyclic] is the depth-first
    search of the source with its two sets; [stack] is the number of nested calls
    the interpreter allows.  The specification is an order in which every task
    comes after the tasks it refers to, as for a topological sort. *)

From S2P Require Import Prelude.

Definition cycle_error : py_error := TeamRuntimeError "ECO_TEAM_TASK_CYCLE".
Definition reference_error : py_error := TeamRuntimeError "ECO_TEAM_TASK_REFERENCE_INVALID".

Section Search.
(** The identifiers of the tasks, and the edges of each. *)
Context (ids : list string) (edges : string → list string).

(** [visit]: [visiting] is the path to the task, [visited] the finished tasks. *)
Fixpoint visit (stack : nat) (visiting visited : list string) (i : string) : result (list string) :=
  match stack with
  | O => Err RecursionError
  | S n =>
      if i in? visiting then Err cycle_error
      else if i in? visited then Ok visited
      else
        let! visited' :=
          (fix go (es : list string) (visited : list string) : result (list string) :=
             match es with
             | [] => Ok visited
             | e :: es' =>
                 if e in? ids then let! v := visit n (i :: visiting) visited e in go es' v
                 else Err reference_error
             end) (edges i) visited in
        Ok (i :: visited')
  end.

Fixpoint visit_all (stack : nat) (visited : list string) (todo : list string) : result (list string) :=
  match todo with
  | [] => Ok visited
  | i :: todo' => let! v := visit stack [] visited i in visit_all stack v todo'
  end.

Definition assert_acyclic (stack : nat) : result unit :=
  let! _ := visit_all stack [] (sorted_strs ids) in Ok tt.

(** The loop over the edges of a task, under a name. *)
Fixpoint visit_edges (stack : nat) (visiting : list string) (es : list string) (visited : list string)
  : result (list string) :=
  match es with
  | [] => Ok visited
  | e :: es' =>
      if e in? ids then
        let! v := visit stack visiting visited e in visit_edges stack visiting es' v
      else Err reference_error
  end.
Lemma visit_S n visiting visited i :
  visit (S n) visiting visited i =
  if i in? visiting then Err cycle_error
  else if i in? visited then Ok visited
  else let! v := visit_edges n (i :: visiting) (edges i) visited in Ok (i :: v).
Proof.
  cbn [visit]. destruct (i in? visiting); [done|]. destruct (i in? visited); [done|].
  generalize visited. generalize (edges i). intros es. induction es as [|e es IH]; intros v; [done|].
  cbn [visit_edges]. destruct (e in? ids); [|done].
  destruct (visit n (i :: visiting) v e); [apply IH|done].
Qed.

(** ** The specification *)

(** Every task's edges are listed after it: the order, latest first, in which the
    tasks can be done. *)
Inductive topological : list string → Prop :=
| topological_nil : topological []
| topological_cons i l :
    i ∉ l → (∀ e, e ∈ edges i → e ∈ l) → topological l → topological (i :: l).

(** A path along the edges. *)
Inductive path : string → string → Prop :=
| path_edge i e : e ∈ edges i → path i e
| path_step i e j : e ∈ edges i → path e j → path i j.

Lemma path_trans i j k : path i j → path j k → path i k.
Proof. induction 1; eauto using path. Qed.

Lemma topological_closed l i j : topological l → i ∈ l → path i j → j ∈ l.
Proof.
  intros Ht Hi Hp. revert l Ht Hi. induction Hp as [i e He|i e j He _ IH]; intros l Ht Hi.
  - induction Ht as [|x l Hn Hx Ht IHt]; [by apply elem_of_nil in Hi|].
    apply elem_of_cons in Hi as [->|Hi]; right; auto.
  - apply IH; [done|]. clear IH. induction Ht as [|x l Hn Hx Ht IHt]; [by apply elem_of_nil in Hi|].
    apply elem_of_cons in Hi as [->|Hi]; right; auto.
Qed.

(** In such an order no task reaches itself. *)
Lemma topological_acyclic l i : topological l → i ∈ l → ¬ path i i.
Proof.
  induction 1 as [|x l Hn Hx Ht IH]; intros Hi Hp; [by apply elem_of_nil in Hi|].
  apply elem_of_cons in Hi as [->|Hi]; [|by apply IH].
  apply Hn. inversion Hp; subst; [by apply Hx|]. eapply topological_closed; eauto.
Qed.

(** ** The search meets it *)

(** A result of the search that began with [visited] on the path [visiting]. *)
Definition search_spec (visiting visited : list string) (r : result (list string)) : Prop :=
  match r with
  | Ok v => topological v ∧ (∀ x, x ∈ visited → x ∈ v) ∧ (∀ x, x ∈ v → x ∈ ids)
  | Err e =>
      e = RecursionError
      ∨ (e = reference_error ∧ ∃ i d, i ∈ ids ∧ d ∈ edges i ∧ d ∉ ids)
      ∨ (e = cycle_error ∧ ∃ i, i ∈ ids ∧ path i i)
  end.

(** The tasks being visited lead to one another. *)
Fixpoint chain (visiting : list string) : Prop :=
  match visiting with
  | [] => True
  | i :: rest =>
      i ∈ ids ∧ match rest with j :: _ => i ∈ edges j | [] => True end ∧ chain rest
  end.

Lemma chain_path visiting i j :
  chain (i :: visiting) → j ∈ visiting → path j i.
Proof.
  revert i. induction visiting as [|k rest IH]; intros i Hc Hj; [by apply elem_of_nil in Hj|].
  destruct Hc as (_ & Hk & Hc). apply elem_of_cons in Hj as [->|Hj]; [by constructor|].
  eapply path_trans; [by apply IH|by constructor].
Qed.

Lemma visit_spec n : ∀ visiting visited i,
  chain (i :: visiting) → topological visited → (∀ x, x ∈ visited → x ∈ ids) →
  (∀ x, x ∈ visiting → x ∉ visited) →
  search_spec visiting visited (visit n visiting visited i) ∧
  (∀ v, visit n visiting visited i = Ok v → i ∈ v ∧ ∀ x, x ∈ visiting → x ∉ v).
Proof.
  induction n as [|n IH]; intros visiting visited i Hc Ht Hk Hdis.
  { split; [by left|done]. }
  rewrite visit_S. case_bool_decide as Hi.
  { split; [|done]. right. right. split; [done|]. exists i. destruct Hc as (Hids & Hc). split; [done|].
    by eapply chain_path; [split|]. }
  case_bool_decide as Hv; [split; [done|]; by intros v [= <-]|].
  assert (∀ es visited, (∀ e, e ∈ es → e ∈ edges i) → topological visited →
    (∀ x, x ∈ visited → x ∈ ids) → (∀ x, x ∈ i :: visiting → x ∉ visited) →
    search_spec (i :: visiting) visited (visit_edges n (i :: visiting) es visited) ∧
    (∀ v, visit_edges n (i :: visiting) es visited = Ok v →
       (∀ e, e ∈ es → e ∈ v) ∧ ∀ x, x ∈ i :: visiting → x ∉ v)) as Hes.
  { clear visited Ht Hk Hdis Hv. induction es as [|e es IHes]; intros visited Hsub Ht Hk Hdis.
    { split; [done|]. intros v [= <-]. split; [|done]. by intros e ?%elem_of_nil. }
    cbn [visit_edges]. case_bool_decide as He.
    2:{ split; [|done]. right. left. split; [done|]. exists i, e. split; [by destruct Hc|].
        split; [apply Hsub; left|done]. }
    destruct (IH (i :: visiting) visited e) as [Hs Ho]; [|done..|].
    { split; [done|]. split; [apply Hsub; left|done]. }
    destruct (visit n (i :: visiting) visited e) as [v|err] eqn:E; [|done].
    destruct (Ho v eq_refl) as [Hev Hd]. destruct Hs as (Ht' & Hsup & Hk').
    destruct (IHes v) as [Hs2 Ho2]; [|done..|].
    { intros x Hx. apply Hsub. by right. }
    destruct (visit_edges n (i :: visiting) es v) as [v2|err] eqn:E2; [|done].
    destruct Hs2 as (Ht2 & Hsup2 & Hk2). split; [by split_and!; auto|].
    intros w [= <-]. destruct (Ho2 v2 eq_refl) as [He2 Hd2]. split; [|done].
    intros x [->|Hx]%elem_of_cons; auto. }
  destruct (Hes (edges i) visited) as [Hs Ho]; [done..| |].
  { intros x [->|Hx]%elem_of_cons; auto. }
  destruct (visit_edges n (i :: visiting) (edges i) visited) as [v|err] eqn:E; [|done].
  destruct Hs as (Ht' & Hsup & Hk'). destruct (Ho v eq_refl) as [He Hd]. split.
  - split_and!.
    + constructor; [apply Hd; left|done..].
    + intros x Hx. right. auto.
    + intros x [->|Hx]%elem_of_cons; [by destruct Hc|auto].
  - intros w [= <-]. split; [left|]. intros x Hx [->|Hxv]%elem_of_cons; [done|].
    eapply Hd; [right; exact Hx|done].
Qed.

Lemma visit_all_spec n todo visited :
  (∀ x, x ∈ todo → x ∈ ids) → topological visited → (∀ x, x ∈ visited → x ∈ ids) →
  search_spec [] visited (visit_all n visited todo) ∧
  (∀ v, visit_all n visited todo = Ok v → ∀ x, x ∈ todo → x ∈ v).
Proof.
  revert visited. induction todo as [|i todo IH]; intros visited Htodo Ht Hk; cbn [visit_all].
  { split; [done|]. by intros v _ x ?%elem_of_nil. }
  destruct (visit_spec n [] visited i) as [Hs Ho]; [|done..|by intros x ?%elem_of_nil|].
  { split; [|done]. apply Htodo. left. }
  destruct (visit n [] visited i) as [v|e] eqn:E; [|done].
  destruct Hs as (Ht' & Hsup & Hk'). destruct (Ho v eq_refl) as [Hi _].
  destruct (IH v) as [Hs2 Ho2]; [|done..|].
  { intros x Hx. apply Htodo. by right. }
  destruct (visit_all n v todo) as [w|e] eqn:E2; [|done]. destruct Hs2 as (Ht2 & Hsup2 & Hk2).
  split; [by split_and!; auto|]. intros u [= <-] x [->|Hx]%elem_of_cons; [auto|].
  by apply (Ho2 w eq_refl).
Qed.

(** ** Enough stack *)

Lemma visit_no_recursion_error n : ∀ visiting visited i,
  NoDup visiting → (∀ x, x ∈ visiting → x ∈ ids) → i ∈ ids →
  (length ids < n + length visiting)%nat → visit n visiting visited i ≠ Err RecursionError.
Proof.
  induction n as [|n IH]; intros visiting visited i Hnd Hk Hi Hn.
  { exfalso. simpl in Hn. assert (length visiting ≤ length ids)%nat; [|lia].
    by apply submseteq_length, NoDup_submseteq. }
  rewrite visit_S. case_bool_decide as H1; [done|]. case_bool_decide as H2; [done|].
  assert (∀ es v, visit_edges n (i :: visiting) es v ≠ Err RecursionError) as Hes.
  { induction es as [|e es IHes]; intros v; cbn [visit_edges]; [done|].
    case_bool_decide as He; [|done].
    assert (visit n (i :: visiting) v e ≠ Err RecursionError) as Hv.
    { apply IH; [by constructor| |done|simpl; lia]. intros x [->|Hx]%elem_of_cons; auto. }
    destruct (visit n (i :: visiting) v e); [apply IHes|congruence]. }
  specialize (Hes (edges i) visited).
  destruct (visit_edges n (i :: visiting) (edges i) visited); [done|congruence].
Qed.

Lemma visit_all_no_recursion_error n todo visited :
  (∀ x, x ∈ todo → x ∈ ids) → (length ids < n)%nat →
  visit_all n visited todo ≠ Err RecursionError.
Proof.
  intros Htodo Hn. revert visited. induction todo as [|i todo IH]; intros visited; cbn [visit_all]; [done|].
  assert (visit n [] visited i ≠ Err RecursionError) as Hv.
  { apply visit_no_recursion_error; [constructor|by intros x ?%elem_of_nil|apply Htodo; left|simpl; lia]. }
  destruct (visit n [] visited i); [|congruence]. apply IH. intros x Hx. apply Htodo. by right.
Qed.

(** ** Completeness: a graph with an order passes *)

Lemma topological_search l n :
  topological l → (∀ x, x ∈ l ↔ x ∈ ids) → (length ids < n)%nat → assert_acyclic n = Ok tt.
Proof.
  intros Ht Hl Hn. unfold assert_acyclic.
  destruct (visit_all_spec n (sorted_strs ids) []) as [Hs _];
    [intros x; unfold sorted_strs; by rewrite elem_of_py_sorted|constructor|by intros x ?%elem_of_nil|].
  pose proof (visit_all_no_recursion_error n (sorted_strs ids) []) as Hr.
  destruct (visit_all n [] (sorted_strs ids)) as [v|e]; [done|]. exfalso.
  destruct Hs as [->|[(-> & i & d & Hi & Hd & Hdn)|(-> & i & Hi & Hp)]].
  - apply Hr; [intros x; unfold sorted_strs; by rewrite elem_of_py_sorted|done|done].
  - apply Hdn, Hl. eapply topological_closed; [done|by apply Hl|by constructor].
  - eapply topological_acyclic; [done| |exact Hp]. by apply Hl.
Qed.

Lemma assert_acyclic_sound n :
  assert_acyclic n = Ok tt → ∃ l, topological l ∧ ∀ x, x ∈ l ↔ x ∈ ids.
Proof.
  unfold assert_acyclic. intros H.
  destruct (visit_all_spec n (sorted_strs ids) []) as [Hs Ho];
    [intros x; unfold sorted_strs; by rewrite elem_of_py_sorted|constructor|by intros x ?%elem_of_nil|].
  destruct (visit_all n [] (sorted_strs ids)) as [v|e]; [|done].
  destruct Hs as (Ht & _ & Hk). exists v. split; [done|]. intros x. split; [apply Hk|].
  intros Hx. apply (Ho v eq_refl). unfold sorted_strs. by rewrite elem_of_py_sorted.
Qed.
End Search.
