(* ===== verification/TeamStore.v ===== *)
(** * The coordinator's database, src/eco_teams/runtime.py

    [TeamCoordinator] keeps its runs in a SQLite file.  A table is the list of its
    rows in the order they were inserted; columns hold values of their declared
    types.  Every change of the state is authenticated: [_write_state_auth_locked]
    appends the digest of the whole state to a chain of events and signs the head,
    [_verify_state_locked] recomputes it before any use.  A [transaction] that
    raises leaves the file as it was.  The path and permission checks of
    [_prepare_private_path] and [_check_private_file] are not modelled. *)

From S2P Require Import Prelude Json Digest PyTime PyClock PyFloat RouteRecords RouteConsumption TeamContracts.

Notation team_error code := (TeamRuntimeError code) (only parsing).

Definition _APPLICATION_ID : Z := 0x45434F36.
Definition _SCHEMA_VERSION : Z := 1.

(** ** Times *)

(** [_utc] *)
Definition _utc (value : datetime) : result Z :=
  match astimezone_utc value with
  | None => Err (team_error "ECO_TEAM_CLOCK_INVALID")
  | Some t => t
  end.
(** [_time_text]: seconds only. *)
Definition _time_text (t : Z) : string := timestamp (t - t mod 1000000).
Definition _parse_time `{FromIso} (value : string) : result Z :=
  let! t := some_or (team_error "ECO_TEAM_TIME_INVALID") (read_time value) in utc_of t.

(** ** Tables *)

Inductive task_status : Type :=
| Pending | Leased | Started | Succeeded | Failed | Cancelled | Ambiguous.
#[export] Instance task_status_eq_dec : EqDecision task_status.
Proof. solve_decision. Defined.
Definition status_text (s : task_status) : string :=
  match s with
  | Pending => "pending" | Leased => "leased" | Started => "started" | Succeeded => "succeeded"
  | Failed => "failed" | Cancelled => "cancelled" | Ambiguous => "ambiguous"
  end.
Definition _TERMINAL : list task_status := [Succeeded; Failed; Cancelled; Ambiguous].

Record manifest_row : Type := {
  mr_id : string; mr_project : string; mr_team : string; mr_digest : string; mr_document : string;
}.
Record run_row : Type := {
  rn_id : string; rn_manifest : string; rn_team : string; rn_project : string;
  rn_status : string; rn_cancellation : bool; rn_max_tokens : Z; rn_max_cost : Z;
  rn_result : option string;
}.
Record task_row : Type := {
  tw_run : string; tw_id : string; tw_digest : string; tw_document : string;
  tw_status : task_status; tw_attempt : Z; tw_worker : option string;
  tw_lease_hash : option string; tw_lease_expires : option Z;
  tw_reserved_tokens : Z; tw_reserved_cost : Z; tw_charged_tokens : Z; tw_charged_cost : Z;
  tw_outcome : option string; tw_cancellation : bool;
}.
Record handoff_row : Type := {
  hw_run : string; hw_id : string; hw_from : string; hw_to : string; hw_artifact : string;
  hw_digest : string; hw_document : string;
}.
Record route_row : Type := { rw_route : string; rw_task : string; rw_consumed_at : Z }.
Record store_meta : Type := {
  sm_store_id : string; sm_schema_version : Z; sm_key_id : string; sm_created_at : string;
  sm_last_observed : Z;
}.
Record state_auth : Type := { au_revision : Z; au_digest : string; au_mac : string }.
Record state_event : Type := {
  ev_revision : Z; ev_digest : string; ev_previous : string; ev_event : string; ev_mac : string;
}.

Record team_db : Type := {
  db_application_id : Z; db_user_version : Z;
  db_manifests : list manifest_row; db_runs : list run_row; db_tasks : list task_row;
  db_handoffs : list handoff_row; db_routes : list route_row;
  db_meta : option store_meta; db_auth : option state_auth; db_events : list state_event;
}.
(** What [CREATE TABLE] leaves in a new file. *)
Definition empty_db : team_db :=
  {| db_application_id := 0; db_user_version := 0; db_manifests := []; db_runs := [];
     db_tasks := []; db_handoffs := []; db_routes := []; db_meta := None; db_auth := None;
     db_events := [] |}.

(** One table replaced. *)
Definition with_manifests (db : team_db) (l : list manifest_row) : team_db :=
  {| db_application_id := db_application_id db; db_user_version := db_user_version db;
     db_manifests := l; db_runs := db_runs db; db_tasks := db_tasks db;
     db_handoffs := db_handoffs db; db_routes := db_routes db; db_meta := db_meta db;
     db_auth := db_auth db; db_events := db_events db |}.
Definition with_runs (db : team_db) (l : list run_row) : team_db :=
  {| db_application_id := db_application_id db; db_user_version := db_user_version db;
     db_manifests := db_manifests db; db_runs := l; db_tasks := db_tasks db;
     db_handoffs := db_handoffs db; db_routes := db_routes db; db_meta := db_meta db;
     db_auth := db_auth db; db_events := db_events db |}.
Definition with_tasks (db : team_db) (l : list task_row) : team_db :=
  {| db_application_id := db_application_id db; db_user_version := db_user_version db;
     db_manifests := db_manifests db; db_runs := db_runs db; db_tasks := l;
     db_handoffs := db_handoffs db; db_routes := db_routes db; db_meta := db_meta db;
     db_auth := db_auth db; db_events := db_events db |}.
Definition with_handoffs (db : team_db) (l : list handoff_row) : team_db :=
  {| db_application_id := db_application_id db; db_user_version := db_user_version db;
     db_manifests := db_manifests db; db_runs := db_runs db; db_tasks := db_tasks db;
     db_handoffs := l; db_routes := db_routes db; db_meta := db_meta db;
     db_auth := db_auth db; db_events := db_events db |}.
Definition with_routes (db : team_db) (l : list route_row) : team_db :=
  {| db_application_id := db_application_id db; db_user_version := db_user_version db;
     db_manifests := db_manifests db; db_runs := db_runs db; db_tasks := db_tasks db;
     db_handoffs := db_handoffs db; db_routes := l; db_meta := db_meta db;
     db_auth := db_auth db; db_events := db_events db |}.
Definition with_auth (db : team_db) (m : option store_meta) (a : option state_auth)
    (e : list state_event) : team_db :=
  {| db_application_id := db_application_id db; db_user_version := db_user_version db;
     db_manifests := db_manifests db; db_runs := db_runs db; db_tasks := db_tasks db;
     db_handoffs := db_handoffs db; db_routes := db_routes db; db_meta := m; db_auth := a;
     db_events := e |}.

(** [SELECT ... WHERE] on a primary key. *)
Definition find_run (run_id : string) (db : team_db) : option run_row :=
  List.find (fun r => rn_id r == run_id) (db_runs db).
Definition is_task (run_id task_id : string) (w : task_row) : bool :=
  (tw_run w == run_id) && (tw_id w == task_id).
Definition find_task (run_id task_id : string) (db : team_db) : option task_row :=
  List.find (is_task run_id task_id) (db_tasks db).
Definition tasks_of (run_id : string) (db : team_db) : list task_row :=
  List.filter (fun w => tw_run w == run_id) (db_tasks db).
Definition find_handoff (run_id from to : string) (db : team_db) : option handoff_row :=
  List.find (fun h => (hw_run h == run_id) && (hw_from h == from) && (hw_to h == to))
    (db_handoffs db).

(** [UPDATE tasks SET ... WHERE]. *)
Definition update_tasks (p : task_row → bool) (f : task_row → task_row) (db : team_db) : team_db :=
  with_tasks db (map (fun w => if p w then f w else w) (db_tasks db)).
Definition update_runs (p : run_row → bool) (f : run_row → run_row) (db : team_db) : team_db :=
  with_runs db (map (fun r => if p r then f r else r) (db_runs db)).

(** ** The coordinator object *)

(** [co_seal] is the identity of the object [self._seal]. *)
Record coordinator : Type := {
  co_key : string; co_key_id : string; co_last_observed : Z; co_seal : Z;
  co_route_decisions : list string; co_route_policies : list string;
  co_price_catalogs : list string;
}.
Definition observe (c : coordinator) (t : Z) : coordinator :=
  {| co_key := co_key c; co_key_id := co_key_id c; co_last_observed := t; co_seal := co_seal c;
     co_route_decisions := co_route_decisions c; co_route_policies := co_route_policies c;
     co_price_catalogs := co_price_catalogs c |}.

(** [_observed_time(asserted)]; [clock] is what [self._clock()] answers. *)
Definition observed_at (c : coordinator) (assertion : Z) (clock : datetime) : coordinator * result Z :=
  match _utc clock with
  | Err e => (c, Err e)
  | Ok trusted =>
      if trusted <? co_last_observed c then (c, Err (team_error "ECO_TEAM_CLOCK_ROLLBACK"))
      else if trusted <? assertion then (c, Err (team_error "ECO_TEAM_CLOCK_ASSERTION_AHEAD"))
      else (observe c trusted, Ok trusted)
  end.
Definition _observed_time (c : coordinator) (asserted clock : datetime) : coordinator * result Z :=
  match _utc asserted with
  | Err e => (c, Err e)
  | Ok assertion => observed_at c assertion clock
  end.

(** ** Authentication of the state *)

Definition json_of_optint (z : option Z) : json :=
  match z with Some z => JInt z | None => JNull end.
Definition json_of_flag (b : bool) : json := JInt (if b then 1 else 0).

Section Auth.
Context `{Crypto}.

Definition _blob_digest (value : option string) : json :=
  match value with Some s => JStr (sha256_hex s) | None => JNull end.

Definition manifest_json (m : manifest_row) : json :=
  JObj [("manifestId", JStr (mr_id m)); ("projectId", JStr (mr_project m));
        ("teamId", JStr (mr_team m)); ("digest", JStr (mr_digest m));
        ("documentSha256", _blob_digest (Some (mr_document m)))].
Definition run_json (r : run_row) : json :=
  JObj [("runId", JStr (rn_id r)); ("manifestId", JStr (rn_manifest r));
        ("teamId", JStr (rn_team r)); ("projectId", JStr (rn_project r));
        ("status", JStr (rn_status r)); ("cancellationRequested", json_of_flag (rn_cancellation r));
        ("maxTokens", JInt (rn_max_tokens r)); ("maxCost", JInt (rn_max_cost r));
        ("resultDocumentSha256", _blob_digest (rn_result r))].
Definition task_json (w : task_row) : json :=
  JObj [("runId", JStr (tw_run w)); ("taskId", JStr (tw_id w)); ("digest", JStr (tw_digest w));
        ("documentSha256", _blob_digest (Some (tw_document w)));
        ("status", JStr (status_text (tw_status w))); ("attempt", JInt (tw_attempt w));
        ("workerDigest", json_of_optstr (tw_worker w));
        ("leaseHash", json_of_optstr (tw_lease_hash w));
        ("leaseExpiresUs", json_of_optint (tw_lease_expires w));
        ("reservedTokens", JInt (tw_reserved_tokens w)); ("reservedCost", JInt (tw_reserved_cost w));
        ("chargedTokens", JInt (tw_charged_tokens w)); ("chargedCost", JInt (tw_charged_cost w));
        ("outcomeDigest", json_of_optstr (tw_outcome w));
        ("cancellationRequested", json_of_flag (tw_cancellation w))].
Definition handoff_json (h : handoff_row) : json :=
  JObj [("runId", JStr (hw_run h)); ("handoffId", JStr (hw_id h)); ("fromTaskId", JStr (hw_from h));
        ("toTaskId", JStr (hw_to h)); ("artifactDigest", JStr (hw_artifact h));
        ("digest", JStr (hw_digest h)); ("documentSha256", _blob_digest (Some (hw_document h)))].
Definition route_json (r : route_row) : json :=
  JObj [("routeDigest", JStr (rw_route r)); ("taskDigest", JStr (rw_task r));
        ("consumedAtUs", JInt (rw_consumed_at r))].

(** [ORDER BY] one or two text columns. *)
Definition order_by {A} (key : A → string) (l : list A) : list A :=
  py_sorted (fun a b => String.leb (key a) (key b)) l.
Definition order_by2 {A} (key : A → string * string) (l : list A) : list A :=
  py_sorted (fun a b => pair_leb (key a) (key b)) l.

Definition _state_payload_locked (db : team_db) : result json :=
  match db_meta db with
  | None => Err (team_error "ECO_TEAM_STORE_CORRUPT")
  | Some m =>
      Ok (JObj [("domain", JStr "eco-team-coordinator-state-v1");
                ("meta",
                  JObj [("storeId", JStr (sm_store_id m)); ("schemaVersion", JInt (sm_schema_version m));
                        ("keyId", JStr (sm_key_id m)); ("createdAt", JStr (sm_created_at m));
                        ("lastObservedUs", JInt (sm_last_observed m))]);
                ("manifests", JArr (map manifest_json (order_by mr_id (db_manifests db))));
                ("runs", JArr (map run_json (order_by rn_id (db_runs db))));
                ("tasks", JArr (map task_json
                                  (order_by2 (fun w => (tw_run w, tw_id w)) (db_tasks db))));
                ("handoffs", JArr (map handoff_json
                                     (order_by2 (fun h => (hw_run h, hw_id h)) (db_handoffs db))));
                ("consumedRoutes", JArr (map route_json (order_by rw_route (db_routes db))))])
  end.

Definition _auth_mac (c : coordinator) (revision : Z) (state_digest : string) : string :=
  hmac_sha256_hex (co_key c)
    (canonical_json
       (JObj [("domain", JStr "eco-team-coordinator-auth-v1"); ("keyId", JStr (co_key_id c));
              ("revision", JInt revision); ("stateDigest", JStr state_digest)])).
Definition _event_mac (c : coordinator) (event_digest : string) : string :=
  hmac_sha256_hex (co_key c)
    (canonical_json
       (JObj [("domain", JStr "eco-team-coordinator-event-auth-v1"); ("keyId", JStr (co_key_id c));
              ("eventDigest", JStr event_digest)])).
Definition event_digest (revision : Z) (state_digest previous : string) : string :=
  semantic_digest
    (JObj [("domain", JStr "eco-team-coordinator-state-event-v1"); ("revision", JInt revision);
           ("stateDigest", JStr state_digest); ("previousEventDigest", JStr previous)]).

Definition auth_failed : py_error := team_error "ECO_TEAM_STORE_AUTH_FAILED".

(** The loop of [_verify_event_chain_locked]; the state digest of the last event. *)
Fixpoint verify_events (c : coordinator) (expected : Z) (previous : string)
    (last : option string) (rows : list state_event) : result (option string) :=
  match rows with
  | [] => Ok last
  | row :: rows' =>
      let digest := event_digest expected (ev_digest row) previous in
      raise auth_failed when
        ((ev_revision row != expected) || (ev_previous row != previous)
         || (ev_event row != digest)) else
      let! same := compare_digest (ev_mac row) (_event_mac c digest) in
      raise auth_failed when (negb same) else
      verify_events c (expected + 1) digest (Some (ev_digest row)) rows'
  end.
Definition by_revision (rows : list state_event) : list state_event :=
  py_sorted (fun a b => ev_revision a <=? ev_revision b) rows.
Definition _verify_event_chain_locked (c : coordinator) (db : team_db) (head_revision : Z)
    (head_state_digest : string) : result unit :=
  let rows := by_revision (db_events db) in
  raise auth_failed when (Z.of_nat (length rows) != head_revision + 1) else
  let! last := verify_events c 0 GENESIS_DIGEST None rows in
  raise auth_failed when (last != Some head_state_digest) else Ok tt.

Definition _verify_state_locked (c : coordinator) (db : team_db) : result unit :=
  match db_auth db, db_meta db with
  | Some a, Some m =>
      raise auth_failed when
        ((sm_key_id m != co_key_id c) || (sm_schema_version m != _SCHEMA_VERSION)) else
      raise (team_error "ECO_TEAM_CLOCK_ROLLBACK") when
        (epoch (co_last_observed c) <? sm_last_observed m) else
      let! payload := _state_payload_locked db in
      let digest := semantic_digest payload in
      raise auth_failed when (digest != au_digest a) else
      let! same := compare_digest (_auth_mac c (au_revision a) digest) (au_mac a) in
      raise auth_failed when (negb same) else
      _verify_event_chain_locked c db (au_revision a) digest
  | _, _ => Err auth_failed
  end.

(** [UPDATE store_meta SET last_observed_us=? WHERE ... last_observed_us<=?] *)
Definition touch_meta (now : Z) (m : store_meta) : store_meta :=
  if sm_last_observed m <=? now then
    {| sm_store_id := sm_store_id m; sm_schema_version := sm_schema_version m;
       sm_key_id := sm_key_id m; sm_created_at := sm_created_at m; sm_last_observed := now |}
  else m.

(** The event the next revision appends. *)
Definition next_event (c : coordinator) (revision : Z) (digest previous : string) : state_event :=
  let event := event_digest revision digest previous in
  {| ev_revision := revision; ev_digest := digest; ev_previous := previous; ev_event := event;
     ev_mac := _event_mac c event |}.

Definition _write_state_auth_locked (initial : bool) (c : coordinator) (db : team_db)
  : result team_db :=
  let meta := touch_meta (epoch (co_last_observed c)) <$> db_meta db in
  let! revision :=
    match initial, db_auth db with
    | true, None => Ok 0
    | false, Some a => Ok (au_revision a + 1)
    | _, _ => Err auth_failed
    end in
  let! payload := _state_payload_locked (with_auth db meta (db_auth db) (db_events db)) in
  let digest := semantic_digest payload in
  let previous :=
    match last (by_revision (db_events db)) with Some e => ev_event e | None => GENESIS_DIGEST end in
  let event := next_event c revision digest previous in
  raise IntegrityError when
    (existsb (fun e => (ev_revision e == revision) || (ev_event e == ev_event event)) (db_events db)) else
  Ok (with_auth db meta
        (Some {| au_revision := revision; au_digest := digest; au_mac := _auth_mac c revision digest |})
        (db_events db ++ [event])).

(** [BEGIN IMMEDIATE], the verification, the body, [_write_state_auth_locked],
    [COMMIT]; an exception rolls back. *)
Definition atomic {A} (db : team_db) (r : result (team_db * A)) : team_db * result A :=
  match r with Ok (db', a) => (db', Ok a) | Err e => (db, Err e) end.
Definition transaction {A} (c : coordinator) (db : team_db) (body : team_db → result (team_db * A))
  : team_db * result A :=
  atomic db
    (let! _ := _verify_state_locked c db in
     let! ' (db', a) := body db in
     let! db'' := _write_state_auth_locked false c db' in
     Ok (db'', a)).

(** The object, the database and the result of a call. *)
Definition answer {A} (c : coordinator) (x : team_db * result A) : coordinator * team_db * result A :=
  (c, x.1, x.2).

(** ** [TeamCoordinator(path, ...)] *)

Record CoordinatorArgs : Type := {
  ca_key : string; ca_key_id : string; ca_clock : datetime; ca_store_id : string; ca_seal : Z;
  ca_route_decisions : list string; ca_route_policies : list string;
  ca_price_catalogs : list string;
}.
Definition new_coordinator (a : CoordinatorArgs) (initial_clock : Z) : coordinator :=
  {| co_key := ca_key a; co_key_id := ca_key_id a; co_last_observed := initial_clock;
     co_seal := ca_seal a; co_route_decisions := ca_route_decisions a;
     co_route_policies := ca_route_policies a; co_price_catalogs := ca_price_catalogs a |}.

(** A new file: the profile, the metadata row and the first authenticated state. *)
Definition create_store (c : coordinator) (a : CoordinatorArgs) (initial_clock : Z)
  : team_db * result coordinator :=
  let profiled :=
    {| db_application_id := _APPLICATION_ID; db_user_version := _SCHEMA_VERSION; db_manifests := [];
       db_runs := []; db_tasks := []; db_handoffs := []; db_routes := []; db_meta := None;
       db_auth := None; db_events := [] |} in
  let meta :=
    {| sm_store_id := ca_store_id a; sm_schema_version := _SCHEMA_VERSION; sm_key_id := ca_key_id a;
       sm_created_at := _time_text initial_clock; sm_last_observed := epoch initial_clock |} in
  atomic profiled
    (let! db := _write_state_auth_locked true c (with_auth profiled (Some meta) None []) in Ok (db, c)).

(** An existing file: [db]. *)
Definition reopen_store (c : coordinator) (initial_clock : Z) (db : team_db) : result coordinator :=
  raise (team_error "ECO_TEAM_STORE_UNAUTHENTICATED") when (negb (is_some (db_auth db))) else
  raise (team_error "ECO_TEAM_STORE_PROFILE_MISMATCH") when
    ((db_application_id db != _APPLICATION_ID) || (db_user_version db != _SCHEMA_VERSION)) else
  let! _ := _verify_state_locked c db in
  match db_meta db with
  | None => Err TypeError
  | Some m =>
      let persisted := from_epoch (sm_last_observed m) in
      raise (team_error "ECO_TEAM_CLOCK_ROLLBACK") when (initial_clock <? persisted) else
      Ok (observe c (Z.max initial_clock persisted))
  end.

(** The constructor; [file] is the database when the path exists. *)
Definition open_coordinator (a : CoordinatorArgs) (file : option team_db)
  : option team_db * result coordinator :=
  if (String.length (ca_key a) <? 32)%nat then (file, Err ValueError)
  else if (ca_key_id a == EmptyString) || (128 <? py_len (ca_key_id a))%nat then (file, Err ValueError)
  else
    match _utc (ca_clock a) with
    | Err e => (file, Err e)
    | Ok initial_clock =>
        let c := new_coordinator a initial_clock in
        match file with
        | None => let x := create_store c a initial_clock in (Some x.1, x.2)
        | Some db => (Some db, reopen_store c initial_clock db)
        end
    end.
End Auth.
