(* ===== verification/TeamRuntime.v ===== *)
(** * The team coordinator, src/eco_teams/runtime.py

    [TeamCoordinator] schedules the tasks of a run: a worker claims a task under a
    lease, obtains an authorization for its effect, starts the effect at most once
    and settles it.  A method takes the object and the database and returns them
    with its result; [now] is the caller's time and [clock] what the trusted clock
    answers during the call.  This file has the creation of runs and the claims,
    [TeamEffects] the rest of the methods.  The two gates, [AuthorityGuard] and
    [ExecutionAuthorizer], are protocols of the source: records of functions, given
    to each call as they stand at that moment. *)

From S2P Require Import Prelude Json Digest PyTime PyClock PyFloat Schema RouteRecords TeamContracts TeamGraph TeamStore.
From Stdlib Require Import Ascii.

(** The values of a mapping an authorization is asked with; [None] when the
    evidence is not a mapping. *)
Definition evidence : Type := option (list (string * json)).

(** [assert_manifest_current], [assert_claim_current] *)
Record AuthorityGuard : Type := {
  guard_manifest : json → Z → result unit;
  guard_claim : json → json → list (string * json) → Z → result json;
}.
(** [authorize], [assert_current] *)
Record ExecutionAuthorizer : Type := {
  gate_authorize : json → json → list (string * json) → evidence → Z
                   → result (list (string * json));
  gate_assert_current : json → json → list (string * json) → evidence → list (string * json) → Z
                        → result unit;
}.

Record LeaseClaim : Type := {
  lc_run : string; lc_task : string; lc_task_digest : string; lc_worker : string;
  lc_token : string; lc_expires_at : Z; lc_attempt : Z;
}.
#[export] Instance lease_claim_eq_dec : EqDecision LeaseClaim.
Proof. solve_decision. Defined.
Record ExecutionAuthorization : Type := {
  ea_run : string; ea_task : string; ea_task_digest : string; ea_claim_digest : string;
  ea_authorization : list (string * json); ea_evidence : evidence; ea_expires_at : Z; ea_seal : Z;
}.

(** A [TaskEffectResult] that exists passed [__post_init__]. *)
Definition effect_ok (status : task_status) (outcome_digest : string) (tokens cost : Z) : bool :=
  (status in? [Succeeded; Failed]) && is_digest outcome_digest && (0 <=? tokens) && (0 <=? cost).
Record TaskEffectResult : Type := {
  te_status : task_status; te_outcome_digest : string; te_used_tokens : Z; te_used_cost : Z;
  te_valid : effect_ok te_status te_outcome_digest te_used_tokens te_used_cost = true;
}.

(** ** Checks on the tasks of a new run *)

Definition data_order (c : string) : Z :=
  if c == "D0" then 0 else if c == "D1" then 1 else if c == "D2" then 2 else 3.

(** [task_state]'s answer. *)
Record task_view : Type := {
  tv_run : string; tv_id : string; tv_digest : string; tv_status : task_status; tv_attempt : Z;
  tv_reserved_tokens : Z; tv_reserved_cost : Z; tv_charged_tokens : Z; tv_charged_cost : Z;
  tv_outcome : option string; tv_cancellation : bool;
}.
Definition task_view_of (w : task_row) : task_view :=
  {| tv_run := tw_run w; tv_id := tw_id w; tv_digest := tw_digest w; tv_status := tw_status w;
     tv_attempt := tw_attempt w; tv_reserved_tokens := tw_reserved_tokens w;
     tv_reserved_cost := tw_reserved_cost w; tv_charged_tokens := tw_charged_tokens w;
     tv_charged_cost := tw_charged_cost w; tv_outcome := tw_outcome w;
     tv_cancellation := tw_cancellation w |}.
Record run_view : Type := {
  rv_run : string; rv_team : string; rv_project : string; rv_status : string;
  rv_cancellation : bool; rv_tasks : list task_view;
}.

Section Coordinator.
Context `{FromIso} `{Crypto} `{Jsonschema} `{DateTimeFormat}.

Definition _binding_digest (value : list (string * json)) : string :=
  semantic_digest (JObj [("profile", JStr "eco-team-worker-binding-v1"); ("binding", JObj value)]).

Definition _action_class (action : string) : result string :=
  match action_profile action with
  | Some (cls, _) => Ok cls
  | None => Err (team_error "ECO_TEAM_ACTION_UNSUPPORTED")
  end.

Definition _assert_task_role (t : Task) (r : TeamRole) : result unit :=
  let expansion := team_error "ECO_TEAM_TASK_AUTHORITY_EXPANSION" in
  raise expansion when
    (negb (tk_action t in? ro_actions r) || negb (tk_data_class t in? ro_data_classes r)
     || match tk_tool t with Some tool => negb (tool in? ro_tool_ids r) | None => false end
     || negb (tk_zone t in? ro_zones r)) else
  let! task_end := _parse_time (tk_not_after t) in
  let! role_end := _parse_time (ro_not_after r) in
  raise expansion when
    ((role_end <? task_end)
     || (bu_tokens (ro_budget r) <? bu_tokens (tk_budget t))
     || (bu_cost (ro_budget r) <? bu_cost (tk_budget t))
     || (bu_seconds (ro_budget r) <? bu_seconds (tk_budget t))) else Ok tt.

(** [roles] is [_role_map(manifest)]. *)
Definition _assert_child_narrow (parent child : Task) (roles : string → option TeamRole) : result unit :=
  let! parent_role := some_or KeyError (roles (tk_role parent)) in
  raise (team_error "ECO_TEAM_DELEGATION_DENIED") when
    (negb (tk_role child in? ro_delegates_to parent_role)) else
  let expansion := team_error "ECO_TEAM_CHILD_AUTHORITY_EXPANSION" in
  raise expansion when
    ((tk_action child != tk_action parent)
     || (data_order (tk_data_class parent) <? data_order (tk_data_class child))
     || match tk_tool parent with
        | None => is_some (tk_tool child)
        | Some tool => negb (tk_tool child in? [None; Some tool])
        end
     || (tk_zone child != tk_zone parent) || (tk_environment child != tk_environment parent)
     || (tk_resource child != tk_resource parent)) else
  let! child_end := _parse_time (tk_not_after child) in
  let! parent_end := _parse_time (tk_not_after parent) in
  raise expansion when
    ((parent_end <? child_end)
     || (bu_tokens (tk_budget parent) <? bu_tokens (tk_budget child))
     || (bu_cost (tk_budget parent) <? bu_cost (tk_budget child))
     || (bu_seconds (tk_budget parent) <? bu_seconds (tk_budget child))) else Ok tt.

(** The dictionary [checked]: identifiers, records and their fields. *)
Definition checked_tasks : Type := list (string * (json * Task)).
Definition find_checked (checked : checked_tasks) (i : string) : option (json * Task) :=
  snd <$> List.find (fun x => x.1 == i) checked.
(** The dependencies of a task, then its parent. *)
Definition task_edges (t : Task) : list string :=
  tk_dependencies t ++ match tk_parent t with Some p => [p] | None => [] end.
Definition edges_of (checked : checked_tasks) (i : string) : list string :=
  match find_checked checked i with Some (_, t) => task_edges t | None => [] end.
Definition _assert_acyclic (stack : nat) (checked : checked_tasks) : result unit :=
  assert_acyclic (map fst checked) (edges_of checked) stack.

(** The loop of [create_run] over the tasks. *)
Fixpoint check_tasks (m : Manifest) (run_id : string) (observed : Z) (checked : checked_tasks)
    (tasks : list (list (string * json))) : result checked_tasks :=
  match tasks with
  | [] => Ok checked
  | raw :: tasks' =>
      let mismatch := team_error "ECO_TEAM_TASK_BINDING_MISMATCH" in
      let! doc := validate_record (JObj raw) in
      raise mismatch when (kind_of doc != "TeamTask") else
      let! t := some_or KeyError (as_task doc) in
      let meta := tk_meta t in
      raise mismatch when
        ((tm_run meta != run_id) || (tm_team meta != mf_team m) || (tm_project meta != mf_project m)
         || (tm_id meta in? map fst checked)) else
      let! created := _parse_time (tm_created_at meta) in
      raise mismatch when (observed <? created) else
      let! not_after := _parse_time (tk_not_after t) in
      let! deadline := _parse_time (mf_deadline m) in
      raise mismatch when (deadline <? not_after) else
      match role_by_id (mf_roles m) (tk_role t) with
      | None => Err (team_error "ECO_TEAM_ROLE_UNKNOWN")
      | Some role =>
          let! _ := _assert_task_role t role in
          check_tasks m run_id observed (checked ++ [(tm_id meta, (doc, t))]) tasks'
      end
  end.

(** The loop of [create_run] over the parents. *)
Fixpoint check_children (m : Manifest) (checked : checked_tasks) (tasks : list (json * Task))
  : result unit :=
  match tasks with
  | [] => Ok tt
  | (_, t) :: tasks' =>
      let! _ :=
        match tk_parent t with
        | None => Ok tt
        | Some p =>
            let! parent := some_or KeyError (find_checked checked p) in
            _assert_child_narrow parent.2 t (role_by_id (mf_roles m))
        end in
      check_children m checked tasks'
  end.

(** Everything [create_run] checks before its transaction. *)
Definition create_checks (g : AuthorityGuard) (stack : nat) (manifest : list (string * json))
    (run_id : string) (tasks : list (list (string * json))) (observed : Z)
  : result (json * Manifest * checked_tasks) :=
  let! candidate := validate_record (JObj manifest) in
  raise (team_error "ECO_TEAM_MANIFEST_INVALID") when (kind_of candidate != "AgentTeamManifest") else
  let! m := some_or KeyError (as_manifest candidate) in
  let! _ := guard_manifest g candidate observed in
  raise (team_error "ECO_TEAM_RUN_INVALID") when
    ((run_id == EmptyString) || (length tasks <? 1)%nat) else
  raise (team_error "ECO_TEAM_TASK_LIMIT") when (mf_max_tasks m <? Z.of_nat (length tasks)) else
  let! created := _parse_time (mf_created_at m) in
  raise (team_error "ECO_TEAM_RUN_EXPIRED") when (observed <? created) else
  let! deadline := _parse_time (mf_deadline m) in
  raise (team_error "ECO_TEAM_RUN_EXPIRED") when (deadline <=? observed) else
  let! checked := check_tasks m run_id observed [] tasks in
  let! _ := _assert_acyclic stack checked in
  let! _ := check_children m checked (map snd checked) in
  Ok (candidate, m, checked).

Definition new_task_row (run_id : string) (x : string * (json * Task)) : task_row :=
  {| tw_run := run_id; tw_id := x.1; tw_digest := tm_digest (tk_meta x.2.2);
     tw_document := canonical_json x.2.1; tw_status := Pending; tw_attempt := 0; tw_worker := None;
     tw_lease_hash := None; tw_lease_expires := None; tw_reserved_tokens := 0; tw_reserved_cost := 0;
     tw_charged_tokens := 0; tw_charged_cost := 0; tw_outcome := None; tw_cancellation := false |}.

(** [INSERT INTO tasks] of the tasks in the order of their identifiers. *)
Fixpoint insert_tasks (rows : list task_row) (db : team_db) : result team_db :=
  match rows with
  | [] => Ok db
  | w :: rows' =>
      raise IntegrityError when
        (existsb (fun w' => is_task (tw_run w) (tw_id w) w' || (tw_digest w' == tw_digest w))
           (db_tasks db)) else
      insert_tasks rows' (with_tasks db (db_tasks db ++ [w]))
  end.

Definition create_locked (candidate : json) (m : Manifest) (run_id : string) (checked : checked_tasks)
    (db : team_db) : result (team_db * unit) :=
  let row := {| mr_id := mf_id m; mr_project := mf_project m; mr_team := mf_team m;
                mr_digest := mf_digest m; mr_document := canonical_json candidate |} in
  (* INSERT OR IGNORE *)
  let db1 :=
    if existsb (fun r => (mr_id r == mf_id m) || (mr_digest r == mf_digest m)) (db_manifests db)
    then db else with_manifests db (db_manifests db ++ [row]) in
  match List.find (fun r => mr_id r == mf_id m) (db_manifests db1) with
  | None => Err (team_error "ECO_TEAM_MANIFEST_CONFLICT")
  | Some existing =>
      raise (team_error "ECO_TEAM_MANIFEST_CONFLICT") when (mr_digest existing != mf_digest m) else
      raise IntegrityError when (is_some (find_run run_id db1)) else
      let run := {| rn_id := run_id; rn_manifest := mf_id m; rn_team := mf_team m;
                    rn_project := mf_project m; rn_status := "active"; rn_cancellation := false;
                    rn_max_tokens := mf_max_tokens m; rn_max_cost := mf_max_cost m;
                    rn_result := None |} in
      let! db2 :=
        insert_tasks (map (new_task_row run_id) (sorted_items checked))
          (with_runs db1 (db_runs db1 ++ [run])) in
      Ok (db2, tt)
  end.

(** [except sqlite3.IntegrityError] *)
Definition integrity_as {A} (e : py_error) (r : result A) : result A :=
  match r with Err IntegrityError => Err e | _ => r end.

Definition run_digest (m : Manifest) (run_id : string) (checked : checked_tasks) : string :=
  semantic_digest
    (JObj [("domain", JStr "eco-team-run-v1"); ("manifest", JStr (mf_digest m)); ("runId", JStr run_id);
           ("tasks",
             JArr (map JStr (sorted_strs (map (fun x => tm_digest (tk_meta x.2.2)) checked))))]).

Record CreateArgs : Type := {
  cr_guard : AuthorityGuard; cr_stack : nat; cr_manifest : list (string * json); cr_run : string;
  cr_tasks : list (list (string * json)); cr_now : datetime; cr_clock : datetime;
}.
Definition create_run (c : coordinator) (db : team_db) (a : CreateArgs)
  : coordinator * team_db * result string :=
  match _observed_time c (cr_now a) (cr_clock a) with
  | (c', Err e) => (c', db, Err e)
  | (c', Ok observed) =>
      match create_checks (cr_guard a) (cr_stack a) (cr_manifest a) (cr_run a) (cr_tasks a) observed with
      | Err e => (c', db, Err e)
      | Ok (candidate, m, checked) =>
          let x := transaction c' db (create_locked candidate m (cr_run a) checked) in
          (c', x.1,
           integrity_as (team_error "ECO_TEAM_RUN_CONFLICT")
             (let! _ := x.2 in Ok (run_digest m (cr_run a) checked)))
      end
  end.

(** ** Reading what was stored *)

(** [_document(row)] *)
Definition _document (document : string) : result json :=
  match json_loads document with
  | None => Err (team_error "ECO_TEAM_STORE_CORRUPT")
  | Some value => validate_record value
  end.
(** The record of a stored task. *)
Definition stored_task (w : task_row) : result (json * Task) :=
  let! doc := _document (tw_document w) in
  let! t := some_or KeyError (as_task doc) in Ok (doc, t).

Definition _context_locked (run_id : string) (db : team_db) : result (run_row * json) :=
  match find_run run_id db with
  | None => Err (team_error "ECO_TEAM_RUN_UNKNOWN")
  | Some run =>
      match List.find (fun m => mr_id m == rn_manifest run) (db_manifests db) with
      | None => Err (team_error "ECO_TEAM_RUN_UNKNOWN")          (* the join has no row *)
      | Some m =>
          match _document (mr_document m) with
          | Err ContractValidationError | Err TypeError | Err ValueError =>
              Err (team_error "ECO_TEAM_STORE_CORRUPT")
          | Err e => Err e
          | Ok manifest => Ok (run, manifest)
          end
      end
  end.

(** ** Claims *)

Definition NUL : string := String "000"%char EmptyString.
Definition _claim_hash (token : string) : string :=
  sha256_hex ("eco-team-lease-v1" +:+ NUL +:+ token).
Definition _claim_digest (claim : LeaseClaim) : string :=
  semantic_digest
    (JObj [("domain", JStr "eco-team-lease-claim-v1"); ("runId", JStr (lc_run claim));
           ("taskId", JStr (lc_task claim)); ("taskDigest", JStr (lc_task_digest claim));
           ("workerDigest", JStr (lc_worker claim));
           ("leaseTokenHash", JStr (_claim_hash (lc_token claim)));
           ("leaseExpiresAt", JStr (_time_text (lc_expires_at claim)));
           ("attempt", JInt (lc_attempt claim))]).

Definition claim_invalid : py_error := team_error "ECO_TEAM_CLAIM_INVALID".
Definition _assert_claim_locked (allow_started : bool) (claim : LeaseClaim) (db : team_db)
  : result task_row :=
  match find_task (lc_run claim) (lc_task claim) db with
  | None => Err claim_invalid
  | Some w =>
      raise claim_invalid when
        ((tw_digest w != lc_task_digest claim) || (tw_worker w != Some (lc_worker claim))
         || (tw_lease_hash w != Some (_claim_hash (lc_token claim)))
         || (tw_lease_expires w != Some (epoch (lc_expires_at claim)))
         || (tw_attempt w != lc_attempt claim)
         || negb (tw_status w in? (if allow_started then [Leased; Started] else [Leased]))) else
      Ok w
  end.

Definition _dependencies_ready_locked (t : Task) (db : team_db) : bool :=
  forallb
    (fun dependency =>
       match find_task (tm_run (tk_meta t)) dependency db with
       | None => false
       | Some w =>
           (tw_status w == Succeeded)
           && match find_handoff (tm_run (tk_meta t)) dependency (tm_id (tk_meta t)) db with
              | None => false
              | Some h => hw_artifact h == bd_digest (tk_input t)
              end
       end) (tk_dependencies t).

Definition _usage_locked (run_id : string) (db : team_db) : Z * Z :=
  (sum_of (fun w => tw_reserved_tokens w + tw_charged_tokens w) (tasks_of run_id db),
   sum_of (fun w => tw_reserved_cost w + tw_charged_cost w) (tasks_of run_id db)).

(** [rowcount] of an [UPDATE tasks]. *)
Definition count_tasks (p : task_row → bool) (db : team_db) : nat :=
  length (List.filter p (db_tasks db)).

(** Rows as the [UPDATE]s leave them. *)
Definition settle_reserved (s : task_status) (w : task_row) : task_row :=
  {| tw_run := tw_run w; tw_id := tw_id w; tw_digest := tw_digest w; tw_document := tw_document w;
     tw_status := s; tw_attempt := tw_attempt w; tw_worker := tw_worker w;
     tw_lease_hash := tw_lease_hash w; tw_lease_expires := tw_lease_expires w;
     tw_reserved_tokens := 0; tw_reserved_cost := 0; tw_charged_tokens := tw_reserved_tokens w;
     tw_charged_cost := tw_reserved_cost w; tw_outcome := tw_outcome w;
     tw_cancellation := tw_cancellation w |}.
Definition release_lease (w : task_row) : task_row :=
  {| tw_run := tw_run w; tw_id := tw_id w; tw_digest := tw_digest w; tw_document := tw_document w;
     tw_status := Pending; tw_attempt := tw_attempt w; tw_worker := None; tw_lease_hash := None;
     tw_lease_expires := None; tw_reserved_tokens := 0; tw_reserved_cost := 0;
     tw_charged_tokens := tw_charged_tokens w; tw_charged_cost := tw_charged_cost w;
     tw_outcome := tw_outcome w; tw_cancellation := tw_cancellation w |}.
Definition lease_task (attempt : Z) (worker hash : string) (expires tokens cost : Z) (w : task_row)
  : task_row :=
  {| tw_run := tw_run w; tw_id := tw_id w; tw_digest := tw_digest w; tw_document := tw_document w;
     tw_status := Leased; tw_attempt := attempt; tw_worker := Some worker;
     tw_lease_hash := Some hash; tw_lease_expires := Some expires; tw_reserved_tokens := tokens;
     tw_reserved_cost := cost; tw_charged_tokens := tw_charged_tokens w;
     tw_charged_cost := tw_charged_cost w; tw_outcome := tw_outcome w;
     tw_cancellation := tw_cancellation w |}.
Definition mark_started (w : task_row) : task_row :=
  {| tw_run := tw_run w; tw_id := tw_id w; tw_digest := tw_digest w; tw_document := tw_document w;
     tw_status := Started; tw_attempt := tw_attempt w; tw_worker := tw_worker w;
     tw_lease_hash := tw_lease_hash w; tw_lease_expires := tw_lease_expires w;
     tw_reserved_tokens := tw_reserved_tokens w; tw_reserved_cost := tw_reserved_cost w;
     tw_charged_tokens := tw_charged_tokens w; tw_charged_cost := tw_charged_cost w;
     tw_outcome := tw_outcome w; tw_cancellation := tw_cancellation w |}.
Definition settle_effect (r : TaskEffectResult) (w : task_row) : task_row :=
  {| tw_run := tw_run w; tw_id := tw_id w; tw_digest := tw_digest w; tw_document := tw_document w;
     tw_status := te_status r; tw_attempt := tw_attempt w; tw_worker := tw_worker w;
     tw_lease_hash := tw_lease_hash w; tw_lease_expires := tw_lease_expires w;
     tw_reserved_tokens := 0; tw_reserved_cost := 0; tw_charged_tokens := te_used_tokens r;
     tw_charged_cost := te_used_cost r; tw_outcome := Some (te_outcome_digest r);
     tw_cancellation := tw_cancellation w |}.
Definition cancel_task (w : task_row) : task_row :=
  {| tw_run := tw_run w; tw_id := tw_id w; tw_digest := tw_digest w; tw_document := tw_document w;
     tw_status := Cancelled; tw_attempt := tw_attempt w; tw_worker := tw_worker w;
     tw_lease_hash := tw_lease_hash w; tw_lease_expires := tw_lease_expires w;
     tw_reserved_tokens := 0; tw_reserved_cost := 0; tw_charged_tokens := tw_charged_tokens w;
     tw_charged_cost := tw_charged_cost w; tw_outcome := tw_outcome w; tw_cancellation := true |}.
Definition request_cancellation (w : task_row) : task_row :=
  {| tw_run := tw_run w; tw_id := tw_id w; tw_digest := tw_digest w; tw_document := tw_document w;
     tw_status := tw_status w; tw_attempt := tw_attempt w; tw_worker := tw_worker w;
     tw_lease_hash := tw_lease_hash w; tw_lease_expires := tw_lease_expires w;
     tw_reserved_tokens := tw_reserved_tokens w; tw_reserved_cost := tw_reserved_cost w;
     tw_charged_tokens := tw_charged_tokens w; tw_charged_cost := tw_charged_cost w;
     tw_outcome := tw_outcome w; tw_cancellation := true |}.

(** [WHERE run_id=? AND status=? AND lease_expires_us<=?] *)
Definition expired (run_id : string) (s : task_status) (now_us : Z) (w : task_row) : bool :=
  (tw_run w == run_id) && (tw_status w == s)
  && match tw_lease_expires w with Some us => us <=? now_us | None => false end.
Definition _expire_locked (run_id : string) (now : Z) (db : team_db) : team_db * nat :=
  let now_us := epoch now in
  let started := List.filter (expired run_id Started now_us) (db_tasks db) in
  let db1 := update_tasks (fun w => (tw_run w == run_id) && (tw_id w in? map tw_id started)
                                    && (tw_status w == Started))
               (settle_reserved Ambiguous) db in
  (update_tasks (expired run_id Leased now_us) release_lease db1, length started).

Record ClaimArgs : Type := {
  cl_guard : AuthorityGuard; cl_worker : json; cl_now : datetime; cl_lease_seconds : Z;
  cl_token : string;                               (* secrets.token_urlsafe(32) *)
}.
(** [copy.deepcopy(dict(worker)) if isinstance(worker, Mapping) else {}] *)
Definition worker_copy (worker : json) : list (string * json) :=
  match worker with JObj o => o | _ => [] end.

(** The transaction of [claim_task]. *)
Definition claim_locked (g : AuthorityGuard) (run_id task_id : string) (worker : list (string * json))
    (observed lease_seconds : Z) (token : string) (db : team_db) : result (team_db * LeaseClaim) :=
  let! ' (run, manifest) := _context_locked run_id db in
  let db1 := (_expire_locked run_id observed db).1 in
  raise (team_error "ECO_TEAM_RUN_NOT_ACTIVE") when
    ((rn_status run != "active") || rn_cancellation run) else
  match find_task run_id task_id db1 with
  | None => Err (team_error "ECO_TEAM_TASK_UNKNOWN")
  | Some w =>
      raise (team_error "ECO_TEAM_TASK_NOT_CLAIMABLE") when (tw_status w != Pending) else
      let! ' (doc, t) := stored_task w in
      let! not_after := _parse_time (tk_not_after t) in
      raise (team_error "ECO_TEAM_TASK_EXPIRED") when (not_after <=? observed) else
      raise (team_error "ECO_TEAM_DEPENDENCIES_INCOMPLETE") when
        (negb (_dependencies_ready_locked t db1)) else
      let! _ := guard_claim g manifest doc worker observed in
      let usage := _usage_locked run_id db1 in
      let reserve_tokens := bu_tokens (tk_budget t) in
      let reserve_cost := bu_cost (tk_budget t) in
      raise (team_error "ECO_TEAM_AGGREGATE_BUDGET_EXCEEDED") when
        ((rn_max_tokens run <? usage.1 + reserve_tokens) || (rn_max_cost run <? usage.2 + reserve_cost)) else
      let! lease_end := plus_micros observed (lease_seconds * 1000000) in
      let! m := some_or KeyError (as_manifest manifest) in
      let! deadline := _parse_time (mf_deadline m) in
      let expires := Z.min (Z.min lease_end not_after) deadline in
      let attempt := tw_attempt w + 1 in
      let worker_digest := _binding_digest worker in
      let claimed w := is_task run_id task_id w && (tw_status w == Pending) in
      raise (team_error "ECO_TEAM_CLAIM_RACE") when (count_tasks claimed db1 != 1%nat) else
      let db2 := update_tasks claimed
                   (lease_task attempt worker_digest (_claim_hash token) (epoch expires)
                      reserve_tokens reserve_cost) db1 in
      Ok (db2, {| lc_run := run_id; lc_task := task_id; lc_task_digest := tm_digest (tk_meta t);
                  lc_worker := worker_digest; lc_token := token; lc_expires_at := expires;
                  lc_attempt := attempt |})
  end.

Definition claim_task (c : coordinator) (db : team_db) (run_id task_id : string) (a : ClaimArgs)
    (clock : datetime) : coordinator * team_db * result LeaseClaim :=
  match _observed_time c (cl_now a) clock with
  | (c', Err e) => (c', db, Err e)
  | (c', Ok observed) =>
      if negb ((1 <=? cl_lease_seconds a) && (cl_lease_seconds a <=? 3600))
      then (c', db, Err (team_error "ECO_TEAM_LEASE_INVALID"))
      else
        answer c'
          (transaction c' db
             (claim_locked (cl_guard a) run_id task_id (worker_copy (cl_worker a)) observed
                (cl_lease_seconds a) (cl_token a)))
  end.
End Coordinator.
