(* ===== verification/TeamEffects.v ===== *)
(** * Effects, handoffs and results, src/eco_teams/runtime.py

    The other methods of [TeamCoordinator]: the next claim, the authorization of an
    effect and its route, the start, the settlement and the cancellation of an
    effect, the expiry of leases, handoffs between tasks, and the result of a run. *)

From S2P Require Import Prelude Json Digest PyTime PyClock PyFloat Schema RouteRecords RouteConsumption ModelRequest TeamContracts TeamGraph TeamStore TeamRuntime.

Section Coordinator.
Context `{FromIso} `{Crypto} `{Jsonschema} `{DateTimeFormat}.

(** ** [claim_next] *)

(** The loop over the pending tasks; every attempt reads the clock. *)
Fixpoint claim_each (c : coordinator) (db : team_db) (run_id : string) (a : ClaimArgs)
    (clocks : nat → datetime) (n : nat) (last : option string) (ids : list string)
  : coordinator * team_db * result LeaseClaim :=
  match ids with
  | [] => (c, db, Err (team_error (default "ECO_TEAM_NO_CLAIMABLE_TASK" last)))
  | i :: ids' =>
      match claim_task c db run_id i a (clocks n) with
      | (c', db', Err (TeamRuntimeError code)) =>
          if code in? ["ECO_TEAM_WORKER_UNBOUND"; "ECO_TEAM_DEPENDENCIES_INCOMPLETE";
                       "ECO_TEAM_TASK_NOT_CLAIMABLE"]
          then claim_each c' db' run_id a clocks (S n) (Some code) ids'
          else (c', db', Err (team_error code))
      | r => r
      end
  end.
Definition claim_next (c : coordinator) (db : team_db) (run_id : string) (a : ClaimArgs)
    (clocks : nat → datetime) : coordinator * team_db * result LeaseClaim :=
  match _verify_state_locked c db with
  | Err e => (c, db, Err e)
  | Ok _ =>
      claim_each c db run_id a clocks 0 None
        (sorted_strs (map tw_id (List.filter (fun w => tw_status w == Pending) (tasks_of run_id db))))
  end.

(** ** Routes *)

Definition route_invalid : py_error := team_error "ECO_TEAM_ROUTE_INVALID".
(** [except (KeyError, TypeError, ContractValidationError)] *)
Definition route_guarded {A} (r : result A) : result A :=
  match r with
  | Err KeyError | Err TypeError | Err ContractValidationError => Err route_invalid
  | _ => r
  end.
Definition route_evidence (items : list (string * json)) : result (json * json * json) :=
  let! d := some_or KeyError (jassoc "routeDecision" items) in
  let! decision := validate_routing_record d in
  let! r := some_or KeyError (jassoc "routeRequest" items) in
  let! request := validate_routing_record r in
  let! s := some_or KeyError (jassoc "runtimeSubject" items) in
  let! subject := validate_model_request s in
  Ok (decision, request, subject).

(** The comparisons of [_validate_route_locked] around the two deadlines. *)
Definition route_matches_decision (c : coordinator) (route : binding) (d : RouteDecision)
    (rq : RouteRequest) : bool :=
  (route == {| bd_kind := "ModelRouteDecision"; bd_id := rm_id (dc_meta d);
               bd_digest := rm_digest (dc_meta d) |})
  && (dc_decision d == "allowed") && is_some (dc_selected d)
  && (rm_digest (dc_meta d) in? co_route_decisions c)
  && (dc_request_digest d == rm_digest (rq_meta rq))
  && (dc_policy_digest d == rq_policy_digest rq)
  && (dc_policy_digest d in? co_route_policies c)
  && (dc_price_digest d in? co_price_catalogs c).
Definition route_matches_task (t : Task) (action_class : string) (selected : Selected)
    (rq : RouteRequest) (sb : ModelRequest) : bool :=
  (rq_deadline_at rq == tk_not_after t)
  && (rq_action_class rq == action_class)
  && (rq_data_class rq == tk_data_class t)
  && (tk_zone t in? rq_allowed_zones rq)
  && (rq_maximum_cost rq =? bu_cost (tk_budget t))
  && (se_reserved_cost selected <=? rq_maximum_cost rq)
  && (se_deployment_id selected == bd_id (tk_resource t))
  && (se_identity_digest selected == bd_digest (tk_resource t))
  && (mq_run sb == tm_run (tk_meta t))
  && (mq_deployment_id sb == se_deployment_id selected)
  && (mq_identity_digest sb == se_identity_digest selected)
  && (mq_data_class sb == tk_data_class t)
  && (mq_artifact sb == bd_digest (tk_input t))
  && (mq_max_output_tokens sb <=? rq_output_ceiling rq).

Definition route_checks (c : coordinator) (t : Task) (route : binding) (decision request subject : json)
    (now : Z) (db : team_db) : result RouteDecision :=
  raise route_invalid when
    ((kind_of decision != "ModelRouteDecision") || (kind_of request != "ModelRouteRequest")
     || (kind_of subject != "ModelRequest")) else
  let! d := some_or KeyError (as_decision decision) in
  let! rq := some_or KeyError (as_request request) in
  let! sb := some_or KeyError (as_model_request subject) in
  let mismatch := team_error "ECO_TEAM_ROUTE_BINDING_MISMATCH" in
  raise mismatch when (negb (route_matches_decision c route d rq)) else
  let! valid_until := _parse_time (dc_valid_until d) in
  raise mismatch when (valid_until <=? now) else
  let! deadline := _parse_time (rq_deadline_at rq) in
  raise mismatch when (deadline <=? now) else
  let! action_class := _action_class (tk_action t) in
  raise mismatch when
    (negb match dc_selected d with
          | Some selected => route_matches_task t action_class selected rq sb
          | None => false
          end) else
  raise (team_error "ECO_TEAM_FALLBACK_PREDECESSOR_MISSING") when
    ((dc_attempt d =? 2)
     && negb match dc_fallback_from d with
             | Some previous => existsb (fun r => rw_route r == previous) (db_routes db)
             | None => false
             end) else
  Ok d.

Definition _validate_route_locked (c : coordinator) (t : Task) (ev : evidence) (now : Z) (db : team_db)
  : result (option RouteDecision) :=
  match tk_route t with
  | None =>
      raise (team_error "ECO_TEAM_ROUTE_REQUIRED") when (tk_action t == "model.invoke") else Ok None
  | Some route =>
      raise route_invalid when (tk_action t != "model.invoke") else
      match ev with
      | None => Err route_invalid
      | Some items =>
          let! ' (decision, request, subject) := route_guarded (route_evidence items) in
          let! d := route_checks c t route decision request subject now db in Ok (Some d)
      end
  end.

(** ** Authorizing and starting an effect *)

(** [authorization.get("effect") == "allow"], [.get("taskDigest") == digest] *)
Definition authorization_ok (claim : LeaseClaim) (authorization : list (string * json))
    (narrowing : json) : bool :=
  json_is_optstr (jget "effect" authorization) (Some "allow")
  && json_is_optstr (jget "taskDigest" authorization) (Some (lc_task_digest claim))
  && match narrowing with JStr _ => true | _ => false end.

Record EffectArgs : Type := {
  ef_guard : AuthorityGuard; ef_gate : ExecutionAuthorizer; ef_worker : json; ef_now : datetime;
}.

Definition authorize_locked (c : coordinator) (a : EffectArgs) (claim : LeaseClaim) (ev : evidence)
    (observed : Z) (db : team_db) : result (team_db * list (string * json)) :=
  let worker := worker_copy (ef_worker a) in
  let! w := _assert_claim_locked false claim db in
  let! ' (_, manifest) := _context_locked (lc_run claim) db in
  let! ' (doc, t) := stored_task w in
  let! _ := _validate_route_locked c t ev observed db in
  let! narrowing := guard_claim (ef_guard a) manifest doc worker observed in
  let! authorization := gate_authorize (ef_gate a) manifest doc worker ev observed in
  raise (team_error "ECO_TEAM_EXECUTION_AUTHORITY_INVALID") when
    (negb (authorization_ok claim authorization narrowing)) else
  Ok (db, authorization).

Definition authorize_effect (c : coordinator) (db : team_db) (claim : LeaseClaim) (a : EffectArgs)
    (ev : evidence) (clock : datetime) : coordinator * team_db * result ExecutionAuthorization :=
  match _observed_time c (ef_now a) clock with
  | (c', Err e) => (c', db, Err e)
  | (c', Ok observed) =>
      if (_binding_digest (worker_copy (ef_worker a)) != lc_worker claim)
         || (lc_expires_at claim <=? observed)
      then (c', db, Err claim_invalid)
      else
        let x := transaction c' db (authorize_locked c' a claim ev observed) in
        (c', x.1,
         let! authorization := x.2 in
         Ok {| ea_run := lc_run claim; ea_task := lc_task claim;
               ea_task_digest := lc_task_digest claim; ea_claim_digest := _claim_digest claim;
               ea_authorization := authorization; ea_evidence := ev;
               ea_expires_at := lc_expires_at claim; ea_seal := co_seal c' |})
  end.

(** What [start_effect] compares before its transaction. *)
Definition authorization_binds (c : coordinator) (claim : LeaseClaim) (au : ExecutionAuthorization)
    (worker : list (string * json)) (observed : Z) : bool :=
  (ea_seal au == co_seal c) && (ea_run au == lc_run claim) && (ea_task au == lc_task claim)
  && (ea_task_digest au == lc_task_digest claim) && (ea_claim_digest au == _claim_digest claim)
  && (ea_expires_at au == lc_expires_at claim) && (_binding_digest worker == lc_worker claim)
  && (observed <? lc_expires_at claim).

(** [INSERT INTO consumed_routes] *)
Definition consume_route (t : Task) (d : option RouteDecision) (observed : Z) (db : team_db)
  : result team_db :=
  match tk_route t with
  | None => Ok db
  | Some route =>
      raise route_invalid when (negb (is_some d)) else
      raise (team_error "ECO_TEAM_ROUTE_ALREADY_CONSUMED") when
        (existsb (fun r => (rw_route r == bd_digest route) || (rw_task r == tm_digest (tk_meta t)))
           (db_routes db)) else
      Ok (with_routes db
            (db_routes db ++ [{| rw_route := bd_digest route; rw_task := tm_digest (tk_meta t);
                                 rw_consumed_at := epoch observed |}]))
  end.

Definition start_locked (c : coordinator) (a : EffectArgs) (claim : LeaseClaim)
    (au : ExecutionAuthorization) (observed : Z) (db : team_db) : result (team_db * unit) :=
  let worker := worker_copy (ef_worker a) in
  let! w := _assert_claim_locked false claim db in
  let! ' (run, manifest) := _context_locked (lc_run claim) db in
  let! ' (doc, t) := stored_task w in
  raise (team_error "ECO_TEAM_CANCELLED") when (rn_cancellation run || tw_cancellation w) else
  let! _ := guard_claim (ef_guard a) manifest doc worker observed in
  let! _ := gate_assert_current (ef_gate a) manifest doc worker (ea_evidence au)
              (ea_authorization au) observed in
  let! d := _validate_route_locked c t (ea_evidence au) observed db in
  let! db1 := consume_route t d observed db in
  let starting w := is_task (lc_run claim) (lc_task claim) w && (tw_status w == Leased) in
  raise (team_error "ECO_TEAM_EFFECT_ALREADY_STARTED") when (count_tasks starting db1 != 1%nat) else
  Ok (update_tasks starting mark_started db1, tt).

Definition start_effect (c : coordinator) (db : team_db) (claim : LeaseClaim) (a : EffectArgs)
    (au : ExecutionAuthorization) (clock : datetime) : coordinator * team_db * result unit :=
  match _observed_time c (ef_now a) clock with
  | (c', Err e) => (c', db, Err e)
  | (c', Ok observed) =>
      if negb (authorization_binds c' claim au (worker_copy (ef_worker a)) observed)
      then (c', db, Err (team_error "ECO_TEAM_EXECUTION_AUTHORITY_INVALID"))
      else answer c' (transaction c' db (start_locked c' a claim au observed))
  end.

(** ** Reading the state *)

Definition task_state (c : coordinator) (db : team_db) (run_id task_id : string) : result task_view :=
  let! _ := _verify_state_locked c db in
  match find_task run_id task_id db with
  | None => Err (team_error "ECO_TEAM_TASK_UNKNOWN")
  | Some w => Ok (task_view_of w)
  end.

Fixpoint task_states (c : coordinator) (db : team_db) (run_id : string) (ids : list string)
  : result (list task_view) :=
  match ids with
  | [] => Ok []
  | i :: ids' =>
      let! v := task_state c db run_id i in
      let! vs := task_states c db run_id ids' in Ok (v :: vs)
  end.
Definition run_state (c : coordinator) (db : team_db) (run_id : string) : result run_view :=
  let! _ := _verify_state_locked c db in
  let! ' (run, _) := _context_locked run_id db in
  let! tasks := task_states c db run_id (sorted_strs (map tw_id (tasks_of run_id db))) in
  Ok {| rv_run := run_id; rv_team := rn_team run; rv_project := rn_project run;
        rv_status := rn_status run; rv_cancellation := rn_cancellation run; rv_tasks := tasks |}.

Definition cancellation_requested (c : coordinator) (db : team_db) (claim : LeaseClaim) : result bool :=
  let! _ := _verify_state_locked c db in
  match find_task (lc_run claim) (lc_task claim) db with
  | None => Err (team_error "ECO_TEAM_TASK_UNKNOWN")
  | Some w => Ok (tw_cancellation w)
  end.

(** ** Settling an effect *)

Definition expire_observed (c : coordinator) (observed : Z) (db : team_db) (run_id : string)
  : team_db * result nat :=
  transaction c db (fun db =>
    let! _ := _context_locked run_id db in
    Ok (_expire_locked run_id observed db)).
Definition expire_leases (c : coordinator) (db : team_db) (run_id : string) (now clock : datetime)
  : coordinator * team_db * result nat :=
  match _observed_time c now clock with
  | (c', Err e) => (c', db, Err e)
  | (c', Ok observed) => answer c' (expire_observed c' observed db run_id)
  end.

(** [WHERE run_id=? AND task_id=? AND status='started'] *)
Definition is_started (claim : LeaseClaim) (w : task_row) : bool :=
  is_task (lc_run claim) (lc_task claim) w && (tw_status w == Started).

(** The row repeats what the result says. *)
Definition same_outcome (w : task_row) (r : TaskEffectResult) : bool :=
  (tw_status w == te_status r) && (tw_outcome w == Some (te_outcome_digest r))
  && (tw_charged_tokens w =? te_used_tokens r) && (tw_charged_cost w =? te_used_cost r).

(** The transaction of [complete_effect]; a replay commits without a new state. *)
Definition complete_locked (c : coordinator) (claim : LeaseClaim) (r : TaskEffectResult) (db : team_db)
  : result (team_db * unit) :=
  let! _ := _verify_state_locked c db in
  match find_task (lc_run claim) (lc_task claim) db with
  | None => Err claim_invalid
  | Some w =>
      raise claim_invalid when (tw_digest w != lc_task_digest claim) else
      if tw_status w in? [Succeeded; Failed] then
        if same_outcome w r then Ok (db, tt) else Err (team_error "ECO_TEAM_TERMINAL_CONFLICT")
      else
        let! w := _assert_claim_locked true claim db in
        raise (team_error "ECO_TEAM_EFFECT_NOT_STARTED") when (tw_status w != Started) else
        raise (team_error "ECO_TEAM_TASK_BUDGET_EXCEEDED") when
          ((tw_reserved_tokens w <? te_used_tokens r) || (tw_reserved_cost w <? te_used_cost r)) else
        let! db' := _write_state_auth_locked false c (update_tasks (is_started claim) (settle_effect r) db) in
        Ok (db', tt)
  end.
(** [then self.task_state(...)] *)
Definition then_state (c : coordinator) (claim : LeaseClaim) (x : team_db * result unit)
  : team_db * result task_view :=
  (x.1, let! _ := x.2 in task_state c x.1 (lc_run claim) (lc_task claim)).

Definition complete_effect (c : coordinator) (db : team_db) (claim : LeaseClaim) (r : TaskEffectResult)
    (now clock clock' : datetime) : coordinator * team_db * result task_view :=
  match _observed_time c now clock with
  | (c1, Err e) => (c1, db, Err e)
  | (c1, Ok observed) =>
      let '(c2, db2, late) :=
        if lc_expires_at claim <=? observed
        then
          match observed_at c1 observed clock' with
          | (c2, Err e) => (c2, db, Err e)
          | (c2, Ok observed') => answer c2 (expire_observed c2 observed' db (lc_run claim))
          end
        else (c1, db, Ok 0%nat) in
      match late with
      | Err e => (c2, db2, Err e)
      | Ok _ => answer c2 (then_state c2 claim (atomic db2 (complete_locked c2 claim r db2)))
      end
  end.

Definition mark_ambiguous (c : coordinator) (db : team_db) (claim : LeaseClaim) (now clock : datetime)
  : coordinator * team_db * result task_view :=
  match _observed_time c now clock with
  | (c', Err e) => (c', db, Err e)
  | (c', Ok _) =>
      answer c'
        (then_state c' claim
           (transaction c' db (fun db =>
              let! w := _assert_claim_locked true claim db in
              raise (team_error "ECO_TEAM_EFFECT_NOT_STARTED") when (tw_status w != Started) else
              Ok (update_tasks (is_started claim) (settle_reserved Ambiguous) db, tt))))
  end.

(** What running the operation through the gate gives: a value of the expected
    class, another value, or an exception. *)
Inductive execution : Type :=
| Returned (r : TaskEffectResult) | ReturnedOther | Raised (e : py_error).

(** [execute_claimed]: the operation runs outside the lock, so the database may
    have changed when it ends, through this coordinator or another. *)
Definition execute_claimed (c : coordinator) (db : team_db) (claim : LeaseClaim) (a : EffectArgs)
    (au : ExecutionAuthorization)
    (operation : coordinator → team_db → Z → coordinator * team_db * execution)
    (clock clock1 clock2 clock3 : datetime) : coordinator * team_db * result task_view :=
  match start_effect c db claim a au clock with
  | (c1, db1, Err e) => (c1, db1, Err e)
  | (c1, db1, Ok _) =>
      let '(c2, db2, outcome) :=
        match _observed_time c1 (ef_now a) clock1 with
        | (c2, Err e) => (c2, db1, Raised e)
        | (c2, Ok observed) => operation c2 db1 observed
        end in
      let ambiguous e :=
        match mark_ambiguous c2 db2 claim (ef_now a) clock2 with
        | (c3, db3, Err e') => (c3, db3, Err e')
        | (c3, db3, Ok _) => (c3, db3, Err e)
        end in
      match outcome with
      | Raised e => ambiguous e
      | ReturnedOther => ambiguous (team_error "ECO_TEAM_EFFECT_RESULT_INVALID")
      | Returned r => complete_effect c2 db2 claim r (ef_now a) clock2 clock3
      end
  end.

(** ** Cancellation *)

Definition cancelling (r : run_row) : run_row :=
  {| rn_id := rn_id r; rn_manifest := rn_manifest r; rn_team := rn_team r; rn_project := rn_project r;
     rn_status := "cancelling"; rn_cancellation := true; rn_max_tokens := rn_max_tokens r;
     rn_max_cost := rn_max_cost r; rn_result := rn_result r |}.
Definition cancel_locked (run_id : string) (db : team_db) : result (team_db * unit) :=
  let! ' (run, _) := _context_locked run_id db in
  raise (team_error "ECO_TEAM_RUN_NOT_ACTIVE") when (rn_status run != "active") else
  let db1 := update_runs (fun r => rn_id r == run_id) cancelling db in
  let db2 := update_tasks (fun w => (tw_run w == run_id) && (tw_status w in? [Pending; Leased]))
               cancel_task db1 in
  Ok (update_tasks (fun w => (tw_run w == run_id) && (tw_status w == Started))
        request_cancellation db2, tt).
Definition cancel_run (c : coordinator) (db : team_db) (run_id : string) (now clock : datetime)
  : coordinator * team_db * result unit :=
  match _observed_time c now clock with
  | (c', Err e) => (c', db, Err e)
  | (c', Ok _) => answer c' (transaction c' db (cancel_locked run_id))
  end.

Definition acknowledge_locked (claim : LeaseClaim) (db : team_db) : result (team_db * unit) :=
  let! w := _assert_claim_locked true claim db in
  raise (team_error "ECO_TEAM_CANCELLATION_NOT_PENDING") when
    ((tw_status w != Started) || negb (tw_cancellation w)) else
  Ok (update_tasks (is_task (lc_run claim) (lc_task claim)) (settle_reserved Cancelled) db, tt).
Definition acknowledge_cancellation (c : coordinator) (db : team_db) (claim : LeaseClaim)
    (now clock : datetime) : coordinator * team_db * result unit :=
  match _observed_time c now clock with
  | (c', Err e) => (c', db, Err e)
  | (c', Ok _) => answer c' (transaction c' db (acknowledge_locked claim))
  end.

(** ** Handoffs *)

(** The transaction of [record_handoff]; a replay commits without a new state. *)
Definition handoff_locked (c : coordinator) (candidate : json) (h : Handoff) (db : team_db)
  : result (team_db * string) :=
  let! _ := _verify_state_locked c db in
  let meta := ho_meta h in
  let! ' (run, _) := _context_locked (tm_run meta) db in
  raise (team_error "ECO_TEAM_HANDOFF_BINDING_MISMATCH") when
    ((tm_team meta != rn_team run) || (tm_project meta != rn_project run)) else
  match find_task (tm_run meta) (ho_from_task h) db, find_task (tm_run meta) (ho_to_task h) db with
  | Some source_row, Some target_row =>
      let! ' (_, source) := stored_task source_row in
      let! ' (_, target) := stored_task target_row in
      raise (team_error "ECO_TEAM_HANDOFF_SUBSTITUTION") when
        ((tw_status source_row != Succeeded) || (tw_status target_row != Pending)
         || (ho_from_role h != tk_role source) || (ho_to_role h != tk_role target)
         || negb (ho_from_task h in? tk_dependencies target)
         || (ho_artifact h != tk_input target)) else
      match find_handoff (tm_run meta) (ho_from_task h) (ho_to_task h) db with
      | Some duplicate =>
          if hw_digest duplicate == tm_digest meta then Ok (db, tm_digest meta)
          else Err (team_error "ECO_TEAM_HANDOFF_CONFLICT")
      | None =>
          raise IntegrityError when
            (existsb (fun w => ((hw_run w == tm_run meta) && (hw_id w == tm_id meta))
                               || (hw_digest w == tm_digest meta)) (db_handoffs db)) else
          let row := {| hw_run := tm_run meta; hw_id := tm_id meta; hw_from := ho_from_task h;
                        hw_to := ho_to_task h; hw_artifact := bd_digest (ho_artifact h);
                        hw_digest := tm_digest meta; hw_document := canonical_json candidate |} in
          let! db' := _write_state_auth_locked false c (with_handoffs db (db_handoffs db ++ [row])) in
          Ok (db', tm_digest meta)
      end
  | _, _ => Err (team_error "ECO_TEAM_HANDOFF_TASK_UNKNOWN")
  end.
Definition record_handoff (c : coordinator) (db : team_db) (handoff : list (string * json))
  : coordinator * team_db * result string :=
  match
    (let! candidate := validate_record (JObj handoff) in
     raise (team_error "ECO_TEAM_HANDOFF_INVALID") when (kind_of candidate != "TeamHandoff") else
     let! h := some_or KeyError (as_handoff candidate) in Ok (candidate, h))
  with
  | Err e => (c, db, Err e)
  | Ok (candidate, h) =>
      let x := atomic db (handoff_locked c candidate h db) in
      (c, x.1, integrity_as (team_error "ECO_TEAM_HANDOFF_CONFLICT") x.2)
  end.

(** ** The result of a run *)

Definition result_task_json (w : task_row) : json :=
  JObj [("id", JStr (tw_id w)); ("status", JStr (status_text (tw_status w)));
        ("outcomeDigest", json_of_optstr (tw_outcome w)); ("chargedTokens", JInt (tw_charged_tokens w));
        ("chargedCostMicrousd", JInt (tw_charged_cost w))].
Definition result_record (run : run_row) (result_id : string) (observed : Z) (rows : list task_row)
  : list (string * json) :=
  [("apiVersion", JStr API_VERSION); ("kind", JStr "TeamRunResult");
   ("metadata",
     JObj [("id", JStr result_id); ("teamId", JStr (rn_team run)); ("projectId", JStr (rn_project run));
           ("runId", JStr (rn_id run)); ("createdAt", JStr (_time_text observed));
           ("recordDigest", JStr GENESIS_DIGEST)]);
   ("spec",
     JObj [("status", JStr (summary (map (fun w => status_text (tw_status w)) rows)));
           ("cancellationRequested", JBool (rn_cancellation run));
           ("tasks", JArr (map result_task_json rows));
           ("usage",
             JObj [("tokens", JInt (sum_of tw_charged_tokens rows));
                   ("costMicrousd", JInt (sum_of tw_charged_cost rows))])])].

Definition finish (status document : string) (r : run_row) : run_row :=
  {| rn_id := rn_id r; rn_manifest := rn_manifest r; rn_team := rn_team r; rn_project := rn_project r;
     rn_status := status; rn_cancellation := rn_cancellation r; rn_max_tokens := rn_max_tokens r;
     rn_max_cost := rn_max_cost r; rn_result := Some document |}.

(** The identifier of a stored result. *)
Definition result_id_of (doc : json) : result string :=
  match doc with
  | JObj o => some_or KeyError (obj_at "metadata" o ≫= str_at "id")
  | _ => Err TypeError
  end.

Definition finalize_locked (c : coordinator) (run_id result_id : string) (observed : Z) (db : team_db)
  : result (team_db * json) :=
  let! _ := _verify_state_locked c db in
  let! ' (run, _) := _context_locked run_id db in
  match rn_result run with
  | Some document =>
      let! stored := some_or ValueError (json_loads document) in
      let! doc := validate_record stored in
      let! i := result_id_of doc in
      raise (team_error "ECO_TEAM_RESULT_CONFLICT") when (i != result_id) else Ok (db, doc)
  | None =>
      let rows := order_by tw_id (tasks_of run_id db) in
      raise (team_error "ECO_TEAM_RUN_INCOMPLETE") when
        ((rows == []) || existsb (fun w => negb (tw_status w in? _TERMINAL)) rows) else
      let status := summary (map (fun w => status_text (tw_status w)) rows) in
      let! doc := seal_record (result_record run result_id observed rows) in
      let! _ := validate_record doc in
      let unfinished r := (rn_id r == run_id) && negb (is_some (rn_result r)) in
      raise (team_error "ECO_TEAM_RESULT_RACE") when
        (length (List.filter unfinished (db_runs db)) != 1%nat) else
      let! db' := _write_state_auth_locked false c
                    (update_runs unfinished (finish status (canonical_json doc)) db) in
      Ok (db', doc)
  end.
Definition finalize_run (c : coordinator) (db : team_db) (run_id result_id : string)
    (now clock : datetime) : coordinator * team_db * result json :=
  match _observed_time c now clock with
  | (c', Err e) => (c', db, Err e)
  | (c', Ok observed) => answer c' (atomic db (finalize_locked c' run_id result_id observed db))
  end.

(** ** [verify] *)

Definition document_ok (document digest : string) : result unit :=
  let! doc := _document document in
  raise (team_error "ECO_TEAM_STORE_CORRUPT") when
    (match doc with JObj o => stored_digest o != Some digest | _ => true end) else Ok tt.
Fixpoint documents_ok (l : list (string * string)) : result unit :=
  match l with
  | [] => Ok tt
  | (document, digest) :: l' => let! _ := document_ok document digest in documents_ok l'
  end.
(** [quick] is the answer of SQLite's [PRAGMA quick_check]. *)
Definition verify (c : coordinator) (quick : bool) (db : team_db) : result unit :=
  raise (team_error "ECO_TEAM_STORE_CORRUPT") when (negb quick) else
  let! _ := _verify_state_locked c db in
  let! _ := documents_ok (map (fun m => (mr_document m, mr_digest m)) (db_manifests db)) in
  let! _ := documents_ok (map (fun w => (tw_document w, tw_digest w)) (db_tasks db)) in
  documents_ok (map (fun h => (hw_document h, hw_digest h)) (db_handoffs db)).
End Coordinator.
