(* ===== verification/TeamFacts.v ===== *)
(** * What a validated team record holds, and that storing keeps it

    Validation returns the record unchanged and every reader of [TeamContracts]
    succeeds on it.  The coordinator stores records as canonical text; the record
    it reads back passes validation again and has the same fields. *)

From S2P Require Import Prelude Json Digest PyTime PyClock Schema RouteRecords RouteRecordFacts JsonCanon TeamContracts TeamStore TeamRuntime.

(** ** The fields of a record and of its canonical form *)

Section Fields.
Context (o : list (string * json)) (Ho : wf_items o).

Lemma as_binding_jnorm : as_binding (jnorm_items o) = as_binding o.
Proof using Ho. unfold as_binding. canon. Qed.
Lemma as_budget_jnorm : as_budget (jnorm_items o) = as_budget o.
Proof using Ho. unfold as_budget. canon. Qed.
Lemma as_team_meta_jnorm : as_team_meta (jnorm_items o) = as_team_meta o.
Proof using Ho. unfold as_team_meta. canon. Qed.
Lemma as_result_task_jnorm : as_result_task (jnorm_items o) = as_result_task o.
Proof using Ho. unfold as_result_task. canon. Qed.
End Fields.
#[export] Hint Resolve as_binding_jnorm as_budget_jnorm as_result_task_jnorm : eco.

(** One more reading, of a binding or a budget under a key. *)
Ltac canon_sub :=
  match goal with
  | |- context [as_binding (jnorm_items ?o)] => rewrite (as_binding_jnorm o) by assumption
  | |- context [as_budget (jnorm_items ?o)] => rewrite (as_budget_jnorm o) by assumption
  | |- context [as_team_meta (jnorm_items ?o)] => rewrite (as_team_meta_jnorm o) by assumption
  | |- context [?x ≫= _] => destruct x; cbn [mbind option_bind]; [|done]
  end.
Ltac canon_record := repeat (first [canon_step|canon_sub]; cbn [mbind option_bind fmap option_fmap option_map]); try done.

Lemma as_team_role_jnorm o : wf_items o → as_team_role (jnorm_items o) = as_team_role o.
Proof. intros Ho. unfold as_team_role. canon_record. Qed.
#[export] Hint Resolve as_team_role_jnorm : eco.

Lemma as_manifest_jnorm o : wf_items o → as_manifest (JObj (jnorm_items o)) = as_manifest (JObj o).
Proof.
  intros Ho. unfold as_manifest. canon_record.
Qed.
Lemma as_task_jnorm o : wf_items o → as_task (JObj (jnorm_items o)) = as_task (JObj o).
Proof. intros Ho. unfold as_task. canon_record. Qed.
Lemma as_handoff_jnorm o : wf_items o → as_handoff (JObj (jnorm_items o)) = as_handoff (JObj o).
Proof. intros Ho. unfold as_handoff. canon_record. Qed.
Lemma as_run_result_jnorm o : wf_items o → as_run_result (JObj (jnorm_items o)) = as_run_result (JObj o).
Proof. intros Ho. unfold as_run_result. canon_record. Qed.

(** ** Validation *)

Section Validation.
Context `{FromIso} `{Crypto} `{Jsonschema} `{DateTimeFormat}.

Lemma record_digest_jnorm o : wf_items o → record_digest (jnorm_items o) = record_digest o.
Proof.
  intros Ho. unfold record_digest, semantic_digest, canonical_json. cbn [jnorm map fst snd].
  fold (jnorm_items (undigested (jnorm_items o))) (jnorm_items (undigested o)).
  by rewrite undigested_jnorm.
Qed.

Lemma stored_digest_jnorm o : wf_items o → stored_digest (jnorm_items o) = stored_digest o.
Proof. intros Ho. unfold stored_digest. canon. Qed.

Lemma team_kind_ok_jnorm kind o :
  wf_items o → team_kind_ok kind (JObj (jnorm_items o)) = team_kind_ok kind (JObj o).
Proof.
  intros Ho. unfold team_kind_ok.
  by rewrite as_manifest_jnorm, as_task_jnorm, as_handoff_jnorm, as_run_result_jnorm.
Qed.

(** What a successful validation has checked. *)
Lemma validate_record_inv j j' :
  validate_record j = Ok j' →
  j' = j ∧ ∃ o kind s,
    j = JObj o ∧ jassoc "kind" o = Some (JStr kind) ∧ (kind, s) ∈ SCHEMAS ∧
    conforms s j = true ∧ wf_items o ∧ stored_digest o = Some (record_digest o) ∧
    team_kind_ok kind j = Ok true.
Proof.
  unfold validate_record. destruct j as [| | | | |o]; try discriminate.
  destruct (jget "kind" o) as [| | |kind| |] eqn:Ek; try discriminate.
  destruct (snd <$> List.find _ SCHEMAS) as [s|] eqn:Es; [|discriminate].
  intros Hv. guard Hv as E1. guard Hv as E2.
  destruct (team_kind_ok kind (JObj o)) as [[]|] eqn:E3; try discriminate. injection Hv as <-.
  breflect. rewrite is_valid_conforms in E1. split; [done|]. exists o, kind, s. split_and!; try done.
  - unfold jget in Ek. destruct (jassoc "kind" o); [|done]. simpl in Ek. by subst.
  - destruct (List.find _ SCHEMAS) as [[k s']|] eqn:Ef; [|done]. injection Es as ->.
    apply List.find_some in Ef as [Hin Hk]. cbn [fst] in Hk. breflect. subst.
    by apply list_elem_of_In.
  - by eapply conforms_wf.
Qed.

Lemma validate_record_id j j' : validate_record j = Ok j' → j' = j.
Proof. by intros [-> _]%validate_record_inv. Qed.
Lemma validate_record_wf j j' : validate_record j = Ok j' → json_wf j = true.
Proof. by intros (_ & o & k & s & -> & _ & _ & _ & Ho & _)%validate_record_inv. Qed.

(** A validated record passes again in its canonical form. *)
Lemma validate_record_jnorm j j' :
  validate_record j = Ok j' → validate_record (jnorm j) = Ok (jnorm j).
Proof.
  intros Hv. destruct (validate_record_inv _ _ Hv) as (_ & o & kind & s & -> & Hk & Hs & Hc & Ho & Hd & Hok).
  revert Hv. unfold validate_record. rewrite jnorm_obj.
  assert (jget "kind" (jnorm_items o) = jget "kind" o) as ->.
  { rewrite jget_jnorm by auto with eco. unfold jget. by rewrite Hk. }
  destruct (jget "kind" o) as [| | |k0| |]; try discriminate.
  destruct (snd <$> List.find _ SCHEMAS) as [s0|]; [|discriminate].
  rewrite !is_valid_conforms, <- jnorm_obj, conforms_jnorm by done.
  rewrite stored_digest_jnorm, record_digest_jnorm by done.
  intros Hv. guard Hv as E1. guard Hv as E2.
  rewrite jnorm_obj, team_kind_ok_jnorm by done.
  destruct (team_kind_ok k0 (JObj o)) as [[]|]; try discriminate. done.
Qed.

(** A record that was stored is read back, in its canonical form. *)
Lemma document_canonical j j' :
  validate_record j = Ok j' → _document (canonical_json j) = Ok (jnorm j).
Proof.
  intros Hv. unfold _document. rewrite json_loads_canonical by (by eapply validate_record_wf).
  by eapply validate_record_jnorm.
Qed.

(** ** Tasks *)

Record budget_wf (b : team_budget) : Prop := {
  bw_tokens : 0 ≤ bu_tokens b ≤ 1000000000; bw_cost : 0 ≤ bu_cost b ≤ 1000000000000;
  bw_seconds : 1 ≤ bu_seconds b ≤ 86400;
}.
Lemma as_team_budget_ok o : conforms budget_schema (JObj o) = true → ∃ b, as_budget o = Some b ∧ budget_wf b.
Proof.
  intros Ho. unfold as_budget.
  ask Ho range_at_ok "maxTokens" as t Ht. ask Ho range_at_ok "maxCostMicrousd" as c Hc.
  ask Ho range_at_ok "maxDurationSeconds" as s Hs. eexists. split; [done|]. by constructor.
Qed.
Lemma as_binding_ok o : conforms binding_schema (JObj o) = true → ∃ b, as_binding o = Some b ∧ True.
Proof.
  intros Ho. unfold as_binding.
  ask Ho str_at_ok "kind" as k Hk. ask Ho str_at_ok "id" as i Hi. ask Ho str_at_ok "digest" as d Hd.
  by eexists.
Qed.

(** A validated record conforms to the schema of its kind. *)
Lemma validated_team_kind j kind0 sch :
  validate_record j = Ok j → kind_of j = kind0 → List.find (fun ks => ks.1 == kind0) SCHEMAS = Some (kind0, sch) →
  ∃ o, j = JObj o ∧ wf_items o ∧ conforms sch j = true ∧ team_kind_ok kind0 j = Ok true.
Proof.
  intros Hv Hkind Hf.
  destruct (validate_record_inv _ _ Hv) as (_ & o & kind & s & -> & Hk & Hs & Hc & Ho & Hd & Hok).
  assert (kind = kind0) as ->.
  { unfold kind_of, jget in Hkind. by rewrite Hk in Hkind. }
  assert (s = sch) as ->; [|by exists o].
  assert (NoDup SCHEMAS.*1) as Hnd by (apply (bool_decide_eq_true_1 _); by vm_compute).
  apply List.find_some in Hf as [Hin _]. apply list_elem_of_In in Hin.
  assert (∀ (l : list (string * schema)) k a b, NoDup l.*1 → (k, a) ∈ l → (k, b) ∈ l → a = b) as Hu.
  { clear. induction l as [|x l IH]; [by intros ? ? ? _ ?%elem_of_nil|].
    intros k a b [Hn Hnd]%NoDup_cons Ha Hb.
    apply elem_of_cons in Ha as [<-|Ha], Hb as [Hb|Hb]; [congruence| | |by eapply IH].
    - exfalso. apply Hn. by apply (list_elem_of_fmap_2 fst) in Hb.
    - subst x. exfalso. apply Hn. by apply (list_elem_of_fmap_2 fst) in Ha. }
  by eapply Hu.
Qed.

(** A validated record of kind TeamTask has the fields of a task, in bounds. *)
Lemma validated_task j j' :
  validate_record j = Ok j' → kind_of j' = "TeamTask" →
  ∃ t, as_task j = Some t ∧ budget_wf (tk_budget t) ∧ task_ok t = Ok true.
Proof.
  intros Hv Hkind.
  pose proof (validate_record_id _ _ Hv). subst j'.
  destruct (validated_team_kind j _ task_schema Hv Hkind) as (o & -> & Ho & Hc & Hok); [reflexivity|].
  assert (∃ t, as_task (JObj o) = Some t ∧ budget_wf (tk_budget t)) as (t & Ht & Hb).
  { unfold task_schema, team_record_schema in Hc.
    unfold as_task, as_team_meta. ask Hc obj_at_ok "metadata" as m Hm.
    unfold run_metadata_schema in Hm.
    ask Hm str_at_ok "id" as i Hi. ask Hm str_at_ok "teamId" as tm Htm.
    ask Hm str_at_ok "projectId" as p Hp. ask Hm str_at_ok "runId" as r Hr.
    ask Hm str_at_ok "createdAt" as ca Hca. ask Hm str_at_ok "recordDigest" as rd Hrd.
    ask Hc obj_at_ok "spec" as sp Hsp. unfold task_spec_schema in Hsp.
    ask Hsp str_at_ok "roleId" as ro Hro. ask Hsp str_at_ok "action" as ac Hac.
    ask Hsp enum_at_ok "dataClass" as dc Hdc. ask Hsp str_at_ok "zone" as z Hz.
    ask Hsp str_at_ok "environmentId" as e He.
    ask Hsp obj_at_ok "resource" as rs Hrs. destruct (as_binding_ok _ Hrs) as (b1 & -> & _).
    cbn [mbind option_bind].
    ask Hsp str_at_ok "notAfter" as na Hna.
    ask Hsp obj_at_ok "budget" as bu Hbu. destruct (as_team_budget_ok _ Hbu) as (b2 & -> & Hb2).
    cbn [mbind option_bind].
    ask Hsp obj_at_ok "input" as inp Hinp. destruct (as_binding_ok _ Hinp) as (b3 & -> & _).
    cbn [mbind option_bind].
    ask Hsp strs_at_ok "dependencies" as ds Hds.
    destruct (opt_obj_at_ok _ _ _ Hsp as_binding (fun _ => True) "routeDecision" _ _
                (or_intror eq_refl) as_binding_ok) as (rt & -> & _).
    cbn [mbind option_bind]. eexists. split; [done|done]. }
  exists t. split_and!; [done..|]. unfold team_kind_ok in Hok.
  rewrite bool_decide_false, bool_decide_true, Ht in Hok by done. done.
Qed.

(** A validated record of kind AgentTeamManifest. *)
Lemma validated_manifest j :
  validate_record j = Ok j → kind_of j = "AgentTeamManifest" →
  ∃ m, as_manifest j = Some m ∧ 0 ≤ mf_max_tokens m ∧ 0 ≤ mf_max_cost m ∧ manifest_ok m = Ok true.
Proof.
  intros Hv Hkind.
  destruct (validated_team_kind j _ manifest_schema Hv Hkind) as (o & -> & Ho & Hc & Hok); [reflexivity|].
  unfold team_kind_ok in Hok. rewrite bool_decide_true in Hok by done.
  destruct (as_manifest (JObj o)) as [m|] eqn:Em; [|done]. exists m. split_and!; [done| | |done].
  all: unfold manifest_schema, team_record_schema in Hc; revert Em; unfold as_manifest;
    ask Hc obj_at_ok "metadata" as md Hmd; ask Hc obj_at_ok "spec" as sp Hsp;
    unfold manifest_spec_schema in Hsp;
    ask Hmd str_at_ok "id" as i Hi; ask Hmd str_at_ok "projectId" as p Hp;
    ask Hmd str_at_ok "createdAt" as ca Hca; ask Hmd str_at_ok "recordDigest" as rd Hrd;
    ask Hsp obj_at_ok "authority" as au Hau; ask Hau str_at_ok "teamId" as tm Htm;
    destruct (objs_at "roles" sp) as [rs|]; [|done]; cbn [mbind option_bind];
    destruct (mapM as_team_role rs) as [roles|]; [|done]; cbn [mbind option_bind];
    ask Hsp obj_at_ok "budget" as b Hb; ask Hb range_at_ok "maxTasks" as mt Hmt;
    ask Hb range_at_ok "maxTotalTokens" as mk Hmk; ask Hb range_at_ok "maxCostMicrousd" as mc Hmc;
    ask Hsp str_at_ok "deadline" as dl Hdl; intros [= <-]; cbn; lia.
Qed.

(** The stored row of a task that was created reads back as that task. *)
Lemma stored_task_canonical run_id i j j' t :
  validate_record j = Ok j' → as_task j = Some t →
  stored_task (new_task_row run_id (i, (j, t))) = Ok (jnorm j, t).
Proof.
  intros Hv Ht. unfold stored_task, new_task_row. cbn [tw_document snd fst].
  rewrite (document_canonical _ _ Hv).
  destruct (validate_record_inv _ _ Hv) as (_ & o & kind & s & -> & _ & _ & _ & Ho & _).
  rewrite jnorm_obj, as_task_jnorm, Ht by done. done.
Qed.
End Validation.
