(* ===== verification/TeamSpec.v ===== *)
(** * The scheduler: an abstract specification of the team coordinator

    [scheduler_step] says what may happen to the tables, one guarded change at a
    time and without clocks, claims, gates or authentication.  [scheduled] is its
    invariant: budgets hold, a cancelled run has nothing left to claim, a route
    belongs to one task, and what was begun had its dependencies.  [TeamRefinement]
    shows that every call of the coordinator is a sequence of such steps. *)

From S2P Require Import Prelude Json Digest PyTime PyClock Schema RouteRecords TeamContracts TeamStore TeamRuntime TeamEffects.

(** ** The life of a task *)

(** The changes of a row that need no knowledge of the rest of the tables. *)
Inductive task_move : task_row → task_row → Prop :=
| move_release w : tw_status w = Leased → task_move w (release_lease w)
| move_settle w r :
    tw_status w = Started → te_used_tokens r ≤ tw_reserved_tokens w →
    te_used_cost r ≤ tw_reserved_cost w → task_move w (settle_effect r w)
| move_ambiguous w : tw_status w = Started → task_move w (settle_reserved Ambiguous w)
| move_acknowledge w :
    tw_status w = Started → tw_cancellation w = true → task_move w (settle_reserved Cancelled w)
| move_cancel w : tw_status w = Pending ∨ tw_status w = Leased → task_move w (cancel_task w)
| move_request w : tw_status w = Started → task_move w (request_cancellation w).

(** A row as it is created. *)
Record fresh_task (run_id : string) (w : task_row) : Prop := {
  fr_run : tw_run w = run_id; fr_status : tw_status w = Pending; fr_attempt : tw_attempt w = 0;
  fr_usage : tw_reserved_tokens w = 0 ∧ tw_reserved_cost w = 0 ∧ tw_charged_tokens w = 0
             ∧ tw_charged_cost w = 0;
  fr_lease : tw_worker w = None ∧ tw_lease_hash w = None ∧ tw_lease_expires w = None;
  fr_open : tw_outcome w = None ∧ tw_cancellation w = false;
}.

Definition is_terminal (w : task_row) : bool := tw_status w in? _TERMINAL.
Definition usage_tokens (w : task_row) : Z := tw_reserved_tokens w + tw_charged_tokens w.
Definition usage_cost (w : task_row) : Z := tw_reserved_cost w + tw_charged_cost w.

Section Spec.
Context `{FromIso} `{Crypto} `{Jsonschema} `{DateTimeFormat}.

(** The stored record of a row is a task of that run, identifier and digest. *)
Definition row_bound (w : task_row) : Prop :=
  ∀ doc t, stored_task w = Ok (doc, t) →
    tm_run (tk_meta t) = tw_run w ∧ tm_id (tk_meta t) = tw_id w ∧ tm_digest (tk_meta t) = tw_digest w
    ∧ 0 ≤ bu_tokens (tk_budget t) ∧ 0 ≤ bu_cost (tk_budget t).

Inductive scheduler_step : team_db → team_db → Prop :=
| step_auth db meta auth events : scheduler_step db (with_auth db meta auth events)
| step_manifest db row :
    document_ok (mr_document row) (mr_digest row) = Ok tt →
    scheduler_step db (with_manifests db (db_manifests db ++ [row]))
| step_create db run rows :
    find_run (rn_id run) db = None → rn_status run = "active" → rn_cancellation run = false →
    rn_result run = None → 0 ≤ rn_max_tokens run → 0 ≤ rn_max_cost run →
    Forall (fresh_task (rn_id run)) rows → Forall row_bound rows →
    NoDup (map tw_id rows) → NoDup (map tw_digest (db_tasks db ++ rows)) →
    Forall (fun w => document_ok (tw_document w) (tw_digest w) = Ok tt) rows →
    scheduler_step db (with_tasks (with_runs db (db_runs db ++ [run])) (db_tasks db ++ rows))
| step_tasks db p f :
    (∀ w, w ∈ db_tasks db → p w = true → task_move w (f w)) →
    scheduler_step db (update_tasks p f db)
| step_claim db run w doc t p attempt worker hash expires :
    find_run (tw_run w) db = Some run → rn_status run = "active" → rn_cancellation run = false →
    w ∈ db_tasks db → stored_task w = Ok (doc, t) →
    _dependencies_ready_locked t db = true →
    (_usage_locked (tw_run w) db).1 + bu_tokens (tk_budget t) ≤ rn_max_tokens run →
    (_usage_locked (tw_run w) db).2 + bu_cost (tk_budget t) ≤ rn_max_cost run →
    p = (fun w' => is_task (tw_run w) (tw_id w) w' && (tw_status w' == Pending)) →
    count_tasks p db = 1%nat →
    scheduler_step db
      (update_tasks p (lease_task attempt worker hash expires (bu_tokens (tk_budget t))
                         (bu_cost (tk_budget t))) db)
| step_start db run w doc t p routes at_us :
    find_run (tw_run w) db = Some run → rn_cancellation run = false →
    w ∈ db_tasks db → tw_status w = Leased → stored_task w = Ok (doc, t) →
    p = (fun w' => is_task (tw_run w) (tw_id w) w' && (tw_status w' == Leased)) →
    routes = (match tk_route t with
              | None => []
              | Some r => [{| rw_route := bd_digest r; rw_task := tw_digest w; rw_consumed_at := at_us |}]
              end) →
    (∀ x y, x ∈ routes → y ∈ db_routes db → rw_route y ≠ rw_route x ∧ rw_task y ≠ rw_task x) →
    scheduler_step db
      (update_tasks p mark_started (with_routes db (db_routes db ++ routes)))
| step_cancel db run_id run :
    find_run run_id db = Some run → rn_status run = "active" →
    scheduler_step db
      (update_tasks (fun w => (tw_run w == run_id) && (tw_status w == Started)) request_cancellation
         (update_tasks (fun w => (tw_run w == run_id) && (tw_status w in? [Pending; Leased])) cancel_task
            (update_runs (fun r => rn_id r == run_id) cancelling db)))
| step_handoff db h source target doc t :
    find_task (hw_run h) (hw_from h) db = Some source → tw_status source = Succeeded →
    find_task (hw_run h) (hw_to h) db = Some target → tw_status target = Pending →
    stored_task target = Ok (doc, t) → hw_from h ∈ tk_dependencies t →
    hw_artifact h = bd_digest (tk_input t) →
    find_handoff (hw_run h) (hw_from h) (hw_to h) db = None →
    document_ok (hw_document h) (hw_digest h) = Ok tt →
    scheduler_step db (with_handoffs db (db_handoffs db ++ [h]))
| step_finish db run_id status document :
    (∀ w, w ∈ tasks_of run_id db → is_terminal w = true) →
    status = summary (map (fun w => status_text (tw_status w)) (order_by tw_id (tasks_of run_id db))) →
    scheduler_step db
      (update_runs (fun r => (rn_id r == run_id) && negb (is_some (rn_result r)))
         (finish status document) db).

(** ** The invariant *)

(** What the status of a row says about its other columns. *)
Record task_wf (w : task_row) : Prop := {
  tf_reserved : 0 ≤ tw_reserved_tokens w ∧ 0 ≤ tw_reserved_cost w;
  tf_charged : 0 ≤ tw_charged_tokens w ∧ 0 ≤ tw_charged_cost w;
  tf_open : is_terminal w = false → tw_charged_tokens w = 0 ∧ tw_charged_cost w = 0;
  tf_idle : tw_status w ≠ Leased → tw_status w ≠ Started →
            tw_reserved_tokens w = 0 ∧ tw_reserved_cost w = 0;
  tf_outcome : is_Some (tw_outcome w) ↔ tw_status w = Succeeded ∨ tw_status w = Failed;
}.

(** The effect of the task was begun, and not cancelled since. *)
Definition begun (w : task_row) : Prop :=
  tw_status w = Started ∨ tw_status w = Succeeded ∨ tw_status w = Failed ∨ tw_status w = Ambiguous.

Record scheduled (db : team_db) : Prop := {
  sc_runs : NoDup (map rn_id (db_runs db));
  sc_keys : NoDup (map (fun w => (tw_run w, tw_id w)) (db_tasks db));
  sc_digests : NoDup (map tw_digest (db_tasks db));
  sc_rows : ∀ w, w ∈ db_tasks db → task_wf w ∧ row_bound w;
  sc_owner : ∀ w, w ∈ db_tasks db → is_Some (find_run (tw_run w) db);
  sc_budget : ∀ r, r ∈ db_runs db →
    (_usage_locked (rn_id r) db).1 ≤ rn_max_tokens r ∧ (_usage_locked (rn_id r) db).2 ≤ rn_max_cost r;
  sc_active : ∀ r, r ∈ db_runs db → rn_status r = "active" →
    rn_cancellation r = false ∧ rn_result r = None;
  sc_cancelled : ∀ r w, r ∈ db_runs db → rn_cancellation r = true → w ∈ tasks_of (rn_id r) db →
    tw_status w ≠ Pending ∧ tw_status w ≠ Leased;
  sc_done : ∀ r w, r ∈ db_runs db → is_Some (rn_result r) → w ∈ tasks_of (rn_id r) db →
    is_terminal w = true;
  sc_routes : NoDup (map rw_route (db_routes db)) ∧ NoDup (map rw_task (db_routes db));
  sc_consumed : ∀ x, x ∈ db_routes db → ∃ w, w ∈ db_tasks db ∧ tw_digest w = rw_task x ∧
    tw_status w ≠ Pending ∧ tw_status w ≠ Leased;
  sc_ready : ∀ w doc t, w ∈ db_tasks db → tw_status w = Leased ∨ begun w →
    stored_task w = Ok (doc, t) → _dependencies_ready_locked t db = true;
  sc_routed : ∀ w doc t r, w ∈ db_tasks db → begun w → stored_task w = Ok (doc, t) →
    tk_route t = Some r →
    ∃ x, x ∈ db_routes db ∧ rw_route x = bd_digest r ∧ rw_task x = tw_digest w;
}.
End Spec.
