(* ===== verification/TeamInvariant.v ===== *)
(** * The scheduler keeps its invariant

    [changed] applies a function to every row of the tasks and of the runs and
    consumes routes; every step but the creation of a run and the recording of a
    handoff has this form, and [scheduled_changed] says when it keeps the
    invariant. *)

From S2P Require Import Prelude Json Digest PyTime PyClock Schema RouteRecords TeamContracts TeamStore TeamRuntime TeamEffects TeamSpec.

(** ** Lists *)

Lemma find_map {A} (p : A → bool) (g : A → A) l :
  (∀ x, x ∈ l → p (g x) = p x) → List.find p (map g l) = g <$> List.find p l.
Proof.
  induction l as [|x l IH]; intros Hp; [done|]. cbn [map List.find]. rewrite Hp by left.
  destruct (p x); [done|]. apply IH. intros y Hy. apply Hp. by right.
Qed.
Lemma filter_map {A} (p : A → bool) (g : A → A) l :
  (∀ x, x ∈ l → p (g x) = p x) → List.filter p (map g l) = map g (List.filter p l).
Proof.
  induction l as [|x l IH]; intros Hp; [done|]. cbn [map List.filter]. rewrite Hp by left.
  assert (List.filter p (map g l) = map g (List.filter p l)) as ->.
  { apply IH. intros y Hy. apply Hp. by right. }
  by destruct (p x).
Qed.
Lemma find_app {A} (p : A → bool) l l' :
  List.find p (l ++ l') = match List.find p l with Some x => Some x | None => List.find p l' end.
Proof. induction l as [|x l IH]; [done|]. cbn. by destruct (p x). Qed.
Lemma find_elem {A} (p : A → bool) l x : List.find p l = Some x → x ∈ l ∧ p x = true.
Proof. intros [Hin Hp]%List.find_some. split; [by apply list_elem_of_In|done]. Qed.
Lemma find_none_elem {A} (p : A → bool) l x : List.find p l = None → x ∈ l → p x = false.
Proof. intros Hn Hx. eapply List.find_none; [done|by apply list_elem_of_In]. Qed.
Lemma elem_filter {A} (p : A → bool) l x : x ∈ List.filter p l ↔ x ∈ l ∧ p x = true.
Proof. rewrite !list_elem_of_In. apply List.filter_In. Qed.
Lemma elem_map {A B} (f : A → B) l y : y ∈ map f l ↔ ∃ x, y = f x ∧ x ∈ l.
Proof. rewrite list_elem_of_fmap. done. Qed.
Lemma map_ext_elem {A B} (f g : A → B) l : (∀ x, x ∈ l → f x = g x) → map f l = map g l.
Proof. intros Hf. apply map_ext_in. intros x Hx. apply Hf. by apply list_elem_of_In. Qed.

Lemma sum_of_app {A} (f : A → Z) l l' : sum_of f (l ++ l') = sum_of f l + sum_of f l'.
Proof. unfold sum_of. induction l as [|x l IH]; cbn; lia. Qed.
(** A sum when the rows selected by [p] grow by at most [d] and no other grows. *)
Lemma sum_of_growth {A} (f : A → Z) (g : A → A) (p : A → bool) d l :
  0 ≤ d → (∀ x, x ∈ l → f (g x) ≤ f x + (if p x then d else 0)) →
  sum_of f (map g l) ≤ sum_of f l + d * Z.of_nat (length (List.filter p l)).
Proof.
  intros Hd. unfold sum_of. induction l as [|x l IH]; intros Hf; cbn; [lia|].
  assert (∀ x, x ∈ l → f (g x) ≤ f x + (if p x then d else 0)) as Hl by (intros y Hy; apply Hf; by right).
  specialize (IH Hl). specialize (Hf x ltac:(left)). destruct (p x); cbn [length]; lia.
Qed.
Lemma sum_of_mono {A} (f : A → Z) (g : A → A) l :
  (∀ x, x ∈ l → f (g x) ≤ f x) → sum_of f (map g l) ≤ sum_of f l.
Proof.
  intros Hf. unfold sum_of. induction l as [|x l IH]; cbn; [lia|].
  assert (f (g x) ≤ f x) by (apply Hf; left).
  assert (foldr (fun x n => f x + n) 0 (map g l) ≤ foldr (fun x n => f x + n) 0 l); [|lia].
  apply IH. intros y Hy. apply Hf. by right.
Qed.
Lemma sum_of_zero {A} (f : A → Z) l : (∀ x, x ∈ l → f x = 0) → sum_of f l = 0.
Proof.
  intros Hf. unfold sum_of. induction l as [|x l IH]; cbn; [done|]. rewrite Hf by left.
  rewrite IH; [done|]. intros y Hy. apply Hf. by right.
Qed.

(** ** Rows that keep their identity *)

Record keeps (w w' : task_row) : Prop := {
  kp_run : tw_run w' = tw_run w; kp_id : tw_id w' = tw_id w; kp_digest : tw_digest w' = tw_digest w;
  kp_document : tw_document w' = tw_document w; kp_terminal : is_terminal w = true → w' = w;
}.
Lemma keeps_refl w : keeps w w.
Proof. by constructor. Qed.
#[export] Hint Resolve keeps_refl : eco.

Lemma not_terminal w s : tw_status w = s → s ∉ _TERMINAL → is_terminal w = true → False.
Proof. unfold is_terminal. intros -> Hs Ht. by breflect. Qed.
Ltac no_terminal :=
  match goal with
  | H : tw_status ?w = _, Ht : is_terminal ?w = true |- _ =>
      exfalso; apply (not_terminal _ _ H); [|exact Ht]; unfold _TERMINAL;
      rewrite !not_elem_of_cons; split_and!; try done; apply not_elem_of_nil
  end.

Lemma move_keeps w w' : task_move w w' → keeps w w'.
Proof. destruct 1; constructor; try done; intros Ht; try no_terminal. destruct H; no_terminal. Qed.
Lemma start_keeps w : tw_status w = Leased → keeps w (mark_started w).
Proof. constructor; try done; intros Ht; no_terminal. Qed.
Lemma lease_keeps a b c d e f w : tw_status w = Pending → keeps w (lease_task a b c d e f w).
Proof. constructor; try done; intros Ht; no_terminal. Qed.

(** A run that keeps its identity and its limits. *)
Record keeps_run (r r' : run_row) : Prop := {
  kr_id : rn_id r' = rn_id r;
  kr_limits : rn_max_tokens r' = rn_max_tokens r ∧ rn_max_cost r' = rn_max_cost r;
}.

(** ** The form of most steps *)

Section Changed.
Context `{FromIso} `{Crypto} `{Jsonschema} `{DateTimeFormat}.
Context (db : team_db) (g : task_row → task_row) (h : run_row → run_row) (routes : list route_row).

Definition changed : team_db :=
  with_tasks (with_runs (with_routes db (db_routes db ++ routes)) (map h (db_runs db)))
    (map g (db_tasks db)).

Context (Hg : ∀ w, w ∈ db_tasks db → keeps w (g w)).

Lemma find_task_changed r i : find_task r i changed = g <$> find_task r i db.
Proof using Hg.
  unfold find_task. cbn [db_tasks changed with_tasks]. apply find_map. intros w Hw.
  destruct (Hg w Hw) as [E1 E2 _ _ _]. unfold is_task. by rewrite E1, E2.
Qed.
Lemma tasks_of_changed r : tasks_of r changed = map g (tasks_of r db).
Proof using Hg.
  unfold tasks_of. cbn [db_tasks changed with_tasks]. apply filter_map. intros w Hw.
  by rewrite (kp_run _ _ (Hg w Hw)).
Qed.
Lemma stored_task_changed w : w ∈ db_tasks db → stored_task (g w) = stored_task w.
Proof using Hg. intros Hw. unfold stored_task. by rewrite (kp_document _ _ (Hg w Hw)). Qed.

Lemma ready_changed t :
  _dependencies_ready_locked t db = true → _dependencies_ready_locked t changed = true.
Proof using Hg.
  unfold _dependencies_ready_locked. rewrite !forallb_forall. intros Hr x Hx. specialize (Hr x Hx).
  rewrite find_task_changed. destruct (find_task _ x db) as [w|] eqn:E; [|done].
  cbn [fmap option_fmap option_map]. apply andb_true_iff in Hr as [Hs Hh].
  pose proof Hs as Hs'. breflect. apply find_elem in E as [Hw _].
  rewrite (kp_terminal _ _ (Hg w Hw)), Hs'; [done|].
  unfold is_terminal. by rewrite Hs.
Qed.

Context (Hs : scheduled db).
Context (Hh : ∀ r, r ∈ db_runs db → keeps_run r (h r)).

Lemma find_run_changed r : find_run r changed = h <$> find_run r db.
Proof using Hh.
  unfold find_run. cbn [db_runs changed with_tasks with_runs]. apply find_map. intros x Hx.
  by rewrite (kr_id _ _ (Hh x Hx)).
Qed.

Lemma usage_changed_mono r :
  (∀ w, w ∈ tasks_of r db → usage_tokens (g w) ≤ usage_tokens w ∧ usage_cost (g w) ≤ usage_cost w) →
  (_usage_locked r changed).1 ≤ (_usage_locked r db).1 ∧
  (_usage_locked r changed).2 ≤ (_usage_locked r db).2.
Proof using Hg.
  intros Hu. unfold _usage_locked. cbn [fst snd]. rewrite tasks_of_changed.
  split; apply sum_of_mono; intros w Hw; by apply Hu.
Qed.

Lemma scheduled_changed :
  (∀ w, w ∈ db_tasks db → task_wf (g w)) →
  (∀ w, w ∈ db_tasks db → tw_status w ≠ Pending ∧ tw_status w ≠ Leased →
        tw_status (g w) ≠ Pending ∧ tw_status (g w) ≠ Leased) →
  (∀ r, r ∈ db_runs db →
     (_usage_locked (rn_id r) changed).1 ≤ rn_max_tokens r ∧
     (_usage_locked (rn_id r) changed).2 ≤ rn_max_cost r) →
  (∀ r, r ∈ db_runs db → rn_status (h r) = "active" →
     rn_cancellation (h r) = false ∧ rn_result (h r) = None) →
  (∀ r w, r ∈ db_runs db → rn_cancellation (h r) = true → w ∈ tasks_of (rn_id r) db →
     tw_status (g w) ≠ Pending ∧ tw_status (g w) ≠ Leased) →
  (∀ r w, r ∈ db_runs db → is_Some (rn_result (h r)) → w ∈ tasks_of (rn_id r) db →
     is_terminal (g w) = true) →
  (∀ w doc t, w ∈ db_tasks db → tw_status (g w) = Leased ∨ begun (g w) →
     stored_task w = Ok (doc, t) → _dependencies_ready_locked t db = true) →
  (∀ w doc t r, w ∈ db_tasks db → begun (g w) → stored_task w = Ok (doc, t) → tk_route t = Some r →
     ∃ x, x ∈ db_routes db ++ routes ∧ rw_route x = bd_digest r ∧ rw_task x = tw_digest w) →
  NoDup (map rw_route (db_routes db ++ routes)) ∧ NoDup (map rw_task (db_routes db ++ routes)) →
  (∀ x, x ∈ routes → ∃ w, w ∈ db_tasks db ∧ tw_digest w = rw_task x ∧
     tw_status (g w) ≠ Pending ∧ tw_status (g w) ≠ Leased) →
  scheduled changed.
Proof using Hg Hs Hh.
  intros Hwf Hst Hbud Hact Hcan Hdone Hready Hrouted Hnd Hcons.
  assert (∀ w', w' ∈ db_tasks changed → ∃ w, w' = g w ∧ w ∈ db_tasks db) as Hin by (intros w'; apply elem_map).
  constructor.
  - cbn [db_runs changed with_tasks with_runs]. rewrite map_map.
    rewrite (map_ext_elem _ rn_id); [apply Hs|]. intros r Hr. by rewrite (kr_id _ _ (Hh r Hr)).
  - cbn [db_tasks changed with_tasks]. rewrite map_map.
    rewrite (map_ext_elem _ (fun w => (tw_run w, tw_id w))); [apply Hs|]. intros w Hw.
    by destruct (Hg w Hw) as [-> -> _ _ _].
  - cbn [db_tasks changed with_tasks]. rewrite map_map.
    rewrite (map_ext_elem _ tw_digest); [apply Hs|]. intros w Hw. by destruct (Hg w Hw).
  - intros w' (w & -> & Hw)%Hin. split; [by apply Hwf|].
    intros doc t Ht. rewrite stored_task_changed in Ht by done.
    destruct (Hg w Hw) as [-> -> -> _ _]. by eapply (sc_rows db Hs w Hw).
  - intros w' (w & -> & Hw)%Hin. rewrite (kp_run _ _ (Hg w Hw)), find_run_changed.
    destruct (sc_owner db Hs w Hw) as [r ->]. by eexists.
  - intros r' (r & -> & Hr)%elem_map. destruct (Hh r Hr) as [-> [-> ->]]. by apply Hbud.
  - intros r' (r & -> & Hr)%elem_map. by apply Hact.
  - intros r' w' (r & -> & Hr)%elem_map Hc. rewrite tasks_of_changed, (kr_id _ _ (Hh r Hr)).
    intros (w & -> & Hw)%elem_map. by eapply Hcan.
  - intros r' w' (r & -> & Hr)%elem_map Hc. rewrite tasks_of_changed, (kr_id _ _ (Hh r Hr)).
    intros (w & -> & Hw)%elem_map. by eapply Hdone.
  - done.
  - intros x Hx. cbn [db_routes changed with_tasks with_runs with_routes] in Hx.
    apply elem_of_app in Hx as [Hx|Hx].
    + destruct (sc_consumed db Hs x Hx) as (w & Hw & Hd & Hp). exists (g w).
      split; [apply elem_map; by exists w|]. rewrite (kp_digest _ _ (Hg w Hw)). split; [done|]. by apply Hst.
    + destruct (Hcons x Hx) as (w & Hw & Hd & Hp). exists (g w).
      split; [apply elem_map; by exists w|]. by rewrite (kp_digest _ _ (Hg w Hw)).
  - intros w' doc t (w & -> & Hw)%Hin Hb Ht. rewrite stored_task_changed in Ht by done.
    apply ready_changed. by eapply Hready.
  - intros w' doc t r (w & -> & Hw)%Hin Hb Ht Hr. rewrite stored_task_changed in Ht by done.
    rewrite (kp_digest _ _ (Hg w Hw)). by eapply Hrouted.
Qed.
End Changed.

(** ** The moves of a row *)

Lemma effect_status r : te_status r = Succeeded ∨ te_status r = Failed.
Proof.
  pose proof (te_valid r) as Hv. unfold effect_ok in Hv. breflect.
  repeat match goal with H : _ ∈ _ :: _ |- _ => apply elem_of_cons in H as [H|H] end; auto.
  by apply elem_of_nil in H.
Qed.
Lemma effect_usage r : 0 ≤ te_used_tokens r ∧ 0 ≤ te_used_cost r.
Proof. pose proof (te_valid r) as Hv. unfold effect_ok in Hv. by breflect. Qed.

(** A status decides whether the row is terminal, begun, and so on. *)
Ltac by_status :=
  unfold begun, is_terminal, _TERMINAL in *; simpl in *;
  repeat match goal with
  | H : tw_status ?w = _ |- _ => rewrite H in *
  | H : te_status ?r = _ |- _ => rewrite H in *
  end;
  repeat match goal with
  | H : context [bool_decide ?P] |- _ =>
      let b := eval vm_compute in (bool_decide P) in change (bool_decide P) with b in H
  | |- context [bool_decide ?P] =>
      let b := eval vm_compute in (bool_decide P) in change (bool_decide P) with b
  end.

Lemma open_task w : task_wf w → tw_status w = Leased ∨ tw_status w = Started ∨ tw_status w = Pending →
  tw_charged_tokens w = 0 ∧ tw_charged_cost w = 0 ∧ tw_outcome w = None.
Proof.
  intros Hw Hs.
  assert (is_terminal w = false) as Ht by (unfold is_terminal; by destruct Hs as [->|[->| ->]]).
  destruct (tf_open _ Hw Ht). split_and!; [done..|]. apply eq_None_not_Some.
  rewrite (tf_outcome _ Hw). by destruct Hs as [->|[->| ->]]; intros [|].
Qed.

Lemma settled_wf s w :
  task_wf w → tw_status w = Started → s = Ambiguous ∨ s = Cancelled → task_wf (settle_reserved s w).
Proof.
  intros Hw Hs Hx. destruct (open_task w Hw ltac:(auto)) as (_ & _ & Ho).
  destruct (tf_reserved _ Hw). constructor; cbn; try done.
  - intros Ht. exfalso. unfold is_terminal in Ht. cbn in Ht. by destruct Hx as [-> | ->].
  - rewrite Ho. split; [by intros []|]. by destruct Hx as [-> | ->]; intros [|].
Qed.

Lemma move_wf w w' : task_move w w' → task_wf w → task_wf w'.
Proof.
  destruct 1 as [w Hs|w r Hs Ht Hc|w Hs|w Hs Hcn|w Hs|w Hs]; intros Hw.
  - destruct (open_task w Hw ltac:(auto)) as (E1 & E2 & Ho).
    constructor; cbn; rewrite ?Ho, ?E1, ?E2; try done. split; [by intros []|by intros [|]].
  - destruct (effect_usage r). constructor; cbn; try done.
    + intros Hn. exfalso. unfold is_terminal in Hn. cbn in Hn. by destruct (effect_status r) as [E|E]; rewrite E in Hn.
    + split; [intros _; apply effect_status|by eexists].
  - apply settled_wf; auto.
  - apply settled_wf; auto.
  - destruct (open_task w Hw) as (E1 & E2 & Ho); [destruct Hs; auto|].
    constructor; cbn; rewrite ?Ho, ?E1, ?E2; try done. split; [by intros []|by intros [|]].
  - destruct Hw. constructor; cbn; try done.
Qed.
Lemma move_usage w w' :
  task_move w w' → task_wf w → usage_tokens w' ≤ usage_tokens w ∧ usage_cost w' ≤ usage_cost w.
Proof.
  destruct 1 as [w Hs|w r Hs Ht Hc|w Hs|w Hs Hcn|w Hs|w Hs]; intros Hw;
    destruct (tf_reserved _ Hw), (tf_charged _ Hw); unfold usage_tokens, usage_cost; cbn; lia.
Qed.
Lemma move_settled w w' :
  task_move w w' → tw_status w ≠ Pending ∧ tw_status w ≠ Leased →
  tw_status w' ≠ Pending ∧ tw_status w' ≠ Leased.
Proof.
  destruct 1 as [w Hs|w r Hs Ht Hc|w Hs|w Hs Hcn|w Hs|w Hs]; cbn; intros [H1 H2]; try done.
  by destruct (effect_status r) as [-> | ->].
Qed.
Lemma move_begun w w' : task_move w w' → tw_status w' = Leased ∨ begun w' → begun w.
Proof.
  destruct 1 as [w Hs|w r Hs Ht Hc|w Hs|w Hs Hcn|w Hs|w Hs]; unfold begun; cbn; rewrite ?Hs;
    intros Hb; try (left; reflexivity); naive_solver.
Qed.

(** ** The steps *)

Section Steps.
Context `{FromIso} `{Crypto} `{Jsonschema} `{DateTimeFormat}.

Lemma update_tasks_changed p f db :
  update_tasks p f db = changed db (fun w => if p w then f w else w) (fun r => r) [].
Proof.
  unfold update_tasks, changed, with_tasks, with_runs, with_routes. cbn. f_equal.
  - by rewrite map_id.
  - by rewrite app_nil_r.
Qed.

Lemma keeps_run_refl r : keeps_run r r.
Proof. by constructor. Qed.

(** A task update that begins nothing. *)
Lemma scheduled_moves db p f :
  scheduled db → (∀ w, w ∈ db_tasks db → p w = true → task_move w (f w)) →
  scheduled (update_tasks p f db).
Proof.
  intros Hs Hm. rewrite update_tasks_changed.
  assert (∀ w, w ∈ db_tasks db → task_wf w) as Hwf by (intros w Hw; by apply (sc_rows _ Hs)).
  assert (∀ r w, w ∈ tasks_of r db → w ∈ db_tasks db) as Hof by (by intros r w [? ?]%elem_filter).
  apply scheduled_changed; try done.
  - intros w Hw. destruct (p w) eqn:E; [|auto with eco]. by apply move_keeps, Hm.
  - intros w Hw. destruct (p w) eqn:E; [eapply move_wf; [by apply Hm|]|]; auto.
  - intros w Hw. destruct (p w) eqn:E; [|done]. by apply move_settled, Hm.
  - intros r Hr. destruct (sc_budget _ Hs r Hr) as [H1' H2'].
    destruct (usage_changed_mono db (fun w => if p w then f w else w) (fun r => r) []) with (r := rn_id r)
      as [Hu1 Hu2]; [| |lia].
    + intros w Hw. destruct (p w) eqn:E; [|auto with eco]. by apply move_keeps, Hm.
    + intros w Hw%Hof. destruct (p w) eqn:E; [|done]. apply move_usage; [by apply Hm|auto].
  - intros r Hr. by apply (sc_active _ Hs).
  - intros r w Hr Hc Hw. pose proof (sc_cancelled _ Hs r w Hr Hc Hw) as Hn.
    destruct (p w) eqn:E; [|done]. eapply move_settled; [apply Hm; eauto|done].
  - intros r w Hr Hc Hw. pose proof (sc_done _ Hs r w Hr Hc Hw) as Hn.
    destruct (p w) eqn:E; [|done]. by rewrite (kp_terminal _ _ (move_keeps _ _ (Hm w (Hof _ _ Hw) E))).
  - intros w doc t Hw Hb Ht. apply (sc_ready _ Hs w doc t Hw); [|done].
    destruct (p w) eqn:E; [|done]. right. by eapply move_begun; [apply Hm|].
  - intros w doc t r Hw Hb Ht Hr. rewrite app_nil_r. apply (sc_routed _ Hs w doc t r Hw); [|done..].
    destruct (p w) eqn:E; [|done]. eapply move_begun; [by apply Hm|auto].
  - rewrite app_nil_r. apply Hs.
  - by intros x ?%elem_of_nil.
Qed.

Lemma scheduled_auth db meta auth events : scheduled db → scheduled (with_auth db meta auth events).
Proof. intros []. by constructor. Qed.
Lemma scheduled_manifest db row : scheduled db → scheduled (with_manifests db (db_manifests db ++ [row])).
Proof. intros []. by constructor. Qed.

Lemma unique_row db w w' :
  scheduled db → w ∈ db_tasks db → w' ∈ db_tasks db → is_task (tw_run w) (tw_id w) w' = true → w' = w.
Proof.
  intros Hs Hw Hw' Ht. unfold is_task in Ht. breflect.
  eapply (NoDup_map_inj (fun w => (tw_run w, tw_id w)) _ (sc_keys _ Hs)); [done..|cbn; congruence].
Qed.
Lemma unique_run db r r' :
  scheduled db → r ∈ db_runs db → r' ∈ db_runs db → rn_id r = rn_id r' → r = r'.
Proof. intros Hs Hr Hr' E. by eapply (NoDup_map_inj rn_id _ (sc_runs _ Hs)). Qed.

Lemma tasks_of_elem r db w : w ∈ tasks_of r db ↔ w ∈ db_tasks db ∧ tw_run w = r.
Proof. unfold tasks_of. rewrite elem_filter, bool_decide_eq_true. done. Qed.
Lemma find_run_elem db r run : find_run r db = Some run → run ∈ db_runs db ∧ rn_id run = r.
Proof. intros [Hin Hp]%find_elem. by breflect. Qed.
Lemma count_in_run p r db :
  (length (List.filter p (tasks_of r db)) ≤ count_tasks p db)%nat.
Proof.
  unfold count_tasks, tasks_of. induction (db_tasks db) as [|w l IH]; cbn; [done|].
  destruct (tw_run w == r); cbn; destruct (p w); cbn; lia.
Qed.

(** The usage of a run when the one task that [p] selects is claimed. *)
Lemma claim_usage (f : task_row → Z) g p d r db :
  0 ≤ d → count_tasks p db = 1%nat →
  (∀ w, w ∈ db_tasks db → f (g w) ≤ f w + (if p w then d else 0)) →
  sum_of f (map g (tasks_of r db)) ≤ sum_of f (tasks_of r db) + d.
Proof.
  intros Hd Hc Hf. pose proof (count_in_run p r db) as Hle. rewrite Hc in Hle.
  etrans; [apply (sum_of_growth f g p d); [done|]|nia].
  intros w [Hw _]%tasks_of_elem. by apply Hf.
Qed.

Lemma lease_wf w attempt worker hash expires tokens cost :
  task_wf w → tw_status w = Pending → 0 ≤ tokens → 0 ≤ cost →
  task_wf (lease_task attempt worker hash expires tokens cost w).
Proof.
  intros Hw Hp Ht Hc. destruct (open_task w Hw ltac:(auto)) as (E1 & E2 & Ho).
  constructor; cbn; rewrite ?E1, ?E2, ?Ho; try done. split; [by intros []|by intros [|]].
Qed.
Lemma start_wf w : task_wf w → tw_status w = Leased → task_wf (mark_started w).
Proof.
  intros Hw Hp. destruct (open_task w Hw ltac:(auto)) as (E1 & E2 & Ho).
  constructor; cbn; rewrite ?E1, ?E2, ?Ho; try done; [apply Hw|]. split; [by intros []|by intros [|]].
Qed.

Lemma scheduled_claim db run w doc t p attempt worker hash expires :
  scheduled db →
  find_run (tw_run w) db = Some run → rn_status run = "active" → rn_cancellation run = false →
  w ∈ db_tasks db → stored_task w = Ok (doc, t) → _dependencies_ready_locked t db = true →
  (_usage_locked (tw_run w) db).1 + bu_tokens (tk_budget t) ≤ rn_max_tokens run →
  (_usage_locked (tw_run w) db).2 + bu_cost (tk_budget t) ≤ rn_max_cost run →
  p = (fun w' => is_task (tw_run w) (tw_id w) w' && (tw_status w' == Pending)) →
  count_tasks p db = 1%nat →
  scheduled (update_tasks p (lease_task attempt worker hash expires (bu_tokens (tk_budget t))
                               (bu_cost (tk_budget t))) db).
Proof.
  intros Hs Hrun Hact Hcan Hw Ht Hready Hmt Hmc Ep Hcount.
  apply find_run_elem in Hrun as [Hrun Erun].
  assert (∀ w', w' ∈ db_tasks db → p w' = true → w' = w ∧ tw_status w' = Pending) as Hp.
  { intros w' Hw' Hp. rewrite Ep in Hp. apply andb_true_iff in Hp as [Hk Hst]. breflect.
    split; [by apply (unique_row db)|done]. }
  destruct (sc_rows _ Hs w Hw) as [Hwf Hb]. destruct (Hb doc t Ht) as (_ & _ & _ & Hbt & Hbc).
  destruct (sc_active _ Hs run Hrun Hact) as [_ Hres].
  assert (∀ r w', r ∈ db_runs db → w' ∈ tasks_of (rn_id r) db → p w' = true → r = run) as Hr.
  { intros r w' Hr [Hw' Er]%tasks_of_elem Hp'. destruct (Hp w' Hw' Hp') as [-> _].
    apply (unique_run db); try done. congruence. }
  set (lease := lease_task attempt worker hash expires (bu_tokens (tk_budget t)) (bu_cost (tk_budget t))).
  rewrite update_tasks_changed. apply scheduled_changed; try done.
  - intros w' Hw'. destruct (p w') eqn:E; [|auto with eco]. destruct (Hp w' Hw' E). by apply lease_keeps.
  - intros w' Hw'. destruct (p w') eqn:E; [|by apply (sc_rows _ Hs)].
    destruct (Hp w' Hw' E) as [-> ?]. by apply lease_wf.
  - intros w' Hw' Hn. destruct (p w') eqn:E; [|done]. by destruct (Hp w' Hw' E), Hn.
  - intros r Hrr. destruct (sc_budget _ Hs r Hrr) as [H1' H2'].
    unfold _usage_locked in *. cbn [fst snd] in *. rewrite tasks_of_changed.
    2:{ intros w' Hw'. destruct (p w') eqn:E; [|auto with eco]. destruct (Hp w' Hw' E). by apply lease_keeps. }
    destruct (decide (rn_id r = rn_id run)) as [Er|Hne].
    1: assert (r = run) as -> by (by apply (unique_run db)).
    + rewrite Erun in *. split.
      * etrans; [apply (claim_usage _ _ p (bu_tokens (tk_budget t)))|lia]; [done..|].
        intros w' Hw'. destruct (p w') eqn:E; [|lia]. destruct (Hp w' Hw' E) as [-> Hpend]. cbn.
        destruct (open_task w Hwf ltac:(auto)) as (-> & _ & _).
        destruct (tf_idle _ Hwf) as [-> _]; [congruence..|]. lia.
      * etrans; [apply (claim_usage _ _ p (bu_cost (tk_budget t)))|lia]; [done..|].
        intros w' Hw'. destruct (p w') eqn:E; [|lia]. destruct (Hp w' Hw' E) as [-> Hpend]. cbn.
        destruct (open_task w Hwf ltac:(auto)) as (_ & -> & _).
        destruct (tf_idle _ Hwf) as [_ ->]; [congruence..|]. lia.
    + split; (etrans; [apply sum_of_mono|done]); intros w' Hw'; destruct (p w') eqn:E; try done;
        exfalso; apply Hne; by rewrite (Hr r w').
  - by apply Hs.
  - intros r w' Hrr Hc Hw'. destruct (p w') eqn:E; [|by apply (sc_cancelled _ Hs r)].
    rewrite (Hr r w' Hrr Hw' E) in Hc. congruence.
  - intros r w' Hrr Hc Hw'. destruct (p w') eqn:E; [|by apply (sc_done _ Hs r)].
    rewrite (Hr r w' Hrr Hw' E), Hres in Hc. by destruct Hc.
  - intros w' doc' t' Hw' Hb' Ht'. destruct (p w') eqn:E; [|by apply (sc_ready _ Hs w' doc' t')].
    destruct (Hp w' Hw' E) as [-> _]. congruence.
  - intros w' doc' t' r Hw' Hb' Ht' Hrt. rewrite app_nil_r.
    destruct (p w') eqn:E; [|by apply (sc_routed _ Hs w' doc' t' r)].
    exfalso. by destruct Hb' as [|[|[|]]].
  - rewrite app_nil_r. apply Hs.
  - by intros x ?%elem_of_nil.
Qed.

Lemma scheduled_start db run w doc t p routes at_us :
  scheduled db →
  find_run (tw_run w) db = Some run → rn_cancellation run = false →
  w ∈ db_tasks db → tw_status w = Leased → stored_task w = Ok (doc, t) →
  p = (fun w' => is_task (tw_run w) (tw_id w) w' && (tw_status w' == Leased)) →
  routes = (match tk_route t with
            | None => []
            | Some r => [{| rw_route := bd_digest r; rw_task := tw_digest w; rw_consumed_at := at_us |}]
            end) →
  (∀ x y, x ∈ routes → y ∈ db_routes db → rw_route y ≠ rw_route x ∧ rw_task y ≠ rw_task x) →
  scheduled (update_tasks p mark_started (with_routes db (db_routes db ++ routes))).
Proof.
  intros Hs Hrun Hcan Hw Hst Ht Ep Eroutes Hnew.
  assert (∀ w', w' ∈ db_tasks db → p w' = true → w' = w ∧ tw_status w' = Leased) as Hp.
  { intros w' Hw' Hp. rewrite Ep in Hp. apply andb_true_iff in Hp as [Hk Hst']. breflect.
    split; [by apply (unique_row db)|done]. }
  assert (p w = true) as Hpw.
  { rewrite Ep. unfold is_task. by rewrite Hst, !bool_decide_true. }
  assert (update_tasks p mark_started (with_routes db (db_routes db ++ routes))
          = changed db (fun w => if p w then mark_started w else w) (fun r => r) routes) as ->.
  { unfold update_tasks, changed, with_tasks, with_runs, with_routes. cbn. by rewrite map_id. }
  assert (∀ w', w' ∈ db_tasks db → keeps w' (if p w' then mark_started w' else w')) as Hk.
  { intros w' Hw'. destruct (p w') eqn:E; [|auto with eco]. by apply start_keeps, Hp. }
  apply scheduled_changed; try done.
  - intros w' Hw'. destruct (p w') eqn:E; [|by apply (sc_rows _ Hs)].
    destruct (Hp w' Hw' E) as [-> ?]. apply start_wf; [by apply (sc_rows _ Hs)|done].
  - intros w' Hw' ?. by destruct (p w').
  - intros r Hr. destruct (sc_budget _ Hs r Hr).
    destruct (usage_changed_mono db (fun w => if p w then mark_started w else w) (fun r => r) routes Hk
                (rn_id r)); [|lia].
    intros w' _. by destruct (p w').
  - by apply Hs.
  - intros r w' Hr Hc Hw'. destruct (p w'); [done|by apply (sc_cancelled _ Hs r)].
  - intros r w' Hr Hc Hw'. pose proof (sc_done _ Hs r w' Hr Hc Hw') as Hd.
    destruct (p w') eqn:E; [|done]. apply tasks_of_elem in Hw' as [Hw' _].
    destruct (Hp w' Hw' E). no_terminal.
  - intros w' doc' t' Hw' Hb' Ht'. apply (sc_ready _ Hs w' doc' t' Hw'); [|done].
    destruct (p w') eqn:E; [|done]. left. by apply Hp.
  - intros w' doc' t' r Hw' Hb' Ht' Hrt. destruct (p w') eqn:E.
    + destruct (Hp w' Hw' E) as [-> _]. rewrite Ht in Ht'. injection Ht' as <- <-.
      rewrite Hrt in Eroutes. eexists. split; [rewrite Eroutes; apply elem_of_app; right; by left|done].
    + destruct (sc_routed _ Hs w' doc' t' r Hw' Hb' Ht' Hrt) as (x & Hx & Hd).
      exists x. split; [|done]. apply elem_of_app. by left.
  - rewrite !map_app. destruct (tk_route t) as [r|]; subst routes; cbn [map]; rewrite ?app_nil_r; [|apply Hs].
    split; apply NoDup_app; (split_and!; [apply Hs| |by apply NoDup_singleton]);
      intros x (y & -> & Hy)%elem_map Hin%list_elem_of_singleton;
      destruct (Hnew _ y ltac:(by left) Hy); done.
  - intros x Hx. destruct (tk_route t) as [r|]; subst routes; [|by apply elem_of_nil in Hx].
    apply list_elem_of_singleton in Hx as ->. exists w. by rewrite Hpw.
Qed.

Lemma summary_closed l : summary l ≠ "active".
Proof. unfold summary. by repeat case_match. Qed.

Lemma scheduled_finish db run_id document :
  scheduled db → (∀ w, w ∈ tasks_of run_id db → is_terminal w = true) →
  scheduled (update_runs (fun r => (rn_id r == run_id) && negb (is_some (rn_result r)))
               (finish (summary (map (fun w => status_text (tw_status w))
                                   (order_by tw_id (tasks_of run_id db)))) document) db).
Proof.
  intros Hs Hterm. set (u := update_runs _ _ db).
  assert (u = changed db (fun w => w)
            (fun r => if (rn_id r == run_id) && negb (is_some (rn_result r))
                      then finish (summary (map (fun w => status_text (tw_status w))
                                     (order_by tw_id (tasks_of run_id db)))) document r else r) []) as ->.
  { unfold u, update_runs, changed, with_tasks, with_runs, with_routes. cbn. by rewrite map_id, app_nil_r. }
  apply scheduled_changed; try done; auto with eco.
  - intros r Hr. by case_match.
  - intros w Hw. by apply (sc_rows _ Hs).
  - intros r Hr. destruct (sc_budget _ Hs r Hr). unfold _usage_locked in *. cbn [fst snd] in *.
    rewrite tasks_of_changed, map_id by auto with eco. done.
  - intros r Hr Ha. case_match; [by apply summary_closed in Ha|]. by apply (sc_active _ Hs).
  - intros r w Hr Hc. apply (sc_cancelled _ Hs r w Hr). by case_match.
  - intros r w Hr Hc Hw. destruct ((rn_id r == run_id) && _) eqn:E; [|by apply (sc_done _ Hs r)].
    breflect. subst. by apply Hterm.
  - intros w doc t. apply (sc_ready _ Hs).
  - intros w doc t r Hw Hb Ht Hr. rewrite app_nil_r. by eapply (sc_routed _ Hs).
  - rewrite app_nil_r. apply Hs.
  - by intros x ?%elem_of_nil.
Qed.

(** What cancelling a run does to a row. *)
Definition cancel_row (run_id : string) (w : task_row) : task_row :=
  let w' := if (tw_run w == run_id) && (tw_status w in? [Pending; Leased]) then cancel_task w else w in
  if (tw_run w' == run_id) && (tw_status w' == Started) then request_cancellation w' else w'.
Lemma cancel_row_cases run_id w :
  (tw_run w = run_id ∧ (tw_status w = Pending ∨ tw_status w = Leased) ∧ cancel_row run_id w = cancel_task w)
  ∨ (tw_run w = run_id ∧ tw_status w = Started ∧ cancel_row run_id w = request_cancellation w)
  ∨ ((tw_run w ≠ run_id ∨ is_terminal w = true) ∧ cancel_row run_id w = w).
Proof.
  unfold is_terminal. destruct (decide (tw_run w = run_id)) as [E|E].
  - assert (∀ w', tw_run w' = tw_run w → (tw_run w' == run_id) = true) as Er.
    { intros w' ->. by apply bool_decide_eq_true. }
    destruct (tw_status w) eqn:Es;
      [left|left|right; left|right; right|right; right|right; right|right; right];
      (split_and!; [by auto..|]) || (split; [by right|]);
      unfold cancel_row; rewrite (Er w eq_refl), Es; cbn [andb];
      try (change (_ in? [Pending; Leased]) with true); try (change (_ in? [Pending; Leased]) with false);
      cbv iota; rewrite ?Er, ?Es by done; reflexivity.
  - right. right. split; [by left|]. unfold cancel_row.
    by rewrite !(bool_decide_false (tw_run w = run_id)) by done.
Qed.
Lemma cancel_row_move run_id w : cancel_row run_id w = w ∨ task_move w (cancel_row run_id w).
Proof.
  destruct (cancel_row_cases run_id w) as [(_ & Hst & ->)|[(_ & Hst & ->)|(_ & ->)]]; [right|right|by left].
  - by constructor.
  - by constructor.
Qed.

Lemma scheduled_cancel db run_id run :
  scheduled db → find_run run_id db = Some run → rn_status run = "active" →
  scheduled
    (update_tasks (fun w => (tw_run w == run_id) && (tw_status w == Started)) request_cancellation
       (update_tasks (fun w => (tw_run w == run_id) && (tw_status w in? [Pending; Leased])) cancel_task
          (update_runs (fun r => rn_id r == run_id) cancelling db))).
Proof.
  intros Hs [Hrun Erun]%find_run_elem Hact. set (u := update_tasks _ _ _).
  assert (u = changed db (cancel_row run_id) (fun r => if rn_id r == run_id then cancelling r else r) []) as ->.
  { unfold u, update_tasks, update_runs, changed, with_tasks, with_runs, with_routes. cbn.
    rewrite map_map, app_nil_r. done. }
  destruct (sc_active _ Hs run Hrun Hact) as [_ Hres].
  assert (∀ r w, w ∈ tasks_of r db → w ∈ db_tasks db) as Hof by (by intros r w [? ?]%tasks_of_elem).
  apply scheduled_changed; try done.
  - intros w Hw. destruct (cancel_row_move run_id w) as [-> |Hm]; [auto with eco|by apply move_keeps].
  - intros r Hr. by case_match.
  - intros w Hw. destruct (cancel_row_move run_id w) as [-> |Hm]; [|eapply move_wf; [done|]];
      by apply (sc_rows _ Hs).
  - intros w Hw Hn. destruct (cancel_row_move run_id w) as [-> |Hm]; [done|by eapply move_settled].
  - intros r Hr. destruct (sc_budget _ Hs r Hr).
    destruct (usage_changed_mono db (cancel_row run_id)
                (fun r => if rn_id r == run_id then cancelling r else r) []) with (r := rn_id r); [| |lia].
    + intros w Hw. destruct (cancel_row_move run_id w) as [-> |Hm]; [auto with eco|by apply move_keeps].
    + intros w Hw%Hof. destruct (cancel_row_move run_id w) as [-> |Hm]; [done|].
      apply move_usage; [done|]. by apply (sc_rows _ Hs).
  - intros r Hr Ha. case_match; [done|]. by apply (sc_active _ Hs).
  - intros r w Hr Hc Hw. pose proof Hw as [Hw1 Hw2]%tasks_of_elem. case_bool_decide as Er.
    + destruct (cancel_row_cases run_id w) as [(_ & _ & ->)|[(_ & Hst & ->)|([Hne|Ht] & ->)]]; cbn; [done| | |].
      * by rewrite Hst.
      * congruence.
      * unfold is_terminal in Ht. by split; intros Hst; rewrite Hst in Ht.
    + pose proof (sc_cancelled _ Hs r w Hr Hc Hw).
      destruct (cancel_row_move run_id w) as [-> |Hm]; [done|by eapply move_settled].
  - intros r w Hr Hc Hw. case_bool_decide as Er.
    + assert (r = run) as -> by (apply (unique_run db); congruence). cbn in Hc. rewrite Hres in Hc. by destruct Hc.
    + pose proof (sc_done _ Hs r w Hr Hc Hw) as Hd.
      destruct (cancel_row_move run_id w) as [-> |Hm]; [done|].
      by rewrite (kp_terminal _ _ (move_keeps _ _ Hm)).
  - intros w doc t Hw Hb Ht. apply (sc_ready _ Hs w doc t Hw); [|done].
    destruct (cancel_row_move run_id w) as [E|Hm]; [by rewrite E in Hb|right; by eapply move_begun].
  - intros w doc t r Hw Hb Ht Hr. rewrite app_nil_r. apply (sc_routed _ Hs w doc t r Hw); [|done..].
    destruct (cancel_row_move run_id w) as [E|Hm]; [by rewrite E in Hb|eapply move_begun; [done|auto]].
  - rewrite app_nil_r. apply Hs.
  - by intros x ?%elem_of_nil.
Qed.

(** More rows do not change what was ready. *)
Lemma ready_more db db' t :
  (∀ r i w, find_task r i db = Some w → find_task r i db' = Some w) →
  (∀ r f i h, find_handoff r f i db = Some h → find_handoff r f i db' = Some h) →
  _dependencies_ready_locked t db = true → _dependencies_ready_locked t db' = true.
Proof.
  intros Ht Hh. unfold _dependencies_ready_locked. rewrite !forallb_forall. intros Hr x Hx.
  specialize (Hr x Hx). destruct (find_task _ x db) as [w|] eqn:E; [|done]. rewrite (Ht _ _ _ E).
  apply andb_true_iff in Hr as [Hs Hr]. rewrite Hs. destruct (find_handoff _ x _ db) eqn:Eh; [|done].
  by rewrite (Hh _ _ _ _ Eh).
Qed.

Lemma scheduled_handoff db h : scheduled db → scheduled (with_handoffs db (db_handoffs db ++ [h])).
Proof.
  intros Hs. constructor; try apply Hs. intros w doc t Hw Hb Ht.
  apply (ready_more db); [done| |by eapply (sc_ready _ Hs w)].
  intros r f i x Hx. unfold find_handoff in *. cbn [db_handoffs with_handoffs]. by rewrite find_app, Hx.
Qed.

Lemma fresh_wf r w : fresh_task r w → task_wf w.
Proof.
  intros [_ Hs _ (E1 & E2 & E3 & E4) _ [E5 _]].
  constructor; rewrite ?E1, ?E2, ?E3, ?E4, ?E5, ?Hs; try done. split; [by intros []|by intros [|]].
Qed.

Lemma scheduled_create db run rows :
  scheduled db →
  find_run (rn_id run) db = None → rn_status run = "active" → rn_cancellation run = false →
  rn_result run = None → 0 ≤ rn_max_tokens run → 0 ≤ rn_max_cost run →
  Forall (fresh_task (rn_id run)) rows → Forall row_bound rows →
  NoDup (map tw_id rows) → NoDup (map tw_digest (db_tasks db ++ rows)) →
  scheduled (with_tasks (with_runs db (db_runs db ++ [run])) (db_tasks db ++ rows)).
Proof.
  intros Hs Hnone Hact Hcan Hres Hmt Hmc Hfresh Hbound Hids Hdig.
  rewrite Forall_forall in Hfresh, Hbound. set (db' := with_tasks _ _).
  assert (∀ r, r ∈ db_runs db → rn_id r ≠ rn_id run) as Hother.
  { intros r Hr E. pose proof (find_none_elem _ _ r Hnone Hr) as Hf. cbv beta in Hf.
    by apply bool_decide_eq_false in Hf. }
  assert (∀ w, w ∈ db_tasks db → tw_run w ≠ rn_id run) as Hrun.
  { intros w Hw E. destruct (sc_owner _ Hs w Hw) as [r Hr]. congruence. }
  assert (∀ w, w ∈ rows → tw_run w = rn_id run) as Hrow by (intros w Hw; by apply (Hfresh w Hw)).
  assert (∀ w, w ∈ rows → tw_status w = Pending) as Hpend by (intros w Hw; by apply (Hfresh w Hw)).
  assert (∀ r w, w ∈ tasks_of r db' → w ∈ tasks_of r db ∨ w ∈ rows) as Hof.
  { intros r w [[Hw|Hw]%elem_of_app Er]%tasks_of_elem; [left; by apply tasks_of_elem|by right]. }
  assert (∀ r w, r ∈ db_runs db → w ∈ tasks_of (rn_id r) db' → w ∈ tasks_of (rn_id r) db) as Hold.
  { intros r w Hr Hw. pose proof Hw as [_ Er]%tasks_of_elem.
    destruct (Hof _ _ Hw) as [|Hin]; [done|]. apply Hrow in Hin.
    exfalso. apply (Hother r Hr). congruence. }
  constructor.
  - cbn [db_runs db' with_tasks with_runs]. rewrite map_app. apply NoDup_app.
    split_and!; [apply Hs| |by apply NoDup_singleton].
    intros x (r & -> & Hr)%elem_map E%list_elem_of_singleton. by apply (Hother r Hr).
  - cbn [db_tasks db' with_tasks]. rewrite map_app. apply NoDup_app. split_and!; [apply Hs| |].
    + intros x (w & -> & Hw)%elem_map (w' & E & Hw')%elem_map. injection E as E _.
      apply (Hrun w Hw). rewrite E. by apply Hrow.
    + apply (NoDup_fmap_1 snd). rewrite <- list_fmap_compose. done.
  - done.
  - intros w [Hw|Hw]%elem_of_app; [by apply (sc_rows _ Hs)|]. split; [|by apply Hbound].
    by eapply fresh_wf, Hfresh.
  - intros w [Hw|Hw]%elem_of_app; unfold find_run; cbn [db_runs db' with_tasks with_runs]; rewrite find_app.
    + destruct (sc_owner _ Hs w Hw) as [r Hr]. unfold find_run in Hr. rewrite Hr. by eexists.
    + rewrite (Hrow w Hw). unfold find_run in Hnone. rewrite Hnone. cbn [List.find].
      rewrite bool_decide_true by done. by eexists.
  - assert (∀ r, r ∈ db_runs db → tasks_of (rn_id r) db' = tasks_of (rn_id r) db) as Hsame.
    { intros r Hr. unfold tasks_of. cbn [db_tasks db' with_tasks]. rewrite List.filter_app.
      assert (List.filter (fun w => tw_run w == rn_id r) rows = []) as ->; [|by rewrite app_nil_r].
      apply elem_of_nil_inv. intros w [Hw Ew]%elem_filter. breflect.
      apply (Hother r Hr). rewrite <- Ew. by apply Hrow. }
    intros r [Hr|Hr]%elem_of_app.
    + unfold _usage_locked. rewrite (Hsame r Hr). by apply (sc_budget _ Hs).
    + apply list_elem_of_singleton in Hr as ->. unfold _usage_locked. cbn [fst snd].
      assert (∀ w, w ∈ tasks_of (rn_id run) db' → w ∈ rows) as Hnew.
      { intros w Hw. destruct (Hof _ _ Hw) as [[Hin E]%tasks_of_elem|]; [|done]. by destruct (Hrun w Hin). }
      rewrite !sum_of_zero; [done|..]; intros w Hw%Hnew;
        destruct (fr_usage _ _ (Hfresh w Hw)) as (E1 & E2 & E3 & E4); lia.
  - intros r [Hr|Hr]%elem_of_app; [by apply (sc_active _ Hs)|]. by apply list_elem_of_singleton in Hr as ->.
  - intros r w [Hr|Hr]%elem_of_app Hc Hw; [by eapply (sc_cancelled _ Hs r); auto|].
    apply list_elem_of_singleton in Hr as ->. congruence.
  - intros r w [Hr|Hr]%elem_of_app Hc Hw; [by eapply (sc_done _ Hs r); auto|].
    apply list_elem_of_singleton in Hr as ->. rewrite Hres in Hc. by destruct Hc.
  - apply Hs.
  - intros x Hx. destruct (sc_consumed _ Hs x Hx) as (w & Hw & Hd). exists w.
    split; [|done]. apply elem_of_app. by left.
  - intros w doc t Hw Hb Ht. apply (ready_more db); [|done|].
    + intros r i x Hx. unfold find_task in *. cbn [db_tasks db' with_tasks]. by rewrite find_app, Hx.
    + apply elem_of_app in Hw as [Hw|Hw]; [by apply (sc_ready _ Hs w doc)|].
      unfold begun in Hb. rewrite (Hpend w Hw) in Hb. by destruct Hb as [|[|[|[]]]].
  - intros w doc t r Hw Hb Ht Hr. apply elem_of_app in Hw as [Hw|Hw]; [by apply (sc_routed _ Hs w doc t)|].
    unfold begun in Hb. rewrite (Hpend w Hw) in Hb. by destruct Hb as [|[|[]]].
Qed.

Lemma scheduler_step_scheduled db db' : scheduler_step db db' → scheduled db → scheduled db'.
Proof.
  destruct 1; intros Hs.
  - by apply scheduled_auth.
  - by apply scheduled_manifest.
  - by apply scheduled_create.
  - by apply scheduled_moves.
  - by eapply scheduled_claim.
  - by eapply scheduled_start.
  - by eapply scheduled_cancel.
  - by apply scheduled_handoff.
  - subst. by apply scheduled_finish.
Qed.
Lemma scheduler_steps_scheduled db db' : rtc scheduler_step db db' → scheduled db → scheduled db'.
Proof. induction 1; eauto using scheduler_step_scheduled. Qed.

Lemma empty_scheduled db :
  db_runs db = [] → db_tasks db = [] → db_routes db = [] → scheduled db.
Proof.
  intros E1 E2 E3. constructor; rewrite ?E1, ?E2, ?E3; try by repeat constructor.
  all: intros; match goal with Hx : _ ∈ [] |- _ => by apply elem_of_nil in Hx end.
Qed.
End Steps.
