(* ===== verification/TeamRefinement.v ===== *)
(** * The coordinator implements the scheduler

    A call of the coordinator, whatever its claims, clocks, gates and evidence,
    changes the tables by a sequence of the steps of [TeamSpec]; a call that
    raises changes nothing. *)

From S2P Require Import Prelude Json Digest PyTime PyClock PyFloat Schema RouteRecords JsonCanon TeamContracts TeamGraph TeamStore TeamRuntime TeamEffects TeamFacts TeamSpec TeamInvariant.

(** ** Calls *)

Inductive team_call : Type :=
| CreateRun (a : CreateArgs)
| ClaimTask (run_id task_id : string) (a : ClaimArgs) (clock : datetime)
| ClaimNext (run_id : string) (a : ClaimArgs) (clocks : nat → datetime)
| AuthorizeEffect (claim : LeaseClaim) (a : EffectArgs) (ev : evidence) (clock : datetime)
| StartEffect (claim : LeaseClaim) (a : EffectArgs) (au : ExecutionAuthorization) (clock : datetime)
| CompleteEffect (claim : LeaseClaim) (r : TaskEffectResult) (now clock clock' : datetime)
| MarkAmbiguous (claim : LeaseClaim) (now clock : datetime)
| ExpireLeases (run_id : string) (now clock : datetime)
| CancelRun (run_id : string) (now clock : datetime)
| AcknowledgeCancellation (claim : LeaseClaim) (now clock : datetime)
| RecordHandoff (handoff : list (string * json))
| FinalizeRun (run_id result_id : string) (now clock : datetime).

Section Refinement.
Context `{FromIso} `{Crypto} `{Jsonschema} `{DateTimeFormat}.

Definition run_call (c : coordinator) (db : team_db) (call : team_call) : coordinator * team_db :=
  match call with
  | CreateRun a => (create_run c db a).1
  | ClaimTask r t a k => (claim_task c db r t a k).1
  | ClaimNext r a ks => (claim_next c db r a ks).1
  | AuthorizeEffect cl a ev k => (authorize_effect c db cl a ev k).1
  | StartEffect cl a au k => (start_effect c db cl a au k).1
  | CompleteEffect cl r n k k' => (complete_effect c db cl r n k k').1
  | MarkAmbiguous cl n k => (mark_ambiguous c db cl n k).1
  | ExpireLeases r n k => (expire_leases c db r n k).1
  | CancelRun r n k => (cancel_run c db r n k).1
  | AcknowledgeCancellation cl n k => (acknowledge_cancellation c db cl n k).1
  | RecordHandoff h => (record_handoff c db h).1
  | FinalizeRun r i n k => (finalize_run c db r i n k).1
  end.

(** A call by any coordinator that opened the file. *)
Definition db_step (db db' : team_db) : Prop := ∃ c call, db' = (run_call c db call).2.

(** ** Transactions *)

Notation steps := (rtc scheduler_step).

Lemma write_auth_inv i c db db' :
  _write_state_auth_locked i c db = Ok db' → ∃ m a e, db' = with_auth db m a e.
Proof.
  unfold _write_state_auth_locked. cbv zeta. intros Hw.
  destruct i, (db_auth db) as [a|]; try discriminate;
    (destruct (_state_payload_locked _); [|discriminate]; guard Hw as E; injection Hw as <-; eauto).
Qed.
Lemma write_auth_steps i c db db1 db' :
  steps db db1 → _write_state_auth_locked i c db1 = Ok db' → steps db db'.
Proof.
  intros Hs (m & a & e & ->)%write_auth_inv. eapply rtc_r; [exact Hs|constructor].
Qed.

Lemma atomic_steps {A} db (r : result (team_db * A)) :
  (∀ db' a, r = Ok (db', a) → steps db db') → steps db (atomic db r).1.
Proof. intros Hr. destruct r as [[db' a]|e]; cbn; [by eapply Hr|done]. Qed.
Lemma transaction_steps {A} c db (body : team_db → result (team_db * A)) :
  (∀ db' a, body db = Ok (db', a) → steps db db') → steps db (transaction c db body).1.
Proof.
  intros Hb. apply atomic_steps. intros db' a Hr.
  destruct (_verify_state_locked c db); [|discriminate].
  destruct (body db) as [[db1 a1]|] eqn:E; [|discriminate].
  destruct (_write_state_auth_locked false c db1) as [db2|] eqn:Ew; [|discriminate].
  injection Hr as <- <-. eapply write_auth_steps; [by eapply Hb|done].
Qed.

Lemma find_task_elem r i db w :
  find_task r i db = Some w → w ∈ db_tasks db ∧ tw_run w = r ∧ tw_id w = i.
Proof. intros [Hin Hp]%find_elem. unfold is_task in Hp. by breflect. Qed.

(** ** Expiry *)

Lemma expire_steps db run_id now : steps db (_expire_locked run_id now db).1.
Proof.
  unfold _expire_locked. cbn [fst]. set (db1 := update_tasks _ _ db).
  apply rtc_l with db1; [|apply rtc_once].
  - apply step_tasks. intros w _ Hp. breflect. by constructor.
  - apply step_tasks. intros w _ Hp. unfold expired in Hp. breflect. by constructor.
Qed.
Lemma expire_runs db run_id now :
  db_runs (_expire_locked run_id now db).1 = db_runs db ∧
  db_manifests (_expire_locked run_id now db).1 = db_manifests db.
Proof. done. Qed.

(** ** Creating a run *)

(** What [check_tasks] has established of an entry. *)
Record checked_entry (m : Manifest) (run_id : string) (observed : Z) (x : string * (json * Task)) : Prop := {
  ce_valid : validate_record x.2.1 = Ok x.2.1; ce_task : as_task x.2.1 = Some x.2.2;
  ce_kind : kind_of x.2.1 = "TeamTask";
  ce_id : x.1 = tm_id (tk_meta x.2.2); ce_run : tm_run (tk_meta x.2.2) = run_id;
  ce_role : ∃ role, role_by_id (mf_roles m) (tk_role x.2.2) = Some role ∧
                    _assert_task_role x.2.2 role = Ok tt;
  ce_end : ∃ a b, _parse_time (tk_not_after x.2.2) = Ok a ∧ _parse_time (mf_deadline m) = Ok b ∧ a ≤ b;
}.

Lemma check_tasks_spec m run_id observed tasks checked checked' :
  check_tasks m run_id observed checked tasks = Ok checked' →
  NoDup (map fst checked) → Forall (checked_entry m run_id observed) checked →
  NoDup (map fst checked') ∧ Forall (checked_entry m run_id observed) checked' ∧
  length checked' = (length checked + length tasks)%nat.
Proof.
  revert checked. induction tasks as [|raw tasks IH]; intros checked Hc Hnd Hall; cbn [check_tasks] in Hc.
  { injection Hc as <-. rewrite Nat.add_0_r. done. }
  destruct (validate_record (JObj raw)) as [doc|] eqn:Ev; [|discriminate]. guard Hc as Ek.
  destruct (as_task doc) as [t|] eqn:Et; [|discriminate]. cbn [some_or] in Hc. guard Hc as Em.
  destruct (_parse_time (tm_created_at (tk_meta t))) as [created|]; [|discriminate]. guard Hc as Ec.
  destruct (_parse_time (tk_not_after t)) as [a|] eqn:Ea; [|discriminate].
  destruct (_parse_time (mf_deadline m)) as [b|] eqn:Eb; [|discriminate]. guard Hc as Eab.
  destruct (role_by_id (mf_roles m) (tk_role t)) as [role|] eqn:Er; [|discriminate].
  destruct (_assert_task_role t role) as [[]|] eqn:Ear; [|discriminate].
  pose proof (validate_record_id _ _ Ev) as ->. breflect.
  destruct (IH _ Hc) as (H1' & H2' & H3').
  - rewrite map_app. apply NoDup_app. split_and!; [done| |by apply NoDup_singleton].
    intros x Hx ->%list_elem_of_singleton. done.
  - apply Forall_app. split; [done|]. constructor; [|done].
    constructor; cbn; try done; eauto.
  - split_and!; [done..|]. rewrite H3', length_app. cbn. lia.
Qed.

Lemma insert_tasks_spec rows db db' :
  insert_tasks rows db = Ok db' → NoDup (map tw_digest (db_tasks db)) →
  db' = with_tasks db (db_tasks db ++ rows) ∧ NoDup (map tw_digest (db_tasks db ++ rows)).
Proof.
  revert db. induction rows as [|w rows IH]; intros db Hi Hnd; cbn [insert_tasks] in Hi.
  { injection Hi as <-. rewrite app_nil_r. by destruct db. }
  guard Hi as E. apply IH in Hi as [-> Hn]; cbn [db_tasks with_tasks] in *.
  - rewrite <- app_assoc in *. done.
  - rewrite map_app. apply NoDup_app. split_and!; [done| |by apply NoDup_singleton].
    intros x (w' & -> & Hw')%elem_map Hd%list_elem_of_singleton.
    assert (existsb (fun w' => is_task (tw_run w) (tw_id w) w' || (tw_digest w' == tw_digest w))
              (db_tasks db) = true) as Ht; [|congruence].
    apply existsb_exists. exists w'. split; [by apply list_elem_of_In|].
    rewrite (bool_decide_true (tw_digest w' = _)) by done. apply orb_true_r.
Qed.

Lemma new_row_fresh run_id x : fresh_task run_id (new_task_row run_id x).
Proof. by constructor. Qed.
Lemma new_row_bound m run_id observed x :
  checked_entry m run_id observed x → row_bound (new_task_row run_id x).
Proof.
  destruct x as [i [doc t]]. intros [Hv Ht Hk Hi Hr _ _] doc' t' Hst. cbn [fst snd] in *.
  rewrite (stored_task_canonical run_id i doc doc t) in Hst by done. injection Hst as <- <-.
  destruct (validated_task _ _ Hv Hk) as (t' & Et & Hb & _).
  assert (t' = t) as -> by congruence. destruct Hb. cbn. split_and!; try done; lia.
Qed.

(** ** Stored documents *)

Lemma document_ok_canonical o d :
  validate_record (JObj o) = Ok (JObj o) → stored_digest o = Some d →
  document_ok (canonical_json (JObj o)) d = Ok tt.
Proof.
  intros Hv Hd. pose proof (validate_record_inv _ _ Hv) as (_ & o' & _ & _ & [= <-] & _ & _ & _ & Ho & _).
  unfold document_ok. rewrite (document_canonical _ _ Hv), jnorm_obj, stored_digest_jnorm, Hd by done.
  by rewrite bool_decide_true.
Qed.
Lemma team_meta_digest o m : as_team_meta o = Some m → stored_digest o = Some (tm_digest m).
Proof.
  unfold as_team_meta, stored_digest. destruct (obj_at "metadata" o) as [md|]; [|done]. cbn [mbind option_bind].
  intros Hm. repeat match type of Hm with (str_at ?k md ≫= _) = _ =>
    destruct (str_at k md); [|done]; cbn [mbind option_bind] in * end. by injection Hm as <-.
Qed.
Lemma manifest_digest o m : as_manifest (JObj o) = Some m → stored_digest o = Some (mf_digest m).
Proof.
  unfold as_manifest, stored_digest. destruct (obj_at "metadata" o) as [md|]; [|done]. cbn [mbind option_bind].
  destruct (obj_at "spec" o) as [sp|]; [|done]. cbn [mbind option_bind].
  intros Hm. repeat match type of Hm with (?x ≫= _) = _ => destruct x; [|done]; cbn [mbind option_bind] in * end.
  by injection Hm as <-.
Qed.
Lemma task_digest o t : as_task (JObj o) = Some t → stored_digest o = Some (tm_digest (tk_meta t)).
Proof.
  unfold as_task. destruct (as_team_meta o) as [md|] eqn:E; [|done]. cbn [mbind option_bind]. intros Hm.
  repeat match type of Hm with (?x ≫= _) = _ => destruct x; [|done]; cbn [mbind option_bind] in Hm end.
  injection Hm as <-. by apply team_meta_digest.
Qed.
Lemma handoff_digest o h : as_handoff (JObj o) = Some h → stored_digest o = Some (tm_digest (ho_meta h)).
Proof.
  unfold as_handoff. destruct (as_team_meta o) as [md|] eqn:E; [|done]. cbn [mbind option_bind]. intros Hm.
  repeat match type of Hm with (?x ≫= _) = _ => destruct x; [|done]; cbn [mbind option_bind] in Hm end.
  injection Hm as <-. by apply team_meta_digest.
Qed.
Lemma new_row_document m run_id observed x :
  checked_entry m run_id observed x →
  document_ok (tw_document (new_task_row run_id x)) (tw_digest (new_task_row run_id x)) = Ok tt.
Proof.
  destruct x as [i [doc t]]. intros [Hv Ht _ _ _ _ _]. cbn [fst snd] in *.
  pose proof (validate_record_inv _ _ Hv) as (_ & o & _ & _ & -> & _).
  apply document_ok_canonical; [done|]. by apply task_digest.
Qed.

Lemma create_steps db candidate m run_id observed checked db' u :
  scheduled db → 0 ≤ mf_max_tokens m → 0 ≤ mf_max_cost m →
  document_ok (canonical_json candidate) (mf_digest m) = Ok tt →
  NoDup (map fst checked) → Forall (checked_entry m run_id observed) checked →
  create_locked candidate m run_id checked db = Ok (db', u) → steps db db'.
Proof.
  intros Hs Hmt Hmc Hdoc Hnd Hall Hc. unfold create_locked in Hc. cbv zeta in Hc.
  set (db1 := if existsb _ (db_manifests db) then db else _) in Hc.
  assert (steps db db1) as H01.
  { unfold db1. destruct (existsb _ _); [done|]. apply rtc_once. by constructor. }
  pose proof (scheduler_steps_scheduled _ _ H01 Hs) as Hs1. clearbody db1.
  destruct (List.find _ (db_manifests db1)) as [existing|]; [|discriminate].
  guard Hc as E1. guard Hc as E2.
  destruct (insert_tasks _ _) as [db2|] eqn:Ei; [|discriminate]. injection Hc as <- <-.
  apply insert_tasks_spec in Ei as [-> Hdig]; [|apply Hs1]. cbn [db_tasks with_runs] in *.
  etrans; [exact H01|]. apply rtc_once. apply step_create; try done.
  - cbn [rn_id]. by destruct (find_run run_id db1).
  - apply Forall_map, Forall_true. intros x. apply new_row_fresh.
  - apply Forall_map. cbn [rn_id]. rewrite sorted_items_perm.
    eapply Forall_impl; [exact Hall|]. intros x. apply new_row_bound.
  - rewrite map_map. cbn [tw_id new_task_row]. change (NoDup (sorted_items checked).*1).
    rewrite sorted_items_perm. done.
  - apply Forall_map. rewrite sorted_items_perm.
    eapply Forall_impl; [exact Hall|]. intros x. apply new_row_document.
Qed.

(** ** The other transactions *)

Lemma claim_steps g run_id task_id worker observed secs token db db' claim :
  scheduled db →
  claim_locked g run_id task_id worker observed secs token db = Ok (db', claim) → steps db db'.
Proof.
  intros Hs Hc. unfold claim_locked in Hc.
  destruct (_context_locked run_id db) as [[run manifest]|] eqn:Ec; [|discriminate].
  set (db1 := (_expire_locked run_id observed db).1) in Hc. guard Hc as Ea.
  pose proof (expire_steps db run_id observed) as H01. fold db1 in H01.
  pose proof (scheduler_steps_scheduled _ _ H01 Hs) as Hs1.
  assert (find_run run_id db1 = Some run) as Hrun.
  { unfold _context_locked in Ec. change (find_run run_id db1) with (find_run run_id db).
    destruct (find_run run_id db) as [r|]; [|discriminate].
    destruct (List.find _ (db_manifests db)) as [mr|]; [|discriminate].
    destruct (_document _) as [|[]]; congruence. }
  clearbody db1. clear Ec.
  destruct (find_task run_id task_id db1) as [w|] eqn:Ew; [|discriminate]. guard Hc as Ep.
  destruct (stored_task w) as [[doc t]|] eqn:Et; [|discriminate].
  destruct (_parse_time (tk_not_after t)) as [na|]; [|discriminate]. guard Hc as Ex. guard Hc as Er.
  destruct (guard_claim _ _ _ _ _); [|discriminate]. cbv zeta in Hc. guard Hc as Eb.
  destruct (plus_micros _ _) as [le|]; [|discriminate].
  destruct (as_manifest manifest) as [m|]; [|discriminate]. cbn [some_or] in Hc.
  destruct (_parse_time (mf_deadline m)) as [dl|]; [|discriminate]. guard Hc as En. injection Hc as <- <-.
  apply find_task_elem in Ew as (Hw & Hrw & Hiw). breflect.
  etrans; [exact H01|]. apply rtc_once. subst run_id task_id.
  eapply step_claim; try done; lia.
Qed.

Lemma assert_claim_inv b claim db w :
  _assert_claim_locked b claim db = Ok w →
  find_task (lc_run claim) (lc_task claim) db = Some w ∧ tw_digest w = lc_task_digest claim ∧
  tw_worker w = Some (lc_worker claim) ∧ tw_lease_hash w = Some (_claim_hash (lc_token claim)) ∧
  tw_lease_expires w = Some (epoch (lc_expires_at claim)) ∧ tw_attempt w = lc_attempt claim ∧
  (tw_status w = Leased ∨ b = true ∧ tw_status w = Started).
Proof.
  unfold _assert_claim_locked. destruct (find_task _ _ db) as [w0|]; [|discriminate].
  intros Hc. guard Hc as E. injection Hc as <-. breflect. split_and!; try done.
  match goal with Hin : _ ∈ (if b then _ else _) |- _ =>
    destruct b; rewrite !elem_of_cons, elem_of_nil in Hin; intuition congruence end.
Qed.
Lemma context_inv r db run manifest :
  _context_locked r db = Ok (run, manifest) →
  find_run r db = Some run ∧
  ∃ mr, List.find (fun m => mr_id m == rn_manifest run) (db_manifests db) = Some mr ∧
        _document (mr_document mr) = Ok manifest.
Proof.
  unfold _context_locked. destruct (find_run r db) as [run0|]; [|discriminate].
  destruct (List.find _ _) as [mr|] eqn:Ef; [|discriminate].
  destruct (_document (mr_document mr)) as [m|[]] eqn:Ed; try discriminate.
  intros [= <- <-]. eauto.
Qed.

Lemma start_steps c a claim au observed db db' u :
  scheduled db → start_locked c a claim au observed db = Ok (db', u) → steps db db'.
Proof.
  intros Hs Hc. unfold start_locked in Hc. cbv zeta in Hc.
  destruct (_assert_claim_locked false claim db) as [w|] eqn:Ew; [|discriminate].
  destruct (_context_locked _ db) as [[run manifest]|] eqn:Ec; [|discriminate].
  destruct (stored_task w) as [[doc t]|] eqn:Et; [|discriminate]. guard Hc as Ecan.
  destruct (guard_claim _ _ _ _ _); [|discriminate].
  destruct (gate_assert_current _ _ _ _ _ _ _); [|discriminate].
  destruct (_validate_route_locked _ _ _ _ _) as [d|]; [|discriminate].
  destruct (consume_route t d observed db) as [db1|] eqn:Er; [|discriminate]. guard Hc as En.
  injection Hc as <- <-. apply orb_false_iff in Ecan as [Ecan _].
  apply assert_claim_inv in Ew as (Hf & Hd & _ & _ & _ & _ & [Hst|[? _]]); [|done].
  apply context_inv in Ec as [Hrun _]. apply find_task_elem in Hf as (Hw & Hrw & Hiw).
  rewrite <- Hrw, <- Hiw in *.
  destruct (sc_rows _ Hs w Hw) as [_ Hb]. destruct (Hb doc t Et) as (_ & _ & Hdig & _).
  set (routes := match tk_route t with
                 | None => []
                 | Some r => [{| rw_route := bd_digest r; rw_task := tw_digest w;
                                 rw_consumed_at := epoch observed |}]
                 end).
  assert (db1 = with_routes db (db_routes db ++ routes) ∧
          ∀ x y, x ∈ routes → y ∈ db_routes db → rw_route y ≠ rw_route x ∧ rw_task y ≠ rw_task x)
    as [-> Hnew].
  { unfold consume_route in Er. unfold routes. destruct (tk_route t) as [r|].
    - guard Er as E1. guard Er as E2. rewrite Hdig in *. injection Er as <-. split; [done|].
      intros x y ->%list_elem_of_singleton Hy. cbn. split; intros Heq;
        (assert (existsb (fun r0 => (rw_route r0 == bd_digest r) || (rw_task r0 == tw_digest w))
                   (db_routes db) = true) as Ht; [|congruence]);
        apply existsb_exists; exists y; (split; [by apply list_elem_of_In|]);
        apply orb_true_iff; rewrite !bool_decide_eq_true; auto.
    - injection Er as <-. rewrite app_nil_r. split; [by destruct db|]. by intros x y ?%elem_of_nil. }
  apply rtc_once. eapply (step_start db run w doc t _ routes (epoch observed)); done.
Qed.

Lemma expire_observed_steps c observed db r : steps db (expire_observed c observed db r).1.
Proof.
  apply transaction_steps. intros db' n Hc. destruct (_context_locked r db); [|discriminate].
  assert (_expire_locked r observed db = (db', n)) as E by congruence.
  replace db' with (_expire_locked r observed db).1 by (by rewrite E).
  apply expire_steps.
Qed.

Lemma is_started_status claim w : is_started claim w = true → tw_status w = Started.
Proof. unfold is_started. intros Hp. by breflect. Qed.
(** The row a claim names is the only one. *)
Lemma claimed_row claim db w w' :
  scheduled db → find_task (lc_run claim) (lc_task claim) db = Some w → w' ∈ db_tasks db →
  is_task (lc_run claim) (lc_task claim) w' = true → w' = w.
Proof.
  intros Hs (Hw & <- & <-)%find_task_elem Hw' Ht. by eapply unique_row.
Qed.

Lemma complete_steps c claim r db db' u :
  scheduled db → complete_locked c claim r db = Ok (db', u) → steps db db'.
Proof.
  intros Hs Hc. unfold complete_locked in Hc.
  destruct (_verify_state_locked c db); [|discriminate].
  destruct (find_task _ _ db) as [w|] eqn:Ef; [|discriminate]. guard Hc as Ed.
  destruct (tw_status w in? [Succeeded; Failed]).
  { destruct (same_outcome w r); [|discriminate]. by injection Hc as <- <-. }
  destruct (_assert_claim_locked true claim db) as [w0|] eqn:Ew; [|discriminate]. guard Hc as Est. guard Hc as Eb.
  destruct (_write_state_auth_locked _ _ _) as [db2|] eqn:Ewr; [|discriminate]. injection Hc as <- <-.
  apply assert_claim_inv in Ew as (Hf & _). assert (w0 = w) as -> by congruence. breflect.
  eapply write_auth_steps; [|exact Ewr]. apply rtc_once, step_tasks. intros w' Hw' Hp.
  assert (w' = w) as ->.
  { eapply claimed_row; try done. unfold is_started in Hp. by apply andb_true_iff in Hp as [? _]. }
  constructor; [by apply (is_started_status claim)|lia|lia].
Qed.

Lemma acknowledge_steps claim db db' u :
  scheduled db → acknowledge_locked claim db = Ok (db', u) → steps db db'.
Proof.
  intros Hs Hc. unfold acknowledge_locked in Hc.
  destruct (_assert_claim_locked true claim db) as [w|] eqn:Ew; [|discriminate]. guard Hc as E.
  injection Hc as <- <-. apply assert_claim_inv in Ew as (Hf & _). breflect.
  apply rtc_once, step_tasks. intros w' Hw' Hp.
  rewrite (claimed_row claim db w w') by done. by constructor.
Qed.

Lemma cancel_steps run_id db db' u : cancel_locked run_id db = Ok (db', u) → steps db db'.
Proof.
  intros Hc. unfold cancel_locked in Hc.
  destruct (_context_locked run_id db) as [[run manifest]|] eqn:Ec; [|discriminate]. guard Hc as E.
  injection Hc as <- <-. apply context_inv in Ec as [Hrun _]. breflect.
  apply rtc_once. by eapply step_cancel.
Qed.

Lemma handoff_steps c candidate h db db' d :
  document_ok (canonical_json candidate) (tm_digest (ho_meta h)) = Ok tt →
  handoff_locked c candidate h db = Ok (db', d) → steps db db'.
Proof.
  intros Hdoc Hc. unfold handoff_locked in Hc. cbv zeta in Hc.
  destruct (_verify_state_locked c db); [|discriminate].
  destruct (_context_locked _ db) as [[run manifest]|]; [|discriminate]. guard Hc as Eb.
  destruct (find_task _ (ho_from_task h) db) as [source_row|] eqn:Es; [|discriminate].
  destruct (find_task _ (ho_to_task h) db) as [target_row|] eqn:Et; [|discriminate].
  destruct (stored_task source_row) as [[sdoc source]|]; [|discriminate].
  destruct (stored_task target_row) as [[tdoc target]|] eqn:Ett; [|discriminate]. guard Hc as Em.
  destruct (find_handoff _ _ _ db) as [dup|] eqn:Eh.
  { destruct (hw_digest dup == _); [|discriminate]. by injection Hc as <- <-. }
  guard Hc as Ei. destruct (_write_state_auth_locked _ _ _) as [db2|] eqn:Ew; [|discriminate].
  injection Hc as <- <-. breflect. eapply write_auth_steps; [|exact Ew]. apply rtc_once.
  eapply step_handoff; cbn; try done. congruence.
Qed.

Lemma finalize_steps c run_id result_id observed db db' doc :
  finalize_locked c run_id result_id observed db = Ok (db', doc) → steps db db'.
Proof.
  intros Hc. unfold finalize_locked in Hc. destruct (_verify_state_locked c db); [|discriminate].
  destruct (_context_locked _ db) as [[run manifest]|]; [|discriminate].
  destruct (rn_result run) as [stored|].
  { destruct (some_or ValueError (json_loads stored)); [|discriminate].
    destruct (validate_record _); [|discriminate]. destruct (result_id_of _); [|discriminate].
    guard Hc as Ei. by injection Hc as <- <-. }
  cbv zeta in Hc. guard Hc as Et. destruct (seal_record _) as [doc'|]; [|discriminate].
  destruct (validate_record doc'); [|discriminate]. guard Hc as En.
  destruct (_write_state_auth_locked _ _ _) as [db2|] eqn:Ew; [|discriminate]. injection Hc as <- <-.
  eapply write_auth_steps; [|exact Ew]. apply rtc_once. eapply step_finish; [|done].
  apply orb_false_iff in Et as [_ Et]. intros w Hw. unfold is_terminal.
  destruct (tw_status w in? _TERMINAL) eqn:E; [done|].
  assert (existsb (fun w => negb (tw_status w in? _TERMINAL)) (order_by tw_id (tasks_of run_id db)) = true)
    as Hx; [|congruence].
  apply existsb_exists. exists w. rewrite E. split; [|done]. apply list_elem_of_In.
  unfold order_by. by rewrite elem_of_py_sorted.
Qed.

Lemma authorize_unchanged c a claim ev observed db db' au :
  authorize_locked c a claim ev observed db = Ok (db', au) → db' = db.
Proof.
  unfold authorize_locked. cbv zeta. intros Hl.
  destruct (_assert_claim_locked false claim db) as [w|]; [|discriminate].
  destruct (_context_locked _ db) as [[run manifest]|]; [|discriminate].
  destruct (stored_task w) as [[doc t]|]; [|discriminate].
  destruct (_validate_route_locked _ _ _ _ _); [|discriminate].
  destruct (guard_claim _ _ _ _ _); [|discriminate].
  destruct (gate_authorize _ _ _ _ _ _); [|discriminate]. guard Hl as E. by injection Hl.
Qed.

(** ** Every call *)

Lemma answer_db {A} c (x : team_db * result A) : (answer c x).1.2 = x.1.
Proof. done. Qed.

Lemma create_run_steps c db a : scheduled db → steps db (create_run c db a).1.2.
Proof.
  intros Hs. unfold create_run. destruct (_observed_time _ _ _) as [c' [observed|e]]; [|done].
  destruct (create_checks _ _ _ _ _ _) as [[[candidate m] checked]|e] eqn:Ec; [|done]. cbn [fst snd].
  apply transaction_steps. intros db' u Hl. unfold create_checks in Ec.
  destruct (validate_record _) as [cand|] eqn:Ev; [|discriminate]. guard Ec as Ek.
  destruct (as_manifest cand) as [m0|] eqn:Em; [|discriminate]. cbn [some_or] in Ec.
  destruct (guard_manifest _ _ _); [|discriminate]. guard Ec as E1. guard Ec as E2.
  destruct (_parse_time (mf_created_at m0)); [|discriminate]. guard Ec as E3.
  destruct (_parse_time (mf_deadline m0)); [|discriminate]. guard Ec as E4.
  destruct (check_tasks _ _ _ _ _) as [ch|] eqn:Et; [|discriminate].
  destruct (_assert_acyclic _ _); [|discriminate]. destruct (check_children _ _ _); [|discriminate].
  injection Ec as <- <- <-. breflect.
  pose proof (validate_record_id _ _ Ev) as ->.
  destruct (validated_manifest _ Ev Ek) as (m' & Em' & Hmt & Hmc & _).
  assert (m' = m0) as -> by congruence.
  apply check_tasks_spec in Et as (Hnd & Hall & _); [|constructor|constructor].
  eapply create_steps; try done. apply document_ok_canonical; [done|by apply manifest_digest].
Qed.

Lemma claim_task_steps c db r t a k : scheduled db → steps db (claim_task c db r t a k).1.2.
Proof.
  intros Hs. unfold claim_task. destruct (_observed_time _ _ _) as [c' [observed|e]]; [|done].
  destruct (negb _); [done|]. rewrite answer_db. apply transaction_steps. intros db' claim.
  by apply claim_steps.
Qed.

Lemma claim_each_steps c db r a ks n last ids :
  scheduled db → steps db (claim_each c db r a ks n last ids).1.2.
Proof.
  revert c db n last. induction ids as [|i ids IH]; intros c db n last Hs; cbn [claim_each]; [done|].
  pose proof (claim_task_steps c db r i a (ks n) Hs) as H1'.
  destruct (claim_task c db r i a (ks n)) as [[c' db'] [claim|e]]; cbn [fst snd] in *; [done|].
  destruct e; try done. destruct (bool_decide _); [|done].
  etrans; [exact H1'|]. apply IH. by eapply scheduler_steps_scheduled.
Qed.

Lemma run_call_steps c db call : scheduled db → steps db (run_call c db call).2.
Proof.
  intros Hs. destruct call; cbn [run_call].
  - by apply create_run_steps.
  - by apply claim_task_steps.
  - unfold claim_next. destruct (_verify_state_locked c db); [|done]. by apply claim_each_steps.
  - unfold authorize_effect. destruct (_observed_time _ _ _) as [c' [observed|e]]; [|done].
    destruct (_ || _); [done|]. cbn [fst snd]. apply transaction_steps. intros db' u Hl.
    apply authorize_unchanged in Hl. by subst.
  - unfold start_effect. destruct (_observed_time _ _ _) as [c' [observed|e]]; [|done].
    destruct (negb _); [done|]. rewrite answer_db. apply transaction_steps. intros db' u.
    by apply start_steps.
  - unfold complete_effect. destruct (_observed_time _ _ _) as [c1 [observed|e]]; [|done].
    set (x := if lc_expires_at claim <=? observed then _ else _).
    assert (steps db x.1.2) as Hx.
    { unfold x. destruct (_ <=? _); [|done]. destruct (observed_at _ _ _) as [c2 [o'|e]]; [|done].
      rewrite answer_db. apply expire_observed_steps. }
    destruct x as [[c2 db2] [late|e]]; cbn [fst snd] in *; [|done].
    etrans; [exact Hx|]. unfold then_state. apply atomic_steps. intros db' u.
    apply complete_steps. by eapply scheduler_steps_scheduled.
  - unfold mark_ambiguous. destruct (_observed_time _ _ _) as [c' [observed|e]]; [|done].
    rewrite answer_db. unfold then_state. apply transaction_steps. intros db' u Hl.
    destruct (_assert_claim_locked true claim db) as [w|]; [|discriminate]. guard Hl as E.
    injection Hl as <- <-. apply rtc_once, step_tasks. intros w' _ Hp.
    constructor. by eapply is_started_status.
  - unfold expire_leases. destruct (_observed_time _ _ _) as [c' [observed|e]]; [|done].
    rewrite answer_db. apply expire_observed_steps.
  - unfold cancel_run. destruct (_observed_time _ _ _) as [c' [observed|e]]; [|done].
    rewrite answer_db. apply transaction_steps. intros db' u. apply cancel_steps.
  - unfold acknowledge_cancellation. destruct (_observed_time _ _ _) as [c' [observed|e]]; [|done].
    rewrite answer_db. apply transaction_steps. intros db' u. by apply acknowledge_steps.
  - unfold record_handoff. destruct (let! _ := _ in _) as [[candidate h]|e] eqn:Eh; [|done].
    cbn [fst snd]. apply atomic_steps. intros db' u. apply handoff_steps.
    destruct (validate_record (JObj handoff)) as [cand|] eqn:Ev; [|discriminate]. guard Eh as Ek.
    destruct (as_handoff cand) as [h0|] eqn:Ea; [|discriminate]. injection Eh as <- <-.
    pose proof (validate_record_id _ _ Ev) as ->.
    apply document_ok_canonical; [done|by apply handoff_digest].
  - unfold finalize_run. destruct (_observed_time _ _ _) as [c' [observed|e]]; [|done].
    rewrite answer_db. apply atomic_steps. intros db' u. apply finalize_steps.
Qed.

(** ** Databases that occur *)

(** A new file by a constructor, and then calls by any coordinators. *)
Inductive reachable : team_db → Prop :=
| reachable_new a db c : open_coordinator a None = (Some db, Ok c) → reachable db
| reachable_call db db' : reachable db → db_step db db' → reachable db'.

Lemma open_new_scheduled a db r : open_coordinator a None = (Some db, r) → scheduled db.
Proof.
  unfold open_coordinator. destruct (_ <? _)%nat; [discriminate|]. destruct (_ || _); [discriminate|].
  destruct (_utc _) as [t|]; [|discriminate]. unfold create_store. cbv zeta.
  destruct (_write_state_auth_locked _ _ _) as [db1|] eqn:E; cbn; intros [= <- _].
  - apply write_auth_inv in E as (m & x & e & ->). by apply empty_scheduled.
  - by apply empty_scheduled.
Qed.

Lemma db_step_steps db db' : scheduled db → db_step db db' → steps db db'.
Proof. intros Hs (c & call & ->). by apply run_call_steps. Qed.
Lemma db_steps_steps db db' : scheduled db → rtc db_step db db' → steps db db'.
Proof.
  intros Hs. induction 1 as [|db db1 db' H1' _ IH]; [done|].
  pose proof (db_step_steps _ _ Hs H1') as Hd. etrans; [exact Hd|].
  apply IH. by eapply scheduler_steps_scheduled.
Qed.
Lemma reachable_scheduled db : reachable db → scheduled db.
Proof.
  induction 1 as [a db c Ho|db db' _ IH Hd]; [by eapply open_new_scheduled|].
  by eapply scheduler_steps_scheduled; [apply db_step_steps|].
Qed.
End Refinement.
