(* ===== verification/TeamProofs.v ===== *)
(** * What never changes back

    [progress] compares two databases of one history: rows stay, a terminal row is
    final, what has left the claimable states never returns to them, and a run
    keeps its limits, its cancellation and its result. *)

From S2P Require Import Prelude Json Digest PyTime PyClock PyFloat Schema RouteRecords TeamContracts TeamGraph TeamStore TeamRuntime TeamEffects TeamFacts TeamSpec TeamInvariant TeamRefinement.

(** Neither claimable nor claimed: the effect was begun or can never begin. *)
Definition settled (w : task_row) : Prop := tw_status w ≠ Pending ∧ tw_status w ≠ Leased.

Record later_task (w w' : task_row) : Prop := {
  lt_keeps : keeps w w'; lt_settled : settled w → settled w';
}.
Record later_run (r r' : run_row) : Prop := {
  lr_keeps : keeps_run r r'; lr_cancelled : rn_cancellation r = true → rn_cancellation r' = true;
  lr_result : ∀ d, rn_result r = Some d → rn_result r' = Some d;
  lr_team : rn_team r' = rn_team r ∧ rn_project r' = rn_project r ∧ rn_manifest r' = rn_manifest r;
}.
#[export] Instance later_task_preorder : PreOrder later_task.
Proof.
  split; [by intros w; split; auto with eco|]. intros w1 w2 w3 [[a1 a2 a3 a4 a5] b1] [[c1 c2 c3 c4 c5] d1].
  split; [|by auto]. constructor; [congruence..|]. intros Ht. rewrite <- (a5 Ht). apply c5. by rewrite a5.
Qed.
#[export] Instance later_run_preorder : PreOrder later_run.
Proof.
  split; [by intros r; repeat split|]. intros r1 r2 r3 [[a1 [a2 a3]] b1 c1 (d1 & d2 & d3)]
    [[e1 [e2 e3]] f1 g1 (h1 & h2 & h3)].
  split; [split; [congruence|split; congruence]|auto|auto|split_and!; congruence].
Qed.

Record progress (db db' : team_db) : Prop := {
  pg_task : ∀ r i w, find_task r i db = Some w → ∃ w', find_task r i db' = Some w' ∧ later_task w w';
  pg_run : ∀ r x, find_run r db = Some x → ∃ x', find_run r db' = Some x' ∧ later_run x x';
  pg_handoff : ∀ r f t h, find_handoff r f t db = Some h → find_handoff r f t db' = Some h;
  pg_routes : ∀ x, x ∈ db_routes db → x ∈ db_routes db';
  pg_done : ∀ r x, find_run r db = Some x → is_Some (rn_result x) → tasks_of r db' = tasks_of r db;
}.

Lemma later_move w w' : task_move w w' → later_task w w'.
Proof. intros Hm. split; [by apply move_keeps|]. by apply move_settled. Qed.

Section Progress.
Context `{FromIso} `{Crypto} `{Jsonschema} `{DateTimeFormat}.

Lemma progress_refl db : progress db db.
Proof. split; try done; intros; eexists; (split; [done|reflexivity]). Qed.
Lemma progress_trans db1 db2 db3 : progress db1 db2 → progress db2 db3 → progress db1 db3.
Proof.
  intros [a1 a2 a3 a4 a5] [b1 b2 b3 b4 b5]. split; auto.
  - intros r i w Hw. destruct (a1 _ _ _ Hw) as (w2 & Hw2 & H12). destruct (b1 _ _ _ Hw2) as (w3 & Hw3 & H23).
    exists w3. split; [done|]. by etrans.
  - intros r x Hx. destruct (a2 _ _ Hx) as (x2 & Hx2 & H12). destruct (b2 _ _ Hx2) as (x3 & Hx3 & H23).
    exists x3. split; [done|]. exact (transitivity H12 H23).
  - intros r x Hx Hd. destruct (a2 _ _ Hx) as (x2 & Hx2 & H12). rewrite (b5 _ _ Hx2); [exact (a5 _ _ Hx Hd)|].
    destruct Hd as [d Hd]. exists d. by apply (lr_result _ _ H12).
Qed.

(** Steps of the form [changed]. *)
Lemma progress_changed db g h routes :
  scheduled db →
  (∀ w, w ∈ db_tasks db → later_task w (g w)) → (∀ r, r ∈ db_runs db → later_run r (h r)) →
  progress db (changed db g h routes).
Proof.
  intros Hs Hg Hh.
  assert (∀ w, w ∈ db_tasks db → keeps w (g w)) as Hk by (intros w Hw; by apply Hg).
  assert (∀ r, r ∈ db_runs db → keeps_run r (h r)) as Hkr by (intros r Hr; by apply Hh).
  split; try done.
  - intros r i w Hw. exists (g w). rewrite find_task_changed, Hw by done. split; [done|].
    apply Hg. by apply find_elem in Hw as [Hw _].
  - intros r x Hx. exists (h x). rewrite find_run_changed, Hx by done. split; [done|].
    apply Hh. by apply find_run_elem in Hx as [Hx _].
  - intros x Hx. apply elem_of_app. by left.
  - intros r x [Hx <-]%find_run_elem Hd. rewrite tasks_of_changed by done.
    rewrite (map_ext_elem g (fun w => w)); [by apply map_id|]. intros w Hw.
    apply kp_terminal; [|by eapply (sc_done _ Hs)]. apply Hk. by apply tasks_of_elem in Hw as [? _].
Qed.

Lemma later_lease a b c d e f w : tw_status w = Pending → later_task w (lease_task a b c d e f w).
Proof. intros Hp. split; [by apply lease_keeps|]. by intros [? _]. Qed.
Lemma later_start w : tw_status w = Leased → later_task w (mark_started w).
Proof. intros Hp. split; [by apply start_keeps|]. by intros [_ ?]. Qed.

Lemma scheduler_step_progress db db' : scheduled db → scheduler_step db db' → progress db db'.
Proof.
  intros Hs Hstep. destruct Hstep as [db meta auth events|db row _|db run rows Hnone Hact Hcan Hres _ _ Hfresh _ _ _ _
    |db p f Hm|db run w doc t p attempt worker hash expires _ _ _ _ _ _ _ _ Ep _
    |db run w doc t p routes at_us _ _ _ _ _ Ep _ _|db run_id run Hrun Hact
    |db h source target doc t _ _ _ _ _ _ _ _ _|db run_id status document _ _].
  - split; try done; intros; eexists; (split; [done|reflexivity]).
  - split; try done; intros; eexists; (split; [done|reflexivity]).
  - split; try done.
    + intros r i w Hw. exists w. unfold find_task in *. cbn [db_tasks with_tasks]. by rewrite find_app, Hw.
    + intros r x Hx. exists x. unfold find_run in *. cbn [db_runs with_tasks with_runs]. by rewrite find_app, Hx.
    + intros r x [Hx <-]%find_run_elem Hd. unfold tasks_of. cbn [db_tasks with_tasks].
      rewrite List.filter_app.
      assert (List.filter (fun w => tw_run w == rn_id x) rows = []) as ->; [|by rewrite app_nil_r].
      apply elem_of_nil_inv. intros w [Hw Ew]%elem_filter. breflect.
      rewrite Forall_forall in Hfresh. rewrite (fr_run _ _ (Hfresh w Hw)) in Ew.
      pose proof (find_none_elem _ _ x Hnone Hx) as Hf. cbv beta in Hf.
      by apply bool_decide_eq_false in Hf.
  - rewrite update_tasks_changed. apply progress_changed; [done| |by intros].
    intros w Hw. destruct (p w) eqn:E; [by apply later_move, Hm|done].
  - rewrite update_tasks_changed. apply progress_changed; [done| |by intros].
    intros w' Hw'. destruct (p w') eqn:E; [|done]. apply later_lease. rewrite Ep in E. by breflect.
  - assert (update_tasks p mark_started (with_routes db (db_routes db ++ routes))
            = changed db (fun w => if p w then mark_started w else w) (fun r => r) routes) as ->.
    { unfold update_tasks, changed, with_tasks, with_runs, with_routes. cbn. by rewrite map_id. }
    apply progress_changed; [done| |by intros].
    intros w' Hw'. destruct (p w') eqn:E; [|done]. apply later_start. rewrite Ep in E. by breflect.
  - set (u := update_tasks _ _ _).
    assert (u = changed db (cancel_row run_id) (fun r => if rn_id r == run_id then cancelling r else r) []) as ->.
    { unfold u, update_tasks, update_runs, changed, with_tasks, with_runs, with_routes. cbn.
      rewrite map_map, app_nil_r. done. }
    apply progress_changed; [done|..].
    + intros w Hw. destruct (cancel_row_move run_id w) as [-> |Hm]; [done|by apply later_move].
    + intros r Hr. case_match; [|done]. by repeat split.
  - split; try done; [intros; eexists; (split; [done|reflexivity])..|].
    intros r f i x Hx. unfold find_handoff in *. cbn [db_handoffs with_handoffs]. by rewrite find_app, Hx.
  - set (u := update_runs _ _ db).
    assert (u = changed db (fun w => w)
              (fun r => if (rn_id r == run_id) && negb (is_some (rn_result r))
                        then finish status document r else r) []) as ->.
    { unfold u, update_runs, changed, with_tasks, with_runs, with_routes. cbn. by rewrite map_id, app_nil_r. }
    apply progress_changed; [done|by intros|]. intros r Hr. destruct (_ && _) eqn:E; [|done].
    apply andb_true_iff in E as [_ E]. split; try done. intros d Hd. by rewrite Hd in E.
Qed.

Lemma scheduler_steps_progress db db' : scheduled db → rtc scheduler_step db db' → progress db db'.
Proof.
  intros Hs Hsteps. revert Hs. induction Hsteps as [db|db db1 db' H1' _ IH]; intros Hs; [apply progress_refl|].
  eapply progress_trans; [by apply scheduler_step_progress|]. apply IH. by eapply scheduler_step_scheduled.
Qed.
Lemma db_steps_progress db db' : reachable db → rtc db_step db db' → progress db db'.
Proof.
  intros Hr Hsteps. pose proof (reachable_scheduled _ Hr) as Hs.
  apply scheduler_steps_progress; [done|]. by apply db_steps_steps.
Qed.
Lemma reachable_steps db db' : reachable db → rtc db_step db db' → reachable db'.
Proof. intros Hr. induction 1; eauto using reachable. Qed.

(** ** What a successful call has done *)

Lemma transaction_ok {A} c db (body : team_db → result (team_db * A)) db' a :
  transaction c db body = (db', Ok a) →
  _verify_state_locked c db = Ok tt ∧
  ∃ db1, body db = Ok (db1, a) ∧ _write_state_auth_locked false c db1 = Ok db'.
Proof.
  unfold transaction. destruct (_verify_state_locked c db) as [[]|]; [|discriminate].
  destruct (body db) as [[db1 a1]|] eqn:E; [|discriminate].
  destruct (_write_state_auth_locked false c db1) as [db2|] eqn:Ew; [|discriminate].
  intros [= <- <-]. split; [done|]. by exists db1.
Qed.

Lemma answer_inv {A} c (x : team_db * result A) c' db' r : answer c x = (c', db', r) → c' = c ∧ x = (db', r).
Proof. unfold answer. destruct x. by intros [= <- <- <-]. Qed.

(** [start_effect] returned: everything it compared. *)
Record effect_started (c : coordinator) (db : team_db) (claim : LeaseClaim) (a : EffectArgs)
    (au : ExecutionAuthorization) (observed : Z) : Prop := {
  es_binds : authorization_binds c claim au (worker_copy (ef_worker a)) observed = true;
  es_verified : _verify_state_locked c db = Ok tt;
  es_guards : ∃ w run manifest doc t d n,
    _assert_claim_locked false claim db = Ok w ∧
    _context_locked (lc_run claim) db = Ok (run, manifest) ∧ stored_task w = Ok (doc, t) ∧
    rn_cancellation run = false ∧ tw_cancellation w = false ∧
    guard_claim (ef_guard a) manifest doc (worker_copy (ef_worker a)) observed = Ok n ∧
    gate_assert_current (ef_gate a) manifest doc (worker_copy (ef_worker a)) (ea_evidence au)
      (ea_authorization au) observed = Ok tt ∧
    _validate_route_locked c t (ea_evidence au) observed db = Ok d ∧
    is_ok (consume_route t d observed db) = true;
}.
Lemma start_effect_ok c db claim a au clock c' db' u :
  start_effect c db claim a au clock = (c', db', Ok u) →
  ∃ observed, _observed_time c (ef_now a) clock = (c', Ok observed) ∧
    effect_started c' db claim a au observed ∧
    ∃ db1, start_locked c' a claim au observed db = Ok (db1, tt) ∧
           _write_state_auth_locked false c' db1 = Ok db'.
Proof.
  unfold start_effect. destruct (_observed_time _ _ _) as [c1 [observed|e]]; [|discriminate].
  destruct (authorization_binds _ _ _ _ _) eqn:Eb; cbn [negb]; [|discriminate].
  intros [-> Ht]%answer_inv. destruct u. apply transaction_ok in Ht as (Hv & db1 & Hl & Hw).
  exists observed. split; [done|]. split; [|by exists db1]. split; [done..|]. clear Hw.
  unfold start_locked in Hl. cbv zeta in Hl.
  destruct (_assert_claim_locked false claim db) as [w|] eqn:Ew; [|discriminate].
  destruct (_context_locked _ db) as [[run manifest]|] eqn:Ec; [|discriminate].
  destruct (stored_task w) as [[doc t]|] eqn:Et; [|discriminate]. guard Hl as Ecan.
  apply orb_false_iff in Ecan as [E1 E2].
  destruct (guard_claim _ _ _ _ _) as [n|] eqn:Eg; [|discriminate].
  destruct (gate_assert_current _ _ _ _ _ _ _) as [[]|] eqn:Ea; [|discriminate].
  destruct (_validate_route_locked _ _ _ _ _) as [d|] eqn:Er; [|discriminate].
  destruct (consume_route t d observed db) as [db2|] eqn:Ecr; [|discriminate].
  exists w, run, manifest, doc, t, d, n. split_and!; try done. by rewrite Ecr.
Qed.

(** [claim_task] returned: the run was active and the task claimable. *)
Lemma claim_task_ok c db r i a clock c' db' claim :
  claim_task c db r i a clock = (c', db', Ok claim) →
  ∃ run w observed, find_run r db = Some run ∧ rn_status run = "active" ∧ rn_cancellation run = false ∧
    find_task r i (_expire_locked r observed db).1 = Some w ∧ tw_status w = Pending.
Proof.
  unfold claim_task. destruct (_observed_time _ _ _) as [c1 [observed|e]]; [|discriminate].
  destruct (negb _); [discriminate|].
  intros [-> Ht]%answer_inv. apply transaction_ok in Ht as (Hv & db1 & Hl & Hw). clear Hw.
  unfold claim_locked in Hl. destruct (_context_locked r db) as [[run manifest]|] eqn:Ec; [|discriminate].
  guard Hl as Ea. destruct (find_task r i _) as [w|] eqn:Ew; [|discriminate]. guard Hl as Ep.
  apply context_inv in Ec as [Hrun _]. exists run, w, observed. breflect. done.
Qed.

(** ** Rows after a call *)

Lemma find_task_update r i p f db :
  (∀ w, is_task r i (f w) = is_task r i w) →
  find_task r i (update_tasks p f db) = (fun w => if p w then f w else w) <$> find_task r i db.
Proof.
  intros Hf. unfold find_task, update_tasks. cbn [db_tasks with_tasks]. apply find_map.
  intros w _. by destruct (p w).
Qed.
Lemma write_auth_tables i c db db' :
  _write_state_auth_locked i c db = Ok db' →
  db_tasks db' = db_tasks db ∧ db_runs db' = db_runs db ∧ db_routes db' = db_routes db ∧
  db_handoffs db' = db_handoffs db ∧ db_manifests db' = db_manifests db.
Proof. by intros (m & a & e & ->)%write_auth_inv. Qed.
Lemma find_task_same r i db db' : db_tasks db' = db_tasks db → find_task r i db' = find_task r i db.
Proof. intros E. unfold find_task. by rewrite E. Qed.
Lemma find_run_same r db db' : db_runs db' = db_runs db → find_run r db' = find_run r db.
Proof. intros E. unfold find_run. by rewrite E. Qed.
Lemma tasks_of_same r db db' : db_tasks db' = db_tasks db → tasks_of r db' = tasks_of r db.
Proof. intros E. unfold tasks_of. by rewrite E. Qed.

Lemma consume_route_inv t d observed db db' :
  consume_route t d observed db = Ok db' →
  db_tasks db' = db_tasks db ∧ db_runs db' = db_runs db ∧
  match tk_route t with
  | None => db' = db
  | Some route =>
      is_Some d ∧
      (∀ x, x ∈ db_routes db → rw_route x ≠ bd_digest route ∧ rw_task x ≠ tm_digest (tk_meta t)) ∧
      db_routes db' = db_routes db ++ [{| rw_route := bd_digest route; rw_task := tm_digest (tk_meta t);
                                          rw_consumed_at := epoch observed |}]
  end.
Proof.
  unfold consume_route. destruct (tk_route t) as [route|]; [|by intros [= ->]].
  intros Hc. guard Hc as E1. guard Hc as E2. injection Hc as <-. split_and!; try done.
  - apply negb_false_iff in E1. by destruct d.
  - intros x Hx. apply not_true_iff_false in E2. rewrite existsb_exists in E2. split; intros Hd; apply E2;
      exists x; (split; [by apply list_elem_of_In|]); apply orb_true_iff; rewrite !bool_decide_eq_true; auto.
Qed.

(** A start leaves the row started. *)
Lemma start_locked_row c a claim au observed db db' u :
  start_locked c a claim au observed db = Ok (db', u) →
  ∃ w, _assert_claim_locked false claim db = Ok w ∧
       find_task (lc_run claim) (lc_task claim) db' = Some (mark_started w).
Proof.
  unfold start_locked. cbv zeta. intros Hl.
  destruct (_assert_claim_locked false claim db) as [w|] eqn:Ew; [|discriminate].
  destruct (_context_locked _ db) as [[run manifest]|]; [|discriminate].
  destruct (stored_task w) as [[doc t]|]; [|discriminate]. guard Hl as Ecan.
  destruct (guard_claim _ _ _ _ _); [|discriminate].
  destruct (gate_assert_current _ _ _ _ _ _ _); [|discriminate].
  destruct (_validate_route_locked _ _ _ _ _) as [d|]; [|discriminate].
  destruct (consume_route t d observed db) as [db1|] eqn:Er; [|discriminate]. guard Hl as En.
  injection Hl as <- <-. exists w. split; [done|].
  apply assert_claim_inv in Ew as (Hf & _ & _ & _ & _ & _ & [Hst|[? _]]); [|done].
  apply consume_route_inv in Er as (Et & _).
  rewrite find_task_update, (find_task_same _ _ _ _ Et), Hf by done. cbn [fmap option_fmap option_map].
  apply find_task_elem in Hf as (_ & Hr & Hi). unfold is_task.
  by rewrite Hr, Hi, Hst, !bool_decide_true by done.
Qed.
Lemma start_effect_row c db claim a au clock c' db' u :
  start_effect c db claim a au clock = (c', db', Ok u) →
  ∃ w, find_task (lc_run claim) (lc_task claim) db = Some w ∧ tw_status w = Leased ∧
       find_task (lc_run claim) (lc_task claim) db' = Some (mark_started w).
Proof.
  intros (observed & _ & _ & db1 & Hl & Hw)%start_effect_ok.
  apply start_locked_row in Hl as (w & Ha & Hf). apply write_auth_tables in Hw as (Et & _).
  apply assert_claim_inv in Ha as (Hf0 & _ & _ & _ & _ & _ & [Hst|[? _]]); [|done].
  exists w. by rewrite (find_task_same _ _ _ _ Et).
Qed.

(** A settled task cannot be claimed or started. *)
Lemma settled_not_started c db claim a au clock w :
  find_task (lc_run claim) (lc_task claim) db = Some w → settled w →
  is_ok (start_effect c db claim a au clock).2 = false.
Proof.
  intros Hw [_ Hs]. destruct (start_effect _ _ _ _ _ _) as [[c' db'] [u|e]] eqn:E; [|done].
  apply start_effect_row in E as (w' & Hw' & Hl & _). congruence.
Qed.
Lemma expire_progress db r now : scheduled db → progress db (_expire_locked r now db).1.
Proof. intros Hs. apply scheduler_steps_progress; [done|]. apply expire_steps. Qed.
Lemma settled_not_claimed c db r i a clock w :
  scheduled db → find_task r i db = Some w → settled w → is_ok (claim_task c db r i a clock).2 = false.
Proof.
  intros Hs Hw Hset. destruct (claim_task _ _ _ _ _ _) as [[c' db'] [claim|e]] eqn:E; [|done].
  apply claim_task_ok in E as (run & w' & observed & _ & _ & _ & Hw' & Hp).
  destruct (pg_task _ _ (expire_progress db r observed Hs) _ _ _ Hw) as (w2 & Hw2 & Hl).
  assert (w2 = w') as -> by congruence. by destruct (lt_settled _ _ Hl Hset).
Qed.

Lemma cancel_run_cancels c db r now clock c' db' u :
  cancel_run c db r now clock = (c', db', Ok u) →
  ∃ run, find_run r db' = Some run ∧ rn_cancellation run = true.
Proof.
  unfold cancel_run. destruct (_observed_time _ _ _) as [c1 [observed|e]]; [|discriminate].
  intros [-> Ht]%answer_inv. apply transaction_ok in Ht as (_ & db1 & Hl & Hw).
  apply write_auth_tables in Hw as (_ & Er & _). rewrite (find_run_same _ _ _ Er).
  unfold cancel_locked in Hl. destruct (_context_locked r db) as [[run manifest]|] eqn:Ec; [|discriminate].
  guard Hl as E. injection Hl as <- _. apply context_inv in Ec as [Hrun _].
  exists (cancelling run). split; [|done]. unfold find_run, update_runs. cbn [db_runs update_tasks with_tasks with_runs].
  rewrite find_map by (intros x _; by case_match). unfold find_run in Hrun. rewrite Hrun.
  cbn [fmap option_fmap option_map]. apply find_elem in Hrun as [_ Hid]. by rewrite Hid.
Qed.
End Progress.
