(* ===== verification/TeamLifecycle.v ===== *)
(** * Leases, settlement and creation, call by call

    Expiry as a function of one row, and what a claim, a completion and the
    creation of a run have done when they return. *)

From S2P Require Import Prelude Json Digest PyTime PyClock PyFloat Schema RouteRecords JsonCanon TeamContracts TeamGraph TeamStore TeamRuntime TeamEffects TeamFacts TeamSpec TeamInvariant TeamRefinement TeamProofs.

(** What expiry does to a row. *)
Definition expire_row (run_id : string) (now : Z) (w : task_row) : task_row :=
  if expired run_id Started (epoch now) w then settle_reserved Ambiguous w
  else if expired run_id Leased (epoch now) w then release_lease w else w.

Lemma expired_status r s us w : expired r s us w = true → tw_status w = s ∧ tw_run w = r.
Proof. unfold expired. intros E. by breflect. Qed.

Section Lifecycle.
Context `{FromIso} `{Crypto} `{Jsonschema} `{DateTimeFormat}.

(** The list of identifiers in [_expire_locked] selects the expired rows only. *)
Lemma expired_listed db r us w :
  scheduled db → w ∈ db_tasks db →
  ((tw_run w == r) && (tw_id w in? map tw_id (List.filter (expired r Started us) (db_tasks db)))
   && (tw_status w == Started)) = expired r Started us w.
Proof.
  intros Hs Hw. apply eq_true_iff_eq. rewrite !andb_true_iff, !bool_decide_eq_true. split.
  - intros [[Er (w' & Ei & [Hw' He]%elem_filter)%elem_map] _].
    assert (w = w') as ->; [|done]. eapply unique_row; try done.
    apply expired_status in He as [_ Er']. unfold is_task. rewrite Er, Er', Ei. by rewrite !bool_decide_true.
  - intros He. pose proof (expired_status _ _ _ _ He) as [Es Er]. split_and!; [done| |done].
    apply elem_map. exists w. split; [done|]. by apply elem_filter.
Qed.
Lemma expire_view db r now :
  scheduled db →
  _expire_locked r now db
  = (with_tasks db (map (expire_row r now) (db_tasks db)),
     length (List.filter (expired r Started (epoch now)) (db_tasks db))).
Proof.
  intros Hs. unfold _expire_locked. f_equal. unfold update_tasks, with_tasks. cbn. f_equal.
  rewrite map_map. apply map_ext_elem. intros w Hw. rewrite expired_listed by done. unfold expire_row.
  destruct (expired r Started (epoch now) w) eqn:E; [|done].
  unfold expired at 1. cbn. by rewrite andb_false_r.
Qed.
Lemma expire_row_keeps r now w : keeps w (expire_row r now w).
Proof.
  unfold expire_row. destruct (expired r Started _ w) eqn:E1; [|destruct (expired r Leased _ w) eqn:E2; [|auto with eco]].
  - apply expired_status in E1 as [E1 _]. apply move_keeps. by constructor.
  - apply expired_status in E2 as [E2 _]. apply move_keeps. by constructor.
Qed.
Lemma find_task_expire db r now i :
  scheduled db → find_task r i (_expire_locked r now db).1 = expire_row r now <$> find_task r i db.
Proof.
  intros Hs. rewrite expire_view by done. unfold find_task. cbn [fst db_tasks with_tasks].
  apply find_map. intros w _. destruct (expire_row_keeps r now w) as [E1 E2 _ _ _]. unfold is_task. by rewrite E1, E2.
Qed.

Lemma observed_at_ok c assertion clock c' observed :
  observed_at c assertion clock = (c', Ok observed) → assertion ≤ observed ∧ c' = observe c observed.
Proof.
  unfold observed_at. destruct (_utc clock) as [t|]; [|discriminate].
  destruct (_ <? _); [discriminate|]. destruct (t <? assertion) eqn:E; [discriminate|].
  intros [= <- <-]. breflect. done.
Qed.
Lemma expire_observed_ok c observed db r db' n :
  expire_observed c observed db r = (db', Ok n) →
  _verify_state_locked c db = Ok tt ∧ is_ok (_context_locked r db) = true ∧
  ∃ db1, _expire_locked r observed db = (db1, n) ∧ _write_state_auth_locked false c db1 = Ok db'.
Proof.
  intros (Hv & db1 & Hb & Hw)%transaction_ok. destruct (_context_locked r db); [|discriminate].
  split_and!; [exact Hv|done|]. exists db1. split; [congruence|done].
Qed.

(** ** Completion *)

Record completed (c : coordinator) (db : team_db) (claim : LeaseClaim) (r : TaskEffectResult)
    (db' : team_db) (v : task_view) : Prop := {
  cm_row : ∃ w, find_task (lc_run claim) (lc_task claim) db' = Some w ∧ v = task_view_of w ∧
                same_outcome w r = true;
  cm_fresh : ∀ w, find_task (lc_run claim) (lc_task claim) db = Some w →
    tw_status w in? [Succeeded; Failed] = false →
    _assert_claim_locked true claim db = Ok w ∧ tw_status w = Started ∧
    te_used_tokens r ≤ tw_reserved_tokens w ∧ te_used_cost r ≤ tw_reserved_cost w;
}.

Lemma same_outcome_settled r w : same_outcome (settle_effect r w) r = true.
Proof. unfold same_outcome. cbn. by rewrite !bool_decide_true, !Z.eqb_refl. Qed.

Lemma complete_locked_ok c claim r db db' v :
  complete_locked c claim r db = Ok (db', tt) →
  task_state c db' (lc_run claim) (lc_task claim) = Ok v → completed c db claim r db' v.
Proof.
  intros Hc Hv. unfold task_state in Hv. destruct (_verify_state_locked c db'); [|discriminate].
  destruct (find_task _ _ db') as [w'|] eqn:Ew'; [|discriminate]. injection Hv as <-.
  unfold complete_locked in Hc. destruct (_verify_state_locked c db); [|discriminate].
  destruct (find_task _ _ db) as [w|] eqn:Ef; [|discriminate]. guard Hc as Ed.
  destruct (tw_status w in? [Succeeded; Failed]) eqn:Et.
  - destruct (same_outcome w r) eqn:Eo; [|discriminate]. injection Hc as <-. split; [exists w'; split_and!; congruence|].
    intros w2 Hw2 Hn. rewrite Ef in Hw2. injection Hw2 as <-. by rewrite Et in Hn.
  - destruct (_assert_claim_locked true claim db) as [w0|] eqn:Ea; [|discriminate]. guard Hc as Est. guard Hc as Eb.
    destruct (_write_state_auth_locked _ _ _) as [db2|] eqn:Ew; [|discriminate]. injection Hc as <-.
    pose proof Ea as (Hf & _)%assert_claim_inv. assert (w0 = w) as -> by congruence. breflect.
    apply write_auth_tables in Ew as (Etk & _). rewrite (find_task_same _ _ _ _ Etk), find_task_update, Ef in Ew' by done.
    apply find_task_elem in Ef as (_ & Hr & Hi).
    cbn [fmap option_fmap option_map] in Ew'. unfold is_started, is_task in Ew'.
    rewrite Hr, Hi, Est, !bool_decide_true in Ew' by done. injection Ew' as <-. split.
    + exists (settle_effect r w). split_and!; [|done|apply same_outcome_settled].
      rewrite (find_task_same _ _ _ _ Etk), find_task_update, Hf by done.
      cbn [fmap option_fmap option_map]. unfold is_started, is_task. by rewrite Hr, Hi, Est, !bool_decide_true by done.
    + intros w2 Hw2 _. assert (w2 = w) as -> by congruence. split_and!; [done|done|lia|lia].
Qed.

Lemma complete_effect_ok c db claim r now clock clock' c' db' v :
  complete_effect c db claim r now clock clock' = (c', db', Ok v) →
  ∃ c1 observed db1, _observed_time c now clock = (c1, Ok observed) ∧
    completed c' db1 claim r db' v ∧
    (db1 = db ∧ observed < lc_expires_at claim ∨
     lc_expires_at claim ≤ observed ∧
     ∃ observed' n, observed ≤ observed' ∧ expire_observed c' observed' db (lc_run claim) = (db1, Ok n)).
Proof.
  unfold complete_effect. destruct (_observed_time c now clock) as [c1 [observed|e]]; [|discriminate].
  set (x := if lc_expires_at claim <=? observed then _ else _). intros Hx.
  assert (∃ db1 n, x = (c', db1, Ok n) ∧
            then_state c' claim (atomic db1 (complete_locked c' claim r db1)) = (db', Ok v)) as (db1 & n & Ex & Ht).
  { destruct x as [[c2 db2] [n|e]]; [|discriminate]. apply answer_inv in Hx as [-> Hx]. eauto. }
  clear Hx. exists c1, observed, db1. split; [done|]. split.
  - unfold then_state in Ht. destruct (complete_locked c' claim r db1) as [[db2 []]|e] eqn:El; cbn [atomic fst snd] in Ht;
      [|discriminate]. injection Ht as -> Ht. by eapply complete_locked_ok.
  - unfold x in Ex. destruct (lc_expires_at claim <=? observed) eqn:E; breflect.
    + right. split; [done|]. destruct (observed_at c1 observed clock') as [c2 [o'|e]] eqn:Eo; [|discriminate].
      apply observed_at_ok in Eo as [Ho _]. apply answer_inv in Ex as [-> Ex]. eauto.
    + left. by injection Ex as <- <- <-.
Qed.

(** An effect that completes late was already settled. *)
Lemma complete_in_time c db claim r now clock clock' c' db' v w :
  scheduled db → complete_effect c db claim r now clock clock' = (c', db', Ok v) →
  find_task (lc_run claim) (lc_task claim) db = Some w → tw_status w in? [Succeeded; Failed] = false →
  tw_status w = Started ∧ te_used_tokens r ≤ tw_reserved_tokens w ∧ te_used_cost r ≤ tw_reserved_cost w ∧
  ∃ c1 observed, _observed_time c now clock = (c1, Ok observed) ∧ observed < lc_expires_at claim.
Proof.
  intros Hs (c1 & observed & db1 & Ho & Hc & [[-> Hlt]|(Hle & o' & n & Hoo & He)])%complete_effect_ok Hw Hn.
  - destruct (cm_fresh _ _ _ _ _ _ Hc w Hw Hn) as (_ & Hst & Ht & Hco). eauto 7.
  - exfalso. apply expire_observed_ok in He as (_ & _ & db2 & He & Hwr).
    apply write_auth_tables in Hwr as (Etk & _).
    assert (find_task (lc_run claim) (lc_task claim) db1 = Some (expire_row (lc_run claim) o' w)) as Hw1.
    { rewrite (find_task_same _ _ _ _ Etk). replace db2 with (_expire_locked (lc_run claim) o' db).1 by (by rewrite He).
      by rewrite find_task_expire, Hw. }
    assert (tw_status (expire_row (lc_run claim) o' w) in? [Succeeded; Failed] = false) as Hn1.
    { unfold expire_row. do 2 (case_match; [done|]). done. }
    destruct (cm_fresh _ _ _ _ _ _ Hc _ Hw1 Hn1) as (Ha & Hst & _).
    apply assert_claim_inv in Ha as (_ & _ & _ & _ & Hex & _).
    apply find_task_elem in Hw as (_ & Hr & _). clear -Hst Hex Hle Hoo Hr. revert Hst Hex. unfold expire_row.
    destruct (expired _ Started _ w) eqn:E1; [done|]. destruct (expired _ Leased _ w) eqn:E2; [done|].
    intros Hst Hex. unfold expired in E1. rewrite Hst, Hr, Hex, !bool_decide_true in E1 by done.
    cbn [andb] in E1. apply Z.leb_gt in E1. pose proof (epoch_mono (lc_expires_at claim) o'). lia.
Qed.

(** ** Claims *)

(** What a claim that returned found, and the row it left. *)
Record claim_granted (db : team_db) (r i : string) (a : ClaimArgs) (observed : Z) (claim : LeaseClaim)
    (run : run_row) (m : Manifest) (t : Task) (w : task_row) : Prop := {
  cg_run : find_run r db = Some run ∧ rn_status run = "active" ∧ rn_cancellation run = false;
  cg_row : find_task r i db = Some w ∧ tw_status (expire_row r observed w) = Pending;
  cg_task : ∃ doc, stored_task w = Ok (doc, t);
  cg_manifest : ∃ manifest, _context_locked r db = Ok (run, manifest) ∧ as_manifest manifest = Some m;
  cg_ready : _dependencies_ready_locked t (_expire_locked r observed db).1 = true;
  cg_seconds : 1 ≤ cl_lease_seconds a ≤ 3600;
  cg_expiry : ∃ not_after deadline,
    _parse_time (tk_not_after t) = Ok not_after ∧ _parse_time (mf_deadline m) = Ok deadline ∧
    observed < not_after ∧
    lc_expires_at claim
    = Z.min (Z.min (observed + cl_lease_seconds a * 1000000) not_after) deadline;
  cg_claim : lc_run claim = r ∧ lc_task claim = i ∧ lc_worker claim = _binding_digest (worker_copy (cl_worker a))
             ∧ lc_token claim = cl_token a ∧ lc_attempt claim = tw_attempt w + 1
             ∧ lc_task_digest claim = tm_digest (tk_meta t);
}.

Lemma plus_micros_ok t d t' : plus_micros t d = Ok t' → t' = t + d.
Proof. unfold plus_micros, utc_of. destruct (in_range _); [|discriminate]. by intros [= <-]. Qed.
Lemma expire_row_id r now w :
  tw_run (expire_row r now w) = tw_run w ∧ tw_id (expire_row r now w) = tw_id w ∧
  tw_document (expire_row r now w) = tw_document w ∧ tw_attempt (expire_row r now w) = tw_attempt w ∧
  tw_digest (expire_row r now w) = tw_digest w.
Proof. unfold expire_row. by do 2 (case_match; [done|]). Qed.

Lemma claim_task_granted c db r i a clock c' db' claim :
  scheduled db → claim_task c db r i a clock = (c', db', Ok claim) →
  ∃ observed run m t w,
    _observed_time c (cl_now a) clock = (c', Ok observed) ∧
    claim_granted db r i a observed claim run m t w ∧
    find_task r i db'
    = Some (lease_task (lc_attempt claim) (lc_worker claim) (_claim_hash (lc_token claim))
              (epoch (lc_expires_at claim)) (bu_tokens (tk_budget t)) (bu_cost (tk_budget t))
              (expire_row r observed w)).
Proof.
  intros Hs. unfold claim_task. destruct (_observed_time _ _ _) as [c1 [observed|e]]; [|discriminate].
  destruct (_ && _) eqn:Esec; cbn [negb]; [|discriminate].
  intros [-> (_ & db1 & Hl & Hw)%transaction_ok]%answer_inv. apply write_auth_tables in Hw as (Etk & _).
  unfold claim_locked in Hl. destruct (_context_locked r db) as [[run manifest]|] eqn:Ec; [|discriminate].
  pose proof (find_task_expire db r observed i Hs) as Hex.
  remember (_expire_locked r observed db).1 as dbx eqn:Edbx.
  guard Hl as Ea. rewrite Hex in Hl.
  destruct (find_task r i db) as [w|] eqn:Ew; cbn [fmap option_fmap option_map] in Hl, Hex; [|discriminate].
  guard Hl as Ep.
  destruct (stored_task (expire_row r observed w)) as [[doc t]|] eqn:Et; [|discriminate].
  destruct (_parse_time (tk_not_after t)) as [na|] eqn:Ena; [|discriminate]. guard Hl as Ex. guard Hl as Er.
  destruct (guard_claim _ _ _ _ _); [|discriminate]. cbv zeta in Hl. guard Hl as Eb.
  destruct (plus_micros _ _) as [le|] eqn:Epm; [|discriminate].
  destruct (as_manifest manifest) as [m|] eqn:Em; [|discriminate]. cbn [some_or] in Hl.
  destruct (_parse_time (mf_deadline m)) as [dl|] eqn:Edl; [|discriminate]. guard Hl as En. injection Hl as <- <-.
  apply plus_micros_ok in Epm as ->.
  destruct (expire_row_id r observed w) as (E1 & E2 & E3 & E4 & E5).
  assert (stored_task w = Ok (doc, t)) as Etw by (unfold stored_task in *; by rewrite <- E3).
  pose proof (context_inv _ _ _ _ Ec) as [Hrun _]. pose proof (find_task_elem _ _ _ _ Ew) as (_ & Hr & Hi).
  exists observed, run, m, t, w. breflect. split; [done|]. split.
  - split.
    + done.
    + done.
    + by exists doc.
    + by exists manifest.
    + by rewrite <- Edbx.
    + done.
    + by exists na, dl.
    + cbn. by rewrite E4.
  - cbn [lc_attempt lc_worker lc_token lc_expires_at].
    rewrite (find_task_same _ _ _ _ Etk), find_task_update, Hex by done.
    cbn [fmap option_fmap option_map]. unfold is_task. rewrite E1, E2, Hr, Hi, !bool_decide_true by done.
    by rewrite E4.
Qed.

(** The new lease is accepted by [_assert_claim_locked]. *)
Lemma granted_claim_accepted db r i claim db' tokens cost w :
  lc_run claim = r → lc_task claim = i → tw_digest w = lc_task_digest claim →
  find_task r i db' = Some (lease_task (lc_attempt claim) (lc_worker claim) (_claim_hash (lc_token claim))
              (epoch (lc_expires_at claim)) tokens cost (expire_row r db w)) →
  is_ok (_assert_claim_locked false claim db') = true.
Proof.
  intros <- <- Ed Hf. unfold _assert_claim_locked. rewrite Hf. cbn.
  destruct (expire_row_id (lc_run claim) db w) as (_ & _ & _ & _ & ->). rewrite Ed.
  by rewrite !bool_decide_true by done.
Qed.
End Lifecycle.

(** * Runs as they are created

    What the checks of [create_run] establish of the tasks, alone and along the
    chains of delegation, and the rows they become. *)

(** ** Authority that narrows *)

Section Authority.
Context `{FromIso}.

(** [b] ends no earlier than [a]. *)
Definition no_later (a b : string) : Prop :=
  ∃ x y, _parse_time a = Ok x ∧ _parse_time b = Ok y ∧ x ≤ y.
Definition budget_within (a b : team_budget) : Prop :=
  bu_tokens a ≤ bu_tokens b ∧ bu_cost a ≤ bu_cost b ∧ bu_seconds a ≤ bu_seconds b.

(** The child may do nothing its ancestor may not. *)
Record within (child ancestor : Task) : Prop := {
  wi_action : tk_action child = tk_action ancestor;
  wi_data : data_order (tk_data_class child) ≤ data_order (tk_data_class ancestor);
  wi_tool : tk_tool child = None ∨ tk_tool child = tk_tool ancestor;
  wi_place : tk_zone child = tk_zone ancestor ∧ tk_environment child = tk_environment ancestor
             ∧ tk_resource child = tk_resource ancestor;
  wi_end : no_later (tk_not_after child) (tk_not_after ancestor);
  wi_budget : budget_within (tk_budget child) (tk_budget ancestor);
}.
(** A task may do what its role allows. *)
Record allowed_by (t : Task) (role : TeamRole) : Prop := {
  al_action : tk_action t ∈ ro_actions role; al_data : tk_data_class t ∈ ro_data_classes role;
  al_tool : ∀ tool, tk_tool t = Some tool → tool ∈ ro_tool_ids role;
  al_zone : tk_zone t ∈ ro_zones role; al_end : no_later (tk_not_after t) (ro_not_after role);
  al_budget : budget_within (tk_budget t) (ro_budget role);
}.

Lemma no_later_trans a b c : no_later a b → no_later b c → no_later a c.
Proof. intros (x & y & Hx & Hy & H1') (y' & z & Hy' & Hz & H2'). exists x, z. split_and!; [done..|]. assert (y = y') by congruence. lia. Qed.
#[export] Instance within_trans : Transitive within.
Proof.
  intros a b c [a1 a2 a3 (a4 & a5 & a6) a7 (a8 & a9 & a10)] [b1 b2 b3 (b4 & b5 & b6) b7 (b8 & b9 & b10)].
  split; [congruence|lia| |split_and!; congruence|by eapply no_later_trans|split_and!; lia].
  destruct a3 as [a3|a3]; [by left|]. rewrite a3. done.
Qed.

Lemma task_role_allows t role : _assert_task_role t role = Ok tt → allowed_by t role.
Proof.
  unfold _assert_task_role. intros Hr. guard Hr as E1.
  destruct (_parse_time (tk_not_after t)) as [x|] eqn:Ex; [|discriminate].
  destruct (_parse_time (ro_not_after role)) as [y|] eqn:Ey; [|discriminate]. guard Hr as E2.
  breflect. split; try done; [|exists x, y; split_and!; [done..|lia]].
  intros tool Ht. rewrite Ht in *. by breflect.
Qed.
Lemma child_narrow_within parent child roles :
  _assert_child_narrow parent child roles = Ok tt →
  within child parent ∧ ∃ role, roles (tk_role parent) = Some role ∧ tk_role child ∈ ro_delegates_to role.
Proof.
  unfold _assert_child_narrow. destruct (roles (tk_role parent)) as [role|]; [|discriminate].
  cbn [some_or]. intros Hr. guard Hr as E1. guard Hr as E2.
  destruct (_parse_time (tk_not_after child)) as [x|] eqn:Ex; [|discriminate].
  destruct (_parse_time (tk_not_after parent)) as [y|] eqn:Ey; [|discriminate]. guard Hr as E3.
  breflect. split; [|by exists role]. split; try done; [|exists x, y; by split_and!].
  destruct (tk_tool parent) as [tool|]; breflect.
  - rewrite !elem_of_cons, elem_of_nil in *. intuition.
  - left. by destruct (tk_tool child).
Qed.

(** From a task to the tasks it was delegated by. *)
Inductive descends (checked : checked_tasks) : Task → Task → Prop :=
| descends_parent i doc t p parent :
    (i, (doc, t)) ∈ checked → tk_parent t = Some p → snd <$> find_checked checked p = Some parent →
    descends checked t parent
| descends_step a b c : descends checked a b → descends checked b c → descends checked a c.
End Authority.

(** ** The checks *)

Section Creation.
Context `{FromIso} `{Crypto} `{Jsonschema} `{DateTimeFormat}.

Lemma role_by_id_elem roles i r : role_by_id roles i = Some r → r ∈ roles ∧ ro_id r = i.
Proof. intros [Hin Hp]%find_elem. breflect. split; [|done]. apply list_elem_of_In. by apply in_rev, list_elem_of_In. Qed.

(** The roles of a validated manifest are within the manifest. *)
Lemma manifest_role_within m r :
  manifest_ok m = Ok true → r ∈ mf_roles m →
  bu_tokens (ro_budget r) ≤ mf_max_tokens m ∧ bu_cost (ro_budget r) ≤ mf_max_cost m.
Proof.
  unfold manifest_ok. destruct (manifest_checks m) as [b|e] eqn:Em; [|by destruct e].
  intros [= Hb] Hr. breflect. subst b. unfold manifest_checks in Em.
  destruct (team_time (mf_created_at m)); [|discriminate].
  destruct (team_time (mf_deadline m)) as [dl|]; [|discriminate].
  destruct (all_checks (role_checks m dl) _) as [b1|] eqn:E1; [|discriminate].
  destruct (all_checks (delegation_checks m) _) as [b2|]; [|discriminate].
  injection Em as Em. breflect. subst. pose proof (all_checks_elem _ _ _ E1 Hr) as Hc.
  unfold role_checks in Hc. destruct (team_time _); [|discriminate]. injection Hc as Hc. by breflect.
Qed.

Lemma check_children_elem m checked l i doc t :
  check_children m checked l = Ok tt → (doc, t) ∈ l → tk_parent t = Some i →
  ∃ x, find_checked checked i = Some x ∧ _assert_child_narrow x.2 t (role_by_id (mf_roles m)) = Ok tt.
Proof.
  induction l as [|[d' t'] l IH]; cbn [check_children]; [by intros _ ?%elem_of_nil|].
  intros Hc Hin Hp. destruct (match tk_parent t' with Some _ => _ | None => _ end) as [[]|] eqn:E; [|discriminate].
  apply elem_of_cons in Hin as [[= <- <-]|Hin]; [|by apply IH].
  rewrite Hp in E. destruct (find_checked checked i) as [x|]; [|discriminate]. by exists x.
Qed.

(** [check_tasks] keeps the records and their order. *)
Lemma check_tasks_records m run_id observed tasks checked checked' :
  check_tasks m run_id observed checked tasks = Ok checked' →
  ∃ l, checked' = checked ++ l ∧ Forall2 (fun raw x => x.2.1 = JObj raw) tasks l.
Proof.
  revert checked. induction tasks as [|raw tasks IH]; intros checked Hc; cbn [check_tasks] in Hc.
  { injection Hc as <-. exists []. by rewrite app_nil_r. }
  destruct (validate_record (JObj raw)) as [doc|] eqn:Ev; [|discriminate]. guard Hc as Ek.
  destruct (as_task doc) as [t|]; [|discriminate]. cbn [some_or] in Hc. guard Hc as Em.
  destruct (_parse_time (tm_created_at (tk_meta t))); [|discriminate]. guard Hc as Ec.
  destruct (_parse_time (tk_not_after t)); [|discriminate].
  destruct (_parse_time (mf_deadline m)); [|discriminate]. guard Hc as Eab.
  destruct (role_by_id _ _); [|discriminate]. destruct (_assert_task_role _ _); [|discriminate].
  apply IH in Hc as (l & -> & Hl). exists ((tm_id (tk_meta t), (doc, t)) :: l). split; [by rewrite <- app_assoc|].
  constructor; [|done]. cbn. by apply validate_record_id in Ev.
Qed.

(** What [create_checks] has established. *)
Record created_plan (stack : nat) (manifest : list (string * json)) (run_id : string)
    (tasks : list (list (string * json))) (observed : Z) (candidate : json) (m : Manifest)
    (checked : checked_tasks) : Prop := {
  cp_manifest : validate_record (JObj manifest) = Ok (JObj manifest) ∧ candidate = JObj manifest ∧
                as_manifest (JObj manifest) = Some m ∧ manifest_ok m = Ok true;
  cp_count : 1 ≤ Z.of_nat (length tasks) ≤ mf_max_tasks m;
  cp_limits : 0 ≤ mf_max_tokens m ∧ 0 ≤ mf_max_cost m;
  cp_ids : NoDup (map fst checked);
  cp_entries : Forall (checked_entry m run_id observed) checked;
  cp_records : Forall2 (fun raw x => x.2.1 = JObj raw) tasks checked;
  cp_acyclic : _assert_acyclic stack checked = Ok tt;
  cp_children : check_children m checked (map snd checked) = Ok tt;
}.
Lemma create_checks_plan g stack manifest run_id tasks observed candidate m checked :
  create_checks g stack manifest run_id tasks observed = Ok (candidate, m, checked) →
  created_plan stack manifest run_id tasks observed candidate m checked.
Proof.
  unfold create_checks. destruct (validate_record _) as [cand|] eqn:Ev; [|discriminate].
  intros Ec. guard Ec as Ek. destruct (as_manifest cand) as [m0|] eqn:Em; [|discriminate]. cbn [some_or] in Ec.
  destruct (guard_manifest _ _ _); [|discriminate]. guard Ec as E1. guard Ec as E2.
  destruct (_parse_time (mf_created_at m0)); [|discriminate]. guard Ec as E3.
  destruct (_parse_time (mf_deadline m0)); [|discriminate]. guard Ec as E4.
  destruct (check_tasks _ _ _ _ _) as [ch|] eqn:Et; [|discriminate].
  destruct (_assert_acyclic _ _) as [[]|] eqn:Ea; [|discriminate].
  destruct (check_children _ _ _) as [[]|] eqn:Ech; [|discriminate].
  injection Ec as <- <- <-. pose proof (validate_record_id _ _ Ev) as ->. breflect.
  destruct (validated_manifest _ Ev Ek) as (m' & Em' & Hmt & Hmc & Hok).
  assert (m' = m0) as -> by congruence.
  pose proof (check_tasks_spec _ _ _ _ _ _ Et ltac:(constructor) ltac:(constructor)) as (Hnd & Hall & _).
  apply check_tasks_records in Et as (l & -> & Hl).
  split; try done. split; [|lia]. match goal with E : (_ <? _)%nat = false |- _ => apply Nat.ltb_ge in E; lia end.
Qed.

Lemma find_checked_elem checked i x :
  find_checked checked i = Some x → (i, x) ∈ checked.
Proof.
  unfold find_checked. destruct (List.find _ checked) as [[j y]|] eqn:E; [|done].
  intros [= <-]. apply find_elem in E as [Hin Hp]. cbn in Hp. breflect. by subst.
Qed.

(** Delegated tasks are within every task above them. *)
Lemma descends_within stack manifest run_id tasks observed candidate m checked t anc :
  created_plan stack manifest run_id tasks observed candidate m checked →
  descends checked t anc → within t anc.
Proof.
  intros Hp. induction 1 as [i doc t p parent Hin Hpar Hf|a b c _ IH1 _ IH2]; [|by etrans].
  destruct (check_children_elem m checked (map snd checked) p doc t (cp_children _ _ _ _ _ _ _ _ Hp)) as (x & Hx & Hn);
    [apply elem_map; by exists (i, (doc, t))|done|].
  rewrite Hx in Hf. injection Hf as <-. by apply child_narrow_within in Hn as [? _].
Qed.

Lemma create_run_ok c db a c' db' d :
  create_run c db a = (c', db', Ok d) →
  ∃ observed candidate m checked,
    _observed_time c (cr_now a) (cr_clock a) = (c', Ok observed) ∧
    created_plan (cr_stack a) (cr_manifest a) (cr_run a) (cr_tasks a) observed candidate m checked ∧
    d = run_digest m (cr_run a) checked ∧
    ∃ db1, create_locked candidate m (cr_run a) checked db = Ok (db1, tt) ∧
           _write_state_auth_locked false c' db1 = Ok db'.
Proof.
  unfold create_run. destruct (_observed_time _ _ _) as [c1 [observed|e]]; [|discriminate].
  destruct (create_checks _ _ _ _ _ _) as [[[candidate m] checked]|e] eqn:Ec; [|discriminate].
  destruct (transaction c1 db _) as [db1 [u|e]] eqn:Et; cbn [fst snd]; [|by destruct e].
  cbn [integrity_as]. intros [= <- <- <-]. destruct u. apply transaction_ok in Et as (_ & db2 & Hl & Hw).
  exists observed, candidate, m, checked. split_and!; [done| |done|by exists db2].
  by eapply create_checks_plan.
Qed.

(** The rows of a new run. *)
Lemma create_locked_rows candidate m run_id checked db db' u :
  scheduled db → create_locked candidate m run_id checked db = Ok (db', u) →
  find_run run_id db = None ∧
  db_tasks db' = db_tasks db ++ map (new_task_row run_id) (sorted_items checked) ∧
  find_run run_id db'
  = Some {| rn_id := run_id; rn_manifest := mf_id m; rn_team := mf_team m;
            rn_project := mf_project m; rn_status := "active"; rn_cancellation := false;
            rn_max_tokens := mf_max_tokens m; rn_max_cost := mf_max_cost m; rn_result := None |}.
Proof.
  intros Hs Hc. unfold create_locked in Hc. cbv zeta in Hc.
  set (db1 := if existsb _ (db_manifests db) then db else _) in Hc.
  assert (db_tasks db1 = db_tasks db ∧ db_runs db1 = db_runs db) as [Et Er] by (unfold db1; by destruct (existsb _ _)).
  clearbody db1. destruct (List.find _ (db_manifests db1)) as [existing|]; [|discriminate].
  guard Hc as E1. guard Hc as E2. destruct (insert_tasks _ _) as [db2|] eqn:Ei; [|discriminate].
  injection Hc as <- <-. apply insert_tasks_spec in Ei as [-> _];
    [|cbn [db_tasks with_runs]; rewrite Et; apply Hs].
  cbn [db_tasks with_runs with_tasks]. rewrite Et.
  assert (find_run run_id db = None) as Hn.
  { rewrite <- (find_run_same _ _ _ Er). by destruct (find_run run_id db1). }
  split_and!; [done|done|]. unfold find_run in *. cbn [db_runs with_runs with_tasks].
  rewrite find_app, Er, Hn. cbn [List.find rn_id]. by rewrite bool_decide_true by done.
Qed.

Lemma find_task_unique db w : scheduled db → w ∈ db_tasks db → find_task (tw_run w) (tw_id w) db = Some w.
Proof.
  intros Hs Hw. destruct (find_task (tw_run w) (tw_id w) db) as [w'|] eqn:E.
  - apply find_elem in E as [Hw' Ht]. f_equal. by eapply unique_row.
  - pose proof (find_none_elem _ _ w E Hw) as Hf. unfold is_task in Hf. by rewrite !bool_decide_true in Hf.
Qed.
End Creation.
