(* ===== verification/TeamResults.v ===== *)
(** * Results of runs, and effects run through [execute_claimed] *)

From S2P Require Import Prelude Json Digest PyTime PyClock PyFloat Schema RouteRecords RouteRecordFacts JsonCanon TeamContracts ModelRequest TeamGraph TeamStore TeamRuntime TeamEffects TeamFacts TeamSpec TeamInvariant TeamRefinement TeamProofs TeamLifecycle.

(** A row as the result of its run lists it. *)
Definition result_task_of (w : task_row) : ResultTask :=
  {| rt_id := tw_id w; rt_status := status_text (tw_status w); rt_outcome := tw_outcome w;
     rt_tokens := tw_charged_tokens w; rt_cost := tw_charged_cost w |}.
Definition result_of_rows (run : run_row) (meta : TeamMeta) (rows : list task_row) : RunResult :=
  {| rr_meta := meta; rr_status := summary (map (fun w => status_text (tw_status w)) rows);
     rr_cancellation := rn_cancellation run; rr_tasks := map result_task_of rows;
     rr_tokens := sum_of tw_charged_tokens rows; rr_cost := sum_of tw_charged_cost rows |}.

Section Results.
Context `{FromIso} `{Crypto} `{Jsonschema} `{DateTimeFormat}.

Definition result_task_items (w : task_row) : list (string * json) :=
  [("id", JStr (tw_id w)); ("status", JStr (status_text (tw_status w)));
   ("outcomeDigest", json_of_optstr (tw_outcome w)); ("chargedTokens", JInt (tw_charged_tokens w));
   ("chargedCostMicrousd", JInt (tw_charged_cost w))].
Lemma result_tasks_read rows :
  mapM as_result_task (map result_task_items rows) = Some (map result_task_of rows).
Proof.
  induction rows as [|w rows IH]; [done|]. cbn [map mapM].
  assert (as_result_task (result_task_items w) = Some (result_task_of w)) as ->.
  { unfold result_task_of, result_task_items. by destruct (tw_outcome w). }
  cbn [mbind option_bind]. by rewrite IH.
Qed.
Lemma result_tasks_objs rows :
  mapM (fun x => match x with JObj v => Some v | _ => None end) (map result_task_json rows)
  = Some (map result_task_items rows).
Proof. induction rows as [|w rows IH]; [done|]. cbn [map mapM]. by rewrite IH. Qed.

(** The sealed record: only the digest is replaced. *)
Lemma result_record_sealed run i observed rows :
  seal_record (result_record run i observed rows)
  = Ok (JObj
      [("apiVersion", JStr API_VERSION); ("kind", JStr "TeamRunResult");
       ("metadata",
         JObj [("id", JStr i); ("teamId", JStr (rn_team run)); ("projectId", JStr (rn_project run));
               ("runId", JStr (rn_id run)); ("createdAt", JStr (_time_text observed));
               ("recordDigest", JStr (record_digest (result_record run i observed rows)))]);
       ("spec",
         JObj [("status", JStr (summary (map (fun w => status_text (tw_status w)) rows)));
               ("cancellationRequested", JBool (rn_cancellation run));
               ("tasks", JArr (map result_task_json rows));
               ("usage",
                 JObj [("tokens", JInt (sum_of tw_charged_tokens rows));
                       ("costMicrousd", JInt (sum_of tw_charged_cost rows))])])]).
Proof. reflexivity. Qed.

Lemma result_record_reads run i observed rows doc :
  seal_record (result_record run i observed rows) = Ok doc →
  ∃ meta, tm_id meta = i ∧ tm_run meta = rn_id run ∧ tm_team meta = rn_team run ∧
          tm_project meta = rn_project run ∧ result_id_of doc = Ok i ∧
          as_run_result doc = Some (result_of_rows run meta rows).
Proof.
  rewrite result_record_sealed. generalize (record_digest (result_record run i observed rows)). intros d [= <-].
  exists {| tm_id := i; tm_team := rn_team run; tm_project := rn_project run; tm_run := rn_id run;
            tm_created_at := _time_text observed; tm_digest := d |}.
  do 5 (split; [reflexivity|]). cbn [as_run_result].
  transitivity (ts ← mapM (fun x => match x with JObj v => Some v | _ => None end) (map result_task_json rows);
                tasks ← mapM as_result_task ts;
                Some {| rr_meta := {| tm_id := i; tm_team := rn_team run; tm_project := rn_project run;
                                      tm_run := rn_id run; tm_created_at := _time_text observed;
                                      tm_digest := d |};
                        rr_status := summary (map (fun w => status_text (tw_status w)) rows);
                        rr_cancellation := rn_cancellation run; rr_tasks := tasks;
                        rr_tokens := sum_of tw_charged_tokens rows;
                        rr_cost := sum_of tw_charged_cost rows |}); [reflexivity|].
  rewrite result_tasks_objs. cbn [mbind option_bind]. by rewrite result_tasks_read.
Qed.

(** The first [finalize_run] of a run. *)
Record finalized_first (db : team_db) (r i : string) (observed : Z) (run : run_row) (db' : team_db)
    (doc : json) : Prop := {
  fz_rows : tasks_of r db ≠ [];
  fz_terminal : ∀ w, w ∈ tasks_of r db → is_terminal w = true;
  fz_doc : seal_record (result_record run i observed (order_by tw_id (tasks_of r db))) = Ok doc;
  fz_valid : validate_record doc = Ok doc;
  fz_tasks : tasks_of r db' = tasks_of r db;
  fz_run : ∃ run', find_run r db' = Some run' ∧ rn_result run' = Some (canonical_json doc) ∧
                   rn_status run' = summary (map (fun w => status_text (tw_status w)) (order_by tw_id (tasks_of r db)));
}.

Lemma finalize_locked_first c r i observed db db' doc run :
  find_run r db = Some run → rn_result run = None →
  finalize_locked c r i observed db = Ok (db', doc) → finalized_first db r i observed run db' doc.
Proof.
  intros Hrun Hres Hf. unfold finalize_locked in Hf.
  destruct (_verify_state_locked c db); [|discriminate].
  destruct (_context_locked r db) as [[run0 manifest]|] eqn:Ec; [|discriminate].
  apply context_inv in Ec as [Hrun0 _]. assert (run0 = run) as -> by congruence. rewrite Hres in Hf.
  cbv zeta in Hf. guard Hf as Et. destruct (seal_record _) as [doc'|] eqn:Es; [|discriminate].
  destruct (validate_record doc') as [doc2|] eqn:Ev; [|discriminate]. guard Hf as En.
  destruct (_write_state_auth_locked _ _ _) as [db2|] eqn:Ew; [|discriminate]. injection Hf as <- <-.
  apply write_auth_tables in Ew as (Etk & Er & _). apply orb_false_iff in Et as [Et1 Et2].
  pose proof (validate_record_id _ _ Ev). subst doc2. split; try done.
  - intros E. by rewrite E in Et1.
  - intros w Hw. unfold is_terminal. destruct (tw_status w in? _TERMINAL) eqn:E; [done|].
    apply not_true_iff_false in Et2. destruct Et2. apply existsb_exists. exists w. rewrite E. split; [|done].
    apply list_elem_of_In. unfold order_by. by rewrite elem_of_py_sorted.
  - by rewrite (tasks_of_same _ _ _ Etk).
  - eexists. rewrite (find_run_same _ _ _ Er). unfold find_run, update_runs. cbn [db_runs with_runs].
    rewrite find_map by (intros x _; by case_match). unfold find_run in Hrun. rewrite Hrun.
    cbn [fmap option_fmap option_map]. apply find_elem in Hrun as [_ Hid]. rewrite Hid, Hres. done.
Qed.

(** Any later one answers the stored result, in canonical form. *)
Lemma finalize_locked_again c r i observed db db' doc doc' i0 run :
  find_run r db = Some run → rn_result run = Some (canonical_json doc') → validate_record doc' = Ok doc' →
  result_id_of doc' = Ok i0 →
  finalize_locked c r i observed db = Ok (db', doc) → doc = jnorm doc' ∧ i = i0.
Proof.
  intros Hrun Hres Hv Hid Hf. unfold finalize_locked in Hf.
  destruct (_verify_state_locked c db); [|discriminate].
  destruct (_context_locked r db) as [[run0 manifest]|] eqn:Ec; [|discriminate].
  apply context_inv in Ec as [Hrun0 _]. assert (run0 = run) as -> by congruence. rewrite Hres in Hf.
  rewrite json_loads_canonical in Hf by (by eapply validate_record_wf). cbn [some_or] in Hf.
  rewrite (validate_record_jnorm _ _ Hv) in Hf.
  destruct (validate_record_inv _ _ Hv) as (_ & o & kind & s & -> & _ & _ & _ & Ho & _).
  assert (result_id_of (jnorm (JObj o)) = Ok i0) as Hi.
  { rewrite jnorm_obj. unfold result_id_of in *. rewrite <- Hid. f_equal. canon. }
  rewrite Hi in Hf. guard Hf as E. injection Hf as <- <-. by breflect.
Qed.

Lemma finalize_run_ok c db r i now clock c' db' doc :
  finalize_run c db r i now clock = (c', db', Ok doc) →
  ∃ observed, finalize_locked c' r i observed db = Ok (db', doc).
Proof.
  unfold finalize_run. destruct (_observed_time _ _ _) as [c1 [observed|e]]; [|discriminate].
  intros [-> Hx]%answer_inv. exists observed.
  destruct (finalize_locked _ _ _ _ _) as [[db1 d1]|]; [|discriminate]. by injection Hx as <- <-.
Qed.

Lemma sum_of_order {A} (f : A → Z) (key : A → string) l : sum_of f (order_by key l) = sum_of f l.
Proof.
  assert (∀ l l' : list A, l ≡ₚ l' → sum_of f l = sum_of f l') as Hp; [|apply Hp, py_sorted_perm].
  unfold sum_of. induction 1; cbn; lia.
Qed.

(** ** [execute_claimed] *)

Lemma execute_claimed_ok c db claim a au op k k1 k2 k3 c' db' v :
  execute_claimed c db claim a au op k k1 k2 k3 = (c', db', Ok v) →
  ∃ c1 db1 c2 t r db2,
    start_effect c db claim a au k = (c1, db1, Ok tt) ∧
    op (observe c1 t) db1 t = (c2, db2, Returned r) ∧
    complete_effect c2 db2 claim r (ef_now a) k2 k3 = (c', db', Ok v).
Proof.
  unfold execute_claimed. destruct (start_effect c db claim a au k) as [[c1 db1] [[]|e]] eqn:Es; [|discriminate].
  destruct (_observed_time c1 (ef_now a) k1) as [c1' [t|e]] eqn:Eo; cbv zeta.
  2:{ destruct (mark_ambiguous _ _ _ _ _) as [[c3 db3] [u|e']]; discriminate. }
  destruct (op c1' db1 t) as [[c2 db2] [r| |e]] eqn:Eop.
  - intros Hc. assert (c1' = observe c1 t) as ->.
    { unfold _observed_time in Eo. destruct (_utc (ef_now a)); [|discriminate]. by apply observed_at_ok in Eo as [_ ?]. }
    exists c1, db1, c2, t, r, db2. done.
  - destruct (mark_ambiguous _ _ _ _ _) as [[c3 db3] [u|e']]; discriminate.
  - destruct (mark_ambiguous _ _ _ _ _) as [[c3 db3] [u|e']]; discriminate.
Qed.

(** What [mark_ambiguous] leaves when it returns. *)
Lemma mark_ambiguous_row c db claim now clock c' db' v :
  mark_ambiguous c db claim now clock = (c', db', Ok v) →
  ∃ w, find_task (lc_run claim) (lc_task claim) db = Some w ∧ tw_status w = Started ∧
       find_task (lc_run claim) (lc_task claim) db' = Some (settle_reserved Ambiguous w) ∧
       v = task_view_of (settle_reserved Ambiguous w).
Proof.
  unfold mark_ambiguous. destruct (_observed_time _ _ _) as [c1 [t|e]]; [|discriminate].
  intros [-> Hx]%answer_inv. unfold then_state in Hx.
  destruct (transaction c1 db _) as [db1 [u|e]] eqn:Et; cbn [fst snd] in Hx; [|discriminate].
  injection Hx as -> Hv. apply transaction_ok in Et as (_ & db2 & Hb & Hw).
  destruct (_assert_claim_locked true claim db) as [w|] eqn:Ea; [|discriminate]. guard Hb as Es.
  injection Hb as <- _. apply write_auth_tables in Hw as (Etk & _). apply assert_claim_inv in Ea as (Hf & _). breflect.
  pose proof (find_task_elem _ _ _ _ Hf) as (_ & Hr & Hi). exists w.
  assert (find_task (lc_run claim) (lc_task claim) db' = Some (settle_reserved Ambiguous w)) as Hf'.
  { rewrite (find_task_same _ _ _ _ Etk), find_task_update, Hf by done. cbn [fmap option_fmap option_map].
    unfold is_started, is_task. by rewrite Hr, Hi, Es, !bool_decide_true by done. }
  split_and!; [done..|]. unfold task_state in Hv. destruct (_verify_state_locked c1 db'); [|discriminate].
  rewrite Hf' in Hv. by injection Hv.
Qed.
End Results.

(** * Routes of model calls

    What [_validate_route_locked] has compared when a task that calls a model
    starts. *)

Section Routes.
Context `{FromIso} `{Crypto} `{Jsonschema} `{DateTimeFormat}.

(** The evidence holds valid records: an allowed decision that the coordinator
    knows, the request it answers and the model call it is for; they name each
    other, the task and its limits, and have not run out. *)
Record route_admitted (c : coordinator) (t : Task) (ev : evidence) (now : Z) (db : team_db)
    (route : binding) (d : RouteDecision) (rq : RouteRequest) (sb : ModelRequest) (se : Selected) : Prop := {
  ra_records : ∃ items decision request subject,
    ev = Some items ∧
    jassoc "routeDecision" items = Some decision ∧ validate_routing_record decision = Ok decision ∧
    jassoc "routeRequest" items = Some request ∧ validate_routing_record request = Ok request ∧
    jassoc "runtimeSubject" items = Some subject ∧ validate_model_request subject = Ok subject ∧
    as_decision decision = Some d ∧ as_request request = Some rq ∧ as_model_request subject = Some sb;
  ra_decision : bd_digest route = rm_digest (dc_meta d) ∧ dc_decision d = "allowed" ∧
                dc_selected d = Some se ∧ dc_request_digest d = rm_digest (rq_meta rq);
  ra_known : rm_digest (dc_meta d) ∈ co_route_decisions c ∧ dc_policy_digest d ∈ co_route_policies c
             ∧ dc_price_digest d ∈ co_price_catalogs c;
  ra_fresh : ∃ until deadline, _parse_time (dc_valid_until d) = Ok until ∧ now < until ∧
             _parse_time (rq_deadline_at rq) = Ok deadline ∧ now < deadline;
  ra_deployment : se_deployment_id se = bd_id (tk_resource t) ∧
                  se_identity_digest se = bd_digest (tk_resource t) ∧
                  mq_deployment_id sb = se_deployment_id se ∧ mq_identity_digest sb = se_identity_digest se;
  ra_task : mq_run sb = tm_run (tk_meta t) ∧ mq_artifact sb = bd_digest (tk_input t) ∧
            mq_data_class sb = tk_data_class t ∧ rq_data_class rq = tk_data_class t ∧
            tk_zone t ∈ rq_allowed_zones rq ∧ rq_deadline_at rq = tk_not_after t;
  ra_limits : rq_maximum_cost rq = bu_cost (tk_budget t) ∧ se_reserved_cost se ≤ rq_maximum_cost rq ∧
              mq_max_output_tokens sb ≤ rq_output_ceiling rq;
  ra_predecessor : dc_attempt d = 2 → ∃ previous x,
    dc_fallback_from d = Some previous ∧ x ∈ db_routes db ∧ rw_route x = previous;
}.

Lemma validate_routing_record_id j j' : validate_routing_record j = Ok j' → j' = j.
Proof.
  unfold validate_routing_record. destruct j; try discriminate. intros Hv.
  repeat match type of Hv with
         | (if ?b then _ else _) = _ => destruct b; try discriminate
         | match ?x with _ => _ end = _ => destruct x; try discriminate
         end; by injection Hv.
Qed.

Lemma route_evidence_inv items decision request subject :
  route_evidence items = Ok (decision, request, subject) →
  jassoc "routeDecision" items = Some decision ∧ validate_routing_record decision = Ok decision ∧
  jassoc "routeRequest" items = Some request ∧ validate_routing_record request = Ok request ∧
  jassoc "runtimeSubject" items = Some subject ∧ validate_model_request subject = Ok subject.
Proof.
  unfold route_evidence.
  destruct (jassoc "routeDecision" items) as [d|]; [|discriminate]. cbn [some_or].
  destruct (validate_routing_record d) as [d'|] eqn:Ed; [|discriminate].
  destruct (jassoc "routeRequest" items) as [r|]; [|discriminate]. cbn [some_or].
  destruct (validate_routing_record r) as [r'|] eqn:Er; [|discriminate].
  destruct (jassoc "runtimeSubject" items) as [s|]; [|discriminate]. cbn [some_or].
  destruct (validate_model_request s) as [s'|] eqn:Es; [|discriminate].
  intros [= <- <- <-]. pose proof (validate_routing_record_id _ _ Ed) as ->.
  pose proof (validate_routing_record_id _ _ Er) as ->.
  assert (s' = s) as ->; [|done]. unfold validate_model_request in Es. guard Es as E. by injection Es.
Qed.

Lemma validate_route_inv c t ev now db r :
  _validate_route_locked c t ev now db = Ok r → tk_action t = "model.invoke" →
  ∃ route d rq sb se, tk_route t = Some route ∧ r = Some d ∧ route_admitted c t ev now db route d rq sb se.
Proof.
  unfold _validate_route_locked. intros Hv Ha. rewrite Ha in Hv. rewrite bool_decide_true in Hv by done.
  destruct (tk_route t) as [route|]; [|discriminate]. cbn [negb] in Hv. destruct ev as [items|]; [|discriminate].
  destruct (route_guarded (route_evidence items)) as [[[decision request] subject]|] eqn:Eg; [|discriminate].
  assert (route_evidence items = Ok (decision, request, subject)) as Ee.
  { destruct (route_evidence items) as [x|[]]; cbn in Eg; congruence. }
  destruct (route_checks _ _ _ _ _ _ _ _) as [d|] eqn:Ec; [|discriminate]. injection Hv as <-.
  unfold route_checks in Ec. guard Ec as E1. destruct (as_decision decision) as [d0|] eqn:Ed; [|discriminate].
  destruct (as_request request) as [rq|] eqn:Er; [|discriminate].
  destruct (as_model_request subject) as [sb|] eqn:Es; [|discriminate]. cbn [some_or] in Ec. cbv zeta in Ec.
  guard Ec as E2. destruct (_parse_time (dc_valid_until d0)) as [until|] eqn:Eu; [|discriminate].
  guard Ec as E3. destruct (_parse_time (rq_deadline_at rq)) as [dl|] eqn:Edl; [|discriminate].
  guard Ec as E4. destruct (_action_class (tk_action t)) as [cls|]; [|discriminate]. guard Ec as E5.
  guard Ec as E6. injection Ec as <-. destruct (dc_selected d0) as [se|] eqn:Ese; [|discriminate].
  apply negb_false_iff in E2, E5. unfold route_matches_decision in E2. unfold route_matches_task in E5. breflect.
  apply route_evidence_inv in Ee as (Hd & Hdv & Hr & Hrv & Hs & Hsv).
  exists route, d0, rq, sb, se. split; [done|]. split; [done|]. split; try done.
  - exists items, decision, request, subject. done.
  - split_and!; try done. by match goal with E : route = _ |- _ => rewrite E end.
  - exists until, dl. done.
  - intros Hat. rewrite Hat in E6. cbn [Z.eqb Pos.eqb andb] in E6. apply negb_false_iff in E6.
    destruct (dc_fallback_from d0) as [previous|]; [|discriminate].
    apply existsb_exists in E6 as (x & Hx & Ex). exists previous, x. breflect. split_and!; [done| |done].
    by apply list_elem_of_In.
Qed.
End Routes.
