(* ===== verification/TeamSession.v ===== *)
(** * The coordinator and its own file

    A session is the history of one coordinator: a new file, or a file reopened
    under any configuration that is accepted, and any calls.  [sealed] says that the
    state verifies and that the events are in order; every call keeps it, and every
    stored record keeps its digest ([documented]). *)

From S2P Require Import Prelude Json Digest PyTime PyClock PyFloat Schema RouteRecords RouteConsumption ConsumptionProofs JsonCanon TeamContracts TeamGraph TeamStore TeamRuntime TeamEffects TeamFacts TeamSpec TeamInvariant TeamRefinement TeamProofs.

Section Session.
Context `{FromIso} `{Crypto} `{Jsonschema} `{DateTimeFormat}.

(** ** Stored documents *)

Definition row_documented (w : task_row) : Prop := document_ok (tw_document w) (tw_digest w) = Ok tt.
Record documented (db : team_db) : Prop := {
  dc_manifests : Forall (fun m => document_ok (mr_document m) (mr_digest m) = Ok tt) (db_manifests db);
  dc_tasks : Forall row_documented (db_tasks db);
  dc_handoffs : Forall (fun h => document_ok (hw_document h) (hw_digest h) = Ok tt) (db_handoffs db);
}.

Lemma documented_update p f db :
  (∀ w, w ∈ db_tasks db → p w = true → tw_document (f w) = tw_document w ∧ tw_digest (f w) = tw_digest w) →
  documented db → documented (update_tasks p f db).
Proof.
  intros Hf [Hm Ht Hh]. split; [done| |done]. unfold update_tasks. cbn [db_tasks with_tasks].
  rewrite Forall_forall in *. intros w' (w & -> & Hw)%elem_map. destruct (p w) eqn:E; [|by apply Ht].
  unfold row_documented. destruct (Hf w Hw E) as [-> ->]. by apply Ht.
Qed.
Lemma scheduler_step_documented db db' : scheduler_step db db' → documented db → documented db'.
Proof.
  destruct 1; intros Hd; try by destruct Hd.
  - destruct Hd as [Hm Ht Hh]. split; [|done..]. apply Forall_app. split; [done|]. by constructor.
  - destruct Hd as [Hm Ht Hh]. split; [done| |done]. by apply Forall_app.
  - apply documented_update; [|done]. intros w Hw Hp.
    match goal with Hm : ∀ w, _ → _ → task_move w _ |- _ => by destruct (move_keeps _ _ (Hm w Hw Hp)) end.
  - by apply documented_update.
  - apply documented_update; [done|]. by destruct Hd.
  - apply documented_update; [done|]. apply documented_update; [done|]. by destruct Hd.
  - destruct Hd as [Hm Ht Hh]. split; [done..|]. apply Forall_app. split; [done|]. by constructor.
Qed.
Lemma scheduler_steps_documented db db' : rtc scheduler_step db db' → documented db → documented db'.
Proof. induction 1; eauto using scheduler_step_documented. Qed.

(** ** The chain of events *)

(** The digest the next event names. *)
Definition head_event (rows : list state_event) (previous : string) : string :=
  match last rows with Some e => ev_event e | None => previous end.

Lemma verify_events_snoc c rows e n previous l0 l :
  verify_events c n previous l0 rows = Ok l →
  verify_events c n previous l0 (rows ++ [e])
  = verify_events c (n + Z.of_nat (length rows)) (head_event rows previous) l [e].
Proof.
  revert n previous l0. induction rows as [|row rows IH]; intros n previous l0 Hv.
  { injection Hv as <-. by rewrite Z.add_0_r. }
  cbn [verify_events app] in *. cbv zeta in *. guard Hv as E.
  destruct (compare_digest _ _) as [same|]; [|discriminate]. guard Hv as Es.
  rewrite IH by done. breflect.
  assert (n + 1 + Z.of_nat (length rows) = n + Z.of_nat (length (row :: rows))) as -> by (cbn [length]; lia).
  assert (head_event rows (event_digest n (ev_digest row) previous) = head_event (row :: rows) previous) as ->; [|done].
  unfold head_event. rewrite last_cons. destruct (last rows); [done|congruence].
Qed.
Lemma verify_events_numbered c rows n previous l0 l :
  verify_events c n previous l0 rows = Ok l →
  ∀ e, e ∈ rows → n ≤ ev_revision e < n + Z.of_nat (length rows).
Proof.
  revert n previous l0. induction rows as [|row rows IH]; intros n previous l0 Hv e He; [by apply elem_of_nil in He|].
  cbn [verify_events] in Hv. guard Hv as E. destruct (compare_digest _ _) as [same|]; [|discriminate].
  guard Hv as Es. breflect. apply elem_of_cons in He as [->|He]; cbn [length]; [lia|].
  specialize (IH _ _ _ Hv e He). lia.
Qed.

Record sealed (c : coordinator) (db : team_db) : Prop := {
  sl_verified : _verify_state_locked c db = Ok tt;
  sl_ordered : StronglySorted (fun a b => (ev_revision a <=? ev_revision b) = true) (db_events db);
}.

Lemma by_revision_id rows :
  StronglySorted (fun a b => (ev_revision a <=? ev_revision b) = true) rows → by_revision rows = rows.
Proof. apply py_sorted_id. Qed.

Lemma sorted_snoc rows e n :
  StronglySorted (fun a b => (ev_revision a <=? ev_revision b) = true) rows →
  (∀ x, x ∈ rows → ev_revision x < n) → ev_revision e = n →
  StronglySorted (fun a b => (ev_revision a <=? ev_revision b) = true) (rows ++ [e]).
Proof.
  intros Hs Hlt He. induction Hs as [|x rows Hs IH Hx]; [by repeat constructor|]. cbn [app]. constructor.
  - apply IH. intros y Hy. apply Hlt. by right.
  - apply Forall_app. split; [done|]. constructor; [|done]. apply Z.leb_le.
    assert (ev_revision x < n) by (apply Hlt; left). lia.
Qed.

(** The payload does not read the authentication tables. *)
Lemma payload_auth db m a a' e e' :
  _state_payload_locked (with_auth db m a e) = _state_payload_locked (with_auth db m a' e').
Proof. done. Qed.

(** What a successful verification knows. *)
Record verified (c : coordinator) (db : team_db) (m : store_meta) (a : state_auth) : Prop := {
  vf_meta : db_meta db = Some m ∧ sm_key_id m = co_key_id c ∧ sm_schema_version m = _SCHEMA_VERSION
            ∧ sm_last_observed m ≤ epoch (co_last_observed c);
  vf_auth : db_auth db = Some a;
  vf_chain : Z.of_nat (length (by_revision (db_events db))) = au_revision a + 1 ∧
             verify_events c 0 GENESIS_DIGEST None (by_revision (db_events db)) = Ok (Some (au_digest a));
}.
Lemma verify_inv c db : _verify_state_locked c db = Ok tt → ∃ m a, verified c db m a.
Proof.
  unfold _verify_state_locked. destruct (db_auth db) as [a|] eqn:Ea; [|discriminate].
  destruct (db_meta db) as [m|] eqn:Em; [|discriminate]. intros Hv. guard Hv as E1. guard Hv as E2.
  destruct (_state_payload_locked db) as [payload|]; [|discriminate]. cbv zeta in Hv. guard Hv as E3.
  destruct (compare_digest _ _) as [same|]; [|discriminate]. guard Hv as E4.
  unfold _verify_event_chain_locked in Hv. cbv zeta in Hv. guard Hv as E5.
  destruct (verify_events _ _ _ _ _) as [l|] eqn:El; [|discriminate]. guard Hv as E6. breflect.
  exists m, a. split; [done|done|]. split; [done|]. congruence.
Qed.

(** The key and its name are all that verification takes from the object. *)
Lemma verify_events_key c c' n previous l rows :
  co_key c' = co_key c → co_key_id c' = co_key_id c →
  verify_events c' n previous l rows = verify_events c n previous l rows.
Proof.
  intros Ek Ei. revert n previous l. induction rows as [|row rows IH]; intros n previous l; [done|].
  cbn [verify_events]. cbv zeta. unfold _event_mac. by rewrite IH, Ek, Ei.
Qed.
Lemma verify_same_key c c' db :
  co_key c' = co_key c → co_key_id c' = co_key_id c → co_last_observed c' = co_last_observed c →
  _verify_state_locked c db = Ok tt → _verify_state_locked c' db = Ok tt.
Proof.
  intros Ek Ei Eo. unfold _verify_state_locked, _verify_event_chain_locked, _auth_mac.
  rewrite (verify_events_key c c') by done. by rewrite Ek, Ei, Eo.
Qed.
(** The coordinator's clock only moves forward. *)
Lemma sealed_observe c db t : sealed c db → co_last_observed c ≤ t → sealed (observe c t) db.
Proof.
  intros [Hv Ho] Ht. split; [|done]. revert Hv. unfold _verify_state_locked.
  destruct (db_auth db) as [a|]; [|discriminate]. destruct (db_meta db) as [m|]; [|discriminate].
  intros Hv. guard Hv as E1. guard Hv as E2. cbn [observe co_key_id co_last_observed]. rewrite E1.
  pose proof (epoch_mono _ _ Ht).
  destruct (epoch t <? sm_last_observed m) eqn:E; [breflect; lia|].
  unfold _verify_event_chain_locked in *. rewrite (verify_events_key c) by done. exact Hv.
Qed.

(** Writing the authentication of a state whose tables changed seals it again. *)
Lemma write_seals c db db1 db' :
  sealed c db → db_meta db1 = db_meta db → db_auth db1 = db_auth db → db_events db1 = db_events db →
  _write_state_auth_locked false c db1 = Ok db' → sealed c db'.
Proof.
  intros [Hv Hord] Em Ea Ee Hw. apply verify_inv in Hv as (m & a & [(Hm & Hk & Hsv & Hlo) Ha [Hlen Hch]]).
  rewrite by_revision_id in Hlen, Hch by done.
  unfold _write_state_auth_locked in Hw. cbv zeta in Hw. rewrite Em, Ea, Ee, Hm, Ha in Hw.
  cbn [fmap option_fmap option_map] in Hw.
  set (m' := touch_meta (epoch (co_last_observed c)) m) in Hw.
  destruct (_state_payload_locked _) as [payload|] eqn:Ep; [|discriminate]. guard Hw as Edup. injection Hw as <-.
  rewrite by_revision_id by done.
  set (e := next_event _ _ _ _).
  assert (sm_key_id m' = sm_key_id m ∧ sm_schema_version m' = sm_schema_version m ∧
          sm_last_observed m' ≤ epoch (co_last_observed c)) as (Hk' & Hsv' & Hlo').
  { unfold m', touch_meta. destruct (_ <=? _) eqn:Et; breflect;
      cbn [sm_key_id sm_schema_version sm_last_observed]; split_and!; first [reflexivity|lia|done]. }
  assert (StronglySorted (fun a b => (ev_revision a <=? ev_revision b) = true) (db_events db ++ [e])) as Hord'.
  { apply (sorted_snoc _ _ (au_revision a + 1)); [done| |done]. intros x Hx.
    pose proof (verify_events_numbered _ _ _ _ _ _ Hch x Hx). lia. }
  split; [|done]. unfold _verify_state_locked. cbn [db_auth db_meta with_auth].
  rewrite Hk', Hsv', Hk, Hsv, !bool_decide_true by done. cbn [negb orb].
  destruct (_ <? _) eqn:E; [breflect; lia|]. rewrite (payload_auth _ _ _ (db_auth db1) _ (db_events db1)), Ea, Ee, Ha, Ep.
  cbv zeta. cbn [au_digest au_revision au_mac]. rewrite bool_decide_true by done. cbn [negb].
  rewrite compare_digest_refl by apply hmac_sha256_hex_digest. cbn [negb].
  unfold _verify_event_chain_locked. cbv zeta. cbn [db_events with_auth]. rewrite by_revision_id by done.
  rewrite length_app. cbn [length]. rewrite bool_decide_true by lia. cbn [negb].
  rewrite (verify_events_snoc _ _ _ _ _ _ _ Hch), Hlen. cbn [verify_events].
  assert (0 + (au_revision a + 1) = au_revision a + 1) as -> by lia.
  cbn [e next_event ev_revision ev_previous ev_event ev_digest ev_mac].
  unfold head_event. rewrite !bool_decide_true by done. cbn [negb orb].
  rewrite compare_digest_refl by apply hmac_sha256_hex_digest. cbn [negb].
  by rewrite bool_decide_true.
Qed.

(** ** Transactions *)

Definition same_auth (db db1 : team_db) : Prop :=
  db_meta db1 = db_meta db ∧ db_auth db1 = db_auth db ∧ db_events db1 = db_events db.

Lemma write_sealed c db db1 db' :
  sealed c db → same_auth db db1 → _write_state_auth_locked false c db1 = Ok db' → sealed c db'.
Proof. intros Hs (Em & Ea & Ee). by apply (write_seals c db). Qed.
Lemma transaction_sealed {A} c db (body : team_db → result (team_db * A)) :
  sealed c db → (∀ db1 a, body db = Ok (db1, a) → same_auth db db1) → sealed c (transaction c db body).1.
Proof.
  intros Hs Hb. unfold transaction. rewrite (sl_verified _ _ Hs).
  destruct (body db) as [[db1 a]|] eqn:E; [|done].
  destruct (_write_state_auth_locked false c db1) as [db'|] eqn:Ew; [|done].
  eapply write_sealed; [done|by eapply Hb|done].
Qed.
Lemma observed_at_sealed c assertion clock db c' r :
  observed_at c assertion clock = (c', r) → sealed c db → sealed c' db.
Proof.
  unfold observed_at. destruct (_utc clock) as [t|]; [|by intros [= <- _]].
  destruct (t <? co_last_observed c) eqn:E; [by intros [= <- _]|].
  destruct (t <? assertion); [by intros [= <- _]|]. intros [= <- _] Hs. apply sealed_observe; [done|]. by breflect.
Qed.
Lemma observed_time_sealed c now clock db c' r :
  _observed_time c now clock = (c', r) → sealed c db → sealed c' db.
Proof.
  unfold _observed_time. destruct (_utc now); [|by intros [= <- _]]. by eapply observed_at_sealed.
Qed.

Ltac settled_by H :=
  cbv zeta in H;
  repeat (match type of H with
          | match ?x with _ => _ end = Ok _ => destruct x; try discriminate H
          end; cbv zeta in H);
  by injection H as <- _.

Lemma insert_tasks_auth rows db db' : insert_tasks rows db = Ok db' → same_auth db db'.
Proof.
  revert db. induction rows as [|w rows IH]; intros db Hi; cbn [insert_tasks] in Hi.
  - by injection Hi as <-.
  - guard Hi as E. by apply IH in Hi.
Qed.
Lemma create_locked_auth candidate m r checked db db' u :
  create_locked candidate m r checked db = Ok (db', u) → same_auth db db'.
Proof.
  unfold create_locked. cbv zeta. set (db1 := if existsb _ (db_manifests db) then db else _).
  assert (same_auth db db1) as (E1 & E2 & E3) by (unfold db1; by destruct (existsb _ _)). clearbody db1.
  intros Hc. destruct (List.find _ _); [|discriminate]. guard Hc as Ea. guard Hc as Eb.
  destruct (insert_tasks _ _) as [db2|] eqn:Ei; [|discriminate]. injection Hc as <- _.
  apply insert_tasks_auth in Ei as (E4 & E5 & E6). cbn in *. unfold same_auth. by rewrite E4, E5, E6.
Qed.
Lemma claim_locked_auth g r i worker observed secs token db db' claim :
  claim_locked g r i worker observed secs token db = Ok (db', claim) → same_auth db db'.
Proof. unfold claim_locked. intros Hc. settled_by Hc. Qed.
Lemma consume_route_auth t d observed db db' : consume_route t d observed db = Ok db' → same_auth db db'.
Proof.
  unfold consume_route. destruct (tk_route t); [|by intros [= <-]].
  intros Hc. guard Hc as E1. guard Hc as E2. by injection Hc as <-.
Qed.
Lemma start_locked_auth c a claim au observed db db' u :
  start_locked c a claim au observed db = Ok (db', u) → same_auth db db'.
Proof.
  unfold start_locked. cbv zeta. intros Hl.
  destruct (_assert_claim_locked false claim db) as [w|]; [|discriminate].
  destruct (_context_locked _ db) as [[run manifest]|]; [|discriminate].
  destruct (stored_task w) as [[doc t]|]; [|discriminate]. guard Hl as Ecan.
  destruct (guard_claim _ _ _ _ _); [|discriminate].
  destruct (gate_assert_current _ _ _ _ _ _ _); [|discriminate].
  destruct (_validate_route_locked _ _ _ _ _) as [d|]; [|discriminate].
  destruct (consume_route t d observed db) as [db1|] eqn:Er; [|discriminate]. guard Hl as En.
  injection Hl as <- _. by apply consume_route_auth in Er.
Qed.
Lemma expire_observed_sealed c observed db r : sealed c db → sealed c (expire_observed c observed db r).1.
Proof.
  intros Hs. apply transaction_sealed; [done|]. intros db1 n Hb.
  destruct (_context_locked r db); [|discriminate]. by injection Hb as <- _.
Qed.

Lemma complete_locked_sealed c claim r db db' u :
  sealed c db → complete_locked c claim r db = Ok (db', u) → sealed c db'.
Proof.
  intros Hs Hc. unfold complete_locked in Hc.
  destruct (_verify_state_locked c db); [|discriminate].
  destruct (find_task _ _ db) as [w|]; [|discriminate]. guard Hc as Ed.
  destruct (tw_status w in? [Succeeded; Failed]).
  { destruct (same_outcome w r); [|discriminate]. by injection Hc as <- _. }
  destruct (_assert_claim_locked true claim db) as [w0|]; [|discriminate]. guard Hc as Est. guard Hc as Eb.
  destruct (_write_state_auth_locked _ _ _) as [db2|] eqn:Ewr; [|discriminate]. injection Hc as <- _.
  by eapply write_sealed; [done| |exact Ewr].
Qed.
Lemma handoff_locked_sealed c candidate h db db' d :
  sealed c db → handoff_locked c candidate h db = Ok (db', d) → sealed c db'.
Proof.
  intros Hs Hc. unfold handoff_locked in Hc. cbv zeta in Hc.
  destruct (_verify_state_locked c db); [|discriminate].
  destruct (_context_locked _ db) as [[run manifest]|]; [|discriminate]. guard Hc as Eb.
  destruct (find_task _ (ho_from_task h) db) as [source_row|]; [|discriminate].
  destruct (find_task _ (ho_to_task h) db) as [target_row|]; [|discriminate].
  destruct (stored_task source_row) as [[sdoc source]|]; [|discriminate].
  destruct (stored_task target_row) as [[tdoc target]|]; [|discriminate]. guard Hc as Em.
  destruct (find_handoff _ _ _ db) as [dup|].
  { destruct (hw_digest dup == _); [|discriminate]. by injection Hc as <- _. }
  guard Hc as Ei. destruct (_write_state_auth_locked _ _ _) as [db2|] eqn:Ew; [|discriminate].
  injection Hc as <- _. by eapply write_sealed; [done| |exact Ew].
Qed.
Lemma finalize_locked_sealed c r i observed db db' doc :
  sealed c db → finalize_locked c r i observed db = Ok (db', doc) → sealed c db'.
Proof.
  intros Hs Hc. unfold finalize_locked in Hc. destruct (_verify_state_locked c db); [|discriminate].
  destruct (_context_locked _ db) as [[run manifest]|]; [|discriminate].
  destruct (rn_result run) as [stored|].
  { destruct (some_or ValueError (json_loads stored)); [|discriminate].
    destruct (validate_record _); [|discriminate]. destruct (result_id_of _); [|discriminate].
    guard Hc as Ei. by injection Hc as <- _. }
  cbv zeta in Hc. guard Hc as Et. destruct (seal_record _) as [doc'|]; [|discriminate].
  destruct (validate_record doc'); [|discriminate]. guard Hc as En.
  destruct (_write_state_auth_locked _ _ _) as [db2|] eqn:Ew; [|discriminate]. injection Hc as <- _.
  by eapply write_sealed; [done| |exact Ew].
Qed.
Lemma atomic_sealed {A} c db (r : result (team_db * A)) :
  sealed c db → (∀ db' a, r = Ok (db', a) → sealed c db') → sealed c (atomic db r).1.
Proof. intros Hs Hr. destruct r as [[db' a]|e]; cbn; [by eapply Hr|done]. Qed.

(** ** Every call *)

Lemma claim_task_sealed c db r i a k :
  sealed c db → sealed (claim_task c db r i a k).1.1 (claim_task c db r i a k).1.2.
Proof.
  intros Hs. unfold claim_task. destruct (_observed_time _ _ _) as [c' [observed|e]] eqn:Eo;
    apply (observed_time_sealed _ _ _ db _ _ Eo) in Hs; [|done].
  destruct (negb _); [done|]. apply transaction_sealed; [done|]. intros db1 x. apply claim_locked_auth.
Qed.
Lemma claim_each_sealed c db r a ks n l ids :
  sealed c db → sealed (claim_each c db r a ks n l ids).1.1 (claim_each c db r a ks n l ids).1.2.
Proof.
  revert c db n l. induction ids as [|i ids IH]; intros c db n l Hs; cbn [claim_each]; [done|].
  pose proof (claim_task_sealed c db r i a (ks n) Hs) as H1'.
  destruct (claim_task c db r i a (ks n)) as [[c' db'] [claim|e]]; cbn [fst snd] in *; [done|].
  destruct e; try done. destruct (bool_decide _); [|done]. by apply IH.
Qed.

Lemma run_call_sealed c db call : sealed c db → sealed (run_call c db call).1 (run_call c db call).2.
Proof.
  intros Hs. destruct call; cbn [run_call].
  - unfold create_run. destruct (_observed_time _ _ _) as [c' [observed|e]] eqn:Eo;
      apply (observed_time_sealed _ _ _ db _ _ Eo) in Hs; [|done].
    destruct (create_checks _ _ _ _ _ _) as [[[candidate m] checked]|e]; [|done]. cbn [fst snd].
    apply transaction_sealed; [done|]. intros db1 u. apply create_locked_auth.
  - by apply claim_task_sealed.
  - unfold claim_next. destruct (_verify_state_locked c db); [|done]. by apply claim_each_sealed.
  - unfold authorize_effect. destruct (_observed_time _ _ _) as [c' [observed|e]] eqn:Eo;
      apply (observed_time_sealed _ _ _ db _ _ Eo) in Hs; [|done].
    destruct (_ || _); [done|]. cbn [fst snd]. apply transaction_sealed; [done|]. intros db1 u Hl.
    apply authorize_unchanged in Hl. by subst.
  - unfold start_effect. destruct (_observed_time _ _ _) as [c' [observed|e]] eqn:Eo;
      apply (observed_time_sealed _ _ _ db _ _ Eo) in Hs; [|done].
    destruct (negb _); [done|]. apply transaction_sealed; [done|]. intros db1 u. apply start_locked_auth.
  - unfold complete_effect. destruct (_observed_time _ _ _) as [c1 [observed|e]] eqn:Eo;
      apply (observed_time_sealed _ _ _ db _ _ Eo) in Hs; [|done].
    set (x := if lc_expires_at claim <=? observed then _ else _).
    assert (sealed x.1.1 x.1.2) as Hx.
    { unfold x. destruct (_ <=? _); [|done]. destruct (observed_at _ _ _) as [c2 [o'|e]] eqn:Ea;
        apply (observed_at_sealed _ _ _ db _ _ Ea) in Hs; [|done]. by apply expire_observed_sealed. }
    destruct x as [[c2 db2] [late|e]]; cbn [fst snd] in *; [|done].
    apply atomic_sealed; [done|]. intros db' u. by apply complete_locked_sealed.
  - unfold mark_ambiguous. destruct (_observed_time _ _ _) as [c' [observed|e]] eqn:Eo;
      apply (observed_time_sealed _ _ _ db _ _ Eo) in Hs; [|done].
    apply transaction_sealed; [done|]. intros db' u Hl.
    destruct (_assert_claim_locked true claim db) as [w|]; [|discriminate]. guard Hl as E. by injection Hl as <- _.
  - unfold expire_leases. destruct (_observed_time _ _ _) as [c' [observed|e]] eqn:Eo;
      apply (observed_time_sealed _ _ _ db _ _ Eo) in Hs; [|done]. by apply expire_observed_sealed.
  - unfold cancel_run. destruct (_observed_time _ _ _) as [c' [observed|e]] eqn:Eo;
      apply (observed_time_sealed _ _ _ db _ _ Eo) in Hs; [|done].
    apply transaction_sealed; [done|]. intros db' u Hl. unfold cancel_locked in Hl. settled_by Hl.
  - unfold acknowledge_cancellation. destruct (_observed_time _ _ _) as [c' [observed|e]] eqn:Eo;
      apply (observed_time_sealed _ _ _ db _ _ Eo) in Hs; [|done].
    apply transaction_sealed; [done|]. intros db' u Hl. unfold acknowledge_locked in Hl. settled_by Hl.
  - unfold record_handoff. destruct (let! _ := _ in _) as [[candidate h]|e]; [|done].
    cbn [fst snd]. apply atomic_sealed; [done|]. intros db' u. by apply handoff_locked_sealed.
  - unfold finalize_run. destruct (_observed_time _ _ _) as [c' [observed|e]] eqn:Eo;
      apply (observed_time_sealed _ _ _ db _ _ Eo) in Hs; [|done].
    apply atomic_sealed; [done|]. intros db' u. by apply finalize_locked_sealed.
Qed.

(** ** Opening *)

Lemma open_new_sealed a db c : open_coordinator a None = (Some db, Ok c) → sealed c db ∧ documented db.
Proof.
  unfold open_coordinator. destruct (_ <? _)%nat; [discriminate|]. destruct (_ || _); [discriminate|].
  destruct (_utc _) as [t|]; [|discriminate]. unfold create_store. cbv zeta.
  destruct (_write_state_auth_locked _ _ _) as [db1|] eqn:E; cbn [atomic fst snd]; [|discriminate].
  intros [= <- <-]. unfold _write_state_auth_locked in E. cbv zeta in E.
  cbn [db_meta db_auth db_events with_auth fmap option_fmap option_map] in E.
  destruct (_state_payload_locked _) as [payload|] eqn:Ep; [|discriminate]. guard E as Edup. injection E as <-.
  split; [|by split]. cbn [new_coordinator co_last_observed] in *. unfold touch_meta in *.
  cbn [sm_last_observed] in *. rewrite Z.leb_refl in *. cbn [sm_store_id sm_schema_version sm_key_id sm_created_at] in *.
  split; [|cbn [db_events with_auth by_revision py_sorted app]; by repeat constructor].
  unfold _verify_state_locked. cbn [db_auth db_meta with_auth sm_key_id sm_schema_version co_key_id sm_last_observed
                                    new_coordinator co_last_observed].
  rewrite !bool_decide_true, Z.ltb_irrefl by done. cbn [negb orb].
  rewrite (payload_auth _ _ _ None _ []), Ep. cbv zeta. cbn [au_digest au_revision au_mac].
  rewrite bool_decide_true by done. cbn [negb].
  rewrite compare_digest_refl by apply hmac_sha256_hex_digest. cbn [negb].
  unfold _verify_event_chain_locked. cbv zeta. cbn [db_events with_auth by_revision py_sorted py_insert app length last verify_events].
  cbn [next_event ev_revision ev_previous ev_event ev_digest ev_mac].
  rewrite !bool_decide_true by done. cbn [negb orb].
  rewrite compare_digest_refl by apply hmac_sha256_hex_digest. cbn [negb].
  by rewrite bool_decide_true.
Qed.
End Session.
