(* ===== verification/TeamExamples.v ===== *)
(** * A concrete team run

    A team of two roles with three tasks: "read" hands its result to "ask", which
    calls a model through the route of [RouteExamples], and "list" is a narrower
    child of "read".  The properties of the coordinator are instantiated on the
    databases of this run. *)

From S2P Require Import Prelude Json Digest PyTime PyClock PyFloat Schema RouteRecords Router RouteConsumption RouteExamples TeamContracts ModelRequest TeamGraph TeamStore TeamRuntime TeamEffects TeamSpec TeamInvariant TeamRefinement TeamProofs.

#[local] Existing Instance Checksum.crypto.
#[local] Existing Instance rfc3339_iso.
#[local] Existing Instance draft202012.

(** The format checker of the [rfc3339-validator] package, on the notation of
    [parse_rfc3339]. *)
Program Definition rfc3339_format : DateTimeFormat := {| date_time_format := is_date_time |}.
Next Obligation. intros t Ht. by apply timestamp_date_time. Qed.
#[local] Existing Instance rfc3339_format.

(** ** Records *)

Definition team_metadata (id run : string) : json :=
  JObj [("id", JStr id); ("teamId", JStr "team-1"); ("projectId", JStr "project-1");
        ("runId", JStr run); ("createdAt", JStr "2026-06-01T00:00:00Z");
        ("recordDigest", JStr GENESIS_DIGEST)].
Definition team_sealed (kind : string) (metadata : json) (spec : list (string * json)) : json :=
  match seal_record [("apiVersion", JStr API_VERSION); ("kind", JStr kind); ("metadata", metadata);
                     ("spec", JObj spec)] with
  | Ok doc => doc
  | Err _ => JNull
  end.
Definition items_of (j : json) : list (string * json) := match j with JObj o => o | _ => [] end.

Definition bound_to (kind id digest : string) : json :=
  JObj [("kind", JStr kind); ("id", JStr id); ("digest", JStr digest)].
Definition budget_of (tokens cost seconds : Z) : json :=
  JObj [("maxTokens", JInt tokens); ("maxCostMicrousd", JInt cost); ("maxDurationSeconds", JInt seconds)].
Definition role_of (id : string) (actions tools delegates : list string) (tokens : Z) : json :=
  JObj [("id", JStr id); ("principal", bound_to "PrincipalIdentity" "p-1" some_digest);
        ("membership", bound_to "MembershipBinding" "m-1" some_digest); ("actions", strs actions);
        ("dataClasses", strs ["D0"]); ("toolIds", strs tools); ("zones", strs ["Z0"]);
        ("notAfter", JStr "2026-06-02T00:00:00Z"); ("budget", budget_of tokens 100000 600);
        ("delegatesTo", strs delegates)].

Definition manifest_example : list (string * json) :=
  Eval vm_compute in
  items_of
    (team_sealed "AgentTeamManifest"
       (JObj [("id", JStr "manifest-1"); ("projectId", JStr "project-1");
              ("createdAt", JStr "2026-06-01T00:00:00Z"); ("recordDigest", JStr GENESIS_DIGEST)])
       [("profile", JStr PROFILE);
        ("authority",
          JObj [("teamId", JStr "team-1"); ("storeId", JStr "store-1");
                ("authoritySnapshotDigest", JStr some_digest); ("activeBundleDigest", JStr some_digest);
                ("accessPolicyDigest", JStr some_digest)]);
        ("roles",
          JArr [role_of "lead" ["model.invoke"; "repository.read"] ["repository.read"] ["worker"] 1000;
                role_of "worker" ["repository.read"] ["repository.read"] [] 500]);
        ("budget", JObj [("maxTasks", JInt 3); ("maxTotalTokens", JInt 1600);
                         ("maxCostMicrousd", JInt 150000)]);
        ("deadline", JStr "2026-06-02T00:00:00Z");
        ("safety", JObj [("signedAuthorityRequired", JBool true); ("permissionsGranted", JBool false);
                         ("runtimeAuthorityCreated", JBool false)])]).

Definition task_doc (id role : string) (parent : json) (action : string) (tool resource : json)
    (tokens cost : Z) (dependencies : list string) (route : json) : list (string * json) :=
  items_of
    (team_sealed "TeamTask" (team_metadata id "run-1")
       [("roleId", JStr role); ("parentTaskId", parent); ("action", JStr action); ("dataClass", JStr "D0");
        ("toolId", tool); ("zone", JStr "Z0"); ("environmentId", JStr "local"); ("resource", resource);
        ("notAfter", JStr "2026-06-02T00:00:00Z"); ("budget", budget_of tokens cost 60);
        ("input", bound_to "Artifact" "input-1" some_digest); ("dependencies", strs dependencies);
        ("routeDecision", route);
        ("safety", JObj [("routerDecisionGrantsAuthority", JBool false);
                         ("delegationExpandsAuthority", JBool false)])]).
Definition tree : json := bound_to "repository-entry" "tree-1" some_digest.
Definition read_doc : list (string * json) :=
  Eval vm_compute in
  task_doc "read" "lead" JNull "repository.read" (JStr "repository.read") tree 600 1000 [] JNull.
Definition list_doc : list (string * json) :=
  Eval vm_compute in
  task_doc "list" "worker" (JStr "read") "repository.read" (JStr "repository.read") tree 300 1000 [] JNull.

Definition route_digest : string :=
  Eval vm_compute in
  match as_decision example_decision with Some d => rm_digest (dc_meta d) | None => EmptyString end.
Definition ask_doc : list (string * json) :=
  Eval vm_compute in
  task_doc "ask" "lead" JNull "model.invoke" JNull
    (bound_to "deployment" "local-b" (identity_digest candidate_b)) 700 100000 ["read"]
    (bound_to "ModelRouteDecision" "decision-1" route_digest).

(** What the worker of "ask" presents: the decision, its request and the model call. *)
Definition subject_doc : json :=
  JObj [("apiVersion", JStr "runtime.ai.ecosystem/v1alpha1"); ("kind", JStr "ModelRequest");
        ("metadata", JObj [("id", JStr "call-1"); ("runId", JStr "run-1");
                           ("createdAt", JStr "2026-06-01T12:00:00Z")]);
        ("spec",
          JObj [("planDigest", JStr some_digest); ("deploymentId", JStr "local-b");
                ("deploymentIdentityDigest", JStr (identity_digest candidate_b));
                ("endpointBindingDigest", JStr some_digest);
                ("input", JObj [("artifactRecordDigest", JStr some_digest);
                                ("contentDigest", JStr some_digest); ("byteLength", JInt 10);
                                ("dataClass", JStr "D0"); ("trust", JStr "P1")]);
                ("parameters", JObj [("maxOutputTokens", JInt 400); ("maxOutputBytes", JInt 4096);
                                     ("temperatureMillis", JInt 0)]);
                ("timeoutMs", JInt 1000); ("fallbackPolicy", JStr "none")])].
Definition ask_evidence : evidence :=
  Some [("routeDecision", example_decision); ("routeRequest", request_doc); ("runtimeSubject", subject_doc)].

Definition handoff_doc : list (string * json) :=
  Eval vm_compute in
  items_of
    (team_sealed "TeamHandoff" (team_metadata "handoff-1" "run-1")
       [("fromTaskId", JStr "read"); ("fromRoleId", JStr "lead"); ("toTaskId", JStr "ask");
        ("toRoleId", JStr "lead"); ("artifact", bound_to "Artifact" "input-1" some_digest);
        ("channel", JStr "task-input")]).

(** ** The gates and the arguments *)

Definition open_guard : AuthorityGuard :=
  {| guard_manifest := fun _ _ => Ok tt;
     guard_claim := fun _ _ _ _ => Ok (JStr some_digest) |}.
Definition open_gate : ExecutionAuthorizer :=
  {| gate_authorize := fun _ task _ _ _ =>
       match as_task task with
       | Some t => Ok [("effect", JStr "allow"); ("taskDigest", JStr (tm_digest (tk_meta t)))]
       | None => Err KeyError
       end;
     gate_assert_current := fun _ _ _ _ _ _ => Ok tt |}.
Definition worker_doc : json := JObj [("worker", JStr "w-1")].
(** Noon and some seconds. *)
Definition noon_plus (s : Z) : datetime :=
  {| year := 2026; month := 6; day := 1; hour := 12; minute := 0; second := s; microsecond := 0;
     utcoffset := Some 0 |}.
Definition claim_at (s : Z) (token : string) : ClaimArgs :=
  {| cl_guard := open_guard; cl_worker := worker_doc; cl_now := noon_plus s; cl_lease_seconds := 30;
     cl_token := token |}.
Definition effect_at (s : Z) : EffectArgs :=
  {| ef_guard := open_guard; ef_gate := open_gate; ef_worker := worker_doc; ef_now := noon_plus s |}.
Program Definition succeeded_with (tokens cost : Z) (Hu : (0 <=? tokens) && (0 <=? cost) = true)
  : TaskEffectResult :=
  {| te_status := Succeeded; te_outcome_digest := some_digest; te_used_tokens := tokens;
     te_used_cost := cost |}.
Next Obligation. intros tokens cost Hu. unfold effect_ok. by rewrite <- andb_assoc, Hu. Qed.

Definition coordinator_args : CoordinatorArgs :=
  {| ca_key := "0123456789abcdef0123456789abcdef"; ca_key_id := "key-1"; ca_clock := noon_plus 0;
     ca_store_id := "store-token"; ca_seal := 7; ca_route_decisions := [route_digest];
     ca_route_policies := [policy_digest example_router];
     ca_price_catalogs := [price_digest example_router] |}.
Definition create_args : CreateArgs :=
  {| cr_guard := open_guard; cr_stack := 1000; cr_manifest := manifest_example; cr_run := "run-1";
     cr_tasks := [read_doc; ask_doc; list_doc]; cr_now := noon_plus 0; cr_clock := noon_plus 0 |}.

(** ** The run *)

Definition unopened : coordinator := new_coordinator coordinator_args 0.
Definition opened : coordinator * team_db :=
  Eval vm_compute in
  match open_coordinator coordinator_args None with
  | (Some db, Ok c) => (c, db)
  | _ => (unopened, empty_db)
  end.
Definition no_claim : LeaseClaim :=
  {| lc_run := EmptyString; lc_task := EmptyString; lc_task_digest := EmptyString;
     lc_worker := EmptyString; lc_token := EmptyString; lc_expires_at := 0; lc_attempt := 0 |}.
Definition claim_of (r : result LeaseClaim) : LeaseClaim := match r with Ok claim => claim | Err _ => no_claim end.
Definition no_authorization : ExecutionAuthorization :=
  {| ea_run := EmptyString; ea_task := EmptyString; ea_task_digest := EmptyString;
     ea_claim_digest := EmptyString; ea_authorization := []; ea_evidence := None; ea_expires_at := 0;
     ea_seal := 0 |}.
Definition authorization_of (r : result ExecutionAuthorization) : ExecutionAuthorization :=
  match r with Ok au => au | Err _ => no_authorization end.

Definition created : coordinator * team_db :=
  Eval vm_compute in (create_run opened.1 opened.2 create_args).1.

(** The task "read" to its end, and its handoff. *)
Definition read_claimed : coordinator * team_db * result LeaseClaim :=
  Eval vm_compute in
  claim_task created.1 created.2 "run-1" "read" (claim_at 1 "token-1") (noon_plus 1).
Definition read_claim : LeaseClaim := Eval vm_compute in claim_of read_claimed.2.
Definition read_authorized : coordinator * team_db * result ExecutionAuthorization :=
  Eval vm_compute in
  authorize_effect read_claimed.1.1 read_claimed.1.2 read_claim (effect_at 2) None (noon_plus 2).
Definition read_authorization : ExecutionAuthorization :=
  Eval vm_compute in authorization_of read_authorized.2.
Definition read_started : coordinator * team_db * result unit :=
  Eval vm_compute in
  start_effect read_authorized.1.1 read_authorized.1.2 read_claim (effect_at 3) read_authorization
    (noon_plus 3).
Definition read_done : coordinator * team_db * result task_view :=
  Eval vm_compute in
  complete_effect read_started.1.1 read_started.1.2 read_claim (succeeded_with 550 900 eq_refl)
    (noon_plus 4) (noon_plus 4) (noon_plus 4).
Definition handed : coordinator * team_db * result string :=
  Eval vm_compute in record_handoff read_done.1.1 read_done.1.2 handoff_doc.

(** The task "ask" up to its start. *)
Definition ask_claimed : coordinator * team_db * result LeaseClaim :=
  Eval vm_compute in
  claim_task handed.1.1 handed.1.2 "run-1" "ask" (claim_at 5 "token-2") (noon_plus 5).
Definition ask_claim : LeaseClaim := Eval vm_compute in claim_of ask_claimed.2.
Definition ask_authorized : coordinator * team_db * result ExecutionAuthorization :=
  Eval vm_compute in
  authorize_effect ask_claimed.1.1 ask_claimed.1.2 ask_claim (effect_at 6) ask_evidence (noon_plus 6).
Definition ask_authorization : ExecutionAuthorization :=
  Eval vm_compute in authorization_of ask_authorized.2.
Definition ask_started : coordinator * team_db * result unit :=
  Eval vm_compute in
  start_effect ask_authorized.1.1 ask_authorized.1.2 ask_claim (effect_at 7) ask_authorization
    (noon_plus 7).

(** The run is cancelled while "ask" runs; its worker acknowledges. *)
Definition cancelled : coordinator * team_db * result unit :=
  Eval vm_compute in cancel_run ask_started.1.1 ask_started.1.2 "run-1" (noon_plus 8) (noon_plus 8).
Definition acknowledged : coordinator * team_db * result unit :=
  Eval vm_compute in
  acknowledge_cancellation cancelled.1.1 cancelled.1.2 ask_claim (noon_plus 9) (noon_plus 9).
Definition finalized : coordinator * team_db * result json :=
  Eval vm_compute in
  finalize_run acknowledged.1.1 acknowledged.1.2 "run-1" "result-1" (noon_plus 10) (noon_plus 10).

(** Everything succeeded but the last: "list" was cancelled and "ask" charged what
    it had reserved. *)
Example run_answers :
  (is_ok read_claimed.2, is_ok read_authorized.2, is_ok read_started.2, is_ok read_done.2,
   is_ok handed.2, is_ok ask_claimed.2, is_ok ask_authorized.2, is_ok ask_started.2,
   is_ok cancelled.2, is_ok acknowledged.2)
  = (true, true, true, true, true, true, true, true, true, true)
  ∧ ((fun r => (rr_status r, rr_tokens r, rr_cost r, map rt_status (rr_tasks r)))
     <$> (match finalized.2 with Ok doc => as_run_result doc | Err _ => None end))
    = Some ("partial-failure", 1250, 100900, ["cancelled"; "cancelled"; "succeeded"]).
Proof. split; vm_compute; reflexivity. Qed.

(** ** The calls and the databases they leave *)

Lemma opened_ok : open_coordinator coordinator_args None = (Some opened.2, Ok opened.1).
Proof. vm_compute. reflexivity. Qed.
Lemma created_ok :
  create_run opened.1 opened.2 create_args
  = (created.1, created.2, Ok "12008c4e12008c4e12008c4e12008c4e12008c4e12008c4e12008c4e12008c4e").
Proof. vm_compute. reflexivity. Qed.
Lemma read_claimed_ok :
  claim_task created.1 created.2 "run-1" "read" (claim_at 1 "token-1") (noon_plus 1)
  = (read_claimed.1.1, read_claimed.1.2, Ok read_claim).
Proof. vm_compute. reflexivity. Qed.
Lemma read_authorized_ok :
  authorize_effect read_claimed.1.1 read_claimed.1.2 read_claim (effect_at 2) None (noon_plus 2)
  = (read_authorized.1.1, read_authorized.1.2, Ok read_authorization).
Proof. vm_compute. reflexivity. Qed.
Lemma read_started_ok :
  start_effect read_authorized.1.1 read_authorized.1.2 read_claim (effect_at 3) read_authorization
    (noon_plus 3) = (read_started.1.1, read_started.1.2, Ok tt).
Proof. vm_compute. reflexivity. Qed.
Lemma handed_ok :
  record_handoff read_done.1.1 read_done.1.2 handoff_doc = (handed.1.1, handed.1.2, handed.2).
Proof. vm_compute. reflexivity. Qed.
Lemma ask_claimed_ok :
  claim_task handed.1.1 handed.1.2 "run-1" "ask" (claim_at 5 "token-2") (noon_plus 5)
  = (ask_claimed.1.1, ask_claimed.1.2, Ok ask_claim).
Proof. vm_compute. reflexivity. Qed.
Lemma ask_authorized_ok :
  authorize_effect ask_claimed.1.1 ask_claimed.1.2 ask_claim (effect_at 6) ask_evidence (noon_plus 6)
  = (ask_authorized.1.1, ask_authorized.1.2, Ok ask_authorization).
Proof. vm_compute. reflexivity. Qed.
Lemma ask_started_ok :
  start_effect ask_authorized.1.1 ask_authorized.1.2 ask_claim (effect_at 7) ask_authorization
    (noon_plus 7) = (ask_started.1.1, ask_started.1.2, Ok tt).
Proof. vm_compute. reflexivity. Qed.
Lemma cancelled_ok :
  cancel_run ask_started.1.1 ask_started.1.2 "run-1" (noon_plus 8) (noon_plus 8)
  = (cancelled.1.1, cancelled.1.2, Ok tt).
Proof. vm_compute. reflexivity. Qed.
Lemma acknowledged_ok :
  acknowledge_cancellation cancelled.1.1 cancelled.1.2 ask_claim (noon_plus 9) (noon_plus 9)
  = (acknowledged.1.1, acknowledged.1.2, Ok tt).
Proof. vm_compute. reflexivity. Qed.

(** A completion of "read" and what it reports. *)
Definition read_view : task_view :=
  Eval vm_compute in
  match find_task "run-1" "read" read_done.1.2 with
  | Some w => task_view_of w
  | None => {| tv_run := EmptyString; tv_id := EmptyString; tv_digest := EmptyString; tv_status := Pending;
               tv_attempt := 0; tv_reserved_tokens := 0; tv_reserved_cost := 0; tv_charged_tokens := 0;
               tv_charged_cost := 0; tv_outcome := None; tv_cancellation := false |}
  end.
Lemma read_done_ok :
  complete_effect read_started.1.1 read_started.1.2 read_claim (succeeded_with 550 900 eq_refl)
    (noon_plus 4) (noon_plus 4) (noon_plus 4) = (read_done.1.1, read_done.1.2, Ok read_view).
Proof. vm_compute. reflexivity. Qed.

Lemma reachable_by c call db c' db' :
  reachable db → run_call c db call = (c', db') → reachable db'.
Proof. intros Hr E. eapply reachable_call; [exact Hr|]. exists c, call. by rewrite E. Qed.

Lemma opened_reachable : reachable opened.2.
Proof. eapply reachable_new, opened_ok. Qed.
Lemma created_reachable : reachable created.2.
Proof.
  eapply (reachable_by _ (CreateRun create_args)); [apply opened_reachable|]. cbn [run_call].
  by rewrite created_ok.
Qed.
Lemma read_claimed_reachable : reachable read_claimed.1.2.
Proof.
  eapply (reachable_by _ (ClaimTask _ _ _ _)); [apply created_reachable|]. cbn [run_call].
  by rewrite read_claimed_ok.
Qed.
Lemma read_authorized_reachable : reachable read_authorized.1.2.
Proof.
  eapply (reachable_by _ (AuthorizeEffect _ _ _ _)); [apply read_claimed_reachable|]. cbn [run_call].
  by rewrite read_authorized_ok.
Qed.
Lemma read_started_reachable : reachable read_started.1.2.
Proof.
  eapply (reachable_by _ (StartEffect _ _ _ _)); [apply read_authorized_reachable|]. cbn [run_call].
  by rewrite read_started_ok.
Qed.
Lemma read_done_reachable : reachable read_done.1.2.
Proof.
  eapply (reachable_by _ (CompleteEffect _ _ _ _ _)); [apply read_started_reachable|]. cbn [run_call].
  by rewrite read_done_ok.
Qed.
Lemma handed_reachable : reachable handed.1.2.
Proof.
  eapply (reachable_by _ (RecordHandoff _)); [apply read_done_reachable|]. cbn [run_call].
  by rewrite handed_ok.
Qed.
Lemma ask_claimed_reachable : reachable ask_claimed.1.2.
Proof.
  eapply (reachable_by _ (ClaimTask _ _ _ _)); [apply handed_reachable|]. cbn [run_call].
  by rewrite ask_claimed_ok.
Qed.
Lemma ask_authorized_reachable : reachable ask_authorized.1.2.
Proof.
  eapply (reachable_by _ (AuthorizeEffect _ _ _ _)); [apply ask_claimed_reachable|]. cbn [run_call].
  by rewrite ask_authorized_ok.
Qed.
Lemma ask_started_reachable : reachable ask_started.1.2.
Proof.
  eapply (reachable_by _ (StartEffect _ _ _ _)); [apply ask_authorized_reachable|]. cbn [run_call].
  by rewrite ask_started_ok.
Qed.
Lemma cancelled_reachable : reachable cancelled.1.2.
Proof.
  eapply (reachable_by _ (CancelRun _ _ _)); [apply ask_started_reachable|]. cbn [run_call].
  by rewrite cancelled_ok.
Qed.
Lemma acknowledged_reachable : reachable acknowledged.1.2.
Proof.
  eapply (reachable_by _ (AcknowledgeCancellation _ _ _)); [apply cancelled_reachable|]. cbn [run_call].
  by rewrite acknowledged_ok.
Qed.
