(* ===== verification/TeamProps.v ===== *)
(** * Properties of the team coordinator

    The coordinator implements the abstract scheduler, and what follows from its
    invariant and from what never changes back: budgets, effects that start once
    and under guard, routes that serve one task, cancelled runs that stay quiet,
    results that stay. *)

From S2P Require Import Prelude Json Digest PyTime PyClock PyFloat Schema RouteRecords RouteConsumption JsonCanon TeamContracts ModelRequest TeamGraph TeamStore TeamRuntime TeamEffects TeamFacts TeamSpec TeamInvariant TeamRefinement TeamProofs RouteExamples TeamExamples.

Section Claims.
Context `{FromIso} `{Crypto} `{Jsonschema} `{DateTimeFormat}.

(** [C1] The coordinator implements the scheduler.  Whatever calls any
    coordinators make on a database of the coordinator, in any order and with any
    claims, clocks, gates and evidence, the tables change only by the guarded steps
    of the abstract scheduler, and its invariant holds of what they leave. *)
Theorem coordinator_refines_scheduler db db' :
  reachable db → rtc db_step db db' → rtc scheduler_step db db' ∧ scheduled db'.
Proof.
  intros Hr Hsteps. pose proof (reachable_scheduled _ Hr) as Hs.
  pose proof (db_steps_steps _ _ Hs Hsteps) as Hst. split; [done|].
  by eapply scheduler_steps_scheduled.
Qed.

(** [C5] A run never exceeds its budget: the tokens and the cost its tasks have
    reserved and been charged together stay within the limits of its manifest, and
    no task's share is negative. *)
Theorem team_budget_never_exceeded db r run :
  reachable db → find_run r db = Some run →
  sum_of usage_tokens (tasks_of r db) ≤ rn_max_tokens run ∧
  sum_of usage_cost (tasks_of r db) ≤ rn_max_cost run ∧
  ∀ w, w ∈ tasks_of r db → 0 ≤ tw_reserved_tokens w ∧ 0 ≤ tw_reserved_cost w ∧
    0 ≤ tw_charged_tokens w ∧ 0 ≤ tw_charged_cost w.
Proof.
  intros Hr [Hin <-]%find_run_elem. pose proof (reachable_scheduled _ Hr) as Hs.
  destruct (sc_budget _ Hs _ Hin) as [Ht Hc]. split_and!; [exact Ht|exact Hc|].
  intros w [Hw _]%tasks_of_elem. destruct (sc_rows _ Hs w Hw) as [[[] [] _ _ _] _]. done.
Qed.

(** [C7] An effect starts at most once.  After a successful [start_effect] no
    call whatever, by any coordinator and with any claim, starts that task again or
    claims it again. *)
Theorem team_effect_starts_once c db claim a au clock c' db' db2 :
  reachable db → start_effect c db claim a au clock = (c', db', Ok tt) → rtc db_step db' db2 →
  ∀ c2 a2 clock2,
    (∀ claim2 au2 e2, lc_run claim2 = lc_run claim → lc_task claim2 = lc_task claim →
       is_ok (start_effect c2 db2 claim2 e2 au2 clock2).2 = false) ∧
    is_ok (claim_task c2 db2 (lc_run claim) (lc_task claim) a2 clock2).2 = false.
Proof.
  intros Hr Hst Hsteps c2 a2 clock2.
  assert (reachable db') as Hr'.
  { eapply reachable_call; [done|]. exists c, (StartEffect claim a au clock). cbn [run_call]. by rewrite Hst. }
  pose proof (db_steps_progress _ _ Hr' Hsteps) as Hp.
  pose proof (reachable_scheduled _ (reachable_steps _ _ Hr' Hsteps)) as Hs2.
  apply start_effect_row in Hst as (w & _ & _ & Hw).
  destruct (pg_task _ _ Hp _ _ _ Hw) as (w2 & Hw2 & Hl).
  assert (settled w2) as Hset by (apply (lt_settled _ _ Hl); split; discriminate).
  split; [|by eapply settled_not_claimed]. intros claim2 au2 e2 Er Et.
  eapply settled_not_started; [by rewrite Er, Et|done].
Qed.


(** A route serves one task.  Two consumptions of one route, or two by one
    task, are the same; a consumed route belongs to a task whose effect was begun
    or given up; and every task of a model call that was begun consumed the route
    it names. *)
Theorem route_serves_one_task db :
  reachable db →
  (∀ x y, x ∈ db_routes db → y ∈ db_routes db →
     rw_route x = rw_route y ∨ rw_task x = rw_task y → x = y) ∧
  (∀ x, x ∈ db_routes db → ∃ w, w ∈ db_tasks db ∧ tw_digest w = rw_task x ∧ settled w) ∧
  (∀ w doc t r, w ∈ db_tasks db → begun w → stored_task w = Ok (doc, t) → tk_route t = Some r →
     ∃ x, x ∈ db_routes db ∧ rw_route x = bd_digest r ∧ rw_task x = tw_digest w).
Proof.
  intros Hr. pose proof (reachable_scheduled _ Hr) as Hs. destruct (sc_routes _ Hs) as [H1' H2']. split_and!.
  - intros x y Hx Hy [E|E]; [by apply (NoDup_map_inj _ _ H1')|by apply (NoDup_map_inj _ _ H2')].
  - intros x Hx. by apply (sc_consumed _ Hs).
  - intros w doc t r. apply (sc_routed _ Hs).
Qed.

(** A cancelled run stays quiet.  After a successful [cancel_run] every task
    of the run is settled, and nothing any coordinator does later claims or starts
    one of them. *)
Theorem cancelled_run_stays_quiet c db r now clock c' db' db2 :
  reachable db → cancel_run c db r now clock = (c', db', Ok tt) → rtc db_step db' db2 →
  (∀ w, w ∈ tasks_of r db2 → settled w) ∧
  ∀ c2 clock2,
    (∀ i a, is_ok (claim_task c2 db2 r i a clock2).2 = false) ∧
    (∀ claim a au, lc_run claim = r → is_ok (start_effect c2 db2 claim a au clock2).2 = false).
Proof.
  intros Hr Hc Hsteps.
  assert (reachable db') as Hr'.
  { eapply reachable_call; [done|]. exists c, (CancelRun r now clock). cbn [run_call]. by rewrite Hc. }
  assert (∃ run, find_run r db' = Some run ∧ rn_cancellation run = true) as (run & Hrun & Hcan).
  { by eapply cancel_run_cancels. }
  pose proof (db_steps_progress _ _ Hr' Hsteps) as Hp.
  pose proof (reachable_scheduled _ (reachable_steps _ _ Hr' Hsteps)) as Hs2.
  destruct (pg_run _ _ Hp _ _ Hrun) as (run2 & Hrun2 & Hl).
  pose proof (lr_cancelled _ _ Hl Hcan) as Hcan2. pose proof Hrun2 as [Hin2 Hid2]%find_run_elem.
  split; [|intros c2 clock2; split].
  - intros w Hw. apply (sc_cancelled _ Hs2 run2 w Hin2 Hcan2). by rewrite Hid2.
  - intros i a. destruct (claim_task c2 db2 r i a clock2) as [[c3 db3] [claim|e]] eqn:E; [|done].
    apply claim_task_ok in E as (run3 & _ & _ & Hrun3 & _ & Hcan3 & _). congruence.
  - intros claim a au <-. destruct (start_effect _ _ _ _ _ _) as [[c3 db3] [u|e]] eqn:E; [|done].
    apply start_effect_ok in E as (_ & _ & [_ _ (w & run3 & m & d & t & x & n & _ & Hcx & _ & Hn & _)] & _).
    apply context_inv in Hcx as [Hrun3 _]. congruence.
Qed.
End Claims.

(** ** Witnesses *)

#[local] Existing Instance Checksum.crypto.
#[local] Existing Instance rfc3339_iso.
#[local] Existing Instance draft202012.
#[local] Existing Instance rfc3339_format.

Lemma db_step_by c call db c' db' : run_call c db call = (c', db') → db_step db db'.
Proof. intros E. exists c, call. by rewrite E. Qed.
Lemma created_step : db_step opened.2 created.2.
Proof. eapply (db_step_by _ (CreateRun create_args)). cbn [run_call]. by rewrite created_ok. Qed.
Lemma read_done_step : db_step read_started.1.2 read_done.1.2.
Proof. eapply (db_step_by _ (CompleteEffect _ _ _ _ _)). cbn [run_call]. by rewrite read_done_ok. Qed.
Lemma acknowledged_step : db_step cancelled.1.2 acknowledged.1.2.
Proof. eapply (db_step_by _ (AcknowledgeCancellation _ _ _)). cbn [run_call]. by rewrite acknowledged_ok. Qed.

Lemma coordinator_refines_scheduler_witness :
  rtc scheduler_step opened.2 created.2 ∧ scheduled created.2.
Proof.
  apply (coordinator_refines_scheduler opened.2 created.2 opened_reachable).
  apply rtc_once, created_step.
Defined.

Lemma team_budget_never_exceeded_witness :
  ∃ run, find_run "run-1" ask_started.1.2 = Some run ∧
    sum_of usage_tokens (tasks_of "run-1" ask_started.1.2) ≤ rn_max_tokens run ∧
    sum_of usage_cost (tasks_of "run-1" ask_started.1.2) ≤ rn_max_cost run.
Proof.
  destruct (find_run "run-1" ask_started.1.2) as [run|] eqn:E; [|vm_compute in E; discriminate E].
  exists run. split; [reflexivity|].
  destruct (team_budget_never_exceeded _ _ _ ask_started_reachable E) as (Ht & Hc & _).
  split; [exact Ht|exact Hc].
Defined.

Lemma team_effect_starts_once_witness :
  is_ok (start_effect read_done.1.1 read_done.1.2 read_claim (effect_at 5) read_authorization (noon_plus 5)).2
  = false.
Proof.
  destruct (team_effect_starts_once _ _ _ _ _ _ _ _ read_done.1.2 read_authorized_reachable read_started_ok
              (rtc_once _ _ read_done_step) read_done.1.1 (claim_at 5 "token-3") (noon_plus 5)) as [Hs _].
  apply Hs; reflexivity.
Defined.


Lemma route_serves_one_task_witness :
  ∃ x, db_routes ask_started.1.2 = [x] ∧
    ∃ w, w ∈ db_tasks ask_started.1.2 ∧ tw_digest w = rw_task x ∧ settled w.
Proof.
  destruct (db_routes ask_started.1.2) as [|x [|y l]] eqn:E; [vm_compute in E; discriminate E| |vm_compute in E; discriminate E].
  exists x. split; [reflexivity|].
  destruct (route_serves_one_task _ ask_started_reachable) as (_ & Hs & _). apply Hs. rewrite E. left.
Defined.

Lemma cancelled_run_stays_quiet_witness :
  is_ok (claim_task acknowledged.1.1 acknowledged.1.2 "run-1" "list" (claim_at 11 "token-3") (noon_plus 11)).2
  = false.
Proof.
  destruct (cancelled_run_stays_quiet _ _ _ _ _ _ _ acknowledged.1.2 ask_started_reachable cancelled_ok
              (rtc_once _ _ acknowledged_step)) as [_ Hq].
  apply (proj1 (Hq acknowledged.1.1 (noon_plus 11))).
Defined.
