(* ===== verification/TeamLifeProps.v ===== *)
(** * Properties of the calls of the team coordinator

    Creation, claims, expiry, effects, routes and results: what each call promises
    when it returns, and how long the promise lasts. *)

From S2P Require Import Prelude Json Digest PyTime PyClock PyFloat Schema RouteRecords RouteConsumption JsonCanon TeamContracts ModelRequest TeamGraph TeamStore TeamRuntime TeamEffects TeamFacts TeamSpec TeamInvariant TeamRefinement TeamProofs TeamLifecycle TeamResults RouteExamples TeamExamples.

Section Claims.
Context `{FromIso} `{Crypto} `{Jsonschema} `{DateTimeFormat}.

Lemma call_reachable c db call : reachable db → reachable (run_call c db call).2.
Proof. intros Hr. eapply reachable_call; [done|]. by exists c, call. Qed.

(** [C14] An effect is settled once.  A completion that returns reports the row it
    leaves, with exactly the outcome and the usage it was given; a task that was not
    settled before had a live lease and reserved at least that much; and any later
    completion of the task that returns was given the same outcome and answers the
    same. *)
Theorem effect_settles_once c db claim r now k k' c' db' v :
  reachable db → complete_effect c db claim r now k k' = (c', db', Ok v) →
  (∃ w, find_task (lc_run claim) (lc_task claim) db' = Some w ∧ v = task_view_of w ∧
        same_outcome w r = true) ∧
  (∀ w, find_task (lc_run claim) (lc_task claim) db = Some w →
     tw_status w in? [Succeeded; Failed] = false →
     tw_status w = Started ∧ te_used_tokens r ≤ tw_reserved_tokens w ∧
     te_used_cost r ≤ tw_reserved_cost w ∧
     ∃ c1 observed, _observed_time c now k = (c1, Ok observed) ∧ observed < lc_expires_at claim) ∧
  (∀ db2 c2 claim2 r2 now2 k2 k2' c3 db3 v2,
     rtc db_step db' db2 → lc_run claim2 = lc_run claim → lc_task claim2 = lc_task claim →
     complete_effect c2 db2 claim2 r2 now2 k2 k2' = (c3, db3, Ok v2) →
     v2 = v ∧ te_status r2 = te_status r ∧ te_outcome_digest r2 = te_outcome_digest r ∧
     te_used_tokens r2 = te_used_tokens r ∧ te_used_cost r2 = te_used_cost r).
Proof.
  intros Hr Hc. pose proof (reachable_scheduled _ Hr) as Hs.
  pose proof (call_reachable c db (CompleteEffect claim r now k k') Hr) as Hr'. cbn [run_call] in Hr'.
  rewrite Hc in Hr'. cbn [fst snd] in Hr'.
  pose proof (complete_effect_ok _ _ _ _ _ _ _ _ _ _ Hc) as (_ & _ & db1 & _ & [(w' & Hw' & -> & Ho) _] & _).
  split_and!; [by exists w'|intros w; by eapply complete_in_time|].
  intros db2 c2 claim2 r2 now2 k2 k2' c3 db3 v2 Hsteps E1 E2 Hc2.
  pose proof (complete_effect_ok _ _ _ _ _ _ _ _ _ _ Hc2) as (_ & _ & _ & _ & [(w3 & Hw3 & -> & Ho3) _] & _).
  rewrite E1, E2 in Hw3.
  assert (rtc db_step db' db3) as H3.
  { eapply rtc_r; [exact Hsteps|]. exists c2, (CompleteEffect claim2 r2 now2 k2 k2'). cbn [run_call]. by rewrite Hc2. }
  destruct (pg_task _ _ (db_steps_progress _ _ Hr' H3) _ _ _ Hw') as (w4 & Hw4 & Hl).
  assert (w4 = w3) as -> by congruence.
  assert (w3 = w') as ->.
  { apply (kp_terminal _ _ (lt_keeps _ _ Hl)). unfold same_outcome in Ho. breflect. unfold is_terminal.
    destruct (effect_status r) as [E|E]; by match goal with E' : tw_status w' = _ |- _ => rewrite E', E end. }
  split; [done|]. unfold same_outcome in Ho, Ho3. breflect. split_and!; congruence.
Qed.

(** A claim grants a bounded lease.  It returns only for a pending task of
    an active run whose dependencies are ready; the lease ends no later than the
    task, the run and the seconds asked for; the task's whole budget is reserved
    under it; the attempt is counted; and the coordinator accepts the claim. *)
Theorem claim_grants_bounded_lease c db r i a clock c' db' claim :
  reachable db → claim_task c db r i a clock = (c', db', Ok claim) →
  ∃ observed run m t w,
    _observed_time c (cl_now a) clock = (c', Ok observed) ∧
    claim_granted db r i a observed claim run m t w ∧
    find_task r i db'
    = Some (lease_task (lc_attempt claim) (lc_worker claim) (_claim_hash (lc_token claim))
              (epoch (lc_expires_at claim)) (bu_tokens (tk_budget t)) (bu_cost (tk_budget t))
              (expire_row r observed w)) ∧
    is_ok (_assert_claim_locked false claim db') = true.
Proof.
  intros Hr Hc. pose proof (reachable_scheduled _ Hr) as Hs.
  destruct (claim_task_granted _ _ _ _ _ _ _ _ _ Hs Hc) as (observed & run & m & t & w & Ho & Hg & Hw).
  exists observed, run, m, t, w. split_and!; [done..|].
  destruct Hg as [_ [Hf _] [doc Ht] _ _ _ _ (E1 & E2 & _ & _ & _ & Ed)].
  eapply granted_claim_accepted; [exact E1|exact E2| |exact Hw].
  apply find_task_elem in Hf as (Hin & _ & _). destruct (sc_rows _ Hs w Hin) as [_ Hb].
  destruct (Hb _ _ Ht) as (_ & _ & Edig & _). congruence.
Qed.

(** Expiry recovers exactly the expired leases.  [expire_leases] returns the
    number of effects that were cut off; every row of the run whose lease has run
    out goes back to pending, or becomes ambiguous and is charged its reservation
    when its effect had started; every other row, the runs, the handoffs and the
    routes stay. *)
Theorem expiry_recovers_exactly c db r now clock c' db' n :
  reachable db → expire_leases c db r now clock = (c', db', Ok n) →
  ∃ observed, _observed_time c now clock = (c', Ok observed) ∧
    db_tasks db' = map (expire_row r observed) (db_tasks db) ∧
    n = length (List.filter (expired r Started (epoch observed)) (db_tasks db)) ∧
    db_runs db' = db_runs db ∧ db_handoffs db' = db_handoffs db ∧ db_routes db' = db_routes db ∧
    ∀ w, w ∈ db_tasks db' → expired r Started (epoch observed) w = false ∧
                            expired r Leased (epoch observed) w = false.
Proof.
  intros Hr. pose proof (reachable_scheduled _ Hr) as Hs. unfold expire_leases.
  destruct (_observed_time _ _ _) as [c1 [observed|e]]; [|discriminate].
  intros [-> (_ & _ & db1 & He & Hw)%expire_observed_ok]%answer_inv.
  apply write_auth_tables in Hw as (E1 & E2 & E3 & E4 & _). rewrite expire_view in He by done.
  injection He as <- <-. exists observed. split_and!; [done|exact E1|done|exact E2|exact E4|exact E3|].
  intros w' Hw'. rewrite E1 in Hw'. cbn [db_tasks with_tasks] in Hw'. apply elem_map in Hw' as (w & -> & _).
  unfold expire_row. destruct (expired r Started (epoch observed) w) eqn:Es.
  { unfold expired. cbn. by rewrite !andb_false_r. }
  destruct (expired r Leased (epoch observed) w) eqn:El; [|done].
  unfold expired. cbn. by rewrite !andb_false_r.
Qed.

(** [C28] A result is truthful and final.  The first [finalize_run] of a run that
    returns finds every task terminal and lists each with its status and charge; the
    usage is their sum, within the limits of the run, and the status their summary.
    From then on the tasks never change, and every later [finalize_run] that returns
    was asked with the same identifier and answers that record. *)
Theorem result_is_truthful_and_final c db r i now k c' db' doc run :
  reachable db → find_run r db = Some run → rn_result run = None →
  finalize_run c db r i now k = (c', db', Ok doc) →
  (∀ w, w ∈ tasks_of r db → is_terminal w = true) ∧
  (∃ rr, as_run_result doc = Some rr ∧
     rr_tasks rr = map result_task_of (order_by tw_id (tasks_of r db)) ∧
     rr_status rr = summary (map rt_status (rr_tasks rr)) ∧
     rr_tokens rr = sum_of tw_charged_tokens (tasks_of r db) ∧ rr_tokens rr ≤ rn_max_tokens run ∧
     rr_cost rr = sum_of tw_charged_cost (tasks_of r db) ∧ rr_cost rr ≤ rn_max_cost run) ∧
  (∀ db2, rtc db_step db' db2 →
     tasks_of r db2 = tasks_of r db ∧
     ∀ c2 i2 now2 k2 c3 db3 doc2,
       finalize_run c2 db2 r i2 now2 k2 = (c3, db3, Ok doc2) → doc2 = jnorm doc ∧ i2 = i).
Proof.
  intros Hr Hrun Hres Hf. pose proof (reachable_scheduled _ Hr) as Hs.
  pose proof (call_reachable c db (FinalizeRun r i now k) Hr) as Hr'. cbn [run_call] in Hr'.
  rewrite Hf in Hr'. cbn [fst snd] in Hr'. apply finalize_run_ok in Hf as [observed Hf].
  apply (finalize_locked_first _ _ _ _ _ _ _ run) in Hf as [Hne Hterm Hdoc Hv Htk (run' & Hrun' & Hres' & _)]; [|done..].
  destruct (result_record_reads _ _ _ _ _ Hdoc) as (meta & _ & _ & _ & _ & Hid & Hread).
  split_and!; [done| |].
  - exists (result_of_rows run meta (order_by tw_id (tasks_of r db))).
    split; [done|]. cbn [result_of_rows rr_tasks rr_status rr_tokens rr_cost]. rewrite !sum_of_order.
    pose proof Hrun as [Hin <-]%find_run_elem. destruct (sc_budget _ Hs _ Hin) as [Ht Hc].
    assert (∀ (f g : task_row → Z) l, (∀ w, w ∈ l → 0 ≤ g w) → sum_of f l ≤ sum_of (fun w => g w + f w) l) as Hmono.
    { intros f g l. unfold sum_of. induction l as [|x l IH]; intros Hg; cbn; [lia|].
      assert (0 ≤ g x) by (apply Hg; left). assert (∀ w, w ∈ l → 0 ≤ g w) as Hl by (intros w Hw; apply Hg; by right).
      specialize (IH Hl). lia. }
    split_and!; [done|by rewrite map_map|done| |done|].
    + etrans; [|exact Ht]. apply Hmono. intros w [Hw _]%tasks_of_elem. by apply (sc_rows _ Hs w Hw).
    + etrans; [|exact Hc]. apply Hmono. intros w [Hw _]%tasks_of_elem. by apply (sc_rows _ Hs w Hw).
  - intros db2 Hsteps. pose proof (db_steps_progress _ _ Hr' Hsteps) as Hp. split.
    + rewrite (pg_done _ _ Hp r run'); [done|done|by eexists].
    + intros c2 i2 now2 k2 c3 db3 doc2 [o2 Hf2]%finalize_run_ok.
      destruct (pg_run _ _ Hp _ _ Hrun') as (run2 & Hrun2 & Hl).
      eapply finalize_locked_again; [exact Hrun2| |exact Hv|exact Hid|exact Hf2].
      by apply (lr_result _ _ Hl).
Qed.

(** [C19] Delegation never widens.  In a run that was created every task is within
    the authority of its role, whose budget is within the manifest's; a child's role
    is one its parent's role may delegate to; and along any chain of parents a task
    keeps the action, place and resource, and has no higher data class, no other
    tool, no later end and no larger budget than any task above it. *)
Theorem delegation_never_widens c db a c' db' d :
  create_run c db a = (c', db', Ok d) →
  ∃ m checked,
    as_manifest (JObj (cr_manifest a)) = Some m ∧
    Forall2 (fun raw x => x.2.1 = JObj raw ∧ as_task (JObj raw) = Some x.2.2) (cr_tasks a) checked ∧
    (∀ i doc t, (i, (doc, t)) ∈ checked →
       (∃ role, role_by_id (mf_roles m) (tk_role t) = Some role ∧ allowed_by t role ∧
          bu_tokens (tk_budget t) ≤ mf_max_tokens m ∧ bu_cost (tk_budget t) ≤ mf_max_cost m) ∧
       ∀ p, tk_parent t = Some p → ∃ pdoc parent role,
         find_checked checked p = Some (pdoc, parent) ∧
         role_by_id (mf_roles m) (tk_role parent) = Some role ∧ tk_role t ∈ ro_delegates_to role) ∧
    ∀ t ancestor, descends checked t ancestor → within t ancestor.
Proof.
  intros (observed & candidate & m & checked & _ & Hp & _)%create_run_ok.
  pose proof Hp as [(_ & _ & Hm & Hok) _ _ _ Hent Hrec _ Hch]. rewrite Forall_forall in Hent.
  exists m, checked. split_and!; [done| | |by intros; eapply descends_within].
  - clear -Hrec Hent. induction Hrec as [|raw x tasks l Hx Hl IH]; constructor.
    + split; [done|]. rewrite <- Hx. apply Hent. left.
    + apply IH. intros y Hy. apply Hent. by right.
  - intros i doc t Hin. split.
    + destruct (ce_role _ _ _ _ (Hent _ Hin)) as (role & Hrole & Hall). exists role. cbn [snd] in *.
      apply task_role_allows in Hall. pose proof Hrole as [Hr _]%role_by_id_elem.
      destruct (manifest_role_within m role Hok Hr). pose proof (al_budget _ _ Hall) as (? & ? & ?).
      split_and!; [done..|lia|lia].
    + intros p Hpar. destruct (check_children_elem m checked (map snd checked) p doc t Hch) as ([pdoc parent] & Hf & Hn);
        [apply elem_map; by exists (i, (doc, t))|done|].
      apply child_narrow_within in Hn as (_ & role & Hrole & Hd). by exists pdoc, parent, role.
Qed.

Lemma own_rows r l : List.filter (fun w => tw_run w == r) (map (new_task_row r) l) = map (new_task_row r) l.
Proof.
  induction l as [|x l IH]; [done|]. cbn [map List.filter tw_run new_task_row].
  rewrite bool_decide_true by done. by rewrite IH.
Qed.

(** A run is stored as it was given.  After a [create_run] that returns, the
    run was new, is active with the limits of its manifest, and every task given is
    a pending row whose stored text reads back as the same task, in canonical form;
    the run has no other task. *)
Theorem created_run_is_stored c db a c' db' d :
  reachable db → create_run c db a = (c', db', Ok d) →
  ∃ m run,
    as_manifest (JObj (cr_manifest a)) = Some m ∧
    find_run (cr_run a) db = None ∧ find_run (cr_run a) db' = Some run ∧
    rn_status run = "active" ∧ rn_max_tokens run = mf_max_tokens m ∧ rn_max_cost run = mf_max_cost m ∧
    length (tasks_of (cr_run a) db') = length (cr_tasks a) ∧
    ∀ raw, raw ∈ cr_tasks a → ∃ t w,
      as_task (JObj raw) = Some t ∧ find_task (cr_run a) (tm_id (tk_meta t)) db' = Some w ∧
      tw_status w = Pending ∧ stored_task w = Ok (jnorm (JObj raw), t).
Proof.
  intros Hr Hc. pose proof (reachable_scheduled _ Hr) as Hs.
  pose proof (call_reachable c db (CreateRun a) Hr) as Hr'. cbn [run_call] in Hr'.
  rewrite Hc in Hr'. cbn [fst snd] in Hr'. pose proof (reachable_scheduled _ Hr') as Hs'.
  apply create_run_ok in Hc as (observed & candidate & m & checked & _ & [(_ & _ & Hm & _) _ _ Hnd Hent Hrec _ _] & _ & db1 & Hl & Hw).
  apply write_auth_tables in Hw as (Etk & Er & _). destruct (create_locked_rows _ _ _ _ _ _ _ Hs Hl) as (Hnone & Htk & Hrun).
  exists m. eexists. rewrite (find_run_same _ _ _ Er), Hrun. split_and!; try done.
  - unfold tasks_of. rewrite Etk, Htk, List.filter_app.
    assert (List.filter (fun w => tw_run w == cr_run a) (db_tasks db) = []) as ->.
    { apply elem_of_nil_inv. intros w [Hw Ew]%elem_filter. breflect.
      destruct (sc_owner _ Hs w Hw) as [x Hx]. congruence. }
    cbn [app]. rewrite own_rows, length_map, sorted_items_perm. by rewrite (Forall2_length _ _ _ Hrec).
  - intros raw Hraw. apply list_elem_of_lookup in Hraw as [n Hn].
    destruct (Forall2_lookup_l _ _ _ _ _ Hrec Hn) as ([i [doc t]] & Hx & Hd). cbn [fst snd] in Hd. subst doc.
    apply list_elem_of_lookup_2 in Hx. rewrite Forall_forall in Hent.
    destruct (Hent _ Hx) as [Hv Ht _ Hi _ _ _]. cbn [fst snd] in *.
    exists t, (new_task_row (cr_run a) (i, (JObj raw, t))). split_and!; [done| |done|by eapply stored_task_canonical].
    rewrite <- Hi.
    apply (find_task_unique db' (new_task_row (cr_run a) (i, (JObj raw, t)))); [done|].
    rewrite Etk, Htk. apply elem_of_app. right. apply elem_map. exists (i, (JObj raw, t)).
    split; [done|]. by rewrite sorted_items_perm.
Qed.

(** [C31] The acyclicity check decides.  With a stack deeper than the number of
    tasks, [_assert_acyclic] passes exactly when the tasks can be put in an order in
    which each comes after its dependencies and its parent; otherwise it names a
    reference to a task that does not exist, or a task that reaches itself. *)
Theorem acyclic_check_decides stack checked :
  (length checked < stack)%nat →
  (_assert_acyclic stack checked = Ok tt ↔
   ∃ l, topological (edges_of checked) l ∧ ∀ i, i ∈ l ↔ i ∈ map fst checked) ∧
  (∀ e, _assert_acyclic stack checked = Err e →
     e = reference_error ∧ (∃ i d, i ∈ map fst checked ∧ d ∈ edges_of checked i ∧ d ∉ map fst checked)
     ∨ e = cycle_error ∧ (∃ i, i ∈ map fst checked ∧ path (edges_of checked) i i)).
Proof.
  intros Hn. unfold _assert_acyclic. assert (length (map fst checked) < stack)%nat as Hn' by (by rewrite length_map).
  split; [split|].
  - apply assert_acyclic_sound.
  - intros (l & Ht & Hl). by eapply topological_search.
  - intros e. unfold assert_acyclic.
    assert (∀ x, x ∈ sorted_strs (map fst checked) → x ∈ map fst checked) as Hsub
      by (intros x; unfold sorted_strs; by rewrite elem_of_py_sorted).
    destruct (visit_all_spec (map fst checked) (edges_of checked) stack (sorted_strs (map fst checked)) [])
      as [Hs _]; [done|constructor|by intros x ?%elem_of_nil|].
    pose proof (visit_all_no_recursion_error (map fst checked) (edges_of checked) stack
                  (sorted_strs (map fst checked)) [] Hsub Hn') as Hr.
    destruct (visit_all _ _ _ _ _) as [v|e']; [done|]. intros [= <-].
    destruct Hs as [->|[[-> ?]|[-> ?]]]; [done|by left|by right].
Qed.

(** [C36] An operation runs once, after its start, and only its own success is
    reported.  When [start_effect] refuses, the operation is not run; when
    [execute_claimed] returns, the operation ran on what the start left and returned
    the outcome that the answer and the row report; when it raised or returned
    anything else, the call raises, and the effect is ambiguous if it could be
    recorded. *)
Theorem execution_is_reported c db claim a au op k k1 k2 k3 :
  (∀ c1 db1 e, start_effect c db claim a au k = (c1, db1, Err e) →
     execute_claimed c db claim a au op k k1 k2 k3 = (c1, db1, Err e)) ∧
  (∀ c' db' v, execute_claimed c db claim a au op k k1 k2 k3 = (c', db', Ok v) →
     ∃ c1 db1 t c2 db2 r w,
       start_effect c db claim a au k = (c1, db1, Ok tt) ∧
       op (observe c1 t) db1 t = (c2, db2, Returned r) ∧
       find_task (lc_run claim) (lc_task claim) db' = Some w ∧ v = task_view_of w ∧
       same_outcome w r = true) ∧
  (∀ c1 db1 c1' t c2 db2 o,
     start_effect c db claim a au k = (c1, db1, Ok tt) →
     _observed_time c1 (ef_now a) k1 = (c1', Ok t) → op c1' db1 t = (c2, db2, o) →
     (∀ r, o ≠ Returned r) →
     let x := execute_claimed c db claim a au op k k1 k2 k3 in
     is_ok x.2 = false ∧
     (is_ok (mark_ambiguous c2 db2 claim (ef_now a) k2).2 = true →
      ∃ w, find_task (lc_run claim) (lc_task claim) db2 = Some w ∧ tw_status w = Started ∧
           find_task (lc_run claim) (lc_task claim) x.1.2 = Some (settle_reserved Ambiguous w))).
Proof.
  split_and!.
  - intros c1 db1 e Hs. unfold execute_claimed. by rewrite Hs.
  - intros c' db' v (c1 & db1 & c2 & t & r & db2 & Hst & Hop & Hc)%execute_claimed_ok.
    apply complete_effect_ok in Hc as (_ & _ & _ & _ & [(w & Hw & -> & Ho) _] & _).
    exists c1, db1, t, c2, db2, r, w. done.
  - intros c1 db1 c1' t c2 db2 o Hs Ht Hop Hno x.
    assert (∃ e, x = match mark_ambiguous c2 db2 claim (ef_now a) k2 with
                     | (c3, db3, Err e') => (c3, db3, Err e')
                     | (c3, db3, Ok _) => (c3, db3, Err e)
                     end) as [e ->].
    { unfold x, execute_claimed. rewrite Hs, Ht, Hop. destruct o as [r| |e]; [by destruct (Hno r)|by eexists..]. }
    destruct (mark_ambiguous _ _ _ _ _) as [[c3 db3] [v|e']] eqn:Em; [|done]. split; [done|]. intros _.
    apply mark_ambiguous_row in Em as (w & Hw & Hst & Hw' & _). by exists w.
Qed.

(** A model call is routed.  When a task that calls a model starts, its
    authorization carries a decision of the router that the coordinator knows, for
    exactly that deployment, input, data class, zone, deadline and cost limit, still
    valid, of a request and a model call that name each other; no task had consumed
    the decision, and now this one has. *)
Theorem model_call_is_routed c db claim a au clock c' db' w doc t :
  reachable db → start_effect c db claim a au clock = (c', db', Ok tt) →
  find_task (lc_run claim) (lc_task claim) db = Some w → stored_task w = Ok (doc, t) →
  tk_action t = "model.invoke" →
  ∃ observed route d rq sb se,
    _observed_time c (ef_now a) clock = (c', Ok observed) ∧ tk_route t = Some route ∧
    route_admitted c' t (ea_evidence au) observed db route d rq sb se ∧
    (∀ x, x ∈ db_routes db → rw_route x ≠ bd_digest route ∧ rw_task x ≠ tw_digest w) ∧
    db_routes db' = db_routes db ++ [{| rw_route := bd_digest route; rw_task := tw_digest w;
                                        rw_consumed_at := epoch observed |}].
Proof.
  intros Hr Hst Hf Ht Ha. pose proof (reachable_scheduled _ Hr) as Hs.
  apply start_effect_ok in Hst as (observed & Ho & _ & db1 & Hl & Hw).
  apply write_auth_tables in Hw as (_ & _ & Ero & _). unfold start_locked in Hl. cbv zeta in Hl.
  destruct (_assert_claim_locked false claim db) as [w0|] eqn:Ew; [|discriminate].
  apply assert_claim_inv in Ew as (Hf0 & _). assert (w0 = w) as -> by congruence.
  destruct (_context_locked _ db) as [[run manifest]|]; [|discriminate]. rewrite Ht in Hl. guard Hl as Ecan.
  destruct (guard_claim _ _ _ _ _); [|discriminate].
  destruct (gate_assert_current _ _ _ _ _ _ _); [|discriminate].
  destruct (_validate_route_locked _ _ _ _ _) as [r|] eqn:Er; [|discriminate].
  destruct (consume_route t r observed db) as [db2|] eqn:Ecr; [|discriminate]. guard Hl as En.
  injection Hl as <-. destruct (validate_route_inv _ _ _ _ _ _ Er Ha) as (route & d & rq & sb & se & Hroute & _ & Hadm).
  apply consume_route_inv in Ecr as (_ & _ & Hc). rewrite Hroute in Hc. destruct Hc as (_ & Hnew & Hro).
  apply find_task_elem in Hf as (Hin & _ & _). destruct (sc_rows _ Hs w Hin) as [_ Hb].
  destruct (Hb _ _ Ht) as (_ & _ & Edig & _). rewrite Edig in *.
  exists observed, route, d, rq, sb, se. split_and!; [done..|]. rewrite Ero. exact Hro.
Qed.
End Claims.

(** ** Witnesses *)

#[local] Existing Instance Checksum.crypto.
#[local] Existing Instance rfc3339_iso.
#[local] Existing Instance draft202012.
#[local] Existing Instance rfc3339_format.

Lemma effect_settles_once_witness :
  ∃ w, find_task "run-1" "read" read_done.1.2 = Some w ∧ read_view = task_view_of w ∧
       same_outcome w (succeeded_with 550 900 eq_refl) = true.
Proof. apply (proj1 (effect_settles_once _ _ _ _ _ _ _ _ _ _ read_started_reachable read_done_ok)). Defined.

Lemma claim_grants_bounded_lease_witness :
  is_ok (_assert_claim_locked false ask_claim ask_claimed.1.2) = true.
Proof.
  destruct (claim_grants_bounded_lease _ _ _ _ _ _ _ _ _ handed_reachable ask_claimed_ok)
    as (observed & run & m & t & w & _ & _ & _ & Ha).
  exact Ha.
Defined.

Definition expired_read : coordinator * team_db * result nat :=
  Eval vm_compute in
  expire_leases read_started.1.1 read_started.1.2 "run-1" (noon_plus 50) (noon_plus 50).
Lemma expired_read_ok :
  expire_leases read_started.1.1 read_started.1.2 "run-1" (noon_plus 50) (noon_plus 50)
  = (expired_read.1.1, expired_read.1.2, Ok 1%nat).
Proof. vm_compute. reflexivity. Qed.
Lemma expiry_recovers_exactly_witness :
  ∃ observed, db_tasks expired_read.1.2 = map (expire_row "run-1" observed) (db_tasks read_started.1.2).
Proof.
  destruct (expiry_recovers_exactly _ _ _ _ _ _ _ _ read_started_reachable expired_read_ok)
    as (observed & _ & Ht & _).
  exists observed. exact Ht.
Defined.

Definition result_doc : json := Eval vm_compute in match finalized.2 with Ok doc => doc | Err _ => JNull end.
Definition finished_run : run_row :=
  Eval vm_compute in
  match find_run "run-1" acknowledged.1.2 with
  | Some run => run
  | None => {| rn_id := EmptyString; rn_manifest := EmptyString; rn_team := EmptyString; rn_project := EmptyString;
               rn_status := EmptyString; rn_cancellation := false; rn_max_tokens := 0; rn_max_cost := 0;
               rn_result := None |}
  end.
Lemma finalized_ok :
  finalize_run acknowledged.1.1 acknowledged.1.2 "run-1" "result-1" (noon_plus 10) (noon_plus 10)
  = (finalized.1.1, finalized.1.2, Ok result_doc).
Proof. vm_compute. reflexivity. Qed.
Lemma result_is_truthful_and_final_witness :
  ∃ rr, as_run_result result_doc = Some rr ∧ rr_tokens rr ≤ rn_max_tokens finished_run.
Proof.
  assert (find_run "run-1" acknowledged.1.2 = Some finished_run) as Hrun by (vm_compute; reflexivity).
  destruct (result_is_truthful_and_final _ _ _ _ _ _ _ _ _ _ acknowledged_reachable Hrun eq_refl finalized_ok)
    as (_ & (rr & Hrr & _ & _ & _ & Hle & _) & _).
  exists rr. split; [exact Hrr|exact Hle].
Defined.

Lemma delegation_never_widens_witness :
  ∃ m (checked : checked_tasks), as_manifest (JObj manifest_example) = Some m ∧
    Forall2 (fun raw x => x.2.1 = JObj raw ∧ as_task (JObj raw) = Some x.2.2) [read_doc; ask_doc; list_doc] checked.
Proof.
  destruct (delegation_never_widens _ _ _ _ _ _ created_ok) as (m & checked & Hm & Hall & _).
  exists m, checked. split; [exact Hm|exact Hall].
Defined.

Lemma created_run_is_stored_witness :
  length (tasks_of "run-1" created.2) = 3%nat ∧
  ∃ t w, as_task (JObj ask_doc) = Some t ∧ find_task "run-1" (tm_id (tk_meta t)) created.2 = Some w ∧
         stored_task w = Ok (jnorm (JObj ask_doc), t).
Proof.
  destruct (created_run_is_stored _ _ _ _ _ _ opened_reachable created_ok)
    as (m & run & _ & _ & _ & _ & _ & _ & Hlen & Hall).
  split; [exact Hlen|]. destruct (Hall ask_doc) as (t & w & Ht & Hw & _ & Hs); [right; left|].
  exists t, w. split; [exact Ht|]. split; [exact Hw|exact Hs].
Defined.

(** The tasks of the example, and two that wait for each other. *)
Definition checked_example : checked_tasks :=
  Eval vm_compute in
  match create_checks open_guard 1000 manifest_example "run-1" [read_doc; ask_doc; list_doc] (instant (noon_plus 0)) with
  | Ok (_, _, checked) => checked
  | Err _ => []
  end.
Lemma acyclic_check_decides_witness :
  ∃ l, topological (edges_of checked_example) l ∧ ∀ i, i ∈ l ↔ i ∈ map fst checked_example.
Proof.
  apply (proj1 (acyclic_check_decides 4 checked_example ltac:(vm_compute; lia))). vm_compute. reflexivity.
Defined.

Lemma model_call_is_routed_witness :
  ∃ x, db_routes ask_started.1.2 = [x] ∧ rw_route x = route_digest.
Proof.
  destruct (find_task "run-1" "ask" ask_authorized.1.2) as [w|] eqn:Ew; [|vm_compute in Ew; discriminate Ew].
  destruct (stored_task w) as [[doc t]|e] eqn:Et.
  2:{ vm_compute in Ew. injection Ew as <-. vm_compute in Et. discriminate Et. }
  assert (tk_action t = "model.invoke" ∧ bd_digest <$> tk_route t = Some route_digest) as [Ha Hrd].
  { vm_compute in Ew. injection Ew as <-. vm_compute in Et. injection Et as <- <-. split; reflexivity. }
  destruct (model_call_is_routed _ _ _ _ _ _ _ _ _ _ _ ask_authorized_reachable ask_started_ok Ew Et Ha)
    as (observed & route & d & rq & sb & se & _ & Hroute & _ & _ & Hro).
  eexists. split; [exact Hro|]. rewrite Hroute in Hrd. injection Hrd as Hrd. exact Hrd.
Defined.

(** An operation that returns, and one that raises. *)
Definition operation_ok (c : coordinator) (db : team_db) (now : Z) : coordinator * team_db * execution :=
  (c, db, Returned (succeeded_with 550 900 eq_refl)).
Definition operation_raises (c : coordinator) (db : team_db) (now : Z) : coordinator * team_db * execution :=
  (c, db, Raised ValueError).
Notation executed op :=
  (execute_claimed read_authorized.1.1 read_authorized.1.2 read_claim (effect_at 3) read_authorization op
     (noon_plus 3) (noon_plus 3) (noon_plus 4) (noon_plus 4)).
Definition executed_ok : coordinator * team_db * result task_view := Eval vm_compute in executed operation_ok.
Lemma executed_ok_ok : executed operation_ok = (executed_ok.1.1, executed_ok.1.2, Ok read_view).
Proof. vm_compute. reflexivity. Qed.
Lemma started_clock : _observed_time read_started.1.1 (noon_plus 3) (noon_plus 3) = (read_started.1.1, Ok (instant (noon_plus 3))).
Proof. vm_compute. reflexivity. Qed.
Lemma execution_is_reported_witness :
  (∃ r w, find_task "run-1" "read" executed_ok.1.2 = Some w ∧ read_view = task_view_of w ∧
          same_outcome w r = true) ∧
  is_ok (executed operation_raises).2 = false.
Proof.
  split.
  - destruct (execution_is_reported read_authorized.1.1 read_authorized.1.2 read_claim (effect_at 3)
                read_authorization operation_ok (noon_plus 3) (noon_plus 3) (noon_plus 4) (noon_plus 4))
      as (_ & Hok & _).
    destruct (Hok _ _ _ executed_ok_ok) as (c1 & db1 & t & c2 & db2 & r & w & _ & _ & Hw & Hv & Ho).
    exists r, w. split; [exact Hw|]. split; [exact Hv|exact Ho].
  - destruct (execution_is_reported read_authorized.1.1 read_authorized.1.2 read_claim (effect_at 3)
                read_authorization operation_raises (noon_plus 3) (noon_plus 3) (noon_plus 4) (noon_plus 4))
      as (_ & _ & Hr).
    apply (proj1 (Hr _ _ _ _ _ _ (Raised ValueError) read_started_ok started_clock eq_refl ltac:(discriminate))).
Defined.
