(* ===== verification/TeamSessionProps.v ===== *)
(** * Properties of the coordinator's file *)

From S2P Require Import Prelude Json Digest PyTime PyClock PyFloat Schema RouteRecords RouteConsumption ConsumptionProofs JsonCanon TeamContracts TeamGraph TeamStore TeamRuntime TeamEffects TeamFacts TeamSpec TeamInvariant TeamRefinement TeamProofs TeamSession TeamExamples.

Section Claims.
Context `{FromIso} `{Crypto} `{Jsonschema} `{DateTimeFormat}.

(** The histories of one coordinator at a time: a new file, the file reopened with
    any arguments the constructor accepts, and any calls. *)
Inductive session : coordinator → team_db → Prop :=
| session_new a db c : open_coordinator a None = (Some db, Ok c) → session c db
| session_reopen a c0 db f c :
    session c0 db → open_coordinator a (Some db) = (f, Ok c) → session c db
| session_call c db call : session c db → session (run_call c db call).1 (run_call c db call).2.

Lemma session_reachable c db : session c db → reachable db.
Proof.
  induction 1 as [a db c Ho| |c db call _ IH]; [by eapply reachable_new|done|].
  eapply reachable_call; [exact IH|]. by exists c, call.
Qed.

Lemma open_file_inv a db f c :
  open_coordinator a (Some db) = (f, Ok c) →
  ∃ t, _utc (ca_clock a) = Ok t ∧ reopen_store (new_coordinator a t) t db = Ok c.
Proof.
  unfold open_coordinator. destruct (_ <? _)%nat; [discriminate|]. destruct (_ || _); [discriminate|].
  destruct (_utc _) as [t|]; [|discriminate]. intros [= _ Hr]. by exists t.
Qed.
Lemma reopen_inv c t db c' :
  reopen_store c t db = Ok c' →
  _verify_state_locked c db = Ok tt ∧ ∃ m, db_meta db = Some m ∧ c' = observe c (Z.max t (from_epoch (sm_last_observed m))).
Proof.
  unfold reopen_store. intros Hr. guard Hr as E1. guard Hr as E2.
  destruct (_verify_state_locked c db) as [[]|]; [|discriminate]. destruct (db_meta db) as [m|]; [|discriminate].
  cbv zeta in Hr. guard Hr as E3. injection Hr as <-. split; [done|]. by exists m.
Qed.

Lemma scheduler_step_profile db db' :
  scheduler_step db db' →
  db_application_id db' = db_application_id db ∧ db_user_version db' = db_user_version db.
Proof. by destruct 1. Qed.

Record session_state (c : coordinator) (db : team_db) : Prop := {
  ss_sealed : sealed c db; ss_documented : documented db; ss_auth : is_Some (db_auth db);
  ss_profile : db_application_id db = _APPLICATION_ID ∧ db_user_version db = _SCHEMA_VERSION;
}.
Lemma sealed_auth c db : sealed c db → is_Some (db_auth db).
Proof. intros [(m & a & [_ Ha _])%verify_inv _]. by eexists. Qed.
Lemma open_new_profile a db r :
  open_coordinator a None = (Some db, r) →
  db_application_id db = _APPLICATION_ID ∧ db_user_version db = _SCHEMA_VERSION.
Proof.
  unfold open_coordinator. destruct (_ <? _)%nat; [discriminate|]. destruct (_ || _); [discriminate|].
  destruct (_utc _) as [t|]; [|discriminate]. unfold create_store. cbv zeta.
  destruct (_write_state_auth_locked _ _ _) as [db1|] eqn:E; cbn [atomic fst snd]; intros [= <- _]; [|done].
  by apply write_auth_inv in E as (m & x & e & ->).
Qed.

Lemma session_holds c db : session c db → session_state c db.
Proof.
  induction 1 as [a db c Ho|a c0 db f c _ IH Ho|c db call Hsess IH].
  - pose proof (open_new_sealed _ _ _ Ho) as [Hs Hd]. split; [done..|by eapply sealed_auth|by eapply open_new_profile].
  - destruct IH as [[_ Hord] Hd Ha Hp]. apply open_file_inv in Ho as (t & _ & Hr).
    apply reopen_inv in Hr as (Hv & m & _ & ->). split; [|done..].
    apply sealed_observe; [by split|]. cbn. lia.
  - destruct IH as [Hs Hd Ha Hp]. pose proof (run_call_sealed _ _ call Hs) as Hs'.
    pose proof (reachable_scheduled _ (session_reachable _ _ Hsess)) as Hsch.
    pose proof (run_call_steps c db call Hsch) as Hsteps.
    split; [done|by eapply scheduler_steps_documented|by eapply sealed_auth|].
    clear -Hsteps Hp. induction Hsteps as [|db db1 db2 H1' _ IH]; [done|]. apply IH.
    by apply scheduler_step_profile in H1' as [-> ->].
Qed.

Lemma documents_ok_all l : Forall (fun x => document_ok x.1 x.2 = Ok tt) l → documents_ok l = Ok tt.
Proof. induction 1 as [|[d g] l Hd Hl IH]; [done|]. cbn [documents_ok fst snd] in *. by rewrite Hd. Qed.

(** [C25] The coordinator accepts its own file.  After any calls, by it or by the
    coordinators that had the file before, whatever they were given and whether they
    returned or raised, [verify] finds the state, the chain of events and every
    stored record sound; and a constructor with the same key whose clock has not
    gone back reopens the file. *)
Theorem coordinator_accepts_its_file c db :
  session c db →
  verify c true db = Ok tt ∧
  ∀ a t,
    ca_key a = co_key c → ca_key_id a = co_key_id c → (32 ≤ String.length (ca_key a))%nat →
    ca_key_id a ≠ EmptyString → (py_len (ca_key_id a) ≤ 128)%nat →
    _utc (ca_clock a) = Ok t → co_last_observed c ≤ t →
    (∀ m, db_meta db = Some m → from_epoch (sm_last_observed m) ≤ t) →
    ∃ c', open_coordinator a (Some db) = (Some db, Ok c').
Proof.
  intros Hsess. pose proof (session_holds _ _ Hsess) as [Hs [Hdm Hdt Hdh] Ha [Hp1 Hp2]]. split.
  - unfold verify. cbn [negb]. rewrite (sl_verified _ _ Hs).
    rewrite !documents_ok_all; [done|by apply Forall_map|by apply Forall_map|by apply Forall_map].
  - intros a t Ek Ei Hlen Hne Hle Ht Hclock Hpers. unfold open_coordinator.
    rewrite (proj2 (Nat.ltb_ge _ _)) by lia. rewrite bool_decide_false by done.
    rewrite (proj2 (Nat.ltb_ge _ _)) by lia. cbn [orb]. rewrite Ht. cbv zeta.
    destruct (sealed_observe c db t Hs Hclock) as [Hv _].
    assert (_verify_state_locked (new_coordinator a t) db = Ok tt) as Hv'.
    { revert Hv. apply verify_same_key; cbn; congruence. }
    unfold reopen_store. rewrite Hp1, Hp2, !bool_decide_true by done. cbn [negb orb].
    destruct Ha as [auth Hauth]. rewrite Hauth. cbn [is_some negb]. rewrite Hv'.
    destruct (verify_inv _ _ Hv') as (m & x & [(Hm & _) _ _]). rewrite Hm. cbv zeta.
    specialize (Hpers m Hm). rewrite (proj2 (Z.ltb_ge _ _)) by lia. by eexists.
Qed.
End Claims.

(** ** Witness *)

#[local] Existing Instance Checksum.crypto.
#[local] Existing Instance rfc3339_iso.
#[local] Existing Instance draft202012.
#[local] Existing Instance rfc3339_format.

Lemma session_by c call db c' db' :
  session c db → run_call c db call = (c', db') → session c' db'.
Proof. intros Hs E. pose proof (session_call _ _ call Hs) as Hn. rewrite E in Hn. exact Hn. Qed.
Lemma created_session : session created.1 created.2.
Proof.
  eapply (session_by _ (CreateRun create_args)); [eapply session_new, opened_ok|]. cbn [run_call].
  by rewrite created_ok.
Qed.
Lemma coordinator_accepts_its_file_witness :
  verify created.1 true created.2 = Ok tt ∧
  ∃ c', open_coordinator coordinator_args (Some created.2) = (Some created.2, Ok c').
Proof.
  destruct (coordinator_accepts_its_file _ _ created_session) as [Hv Hopen]. split; [exact Hv|].
  apply (Hopen coordinator_args (instant (noon_plus 0))).
  - vm_compute. reflexivity.
  - vm_compute. reflexivity.
  - apply Nat.leb_le. vm_compute. reflexivity.
  - discriminate.
  - apply Nat.leb_le. vm_compute. reflexivity.
  - vm_compute. reflexivity.
  - apply Z.leb_le. vm_compute. reflexivity.
  - intros m Hm. vm_compute in Hm. injection Hm as <-. apply Z.leb_le. vm_compute. reflexivity.
Defined.
