(* ===== verification/TeamAccessProps.v ===== *)
(** * Properties of the team access evaluation *)

From S2P Require Import Prelude Json Digest PyTime PyClock Schema RouteRecords RouteLemmas RouteExamples TeamContracts TeamAccess TeamAccessProofs.
From Stdlib Require Import Ascii.

Lemma single_dups `{EqDecision A} (l : list A) :
  length (remove_dups l) = 1%nat ↔ ∃ k, ∀ x, x ∈ l ↔ x = k.
Proof.
  pose proof (NoDup_remove_dups l) as Hnd. split.
  - intros Hl. destruct (remove_dups l) as [|k [|]] eqn:E; try discriminate. exists k. intros x.
    rewrite <-elem_of_remove_dups, E. by rewrite list_elem_of_singleton.
  - intros (k & Hk). setoid_rewrite <-elem_of_remove_dups in Hk.
    destruct (remove_dups l) as [|a [|b l']].
    + by pose proof (proj2 (Hk k) eq_refl) as ?%elem_of_nil.
    + done.
    + assert (a = k) as -> by (apply Hk; left). assert (b = k) as -> by (apply Hk; right; left).
      apply NoDup_cons_1_1 in Hnd. destruct Hnd. left.
Qed.

Section Evaluation.
Context `{FromIso} `{Crypto} `{Jsonschema}.
Implicit Types (policy : list (string * json)) (request : option (list (string * json))).

Lemma exact_binding_reads k o :
  _exact_binding k (JObj o) = true → ∃ b, as_binding o = Some b.
Proof.
  cbn [_exact_binding]. unfold as_binding, str_at, jget. intros Hb. breflect.
  destruct (jassoc "kind" o) as [[]|]; try discriminate.
  destruct (jassoc "id" o) as [[]|]; try discriminate.
  destruct (jassoc "digest" o) as [[]|]; try discriminate. by eexists.
Qed.
Lemma exact_binding_object f k o :
  _exact_binding f (jget k o) = true → ∃ v b, obj_at k o = Some v ∧ as_binding v = Some b.
Proof.
  unfold jget, obj_at. intros Hb. destruct (jassoc k o) as [[]|]; try discriminate.
  destruct (exact_binding_reads _ _ Hb) as (b & Eb). by eexists _, b.
Qed.
Lemma str_ok_reads f k o : str_ok f (jget k o) = true → ∃ s, str_at k o = Some s ∧ f s = true.
Proof. unfold jget, str_at. intros Hs. destruct (jassoc k o) as [[]|]; try discriminate. by eexists. Qed.
Lemma in_set_reads l k o :
  in_set l (jget k o) = Ok true → ∃ s, str_at k o = Some s.
Proof. unfold jget, str_at. intros Hs. destruct (jassoc k o) as [[]|]; try discriminate. by eexists. Qed.

(** A valid request reads back, and its action is known. *)
Lemma valid_request_reads o :
  valid_request o = Ok true →
  ∃ rq x, as_access_request o = Some rq ∧ action_profile (aq_action rq) = Some x.
Proof.
  unfold valid_request. destruct (same_keys _ _ && _ && _ && _) eqn:E1; [|discriminate].
  destruct (in_set access_action_classes _) as [[]|] eqn:E2; try discriminate.
  cbn [andb]. destruct (_exact_binding _ (jget "resource" o) && _ && _) eqn:E3; [|discriminate]. intros E4.
  apply andb_true_iff in E1 as [[[_ Fp]%andb_true_iff Fm]%andb_true_iff Fa].
  apply andb_true_iff in E3 as [[Fr Fj]%andb_true_iff Fe].
  destruct (exact_binding_object _ _ _ Fp) as (p & pb & Ep & Epb).
  destruct (exact_binding_object _ _ _ Fm) as (m & mb & Em & Emb).
  destruct (str_ok_reads _ _ _ Fa) as (ac & Ea & Ha). destruct (in_set_reads _ _ _ E2) as (c & Ec).
  destruct (exact_binding_object _ _ _ Fr) as (r & rb & Er & Erb).
  destruct (str_ok_reads _ _ _ Fj) as (j & Ej & _). destruct (str_ok_reads _ _ _ Fe) as (e & Ee & _).
  destruct (in_set_reads _ _ _ E4) as (d & Ed).
  destruct (action_profile ac) as [x|] eqn:Ex; [|discriminate].
  eexists _, x. unfold as_access_request.
  rewrite Ep; cbn [mbind option_bind]; rewrite Epb; cbn [mbind option_bind].
  rewrite Em; cbn [mbind option_bind]; rewrite Emb; cbn [mbind option_bind].
  rewrite Ea, Ec, Er; cbn [mbind option_bind]; rewrite Erb; cbn [mbind option_bind].
  rewrite Ej, Ee, Ed. split; [reflexivity|exact Ex].
Qed.

(** The policy, the request and the time that an evaluation that got that far saw. *)
Record asked policy request (now : datetime) (p : AccessPolicy) (rq : AccessRequest) (t : Z) : Prop := {
  ak_policy : validate_team_access_policy policy = Ok p;
  ak_now : astimezone_utc now = Some (Ok t);
  ak_request : ∃ o, request = Some o ∧ valid_request o = Ok true ∧ as_access_request o = Some rq;
}.

Definition answer_of (d : TeamAccessDecision) : string * string * list string * option (string * string) :=
  (td_effect d, td_code d, td_matches d, td_approval d).

(** What an answer is, when it is not "default" in disguise: a refusal that no
    applying allow contradicts, or the answer of the statements that apply. *)
Definition refused policy request now (d : TeamAccessDecision) : Prop :=
  td_effect d = "deny" ∧ td_matches d = [] ∧ td_approval d = None ∧
  ∀ p rq t r s, asked policy request now p rq t → applies p rq t r s → st_effect s ≠ "allow".
Definition weighed policy request now (d : TeamAccessDecision) : Prop :=
  ∃ p rq t ms, asked policy request now p rq t ∧ aq_class rq ∉ ["A3"; "A4"] ∧
    (∀ m, m ∈ ms ↔ ∃ r s, applies p rq t r s ∧ m = matched_of (ar_id r) s) ∧
    answer_of d = decide_matches rq ms.

Lemma asked_unique policy request now p rq t p' rq' t' :
  asked policy request now p rq t → asked policy request now p' rq' t' → p' = p ∧ rq' = rq ∧ t' = t.
Proof.
  intros [F1 F2 (o & F3 & _ & F4)] [G1 G2 (o' & G3 & _ & G4)].
  split_and!; congruence.
Qed.

Lemma applies_sound p rq t r s : policy_sound p → applies p rq t r s → statement_sound s.
Proof. intros [_ _ Hs] [Hr _ Hin _]. by apply (Hs r). Qed.

(** After the request was found valid: every path of the evaluation. *)
Lemma evaluate_asked policy request now p rq t :
  asked policy request now p rq t →
  ∃ d, evaluate_team_access policy request now = Ok d ∧
    (refused policy request now d ∨ weighed policy request now d).
Proof.
  intros Hask. pose proof Hask as [Hp Ht (o & -> & Hv & Ho)].
  pose proof (validate_access_inv _ _ Hp) as Hsound.
  destruct (valid_request_reads _ Hv) as (rq' & [ec ek] & Ho' & Ex).
  rewrite Ho in Ho'. injection Ho' as <-.
  unfold evaluate_team_access. rewrite Hp. cbv zeta. rewrite Ht, Hv, Ho. cbn [negb some_or].
  rewrite Ex. cbn [some_or].
  assert (∀ d, td_effect d = "deny" → td_matches d = [] → td_approval d = None →
    (∀ r s, applies p rq t r s → st_effect s ≠ "allow") → refused policy (Some o) now d) as Href.
  { intros d F1 F2 F3 Hno. split_and!; try done. intros p' rq' t' r s Hask'.
    destruct (asked_unique _ _ _ _ _ _ _ _ _ Hask Hask') as (-> & -> & ->). apply Hno. }
  destruct (_ || _) eqn:E1.
  { eexists. split; [done|]. left. apply Href; try done. intros r s Ha _.
    destruct (applies_sound _ _ _ _ _ Hsound Ha) as [_ Hprof _ _]. destruct Ha as [_ _ _ [Fa Fc Fr _ _ Fd _]].
    rewrite Fa, Ex in Hprof. injection Hprof as -> ->.
    by rewrite Fc, Fr, !bool_decide_true in E1. }
  destruct (aq_class rq in? _) eqn:E2.
  { eexists. split; [done|]. left. apply Href; try done. intros r s Ha Hal. breflect.
    destruct (applies_sound _ _ _ _ _ Hsound Ha) as [_ _ _ Hlow]. destruct Ha as [_ _ _ [Fa Fc Fr _ _ Fd _]].
    destruct (Hlow Hal) as [Hc _]. by rewrite Fc in Hc. }
  destruct (aq_data_class rq == "D4") eqn:E3.
  { eexists. split; [done|]. left. apply Href; try done. intros r s Ha Hal. breflect.
    destruct (applies_sound _ _ _ _ _ Hsound Ha) as [_ _ _ Hlow]. destruct Ha as [_ _ _ [Fa Fc Fr _ _ Fd _]].
    destruct (Hlow Hal) as [_ Hd]. by rewrite E3 in Fd. }
  destruct (assigned_roles p rq == []) eqn:E4.
  { eexists. split; [done|]. left. apply Href; try done. intros r s Ha _. breflect.
    destruct Ha as [_ Ha%assigned_roles_elem _ _]. rewrite E4 in Ha. by apply elem_of_nil in Ha. }
  destruct (policy_matches p rq t Hsound) as (ms & -> & Hms).
  destruct (decide_matches rq ms) as [[[e c] m] a] eqn:Ed. eexists. split; [done|]. right.
  exists p, rq, t, ms. breflect. by split_and!.
Qed.

(** Every path of an evaluation that answers. *)
Lemma evaluate_inv policy request now d :
  evaluate_team_access policy request now = Ok d →
  refused policy request now d ∨ weighed policy request now d.
Proof.
  intros He. destruct (validate_team_access_policy policy) as [p|] eqn:Hp;
    [|unfold evaluate_team_access in He; rewrite Hp in He; discriminate].
  assert ((∃ rq t, asked policy request now p rq t) ∨
          td_effect d = "deny" ∧ td_matches d = [] ∧ td_approval d = None ∧
            ∀ p rq t, ¬ asked policy request now p rq t) as [(rq & t & Hask)|(F1 & F2 & F3 & F4)].
  2: { destruct (evaluate_asked _ _ _ _ _ _ Hask) as (d' & E & Hd). congruence. }
  2: { left. split_and!; try done. intros ? ? ? ? ? Hask. by destruct (F4 _ _ _ Hask). }
  unfold evaluate_team_access in He. rewrite Hp in He. cbv zeta in He.
  destruct (astimezone_utc now) as [[t|]|] eqn:Et; [|discriminate|];
    [|injection He as <-; right; split_and!; try done; intros ? ? ? []; congruence].
  destruct request as [o|]; [|injection He as <-; right; split_and!; try done; by intros ? ? ? [? ? (? & ? & _)]].
  destruct (valid_request o) as [b|] eqn:Ev; [|discriminate].
  destruct b; cbn [negb] in He.
  - destruct (valid_request_reads _ Ev) as (rq & x & Er & _). left. exists rq, t. constructor; [done..|].
    by exists o.
  - injection He as <-. right. split_and!; try done. intros ? ? ? [? ? (? & ? & ? & _)]. congruence.
Qed.

(** ** What the matching statements decide *)

Lemma with_effect_elem e m ms : m ∈ with_effect e ms ↔ m ∈ ms ∧ ma_effect m = e.
Proof.
  unfold with_effect. rewrite !list_elem_of_In, filter_In. split; intros [? ?]; split; try done.
  - by breflect.
  - by apply bool_decide_eq_true.
Qed.
Lemma digests_of_elem e x ms :
  x ∈ digests_of (with_effect e ms) ↔ ∃ m, m ∈ ms ∧ ma_effect m = e ∧ x = ma_digest m.
Proof.
  unfold digests_of. rewrite sorted_strs_elem. change (map ma_digest ?l) with (ma_digest <$> l).
  rewrite list_elem_of_fmap. setoid_rewrite with_effect_elem. naive_solver.
Qed.

(** The one approval profile that every allow of a change names. *)
Definition agreed (ms : list matched) (k : string * string) : Prop :=
  ∀ m, m ∈ ms → ma_effect m = "allow" → approval_key <$> ma_approval m = Some k.

Lemma decide_matches_allow rq ms :
  (aq_class rq = "A2" → ∀ m, m ∈ ms → ma_effect m = "allow" → is_Some (ma_approval m)) →
  (decide_matches rq ms).1.1.1 = "allow" ↔
  (∃ m, m ∈ ms ∧ ma_effect m = "allow") ∧ (∀ m, m ∈ ms → ma_effect m ≠ "deny") ∧
  (aq_class rq = "A2" → ∃ k, agreed ms k).
Proof.
  intros Hap. unfold decide_matches.
  assert ((∃ m, m ∈ ms ∧ ma_effect m = "deny") ↔ with_effect "deny" ms ≠ []) as Hden.
  { setoid_rewrite <-with_effect_elem. destruct (with_effect "deny" ms) as [|m l].
    - split; [by intros (? & ?%elem_of_nil)|done].
    - split; [done|]. intros _. exists m. left. }
  assert ((∃ m, m ∈ ms ∧ ma_effect m = "allow") ↔ with_effect "allow" ms ≠ []) as Hall.
  { setoid_rewrite <-with_effect_elem. destruct (with_effect "allow" ms) as [|m l].
    - split; [by intros (? & ?%elem_of_nil)|done].
    - split; [done|]. intros _. exists m. left. }
  destruct (bool_decide (with_effect "deny" ms ≠ [])) eqn:E1; breflect.
  { split; [done|]. intros (_ & Hno & _). apply Hden in E1 as (m & Hm & He). by destruct (Hno m Hm). }
  assert (∀ m, m ∈ ms → ma_effect m ≠ "deny") as Hno.
  { intros m Hm He. apply E1, Hden. by exists m. }
  destruct (bool_decide (with_effect "allow" ms ≠ [])) eqn:E2; breflect.
  2: { split; [done|]. intros (Ha & _). by apply Hall in Ha. }
  apply Hall in E2. destruct (_ && _) eqn:E3; cbn [fst].
  - breflect. split; [done|]. intros (_ & _ & Hk). destruct (Hk H2) as (k & Hk'). exfalso.
    apply Nat.eqb_neq in H3. apply H3, single_dups. exists k. intros x. rewrite list_elem_of_omap. split.
    + intros (m & [Hm He]%with_effect_elem & Hx). rewrite (Hk' m Hm He) in Hx. by injection Hx.
    + intros ->. destruct E2 as (m & Hm & He). exists m. rewrite with_effect_elem. auto.
  - split; [|done]. intros _. split_and!; [done..|]. intros Hc. rewrite bool_decide_true in E3 by done.
    cbn [andb] in E3. apply negb_false_iff, Nat.eqb_eq, single_dups in E3 as (k & Hk). exists k.
    intros m Hm He. destruct (Hap Hc m Hm He) as (b & Hb). rewrite Hb. cbn. f_equal. apply Hk.
    apply list_elem_of_omap. exists m. rewrite with_effect_elem, Hb. auto.
Qed.

(** ** The properties *)

(** An allowing statement applies, no denying one does, and the allows of a change
    agree on the approval it needs. *)
Definition access_granted (p : AccessPolicy) (rq : AccessRequest) (t : Z) : Prop :=
  (∃ r s, applies p rq t r s ∧ st_effect s = "allow") ∧
  (∀ r s, applies p rq t r s → st_effect s ≠ "deny") ∧
  (aq_class rq = "A2" →
   ∃ k, ∀ r s, applies p rq t r s → st_effect s = "allow" → approval_key <$> st_approval s = Some k).

Lemma weighed_grants policy now request p rq t ms :
  asked policy request now p rq t →
  (∀ m, m ∈ ms ↔ ∃ r s, applies p rq t r s ∧ m = matched_of (ar_id r) s) →
  (decide_matches rq ms).1.1.1 = "allow" ↔ access_granted p rq t.
Proof.
  intros [Hp _ _] Hms. pose proof (validate_access_inv _ _ Hp) as Hsound. rewrite decide_matches_allow.
  - unfold access_granted, agreed. setoid_rewrite Hms. split.
    + intros ((m & (r & s & Ha & ->) & He) & Hno & Hk). split_and!; [by exists r, s| |].
      * intros r' s' Ha' He'. apply (Hno (matched_of (ar_id r') s')); [by exists r', s'|done].
      * intros Hc. destruct (Hk Hc) as (k & Hk'). exists k. intros r' s' Ha' He'.
        apply (Hk' (matched_of (ar_id r') s')); eauto.
    + intros ((r & s & Ha & He) & Hno & Hk). split_and!.
      * exists (matched_of (ar_id r) s). eauto.
      * intros m (r' & s' & Ha' & ->). by apply (Hno r' s').
      * intros Hc. destruct (Hk Hc) as (k & Hk'). exists k. intros m (r' & s' & Ha' & ->). by apply (Hk' r' s').
  - intros Hc m (r & s & Ha & ->)%Hms He. destruct (applies_sound _ _ _ _ _ Hsound Ha) as [_ _ Hap _].
    apply (Hap He). by destruct Ha as [_ _ _ [_ -> _ _ _ _ _]].
Qed.

(** [C8] [evaluate_team_access] allows a request exactly when the policy is valid,
    the request is well formed and the time known, some statement of a role bound to
    the actor allows the very action, resource, project, environment and data class
    inside its time window, no such statement denies it, and for a change the
    allowing statements agree on one approval profile. *)
Theorem team_access_allows_exactly policy request now d :
  evaluate_team_access policy request now = Ok d →
  td_effect d = "allow" ↔ ∃ p rq t, asked policy request now p rq t ∧ access_granted p rq t.
Proof.
  intros [(F1 & _ & _ & F4)|(p & rq & t & ms & Hask & _ & Hms & Hd)]%evaluate_inv.
  - rewrite F1. split; [done|]. intros (p & rq & t & Hask & (r & s & Ha & He) & _).
    by destruct (F4 p rq t r s Hask Ha).
  - replace (td_effect d) with (decide_matches rq ms).1.1.1 by (rewrite <-Hd; done).
    rewrite (weighed_grants _ _ _ _ _ _ _ Hask Hms). split; [by exists p, rq, t|].
    intros (p' & rq' & t' & Hask' & Hg).
    by destruct (asked_unique _ _ _ _ _ _ _ _ _ Hask Hask') as (-> & -> & ->).
Qed.

Lemma head_elem {A} (l : list A) k : head l = Some k → k ∈ l.
Proof. destruct l; [done|]. intros [= ->]. left. Qed.

(** An answer shows its evidence: the matched digests of a decision are sorted
    and are exactly the digests of the applying statements of the effect that
    decided, and an allow of a change, and of nothing else, names the approval
    profile all of them require; high-impact classes and D4 data are never allowed. *)
Theorem team_access_shows_evidence policy request now d :
  evaluate_team_access policy request now = Ok d → td_matches d ≠ [] ∨ td_effect d = "allow" →
  ∃ p rq t e, asked policy request now p rq t ∧
    StronglySorted (fun x y => String.leb x y = true) (td_matches d) ∧
    (∀ x, x ∈ td_matches d ↔
       ∃ r s, applies p rq t r s ∧ st_effect s = e ∧ x = statement_digest (ar_id r) s) ∧
    (td_effect d = "allow" →
       e = "allow" ∧ aq_class rq ∉ ["A3"; "A4"] ∧ aq_data_class rq ≠ "D4" ∧
       (aq_class rq = "A2" ↔ is_Some (td_approval d)) ∧
       (aq_class rq = "A2" → ∀ r s, applies p rq t r s → approval_key <$> st_approval s = td_approval d)).
Proof.
  intros [(F1 & F2 & _)|(p & rq & t & ms & Hask & Hlow & Hms & Hd)]%evaluate_inv Hx;
    [destruct Hx; congruence|].
  pose proof (validate_access_inv _ _ (ak_policy _ _ _ _ _ _ Hask)) as Hsound.
  assert (∀ e x, x ∈ digests_of (with_effect e ms) ↔
    ∃ r s, applies p rq t r s ∧ st_effect s = e ∧ x = statement_digest (ar_id r) s) as Hdig.
  { intros e x. rewrite digests_of_elem. setoid_rewrite Hms. split.
    - intros (m & (r & s & Ha & ->) & He & ->). by exists r, s.
    - intros (r & s & Ha & He & ->). exists (matched_of (ar_id r) s). split_and!; [by exists r, s|done..]. }
  assert (∀ e, StronglySorted (fun x y => String.leb x y = true) (digests_of (with_effect e ms))) as Hsort.
  { intros e. apply py_sorted_sorted; eauto with eco. }
  destruct (decide (td_effect d = "allow")) as [Eal|Eal].
  - pose proof Eal as Hg. replace (td_effect d) with (decide_matches rq ms).1.1.1 in Hg by (by rewrite <-Hd).
    apply (weighed_grants _ _ _ _ _ _ _ Hask Hms) in Hg as ((r & s & Ha & He) & Hno & Hk).
    exists p, rq, t, "allow". unfold answer_of, decide_matches in Hd.
    destruct (bool_decide _); [congruence|]. destruct (bool_decide _); [|congruence].
    destruct (_ && _) eqn:E3; [congruence|]. injection Hd as _ _ Hm Hap. rewrite Hm.
    split_and!; [done..|]. intros _. split_and!; [done|exact Hlow| | |].
    + destruct (applies_sound _ _ _ _ _ Hsound Ha) as [_ _ _ Hl]. destruct (Hl He) as [_ Hd4].
      destruct Ha as [_ _ _ [_ _ _ _ _ Fd _]]. by intros E; rewrite E in Fd.
    + rewrite Hap. split.
      * intros Hc. rewrite bool_decide_true in E3 by done. cbn [andb] in E3.
        apply negb_false_iff, Nat.eqb_eq in E3. by destruct (omap _ _).
      * intros (k & Hk'%head_elem). apply list_elem_of_omap in Hk' as (m & [Hm' He']%with_effect_elem & Hq).
        apply Hms in Hm' as (r' & s' & Ha' & ->).
        destruct (applies_sound _ _ _ _ _ Hsound Ha') as [_ _ Hap' _].
        destruct Ha' as [_ _ _ [_ <- _ _ _ _ _]]. apply (Hap' He'). cbn in Hq.
        destruct (st_approval s'); [by eexists|discriminate].
    + intros Hc r' s' Ha'. destruct (Hk Hc) as (k & Hk').
      assert (st_effect s' = "allow") as He'.
      { destruct (applies_sound _ _ _ _ _ Hsound Ha') as [[Hw _ _ _] _ _ _].
        apply elem_of_cons in Hw as [Hw|[Hw|[]%elem_of_nil]%elem_of_cons]; [done|].
        by destruct (Hno r' s' Ha'). }
      rewrite (Hk' r' s' Ha' He'), Hap. symmetry.
      destruct (head (omap _ _)) as [k'|] eqn:Eh.
      * apply head_elem, list_elem_of_omap in Eh as (m & [Hm' Hme]%with_effect_elem & Hq).
        apply Hms in Hm' as (r2 & s2 & Ha2 & ->). cbn in Hq, Hme. by rewrite (Hk' r2 s2 Ha2 Hme) in Hq.
      * rewrite bool_decide_true in E3 by done. cbn [andb] in E3.
        apply negb_false_iff, Nat.eqb_eq in E3. by destruct (omap _ _).
  - destruct Hx as [Hx|Hx]; [|done].
    unfold answer_of, decide_matches in Hd. destruct (bool_decide _).
    { exists p, rq, t, "deny". injection Hd as -> _ -> _. by split_and!. }
    destruct (bool_decide _); [|congruence]. destruct (_ && _); [|congruence].
    exists p, rq, t, "allow". injection Hd as -> _ -> _. by split_and!.
Qed.

(** A list or a dict where the code looks for a string in a set. *)
Definition unhashable (j : json) : Prop := match j with JArr _ | JObj _ => True | _ => False end.
Lemma in_set_error l j e : in_set l j = Err e → e = TypeError ∧ unhashable j.
Proof. destruct j; by intros [= <-]. Qed.

(** Whatever the request is, a valid policy at a time that can be converted
    gives an answer; the only exception is a TypeError, and only for a request whose
    action class or data class is a list or an object. *)
Theorem team_access_always_answers policy request now p :
  validate_team_access_policy policy = Ok p → (∀ e, astimezone_utc now ≠ Some (Err e)) →
  (∃ d, evaluate_team_access policy request now = Ok d) ∨
  evaluate_team_access policy request now = Err TypeError ∧
    ∃ o, request = Some o ∧ (unhashable (jget "actionClass" o) ∨ unhashable (jget "dataClass" o)).
Proof.
  intros Hp Hnow.
  destruct (astimezone_utc now) as [[t|e]|] eqn:Et; [|by destruct (Hnow e)|
    left; unfold evaluate_team_access; rewrite Hp, Et; by eexists].
  destruct request as [o|]; [|left; unfold evaluate_team_access; rewrite Hp, Et; by eexists].
  destruct (valid_request o) as [[]|e] eqn:Ev.
  - destruct (valid_request_reads _ Ev) as (rq & x & Er & _).
    destruct (evaluate_asked policy (Some o) now p rq t) as (d & Hd & _).
    { constructor; [done..|]. by exists o. }
    left. by exists d.
  - left. unfold evaluate_team_access. rewrite Hp. cbv zeta. rewrite Et, Ev. by eexists.
  - right. assert (e = TypeError ∧ (unhashable (jget "actionClass" o) ∨ unhashable (jget "dataClass" o)))
      as [-> Hu].
    { unfold valid_request in Ev. destruct (_ && _); [|discriminate].
      destruct (in_set access_action_classes _) as [b|e'] eqn:Ea.
      - destruct (_ && _); [|discriminate]. apply in_set_error in Ev. tauto.
      - injection Ev as ->. apply in_set_error in Ea. tauto. }
    split; [|by exists o]. unfold evaluate_team_access. rewrite Hp. cbv zeta. by rewrite Et, Ev.
Qed.
End Evaluation.

(** ** A concrete policy *)

#[local] Existing Instance Checksum.crypto.
#[local] Existing Instance rfc3339_iso.
#[local] Existing Instance draft202012.

Definition exact_example (kind id digest : string) : json :=
  JObj [("kind", JStr kind); ("id", JStr id); ("digest", JStr digest)].
Definition digest_example : string := Eval vm_compute in semantic_digest (JStr "example").
Definition alice : json := exact_example "PrincipalIdentity" "alice" digest_example.
Definition alice_membership : json := exact_example "MembershipBinding" "alice-core" digest_example.
Definition source_tree : json := exact_example "repository-entry" "tree" digest_example.
Definition statement_example (id effect action class : string) (approval : json) : json :=
  JObj [("id", JStr id); ("effect", JStr effect); ("action", JStr action); ("actionClass", JStr class);
        ("resource", source_tree);
        ("constraints",
          JObj [("projectId", JStr "project-1"); ("environmentId", JStr "local");
                ("dataClasses", strs ["D0"; "D1"]); ("notBefore", JStr "2026-06-01T00:00:00Z");
                ("notAfter", JStr "2026-07-01T00:00:00Z")]);
        ("approvalProfile", approval)].
Definition binding_example : string :=
  Eval vm_compute in
  team_access_binding_id {| bd_kind := "PrincipalIdentity"; bd_id := "alice"; bd_digest := digest_example |}
    {| bd_kind := "MembershipBinding"; bd_id := "alice-core"; bd_digest := digest_example |} "developer".
Definition policy_items (digest : string) : list (string * json) :=
  [("apiVersion", JStr TEAM_ACCESS_API_VERSION); ("kind", JStr "TeamAccessPolicy");
   ("metadata",
     JObj [("id", JStr "policy-1"); ("revision", JInt 1); ("createdAt", JStr "2026-06-01T00:00:00Z");
           ("recordDigest", JStr digest)]);
   ("spec",
     JObj [("profile", JStr TEAM_ACCESS_PROFILE); ("defaultEffect", JStr "deny");
           ("roles",
             JArr [JObj [("id", JStr "developer");
                         ("statements",
                           JArr [statement_example "read" "allow" "repository.read" "A1" JNull;
                                 statement_example "write" "allow" "repository.write" "A2"
                                   (exact_example "ApprovalProfile" "two-people" digest_example)])]]);
           ("bindings",
             JArr [JObj [("id", JStr binding_example); ("principal", alice);
                         ("membership", alice_membership); ("roleId", JStr "developer")]]);
           ("safety",
             JObj [("maximumAllowActionClass", JStr "A2"); ("d4AllowDenied", JBool true);
                   ("highImpactAllowDenied", JBool true); ("wildcardsAllowed", JBool false);
                   ("roleInheritanceAllowed", JBool false); ("standaloneAuthorityCreated", JBool false)])])].
Definition policy_example : list (string * json) :=
  Eval vm_compute in policy_items (team_access_policy_digest (policy_items EmptyString)).
Definition access_request_example (action class data : string) : list (string * json) :=
  [("principal", alice); ("membership", alice_membership); ("action", JStr action);
   ("actionClass", JStr class); ("resource", source_tree); ("projectId", JStr "project-1");
   ("environmentId", JStr "local"); ("dataClass", JStr data)].
Definition noon : datetime :=
  {| year := 2026; month := 6; day := 1; hour := 12; minute := 0; second := 0; microsecond := 0;
     utcoffset := Some 0 |}.
Definition write_answer : TeamAccessDecision :=
  Eval vm_compute in
  match evaluate_team_access policy_example (Some (access_request_example "repository.write" "A2" "D0")) noon with
  | Ok d => d
  | Err _ => {| td_effect := EmptyString; td_code := EmptyString; td_policy_digest := EmptyString;
                td_request_digest := EmptyString; td_actor_digest := EmptyString; td_matches := [];
                td_approval := None |}
  end.
Definition read_policy : AccessPolicy :=
  Eval vm_compute in
  match validate_team_access_policy policy_example with
  | Ok p => p
  | Err _ => {| ap_created_at := EmptyString; ap_digest := EmptyString; ap_roles := []; ap_bindings := [] |}
  end.

Notation write_request := (Some (access_request_example "repository.write" "A2" "D0")).
Lemma write_answered : evaluate_team_access policy_example write_request noon = Ok write_answer.
Proof. vm_compute. reflexivity. Qed.

Lemma team_access_allows_exactly_witness :
  ∃ p rq t, asked policy_example write_request noon p rq t ∧ access_granted p rq t.
Proof. apply (proj1 (team_access_allows_exactly _ _ _ _ write_answered)). reflexivity. Defined.

Lemma team_access_shows_evidence_witness :
  ∃ p rq t, asked policy_example write_request noon p rq t ∧ aq_data_class rq ≠ "D4" ∧
    ∀ x, x ∈ td_matches write_answer ↔
      ∃ r s, applies p rq t r s ∧ st_effect s = "allow" ∧ x = statement_digest (ar_id r) s.
Proof.
  destruct (team_access_shows_evidence _ _ _ _ write_answered) as (p & rq & t & e & Ha & _ & Hx & Hal).
  - right. reflexivity.
  - destruct (Hal eq_refl) as (-> & _ & Hd & _). by exists p, rq, t.
Defined.

(** A request whose action class is a list. *)
Definition listed_request : list (string * json) :=
  dict_set "actionClass" (strs ["A1"]) (access_request_example "repository.read" "A1" "D0").
Lemma team_access_always_answers_witness :
  evaluate_team_access policy_example (Some listed_request) noon = Err TypeError ∧
  ((∃ d, evaluate_team_access policy_example (Some listed_request) noon = Ok d) ∨
   evaluate_team_access policy_example (Some listed_request) noon = Err TypeError ∧
     ∃ o, Some listed_request = Some o ∧
       (unhashable (jget "actionClass" o) ∨ unhashable (jget "dataClass" o))).
Proof.
  split; [vm_compute; reflexivity|]. apply (team_access_always_answers _ _ _ read_policy).
  - vm_compute. reflexivity.
  - intros e. vm_compute. discriminate.
Defined.
